(* ===== verification/_CoqProject ===== *)
-Q . S2P
Prelude.v
Utils.v
KafkaTypes.v
KafkaConnection.v
KafkaAdapter.v
KafkaWriter.v
KafkaReader.v
KafkaShapes.v
TsfmTypes.v
TsfmConfig.v
Transformation.v
TsfmPlugin.v
TsfmTemplate.v
TsfmLifecycle.v
DynHelpers.v
DynDataUtils.v
MessageConversion.v
ConversionSessions.v
ConversionReference.v
SampleReference.v
ConversionRoundTrip.v
ConversionTables.v
MessageTables.v
ProtobufConverter.v
ProtobufTransformation.v
ConversionLink.v
KafkaWitness.v
ShapesWitness.v
TsfmWitness.v
HelpersWitness.v
ConversionWitness.v
