(* ===== verification/Prelude.v ===== *)
(** * A verification library for the RTI Connext gateway

    This library models the code of the gateway's plugins and proves what
    makes it correct.  Paths are relative to src/rticonnextdds-gateway/.

    ** The program

    Routing Service loads plugins that are tables of callbacks.
    - The Kafka adapter (plugins/adapters/kafka/srcC) connects a DDS route to
      a Kafka cluster through librdkafka: [KafkaAdapter.c] is the entry point,
      [KafkaConnection.c] creates and deletes stream writers and readers,
      [KafkaStreamWriter.c] sends samples, [KafkaStreamReader.c] receives
      messages with a polling thread and two semaphores.
    - The transformation framework (common/transformation/srcC) is a base
      class for plugins that convert samples: [Transformation.c] holds the
      read buffer that is loaned to the caller, [TransformationPlugin.c] the
      registry of transformations, [TransformationTemplateDefine.h] the macros
      that make a concrete plugin out of a user's types.
    - The Protobuf transformation (plugins/transformations/protobuf/srcCxx) is
      an instance of the template: it serializes samples into a member of
      bytes of another sample and back, with the helpers of
      common/dds_specific/srcC and the message converter of
      common/protobuf2dds/srcCxx.
    - The demonstration programs (examples/kafka/kafka-shapes-protobuf/srcCxx)
      are the far ends of Kafka routes: a publisher and a subscriber of shapes.

    ** The model

    A C function is a Rocq function in the monad [M] of this file: it reads
    and writes a heap of typed blocks, calls the environment ([Env], [call])
    and may fault, jump to its error label, or not return.  [goto] and
    [labelled] follow the code's error labels, [when] its conditions.  A fault
    is undefined behaviour of the C program (NULL dereference, use after free,
    use of an indeterminate pointer, access out of bounds, division by zero).  The answers of
    librdkafka, of the DDS and OSAPI libraries and of the allocator are those
    of an arbitrary environment; every call is recorded in a trace.  What a
    theorem needs of the environment it says in its hypotheses.  [wp] is the
    weakest precondition in which almost all theorems are stated: it excludes
    faults and non-termination.

    ** The files

    - [KafkaTypes]: structs, kernel objects, external calls, typed access.
    - [KafkaConnection], [KafkaAdapter], [KafkaWriter], [KafkaReader]: one
      file per C file, definitions under the names of the C functions.  The
      long creator of stream readers is cut at its error checks into four
      pieces.  The retry loop of the writer takes fuel; the theorems give a
      bound of the queue ([queue_drains]) for which the fuel is enough.
      [KafkaReader] runs the pieces of the polling loop and the callbacks as
      the steps of a transition system ([step]), whose invariant [inv] says
      who owns the message slot in each phase.
    - [KafkaShapes]: the two demonstration programs.  Their loops have no end;
      they are looked at for a number of rounds, after which a program is
      [Running] or has [Exited], and a program that has exited within some number
      of rounds has done so within any larger one ([publisher_settled],
      [subscriber_settled]).  The class that protoc generates for shapes is
      [ShapeProto] with the laws [ShapeLaws].
    - [TsfmTypes], [TsfmConfig], [Transformation], [TsfmPlugin]: the
      framework, its configuration structs, the base transformation and the
      plugin.  The user's serializer is a parameter ([Codec]); whether the
      library is compiled with mutexes is one too ([MutexConfig]).
    - [TsfmTemplate], [TsfmLifecycle]: the template.  The macros that select
      its parts are the class [Template], the macro T_initialize the class
      [TInitialize], whose contract [InitializeLaw] the base class fulfils;
      every constructor, destructor and callback of T and TPlugin, and what
      Routing Service does with them ([use_transformation]).
    - [DynHelpers]: byte sequences and their terminators, lending a buffer to
      a sequence, the type of a nested member.  The DDS library is a set of
      classes ([SeqLib], [DynData], [TypeCodeLib], [StrToken]) with the laws it
      documents.  The walk over a dotted name takes fuel; the length of the
      name is enough.
    - [Utils], [DynDataUtils]: the header-only utilities of common/utils
      (splitting, casts of long doubles, scope exit actions), aliases of types
      and the setters that narrow.
    - [MessageConversion], [ConversionSessions]: the conversions between samples
      and messages, member by member (DdsToProtobuf.cpp, ProtobufToDds.cpp), on
      the state that the converter keeps ([conv_state]: the string buffer, the
      cache of objects, and the objects themselves, which are bound to members
      of each other while a conversion runs).  DynamicData and the reflection of
      Protobuf are the classes [DynScalars], [DynMembers], [DynObjects] and
      [Reflection].  Two bounds stand for the recursions: [alias_fuel] for
      chains of aliases, [fuel] for nested structures.  A bound above the
      [nesting] of the type is enough for both.
    - [ConversionReference], [SampleReference]: the two conversions written
      without cache, bindings and buffer ([reference], [sample_reference]); what
      DDS documents of copies of members ([Copies], [CopyLaws], [WriteLaws]) is
      what makes them the same.
    - [ConversionRoundTrip]: the two references are inverse to each other, for
      messages whose fields fit the types of the members ([Schema]).  What DDS
      documents of members and Protobuf of fields with explicit presence are the
      classes [SampleLaws] and [MessageLaws]; a field without presence that holds
      a zero is not listed by Protobuf, and the theorem does not speak of it.
    - [ProtobufConverter], [ProtobufTransformation]: the search of a message in
      a descriptor set, the converter object, and the transformation, on a
      state of its own ([pb_world]).  The Protobuf library is the class
      [Protobuf]; the conversions are used through the class [Conversion], whose
      contract is [ConversionContract].  The loop that replaces the colons of a
      type name takes fuel; the length of the name is enough.
    - [ConversionLink]: the conversions of [MessageConversion] as an instance of
      that class, which fulfils the contract.
    - [KafkaWitness], [ShapesWitness], [TsfmWitness], [HelpersWitness],
      [ConversionWitness]: the theorems that have hypotheses at concrete inputs.
      [ConversionTables] and [MessageTables] are small DDS and reflection
      libraries that fulfil the laws and on which whole conversions are computed.

    ** The theorems

    Reader: no fault in any interleaving, delivery in order and at most once,
    refinement of a one-place buffer, progress, and the two ways in which it
    stops for ever.  Writer: every payload once and in order, with the exact
    condition on payloads.  Demonstration programs: what they send and print is
    what librdkafka accepted and delivered, in order; they stop only at a failure
    and then give back what they own, up to the leaks that the code has; shapes
    get from one to the other unchanged.  Creators and destructors: the memory on
    every branch, with the leaks that the code has.  Transformation: positions
    and contents of converted samples, exclusion of overlapping loans, return of
    everything that was allocated.  Template: a whole session of a
    transformation, alone and through its plugin, leaves the memory as it was;
    the registry is a list; the callback that deadlocks, the constructors that
    read uninitialised memory and free twice.  Configuration parsers: the
    values and the failures.  Helpers: equivalence of the nested search with a
    walk, sizes and terminators of strings.  Protobuf: what initialization
    validates and builds, that the conversions after it never dereference
    NULL, the round trip of a message through a sequence of bytes, and the
    failures that are reported as success.  Conversions: they return for every
    message and every sample of finite type, and whatever fails, every object is
    as bound afterwards as before, so that the next conversion finds the cache
    at rest; both conversions are those of the references, whatever was
    converted before; a sample that is sent as a message and read into a new
    sample arrives unchanged; numbers and strings arrive unchanged.  Utilities: splitting inverts
    joining; when a cast is defined and what it gives.

    ** Not modelled

    Log output (TransformationLog.h and its uses); the Windows variants of the
    mutex functions, one of which jumps to a label that it does not have and so
    does not compile; the generic safe_cast, which is a plain cast; the macros
    that paste names and select the platform, and prototypes, which define
    nothing that runs; tests; librdkafka, the DDS and the Protobuf libraries, the
    class generated from shape_type.proto and the allocator, which are
    parameters.  Types that contain themselves have no [nesting]: the theorems on
    conversions do not speak of them. *)
From Stdlib Require Import ZArith Lia.
From stdpp Require Import base gmap strings list fin_maps.

#[global] Set Default Goal Selector "!".

(** * 1. C values *)

(** A pointer variable: NULL, the address of a block, or the indeterminate
    value of memory that malloc returned and nobody wrote. *)
Inductive ptr :=
  | Null
  | Ptr (l : nat)
  | Wild.

#[export] Instance ptr_eq_dec : EqDecision ptr.
Proof. solve_decision. Defined.

(** Ways in which a C program goes wrong. *)
Inductive fault :=
  | NullDeref       (* dereference of NULL *)
  | UseAfterFree    (* access to, or free of, a block that is not allocated *)
  | BadCast         (* block of another type than the code assumes *)
  | UninitRead      (* branch on, or dereference of, an indeterminate value *)
  | OutOfBounds     (* array access outside the object *)
  | DivisionByZero. (* integer division or remainder by zero *)

#[export] Instance fault_eq_dec : EqDecision fault.
Proof. solve_decision. Defined.

(** DDS return codes (DDS_ReturnCode_t): only the distinction the code makes. *)
Definition DDS_RETCODE_OK : Z := 0.
Definition DDS_RETCODE_ERROR : Z := 1.

(** Conversions between the integer types of the code. *)
Definition u32 (z : Z) : Z := z mod 2 ^ 32.
Definition u64 (z : Z) : Z := z mod 2 ^ 64.
Definition s32 (z : Z) : Z := (z + 2 ^ 31) mod 2 ^ 32 - 2 ^ 31.
Definition s64 (z : Z) : Z := (z + 2 ^ 63) mod 2 ^ 64 - 2 ^ 63.

(** Values that fit their C type. *)
Definition is_u32 (z : Z) : Prop := (0 <= z < 2 ^ 32)%Z.
Definition is_s32 (z : Z) : Prop := (- 2 ^ 31 <= z < 2 ^ 31)%Z.
Definition is_u64 (z : Z) : Prop := (0 <= z < 2 ^ 64)%Z.
Definition is_s64 (z : Z) : Prop := (- 2 ^ 63 <= z < 2 ^ 63)%Z.
Definition is_byte (z : Z) : Prop := (0 <= z < 256)%Z.

(** * 2. The state of a component: a heap of typed blocks, the environment
    behind the external calls, and the trace of those calls. *)

Record world (O X Q : Type) := World {
  w_next : nat;              (* next fresh address *)
  w_heap : gmap nat O;       (* the allocated blocks *)
  w_ext : X;                 (* state of the environment *)
  w_trace : list Q           (* external calls made so far *)
}.
Arguments World {O X Q} _ _ _ _.
Arguments w_next {O X Q} _.
Arguments w_heap {O X Q} _.
Arguments w_ext {O X Q} _.
Arguments w_trace {O X Q} _.

(** What the environment answers to an external call.  [answer x q] is the
    result code of call [q] in environment state [x] and the state after it:
    the interface between a component and code that is not modelled. *)
Class Env (X Q : Type) := answer : X → Q → Z * X.

(** * 3. The monad of C functions *)

(** A statement either falls through with a value, or jumps to the label of
    the enclosing function with the locals the label's code reads, or has
    undefined behaviour, or never returns. *)
Inductive outcome (W E A : Type) :=
  | Ok (a : A) (w : W)
  | Jump (e : E) (w : W)
  | Fault (f : fault)
  | Hang.
Arguments Ok {W E A} _ _.
Arguments Jump {W E A} _ _.
Arguments Fault {W E A} _.
Arguments Hang {W E A}.

Definition M (W E A : Type) : Type := W → outcome W E A.

#[export] Instance M_ret W E : MRet (M W E) := λ A a w, Ok a w.
#[export] Instance M_bind W E : MBind (M W E) := λ A B k m w,
  match m w with
  | Ok a w' => k a w'
  | Jump e w' => Jump e w'
  | Fault f => Fault f
  | Hang => Hang
  end.

(** [goto e]: jump to the label. *)
Definition goto {W E A} (e : E) : M W E A := λ w, Jump e w.

(** [labelled body handler]: a function body followed by its label. *)
Definition labelled {W E1 E2 A} (body : M W E1 A) (handler : E1 → M W E2 A) : M W E2 A :=
  λ w, match body w with
       | Ok a w' => Ok a w'
       | Jump e w' => handler e w'
       | Fault f => Fault f
       | Hang => Hang
       end.

Definition fail {W E A} (f : fault) : M W E A := λ w, Fault f.
Definition hang {W E A} : M W E A := λ w, Hang.

(** A computation on a part of the state. *)
Definition zoom {W V E A} (get : W → V) (set : V → W → W) (m : M V E A) : M W E A := λ w,
  match m (get w) with
  | Ok a v => Ok a (set v w)
  | Jump e v => Jump e (set v w)
  | Fault f => Fault f
  | Hang => Hang
  end.

(** [when b m]: an [if] without [else]. *)
Definition when {W E} (b : bool) (m : M W E ()) : M W E () :=
  if b then m else mret ().

Section primitives.
Context {O X Q : Type} `{!Env X Q}.
Implicit Types w : world O X Q.

Definition set_heap (h : gmap nat O) w : world O X Q :=
  World (w_next w) h (w_ext w) (w_trace w).

(** An external call: ask the environment and record the call. *)
Definition call {E} (q : Q) : M (world O X Q) E Z := λ w,
  Ok (answer (w_ext w) q).1
     (World (w_next w) (w_heap w) (answer (w_ext w) q).2 (w_trace w ++ [q])).

(** A value the state determines. *)
Definition ask {E A} (f : world O X Q → A) : M (world O X Q) E A := λ w, Ok (f w) w.

(** A fresh block. *)
Definition alloc {E} (o : O) : M (world O X Q) E ptr := λ w,
  Ok (Ptr (w_next w))
     (World (S (w_next w)) (<[w_next w := o]> (w_heap w)) (w_ext w) (w_trace w)).

(** A constructor that can fail: the environment decides; a zero answer is
    a NULL result. *)
Definition new {E} (q : Q) (o : O) : M (world O X Q) E ptr :=
  r ← call q; if (r =? 0)%Z then mret Null else alloc o.

Definition load {E} (p : ptr) : M (world O X Q) E O := λ w,
  match p with
  | Null => Fault NullDeref
  | Wild => Fault UninitRead
  | Ptr l => match w_heap w !! l with
             | Some o => Ok o w
             | None => Fault UseAfterFree
             end
  end.

Definition store {E} (p : ptr) (o : O) : M (world O X Q) E () := λ w,
  match p with
  | Null => Fault NullDeref
  | Wild => Fault UninitRead
  | Ptr l => match w_heap w !! l with
             | Some _ => Ok () (set_heap (<[l := o]> (w_heap w)) w)
             | None => Fault UseAfterFree
             end
  end.

(** free(): NULL is a no-op, anything that is not allocated a fault. *)
Definition free {E} (p : ptr) : M (world O X Q) E () := λ w,
  match p with
  | Null => Ok () w
  | Wild => Fault UninitRead
  | Ptr l => match w_heap w !! l with
             | Some _ => Ok () (set_heap (delete l (w_heap w)) w)
             | None => Fault UseAfterFree
             end
  end.

(** The test [p == NULL]. *)
Definition is_null {E} (p : ptr) : M (world O X Q) E bool :=
  match p with
  | Null => mret true
  | Ptr _ => mret false
  | Wild => fail UninitRead
  end.
End primitives.

(** * 4. Weakest preconditions *)

(** [wp m Q R w]: from [w], [m] neither faults nor hangs; it falls through
    in a state satisfying [Q] or jumps in one satisfying [R]. *)
Definition wp {W E A} (m : M W E A) (Q : A → W → Prop) (R : E → W → Prop) (w : W) : Prop :=
  match m w with
  | Ok a w' => Q a w'
  | Jump e w' => R e w'
  | Fault _ => False
  | Hang => False
  end.

(** The label postcondition of a function, which has no enclosing label. *)
Definition no_jump {W E : Type} : E → W → Prop := λ _ _, False.

(** A well-formed heap only holds addresses below the next fresh one. *)
Definition heap_wf {O X Q} (w : world O X Q) : Prop :=
  ∀ l, w_next w ≤ l → w_heap w !! l = None.

Section wp_control.
Context {V E : Type}.
Implicit Types (w : V) (R : E → V → Prop).

Lemma wp_mono {A} (m : M V E A) (Q Q' : A → V → Prop) (J J' : E → V → Prop) (v0 : V) :
  wp m Q J v0 → (∀ a (v : V), Q a v → Q' a v) → (∀ e (v : V), J e v → J' e v) →
  wp m Q' J' v0.
Proof. unfold wp. destruct (m v0); naive_solver. Qed.

Lemma wp_ret {A} (a : A) (Q : A → V → Prop) R w : Q a w → wp (mret a) Q R w.
Proof. done. Qed.

Lemma wp_bind {A B} (m : M V E A) (k : A → M V E B) Q R w :
  wp m (λ a w', wp (k a) Q R w') R w → wp (m ≫= k) Q R w.
Proof. unfold wp, mbind, M_bind. by destruct (m w). Qed.

(** The converse, to apply a specification of the rest of a body. *)
Lemma wp_unbind {A B} (m : M V E A) (k : A → M V E B) Q R w :
  wp (m ≫= k) Q R w → wp m (λ a w', wp (k a) Q R w') R w.
Proof. unfold wp, mbind, M_bind. by destruct (m w). Qed.

Lemma wp_goto {A} (e : E) (Q : A → V → Prop) R w : R e w → wp (goto e) Q R w.
Proof. done. Qed.

Lemma wp_labelled {E1 A} (body : M V E1 A) (handler : E1 → M V E A) Q R w :
  wp body Q (λ e w', wp (handler e) Q R w') w → wp (labelled body handler) Q R w.
Proof. unfold wp, labelled. by destruct (body w). Qed.

Lemma wp_when b (m : M V E ()) Q R w :
  (b = true → wp m Q R w) → (b = false → Q () w) → wp (when b m) Q R w.
Proof. destruct b; naive_solver. Qed.

Lemma wp_zoom {W' A} (get : V → W') (set : W' → V → V) (m : M W' E A) (Q : A → V → Prop) R w :
  wp m (λ a v, Q a (set v w)) (λ e v, R e (set v w)) (get w) → wp (zoom get set m) Q R w.
Proof. unfold wp, zoom. by destruct (m (get w)). Qed.

(** A total function that satisfies a [wp] returns. *)
Lemma wp_returns {A} (m : M V E A) Q w :
  wp m Q no_jump w → ∃ a w', m w = Ok a w' ∧ Q a w'.
Proof. unfold wp, no_jump. destruct (m w); naive_solver. Qed.

End wp_control.

Section wp_rules.
Context {O X C : Type} `{!Env X C}.
#[local] Abbreviation W := (world O X C).
Context {E : Type}.
Implicit Types (w : W) (R : E → W → Prop).

Lemma wp_call (q : C) Q R w :
  (∀ r x', answer (w_ext w) q = (r, x') →
     Q r (World (w_next w) (w_heap w) x' (w_trace w ++ [q]))) →
  wp (call q) Q R w.
Proof. intros H. unfold wp, call. apply H. by destruct (answer _ _). Qed.

Lemma wp_ask {A} (f : W → A) Q R w : Q (f w) w → wp (ask f) Q R w.
Proof. done. Qed.

Lemma wp_alloc (o : O) Q R w :
  Q (Ptr (w_next w))
    (World (S (w_next w)) (<[w_next w := o]> (w_heap w)) (w_ext w) (w_trace w)) →
  wp (alloc o) Q R w.
Proof. done. Qed.

Lemma wp_new (q : C) (o : O) Q R w :
  (∀ x', (answer (w_ext w) q).1 = 0%Z →
     Q Null (World (w_next w) (w_heap w) x' (w_trace w ++ [q]))) →
  (∀ x', (answer (w_ext w) q).1 ≠ 0%Z →
     Q (Ptr (w_next w))
       (World (S (w_next w)) (<[w_next w := o]> (w_heap w)) x' (w_trace w ++ [q]))) →
  wp (new q o) Q R w.
Proof.
  intros H0 H1. unfold wp, new, mbind, M_bind, call.
  destruct (Z.eqb_spec (answer (w_ext w) q).1 0); [by apply H0 | by apply H1].
Qed.

Lemma wp_load l (o : O) (Q : O → W → Prop) R w :
  w_heap w !! l = Some o → Q o w → wp (load (Ptr l)) Q R w.
Proof. intros Hl H. unfold wp, load. by rewrite Hl. Qed.

Lemma wp_store l (o o' : O) Q R w :
  w_heap w !! l = Some o' → Q () (set_heap (<[l := o]> (w_heap w)) w) →
  wp (store (Ptr l) o) Q R w.
Proof. intros Hl H. unfold wp, store. by rewrite Hl. Qed.

Lemma wp_free l (o' : O) Q R w :
  w_heap w !! l = Some o' → Q () (set_heap (delete l (w_heap w)) w) →
  wp (free (Ptr l)) Q R w.
Proof. intros Hl H. unfold wp, free. by rewrite Hl. Qed.

Lemma wp_free_null Q R w : Q () w → wp (free Null) Q R w.
Proof. done. Qed.

Lemma wp_is_null_Null Q R w : Q true w → wp (is_null Null) Q R w.
Proof. done. Qed.
Lemma wp_is_null_Ptr l Q R w : Q false w → wp (is_null (Ptr l)) Q R w.
Proof. done. Qed.

End wp_rules.

(** ** Computed results *)

Lemma bind_Ok {W E A B} (m : M W E A) (k : A → M W E B) w a w' :
  m w = Ok a w' → (m ≫= k) w = k a w'.
Proof. intros Hm. unfold mbind, M_bind. by rewrite Hm. Qed.

Lemma bind_inv {W E A B} (m : M W E A) (k : A → M W E B) w b w' :
  (m ≫= k) w = Ok b w' → ∃ a w1, m w = Ok a w1 ∧ k a w1 = Ok b w'.
Proof. unfold mbind, M_bind. destruct (m w); naive_solver. Qed.

Lemma new_Ok {O X Q E} `{!Env X Q} (q : Q) (o : O) (w : world O X Q) :
  (answer (w_ext w) q).1 ≠ 0%Z →
  new (E := E) q o w = Ok (Ptr (w_next w))
    (World (S (w_next w)) (<[w_next w := o]> (w_heap w)) (answer (w_ext w) q).2 (w_trace w ++ [q])).
Proof.
  intros Hq. unfold new, mbind, M_bind, call. by rewrite (proj2 (Z.eqb_neq _ _) Hq).
Qed.

(** A body that ends in a jump makes the function do what its label does. *)
Lemma labelled_jump {W E1 E2 A} (body : M W E1 A) (handler : E1 → M W E2 A) P w o :
  wp body (λ _ _, False) P w → (∀ e w', P e w' → handler e w' = o) → labelled body handler w = o.
Proof. unfold wp, labelled. destruct (body w); naive_solver. Qed.

Lemma labelled_inv {W E1 E2 A} (body : M W E1 A) (handler : E1 → M W E2 A) Q R w a w' :
  wp body Q R w → labelled body handler w = Ok a w' →
  Q a w' ∨ ∃ e w1, R e w1 ∧ handler e w1 = Ok a w'.
Proof. unfold wp, labelled. destruct (body w); naive_solver. Qed.

(** ** Symbolic execution *)

(** [lia] without the disequalities of the context, which it would split on. *)
Ltac nlia := repeat match goal with H : _ ≠ _ |- _ => clear H end; lia.

(** Two addresses differ: a hypothesis says so, or arithmetic does. *)
Ltac neq :=
  first [ assumption | apply not_eq_sym; assumption
        | nlia ].

(** Lookups in a heap described by inserts and deletes at addresses that
    differ by constants. *)
Ltac heap_lookup :=
  cbn [w_next w_heap w_ext w_trace set_heap];
  repeat first
    [ rewrite lookup_insert_eq | rewrite lookup_delete_eq
    | rewrite lookup_insert_ne by neq | rewrite lookup_delete_ne by neq ];
  try (reflexivity || eassumption).

(** Boolean conditions of the code as propositions; impossible branches are
    closed. *)
Ltac tidy_bool :=
  repeat match goal with
  | H : orb _ _ = _ |- _ => progress cbn [orb] in H
  | H : andb _ _ = _ |- _ => progress cbn [andb negb] in H
  | H : negb _ = true |- _ => apply negb_true_iff in H
  | H : negb _ = false |- _ => apply negb_false_iff in H
  | H : (_ =? _)%Z = true |- _ => apply Z.eqb_eq in H
  | H : (_ =? _)%Z = false |- _ => apply Z.eqb_neq in H
  | H : bool_decide _ = true |- _ => apply bool_decide_eq_true in H
  | H : bool_decide _ = false |- _ => apply bool_decide_eq_false in H
  end;
  try (exfalso; congruence).

(** Projections of the state, without unfolding map operations. *)
Ltac wsimpl := cbn [w_next w_heap w_ext w_trace set_heap] in *.

Ltac wp_step :=
  lazymatch goal with
  | |- wp (mbind _ _) _ _ _ => apply wp_bind
  | |- wp (mret _) _ _ _ => apply wp_ret
  | |- wp (goto _) _ _ _ => apply wp_goto
  | |- wp (labelled _ _) _ _ _ => apply wp_labelled
  | |- wp (when _ _) _ _ _ => apply wp_when; intros ?; tidy_bool
  | |- wp (alloc _) _ _ _ => apply wp_alloc
  | |- wp (ask _) _ _ _ => apply wp_ask
  | |- wp (call _) _ _ _ => apply wp_call; let H := fresh "Hans" in intros ? ? H; cbn [w_ext set_heap] in H
  | |- wp (new _ _) _ _ _ => apply wp_new; intros ? ?; try (exfalso; congruence)
  | |- wp (load (Ptr _)) _ _ _ => eapply wp_load; [heap_lookup |]
  | |- wp (store (Ptr _) _) _ _ _ => eapply wp_store; [heap_lookup |]
  | |- wp (free (Ptr _)) _ _ _ => eapply wp_free; [heap_lookup |]
  | |- wp (free Null) _ _ _ => apply wp_free_null
  | |- wp (is_null Null) _ _ _ => apply wp_is_null_Null
  | |- wp (is_null (Ptr _)) _ _ _ => apply wp_is_null_Ptr
  end; cbn [w_next w_heap w_ext w_trace set_heap].

Ltac wp_run := repeat wp_step.

(** ** Well-formed heaps *)
Section heap_wf.
Context {O X Q : Type}.
Implicit Types w : world O X Q.

Lemma heap_wf_lt w l o : heap_wf w → w_heap w !! l = Some o → l < w_next w.
Proof.
  intros Hwf Hl. destruct (decide (l < w_next w)) as [|Hge]; [done|].
  rewrite Hwf in Hl; [done | lia].
Qed.

Lemma heap_wf_fresh w : heap_wf w → w_heap w !! w_next w = None.
Proof. intros Hwf. apply Hwf. lia. Qed.
End heap_wf.

(** ** Blocks behind pointers *)

(** The block at [l] in the state [w]. *)
Declare Scope heap_scope.
Delimit Scope heap_scope with heap.
Notation "l ↦{ w } o" := (w_heap w !! l = Some o) (at level 70, w at level 200, o at level 69) : heap_scope.

(** The heap without the block a pointer variable points to, if any. *)
Definition delete_ptr {O} (p : ptr) (h : gmap nat O) : gmap nat O :=
  match p with Ptr l => delete l h | _ => h end.

Lemma lookup_delete_ptr {O} p (h : gmap nat O) k :
  delete_ptr p h !! k = if decide (p = Ptr k) then None else h !! k.
Proof.
  destruct p as [|l|]; cbn; try (by case_decide). rewrite lookup_delete.
  case_decide; case_decide; naive_solver.
Qed.

(** The heap with a block at the address in a pointer variable, if any. *)
Definition put_ptr {O} (p : ptr) (o : O) (h : gmap nat O) : gmap nat O :=
  match p with Ptr l => <[l := o]> h | _ => h end.

Lemma lookup_put_ptr {O} p (o : O) (h : gmap nat O) k :
  put_ptr p o h !! k = if decide (p = Ptr k) then Some o else h !! k.
Proof.
  destruct p as [|l|]; cbn; try (by case_decide). rewrite lookup_insert.
  case_decide; case_decide; naive_solver.
Qed.

Lemma heap_lookup_insert {O} (h : gmap nat O) l k o :
  <[l := o]> h !! k = if decide (l = k) then Some o else h !! k.
Proof. apply lookup_insert. Qed.

Lemma heap_lookup_delete {O} (h : gmap nat O) l k :
  delete l h !! k = if decide (l = k) then None else h !! k.
Proof. apply lookup_delete. Qed.

(** Rewriting of lookups in heaps given by inserts and deletes. *)
Create HintDb heap.
#[export] Hint Rewrite @heap_lookup_insert @heap_lookup_delete @lookup_delete_ptr @lookup_put_ptr : heap.

(** Facts about well-formed heaps that close side conditions. *)
#[export] Hint Resolve heap_wf_fresh heap_wf_lt : heap.

(** [heap_wf] of a heap built by inserts and deletes from one that has it. *)
Ltac heap_wf_tac :=
  let k := fresh "k" in
  let Hk := fresh "Hk" in
  intros k Hk; cbn [w_next w_heap w_ext w_trace set_heap] in *;
  repeat first [ rewrite lookup_insert_ne by neq | rewrite lookup_delete_ne by neq
               | rewrite lookup_delete; case_decide; [done|] ];
  repeat match goal with H : _ ≠ _ |- _ => clear H end;
  match goal with H : heap_wf _ |- _ => apply H; lia end.

(** Allocated addresses are below the next fresh one. *)
Ltac bound_blocks :=
  match goal with
  | Hwf : heap_wf ?w |- _ =>
      repeat match goal with
      | H : w_heap w !! ?a = Some _ |- _ =>
          lazymatch goal with
          | _ : a < w_next w |- _ => fail
          | _ => pose proof (heap_wf_lt _ _ _ Hwf H)
          end
      end
  end.

(** Two heaps built by inserts and deletes are equal. *)
Ltac heap_eq :=
  wsimpl; apply map_eq; intros ?k;
  repeat first [ rewrite lookup_insert | rewrite lookup_delete ];
  repeat (case_decide; subst; try contradiction); try reflexivity; try lia;
  try (match goal with H : heap_wf _ |- _ => (rewrite H by lia || (symmetry; apply H; lia)) end);
  try reflexivity; try assumption; try (symmetry; assumption).
