(* ===== verification/Utils.v ===== *)
(** The header-only utilities (common/utils/srcCxx): splitting strings
    (UtilsStrings.hpp), casts of long doubles (UtilsLongDouble.hpp) and actions
    at the end of a scope (ScopeExitAction.hpp). *)
From Stdlib Require Import ZArith QArith Qround Ascii Lia Lqa.
From stdpp Require Import base list option sets.
From S2P Require Import Prelude.

#[local] Open Scope list_scope.
#[local] Open Scope Z_scope.

(** * Definitions *)

(** ** UtilsStrings.hpp *)

(** std::string::find of a character from a position on; [None] is npos. *)
Definition find (input : list ascii) (delim : ascii) (pos : nat) : option nat :=
  (λ r, (pos + r.1)%nat) <$> list_find (λ c, c = delim) (drop pos input).

(** std::string(input, pos, len) *)
Definition substr (input : list ascii) (pos len : nat) : list ascii := take len (drop pos input).

(** The loop: the position is npos when it ends.  [None]: out of fuel. *)
Fixpoint split_loop (fuel : nat) (input : list ascii) (delim : ascii) (prev_position : option nat)
    (output : list (list ascii)) : option (list (list ascii)) :=
  match prev_position with
  | None => Some output
  | Some prev =>
      match fuel with
      | O => None
      | S fuel =>
          match find input delim prev with
          | Some length =>
              let word_length := (length - prev)%nat in
              split_loop fuel input delim (Some (prev + (word_length + 1))%nat)
                (output ++ [substr input prev word_length])
          | None => split_loop fuel input delim None (output ++ [drop prev input])
          end
      end
  end.

Definition split (input : list ascii) (delim : ascii) : option (list (list ascii)) :=
  split_loop (S (length input)) input delim (Some 0%nat) [].

(** ** UtilsLongDouble.hpp *)

Inductive long_double := Finite (q : Q) | Infinity (negative : bool) | NotANumber.

(** The specializations of safe_cast for integers. *)
Inductive int_type := uint8_t | uint16_t | uint32_t | uint64_t | char | int8_t | int16_t | int32_t | int64_t.

Definition int_width (t : int_type) : Z :=
  match t with
  | uint8_t | char | int8_t => 8
  | uint16_t | int16_t => 16
  | uint32_t | int32_t => 32
  | uint64_t | int64_t => 64
  end.

Definition is_unsigned (t : int_type) : bool :=
  match t with uint8_t | uint16_t | uint32_t | uint64_t => true | _ => false end.

(** The signed type of the same size. *)
Definition to_signed (t : int_type) : int_type :=
  match t with
  | uint8_t => int8_t | uint16_t => int16_t | uint32_t => int32_t | uint64_t => int64_t
  | t => t
  end.

Definition int_min (t : int_type) : Z := if is_unsigned t then 0 else - 2 ^ (int_width t - 1).
Definition int_max (t : int_type) : Z :=
  if is_unsigned t then 2 ^ int_width t - 1 else 2 ^ (int_width t - 1) - 1.

(** value > b and value < b *)
Definition ld_gt (value : long_double) (b : Z) : bool :=
  match value with
  | Finite q => negb (Qle_bool q (inject_Z b))
  | Infinity negative => negb negative
  | NotANumber => false
  end.
Definition ld_lt (value : long_double) (b : Z) : bool :=
  match value with
  | Finite q => negb (Qle_bool (inject_Z b) q)
  | Infinity negative => negative
  | NotANumber => false
  end.

(** The integral part. *)
Definition truncate (q : Q) : Z := Z.quot (Qnum q) (Zpos (Qden q)).

(** static_cast of a long double to an integer type; [None]: undefined. *)
Definition static_cast (t : int_type) (value : long_double) : option Z :=
  match value with
  | Finite q =>
      if (int_min t <=? truncate q) && (truncate q <=? int_max t) then Some (truncate q) else None
  | _ => None
  end.

(** Whether a warning is printed, and the result. *)
Definition safe_cast (t : int_type) (value : long_double) : bool * option Z :=
  (ld_gt value (int_max t) || ld_lt value (int_min (to_signed t)),
   if is_unsigned t && ld_lt value 0
   then (λ z, z mod 2 ^ int_width t) <$> static_cast (to_signed t) value
   else static_cast t value).

(** safe_cast<bool> *)
Definition safe_cast_bool (value : long_double) : bool :=
  match value with Finite q => negb (Qeq_bool q 0) | _ => true end.

(** ** ScopeExitAction.hpp *)

Record scope_exit (W E : Type) := ScopeExit { callable_ : M W E (); cancelled_ : bool }.
Arguments ScopeExit {W E} _ _.
Arguments callable_ {W E} _.
Arguments cancelled_ {W E} _.

Definition make_scope_exit {W E} (callable : M W E ()) : scope_exit W E := ScopeExit callable false.
Definition cancel {W E} (s : scope_exit W E) : scope_exit W E := ScopeExit (callable_ s) true.

(** The destructor. *)
Definition exit_scope {W E} (s : scope_exit W E) : M W E () :=
  if cancelled_ s then mret () else callable_ s.

(** * Specifications *)

(** ** Splitting *)

(** What a split is: the words between the delimiters, from left to right. *)
Fixpoint words (delim : ascii) (input : list ascii) : list (list ascii) :=
  match input with
  | [] => [[]]
  | c :: input' =>
      if decide (c = delim) then [] :: words delim input'
      else match words delim input' with
           | [] => [[c]]
           | w :: ws => (c :: w) :: ws
           end
  end.

Fixpoint join (delim : ascii) (ws : list (list ascii)) : list ascii :=
  match ws with
  | [] => []
  | [w] => w
  | w :: ws' => w ++ delim :: join delim ws'
  end.

Lemma words_nonempty d s : words d s ≠ [].
Proof. destruct s as [|c s]; cbn; [done|]. destruct (decide _); [done|]. by destruct (words d s). Qed.

Lemma words_plain d s : d ∉ s → words d s = [s].
Proof.
  induction s as [|c s IH]; [done|]. intros [Hc Hs]%not_elem_of_cons. cbn.
  rewrite decide_False by congruence. by rewrite IH.
Qed.

Lemma words_delim d w s : d ∉ w → words d (w ++ d :: s) = w :: words d s.
Proof.
  induction w as [|c w IH]; cbn; [by rewrite decide_True|]. intros [Hc Hw]%not_elem_of_cons.
  rewrite decide_False by congruence. by rewrite IH.
Qed.

(** find stops at the first delimiter, or there is none. *)
Lemma find_spec input d pos :
  match find input d pos with
  | Some i => ∃ w rest, drop pos input = w ++ d :: rest ∧ d ∉ w ∧ i = (pos + length w)%nat
  | None => d ∉ drop pos input
  end.
Proof.
  unfold find. destruct (list_find _ _) as [[i c]|] eqn:Hf; cbn.
  - apply list_find_Some in Hf as (Hi & -> & Hbefore). exists (take i (drop pos input)), (drop (S i) (drop pos input)).
    split; [by rewrite take_drop_middle|]. split.
    + intros (j & Hj)%list_elem_of_lookup_1. apply lookup_take_Some in Hj as [Hj Hlt]. by apply (Hbefore _ _ Hj Hlt).
    + rewrite length_take. apply lookup_lt_Some in Hi. lia.
  - intros Hin. apply list_find_None in Hf. exact (proj1 (List.Forall_forall _ _) Hf d (proj1 (list_elem_of_In _ _) Hin) eq_refl).
Qed.

Lemma split_loop_spec input d fuel prev out :
  (length input < fuel + prev)%nat → (prev ≤ length input)%nat →
  split_loop fuel input d (Some prev) out = Some (out ++ words d (drop prev input)).
Proof.
  revert prev out. induction fuel as [|fuel IH]; intros prev out Hf Hp; [lia|]. cbn.
  pose proof (find_spec input d prev) as Hfind. destruct (find input d prev) as [i|].
  - destruct Hfind as (w & rest & Hdrop & Hw & ->).
    replace (prev + length w - prev)%nat with (length w) by lia.
    assert (length (drop prev input) = length w + S (length rest))%nat as Hl
      by by rewrite Hdrop, length_app.
    rewrite length_drop in Hl. rewrite IH by lia.
    replace (drop (prev + (length w + 1)) input) with rest.
    2: { rewrite <- drop_drop, Hdrop. change (d :: rest) with ([d] ++ rest). rewrite app_assoc, drop_app_length'; [done|].
         rewrite length_app. cbn. lia. }
    rewrite Hdrop, words_delim by done. unfold substr. by rewrite Hdrop, take_app_length, <- app_assoc.
  - rewrite words_plain by done. by destruct fuel.
Qed.

Lemma join_words d s : join d (words d s) = s.
Proof.
  induction s as [|c s IH]; [done|]. cbn. destruct (decide (c = d)) as [->|Hc].
  - pose proof (words_nonempty d s). destruct (words d s) as [|w ws]; [done|]. cbn. by rewrite <- IH.
  - destruct (words d s) as [|w ws] eqn:Hw; [by destruct (words_nonempty d s)|].
    rewrite <- IH. by destruct ws.
Qed.

Lemma words_join d ws : ws ≠ [] → Forall (λ w, d ∉ w) ws → words d (join d ws) = ws.
Proof.
  intros Hne. induction 1 as [|w ws Hw Hall IH]; [done|]. destruct ws as [|w' ws].
  - by apply words_plain.
  - change (join d (w :: w' :: ws)) with (w ++ d :: join d (w' :: ws)). rewrite words_delim by done. by rewrite IH.
Qed.

Lemma words_without d s : Forall (λ w, d ∉ w) (words d s).
Proof.
  induction s as [|c s IH]; cbn; [by repeat constructor; apply not_elem_of_nil|].
  destruct (decide (c = d)); [constructor; [apply not_elem_of_nil | done]|].
  destruct (words d s); inversion IH; subst; repeat constructor; set_solver.
Qed.

(** C40: the loop ends, and gives the words of the input: put together again
    with the delimiter between them they are the input, and every list of words
    without the delimiter, empty words included, is what its concatenation is
    split into. *)
Theorem split_spec d s :
  (∃ out, split s d = Some out ∧ out ≠ [] ∧ join d out = s ∧ Forall (λ w, d ∉ w) out)
  ∧ ∀ ws, ws ≠ [] → Forall (λ w, d ∉ w) ws → split (join d ws) d = Some ws.
Proof.
  unfold split. split.
  - rewrite split_loop_spec by lia. eexists. split; [done|]. cbn. split; [apply words_nonempty|].
    split; [apply join_words | apply words_without].
  - intros ws Hne Hall. rewrite split_loop_spec by lia. cbn. by rewrite drop_0, words_join.
Qed.


(** ** Casts *)

(** The integral part lies between 0 and the value, less than 1 from it. *)
Lemma truncate_spec q :
  ((0 <= q)%Q → (inject_Z (truncate q) <= q < inject_Z (truncate q + 1))%Q)
  ∧ ((q <= 0)%Q → (inject_Z (truncate q - 1) < q <= inject_Z (truncate q))%Q).
Proof.
  destruct q as [n d]. unfold truncate, inject_Z, Qle, Qlt. cbn [Qnum Qden].
  pose proof (Z.quot_rem n (Zpos d) ltac:(lia)) as Hqr. rewrite !Z.mul_1_r.
  split; intros Hn.
  - pose proof (Z.rem_bound_pos n (Zpos d) ltac:(lia) ltac:(lia)). lia.
  - pose proof (Z.rem_opp_l' n (Zpos d)). pose proof (Z.rem_bound_pos (- n) (Zpos d) ltac:(lia) ltac:(lia)). lia.
Qed.

(** Comparisons of the integral part with a bound on the far side of 0. *)
Lemma truncate_le q z : 0 <= z → truncate q <= z ↔ (q < inject_Z (z + 1))%Q.
Proof.
  intros Hz. destruct (truncate_spec q) as [Hpos Hneg]. destruct (Qlt_le_dec q 0) as [Hq|Hq].
  - destruct Hneg as [H1 H2]; [lra|]. split; intros H.
    + eapply Qlt_le_trans; [exact Hq|]. change 0%Q with (inject_Z 0). rewrite <- Zle_Qle. lia.
    + assert (inject_Z (truncate q - 1) < inject_Z 0)%Q as H0 by (eapply Qlt_trans; [exact H1 | exact Hq]).
      rewrite <- Zlt_Qlt in H0. lia.
  - destruct (Hpos Hq) as [H1 H2]. split; intros H.
    + eapply Qlt_le_trans; [exact H2|]. rewrite <- Zle_Qle. lia.
    + assert (inject_Z (truncate q) < inject_Z (z + 1))%Q as H0 by (eapply Qle_lt_trans; [exact H1 | exact H]).
      rewrite <- Zlt_Qlt in H0. lia.
Qed.

Lemma truncate_ge q z : z <= 0 → z <= truncate q ↔ (inject_Z (z - 1) < q)%Q.
Proof.
  intros Hz. destruct (truncate_spec q) as [Hpos Hneg]. destruct (Qlt_le_dec 0 q) as [Hq|Hq].
  - destruct Hpos as [H1 H2]; [lra|]. split; intros H.
    + eapply Qle_lt_trans; [|exact Hq]. change 0%Q with (inject_Z 0). rewrite <- Zle_Qle. lia.
    + assert (inject_Z 0 < inject_Z (truncate q + 1))%Q as H0 by (eapply Qlt_trans; [exact Hq | exact H2]).
      rewrite <- Zlt_Qlt in H0. lia.
  - destruct (Hneg Hq) as [H1 H2]. split; intros H.
    + eapply Qle_lt_trans; [|exact H1]. rewrite <- Zle_Qle. lia.
    + assert (inject_Z (z - 1) < inject_Z (truncate q))%Q as H0 by (eapply Qlt_le_trans; [exact H | exact H2]).
      rewrite <- Zlt_Qlt in H0. lia.
Qed.

Lemma negb_Qle a b : negb (Qle_bool a b) = true ↔ (b < a)%Q.
Proof.
  rewrite negb_true_iff, <- not_true_iff_false, Qle_bool_iff. split; [apply Qnot_le_lt | apply Qlt_not_le].
Qed.

Lemma int_range t :
  0 < int_width t ∧ int_min t <= 0 < int_max t ∧ int_min (to_signed t) < 0 < int_max (to_signed t)
  ∧ int_max (to_signed t) <= int_max t.
Proof. by destruct t; vm_compute. Qed.

(** When the conversion of a finite value to an integer is defined. *)
Lemma static_cast_Finite t q :
  static_cast t (Finite q) = Some (truncate q)
  ∧ (inject_Z (int_min t - 1) < q < inject_Z (int_max t + 1))%Q
  ∨ static_cast t (Finite q) = None
    ∧ (q <= inject_Z (int_min t - 1) ∨ inject_Z (int_max t + 1) <= q)%Q.
Proof.
  destruct (int_range t) as (_ & Hmin & _). cbn.
  destruct (Z.leb_spec (int_min t) (truncate q)) as [H1|H1]; cbn.
  - destruct (Z.leb_spec (truncate q) (int_max t)) as [H2|H2].
    + left. split; [done|]. split; [apply truncate_ge; lia | apply truncate_le; lia].
    + right. split; [done|]. right. apply Qnot_lt_le. rewrite <- truncate_le by lia. lia.
  - right. split; [done|]. left. apply Qnot_lt_le. rewrite <- truncate_ge by lia. lia.
Qed.

(** Which comparison chooses the conversion. *)
Lemma safe_cast_Finite t q :
  safe_cast t (Finite q)
  = (negb (Qle_bool q (inject_Z (int_max t))) || negb (Qle_bool (inject_Z (int_min (to_signed t))) q),
     if is_unsigned t && negb (Qle_bool 0 q)
     then (λ z, z mod 2 ^ int_width t) <$> static_cast (to_signed t) (Finite q)
     else static_cast t (Finite q)).
Proof. done. Qed.

Lemma inject_lt a b : a < b → (inject_Z a < inject_Z b)%Q.
Proof. by rewrite <- Zlt_Qlt. Qed.


