(* ===== verification/KafkaTypes.v ===== *)
(** The data of the Kafka adapter (plugins/adapters/kafka/srcC): the structs
    of KafkaAdapter.h, KafkaConnection.h, KafkaStreamReader.h and
    KafkaStreamWriter.h, the objects the adapter owns through the librdkafka,
    DDS and RTI OSAPI handles it holds, and the external calls it makes. *)
From Stdlib Require Import ZArith Lia.
From stdpp Require Import base gmap strings list fin_maps.
From S2P Require Import Prelude.

(** rd_kafka_type_t *)
Inductive rd_kafka_type := RD_KAFKA_PRODUCER | RD_KAFKA_CONSUMER.

#[export] Instance rd_kafka_type_eq_dec : EqDecision rd_kafka_type.
Proof. solve_decision. Defined.

Definition RD_KAFKA_CONF_OK : Z := 0.
Definition RD_KAFKA_RESP_ERR_NO_ERROR : Z := 0.
Definition RD_KAFKA_RESP_ERR__QUEUE_FULL : Z := -184.
Definition RTI_OSAPI_SEMAPHORE_STATUS_OK : Z := 0.
Definition CONSUMER_POLL_TIMEOUT : Z := 100.

(** RTI_RoutingServiceProperties: the name/value pairs of an XML <property>
    element, in document order. *)
Abbreviation properties := (list (string * string)).

(** struct RTI_RS_KafkaConnection *)
Record RTI_RS_KafkaConnection := KafkaConnection {
  cn_adapter : ptr;
  cn_bootstrap_servers : option string      (* NULL is None *)
}.

(** struct RTI_RS_KafkaStreamWriter *)
Record RTI_RS_KafkaStreamWriter := KafkaStreamWriter {
  wr_rk : ptr;
  wr_topic : option string
}.

(** struct RTI_RS_KafkaStreamReader.  [rd_payload] is the octet sequence: the
    message whose payload buffer it has on loan, if any. *)
Record RTI_RS_KafkaStreamReader := KafkaStreamReader {
  rd_rk : ptr;
  rd_rkm : ptr;
  rd_topic : option string;
  rd_polling_thread : ptr;
  rd_poll_sem : ptr;
  rd_read_sem : ptr;
  rd_run_thread : bool;
  rd_sample_list : ptr;
  rd_info_list : ptr;
  rd_type_support : ptr;
  rd_payload : option ptr
}.

(** The structs as calloc leaves them. *)
Definition zero_connection : RTI_RS_KafkaConnection := KafkaConnection Null None.
Definition zero_writer : RTI_RS_KafkaStreamWriter := KafkaStreamWriter Null None.
Definition zero_reader : RTI_RS_KafkaStreamReader :=
  KafkaStreamReader Null Null None Null Null Null false Null Null Null None.

(** The callbacks an adapter plugin exports: which function each slot of
    struct RTI_RoutingServiceAdapterPlugin points to. *)
Inductive adapter_fn :=
  | FnPluginDelete | FnCreateConnection | FnDeleteConnection
  | FnCreateStreamWriter | FnDeleteStreamWriter
  | FnCreateStreamReader | FnDeleteStreamReader
  | FnWrite | FnRead | FnReturnLoan.

Record adapter_plugin := AdapterPlugin {
  ap_plugin_version : Z * Z * Z * Z;
  adapter_plugin_delete : option adapter_fn;
  adapter_plugin_create_connection : option adapter_fn;
  adapter_plugin_delete_connection : option adapter_fn;
  connection_create_session : option adapter_fn;
  connection_delete_session : option adapter_fn;
  connection_create_stream_writer : option adapter_fn;
  connection_delete_stream_writer : option adapter_fn;
  connection_create_stream_reader : option adapter_fn;
  connection_delete_stream_reader : option adapter_fn;
  stream_writer_write : option adapter_fn;
  stream_reader_read : option adapter_fn;
  stream_reader_return_loan : option adapter_fn;
  stream_reader_update : option adapter_fn
}.

(** A configuration object: the properties set on it, in order, and whether a
    delivery report callback is installed. *)
Record conf := Conf {
  cf_props : list (string * option string);
  cf_dr_msg_cb : bool
}.

(** The blocks of the adapter's heap. *)
Inductive kobj :=
  | OAdapter (a : adapter_plugin)
  | OConnection (c : RTI_RS_KafkaConnection)
  | OWriter (w : RTI_RS_KafkaStreamWriter)
  | OReader (r : RTI_RS_KafkaStreamReader)
  | OConf (c : conf)                                   (* rd_kafka_conf_t *)
  | OClient (k : rd_kafka_type) (c : conf)             (* rd_kafka_t *)
  | OTopicList (topics : list string)                  (* rd_kafka_topic_partition_list_t *)
  | OTopic (rk : ptr) (topic : string)                 (* rd_kafka_topic_t *)
  | OMessage (err : Z) (payload : list Z)              (* rd_kafka_message_t *)
  | OCell (p : ptr)                                    (* an array of one pointer *)
  | OTypeSupport                                       (* DDS_DynamicDataTypeSupport *)
  | ODynamicData (data : list Z)                       (* a sample: its payload.data *)
  | OSampleInfo (valid_data : bool)                    (* DDS_SampleInfo *)
  | OSemaphore (count : nat)                           (* RTIOsapiSemaphore, binary *)
  | OThread (arg : ptr).                               (* RTIOsapiJoinableThread *)

(** The external calls.  The answer of the environment is the result code of
    the call; for constructors 0 stands for a NULL result. *)
Inductive kcall :=
  | QCalloc (what : string)
  | QSetError (msg : string)               (* RTI_RoutingServiceEnvironment_set_error *)
  | QConfNew
  | QConfSet (name : string) (value : option string)
  | QConfSetDrMsgCb
  | QNew (k : rd_kafka_type) (c : conf)    (* rd_kafka_new *)
  | QDestroy (k : rd_kafka_type)
  | QFlush (timeout_ms : Z)
  | QOutqLen
  | QPollSetConsumer
  | QSubscribe (topics : list string)
  | QConsumerPoll (timeout_ms : Z)
  | QConsumerClose
  | QMessageDestroy
  | QProducev (topic : option string) (payload : list Z)
  | QPoll (timeout_ms : Z)
  | QTopicNew (topic : string)
  | QTopicDestroy
  | QProduce (topic : string) (payload : list Z)
  | QPartitionListNew
  | QRand                                  (* std::rand *)
  | QTypeSupportNew
  | QDynamicDataNew
  | QGetOctetSeq (member : string)
  | QSetOctetSeq (member : string)
  | QOctetSeqInitialize
  | QOctetSeqLoan (length maximum : Z)
  | QOctetSeqFinalize
  | QSemaphoreNew
  | QSemaphoreTake
  | QSemaphoreGive
  | QSemaphoreDelete
  | QThreadNew (name : string)
  | QThreadStopAndDelete
  | QOnDataAvailable.

(** The lookup of a property by name, a function of the Routing Service SDK. *)
Class PropertyApi := lookup_property : properties → string → option string.

(** What the SDK documents about it: the value of a property of that name. *)
Class PropertyLaws (P : PropertyApi) := {
  lookup_property_in : ∀ (ps : properties) (n v : string),
    lookup_property ps n = Some v → (n, v) ∈ ps;
  lookup_property_none : ∀ (ps : properties) (n : string),
    lookup_property ps n = None → n ∉ ps.*1
}.

(** A concrete lookup for evaluation: the first property of that name. *)
Fixpoint first_property (ps : properties) (n : string) : option string :=
  match ps with
  | [] => None
  | (n', v) :: ps' => if decide (n = n') then Some v else first_property ps' n
  end.

#[export] Instance first_property_laws : PropertyLaws first_property.
Proof.
  split; intros ps n; unfold lookup_property.
  - intros v. induction ps as [|[n' v'] ps IH]; [done|]; cbn.
    case_decide; intros; simplify_eq; set_solver.
  - induction ps as [|[n' v'] ps IH]; [set_solver|]; cbn.
    case_decide; intros; simplify_eq; set_solver.
Qed.

(** * Typed access *)
Section access.
Context {X : Type} `{!Env X kcall}.
#[local] Abbreviation W := (world kobj X kcall).
Context {E : Type}.

Definition load_connection (p : ptr) : M W E RTI_RS_KafkaConnection :=
  o ← load p; match o with OConnection c => mret c | _ => fail BadCast end.
Definition load_writer (p : ptr) : M W E RTI_RS_KafkaStreamWriter :=
  o ← load p; match o with OWriter s => mret s | _ => fail BadCast end.
Definition load_reader (p : ptr) : M W E RTI_RS_KafkaStreamReader :=
  o ← load p; match o with OReader s => mret s | _ => fail BadCast end.
Definition load_conf (p : ptr) : M W E conf :=
  o ← load p; match o with OConf c => mret c | _ => fail BadCast end.
Definition load_client (p : ptr) : M W E (rd_kafka_type * conf) :=
  o ← load p; match o with OClient k c => mret (k, c) | _ => fail BadCast end.
Definition load_cell (p : ptr) : M W E ptr :=
  o ← load p; match o with OCell q => mret q | _ => fail BadCast end.
Definition load_message (p : ptr) : M W E (Z * list Z) :=
  o ← load p; match o with OMessage e d => mret (e, d) | _ => fail BadCast end.
Definition load_semaphore (p : ptr) : M W E nat :=
  o ← load p; match o with OSemaphore n => mret n | _ => fail BadCast end.
Definition load_dynamic_data (p : ptr) : M W E (list Z) :=
  o ← load p; match o with ODynamicData d => mret d | _ => fail BadCast end.

(** Assignment to a field: read, change, write back. *)
Definition update_writer (p : ptr) (f : RTI_RS_KafkaStreamWriter → RTI_RS_KafkaStreamWriter)
    : M W E () := s ← load_writer p; store p (OWriter (f s)).
Definition update_reader (p : ptr) (f : RTI_RS_KafkaStreamReader → RTI_RS_KafkaStreamReader)
    : M W E () := s ← load_reader p; store p (OReader (f s)).

Definition set_error (msg : string) : M W E () := call (QSetError msg);; mret ().

(** ** librdkafka handles *)

Definition rd_kafka_conf_new : M W E ptr :=
  call QConfNew;; alloc (OConf (Conf [] false)).

(** A failed set leaves the object as it is. *)
Definition rd_kafka_conf_set (p : ptr) (name : string) (value : option string) : M W E Z :=
  c ← load_conf p;
  r ← call (QConfSet name value);
  (if (r =? RD_KAFKA_CONF_OK)%Z
   then store p (OConf (Conf (cf_props c ++ [(name, value)]) (cf_dr_msg_cb c)))
   else mret ());;
  mret r.

Definition rd_kafka_conf_set_dr_msg_cb (p : ptr) : M W E () :=
  c ← load_conf p;
  call QConfSetDrMsgCb;;
  store p (OConf (Conf (cf_props c) true)).

(** rd_kafka_new takes ownership of the configuration when it succeeds and
    leaves it to the caller when it fails (rdkafka.h:3033). *)
Definition rd_kafka_new (k : rd_kafka_type) (p : ptr) : M W E ptr :=
  c ← load_conf p;
  r ← call (QNew k c);
  if (r =? 0)%Z then mret Null else free p;; alloc (OClient k c).

Definition rd_kafka_destroy (p : ptr) : M W E () :=
  c ← load_client p; call (QDestroy c.1);; free p.

Definition rd_kafka_message_destroy (p : ptr) : M W E () :=
  load_message p;; call QMessageDestroy;; free p.

(** ** Binary semaphores of RTI OSAPI: created taken; give makes them
    available; take blocks until they are. *)

Definition RTIOsapiSemaphore_new : M W E ptr := new QSemaphoreNew (OSemaphore 0).

Definition RTIOsapiSemaphore_give (p : ptr) : M W E Z :=
  load_semaphore p;;
  r ← call QSemaphoreGive;
  (if (r =? RTI_OSAPI_SEMAPHORE_STATUS_OK)%Z then store p (OSemaphore 1) else mret ());;
  mret r.

Definition RTIOsapiSemaphore_take (p : ptr) : M W E Z :=
  n ← load_semaphore p;
  r ← call QSemaphoreTake;
  if (r =? RTI_OSAPI_SEMAPHORE_STATUS_OK)%Z
  then (if decide (n = 0) then hang else store p (OSemaphore 0);; mret r)
  else mret r.

Definition RTIOsapiSemaphore_delete (p : ptr) : M W E () :=
  load_semaphore p;; call QSemaphoreDelete;; free p.
End access.

(** ** Symbolic execution of the typed accesses *)
Section access_wp.
Context {X : Type} `{!Env X kcall}.
#[local] Abbreviation W := (world kobj X kcall).
Context {E : Type} (R : E → W → Prop).

Lemma wp_load_connection l c Q (w : W) :
  w_heap w !! l = Some (OConnection c) → Q c w → wp (load_connection (Ptr l)) Q R w.
Proof. intros Hl HQ. unfold load_connection. wp_run. done. Qed.
Lemma wp_load_writer l c Q (w : W) :
  w_heap w !! l = Some (OWriter c) → Q c w → wp (load_writer (Ptr l)) Q R w.
Proof. intros Hl HQ. unfold load_writer. wp_run. done. Qed.
Lemma wp_load_reader l c Q (w : W) :
  w_heap w !! l = Some (OReader c) → Q c w → wp (load_reader (Ptr l)) Q R w.
Proof. intros Hl HQ. unfold load_reader. wp_run. done. Qed.
Lemma wp_load_conf l c Q (w : W) :
  w_heap w !! l = Some (OConf c) → Q c w → wp (load_conf (Ptr l)) Q R w.
Proof. intros Hl HQ. unfold load_conf. wp_run. done. Qed.
Lemma wp_load_client l k c Q (w : W) :
  w_heap w !! l = Some (OClient k c) → Q (k, c) w → wp (load_client (Ptr l)) Q R w.
Proof. intros Hl HQ. unfold load_client. wp_run. done. Qed.
Lemma wp_load_cell l c Q (w : W) :
  w_heap w !! l = Some (OCell c) → Q c w → wp (load_cell (Ptr l)) Q R w.
Proof. intros Hl HQ. unfold load_cell. wp_run. done. Qed.
Lemma wp_load_message l e d Q (w : W) :
  w_heap w !! l = Some (OMessage e d) → Q (e, d) w → wp (load_message (Ptr l)) Q R w.
Proof. intros Hl HQ. unfold load_message. wp_run. done. Qed.
Lemma wp_load_semaphore l c Q (w : W) :
  w_heap w !! l = Some (OSemaphore c) → Q c w → wp (load_semaphore (Ptr l)) Q R w.
Proof. intros Hl HQ. unfold load_semaphore. wp_run. done. Qed.
Lemma wp_load_dynamic_data l c Q (w : W) :
  w_heap w !! l = Some (ODynamicData c) → Q c w → wp (load_dynamic_data (Ptr l)) Q R w.
Proof. intros Hl HQ. unfold load_dynamic_data. wp_run. done. Qed.

Lemma wp_update_writer l s f Q (w : W) :
  w_heap w !! l = Some (OWriter s) →
  Q () (set_heap (<[l := OWriter (f s)]> (w_heap w)) w) → wp (update_writer (Ptr l) f) Q R w.
Proof.
  intros Hl HQ. unfold update_writer. wp_run. eapply wp_load_writer; [done|]. by wp_run.
Qed.
Lemma wp_update_reader l s f Q (w : W) :
  w_heap w !! l = Some (OReader s) →
  Q () (set_heap (<[l := OReader (f s)]> (w_heap w)) w) → wp (update_reader (Ptr l) f) Q R w.
Proof.
  intros Hl HQ. unfold update_reader. wp_run. eapply wp_load_reader; [done|]. by wp_run.
Qed.
End access_wp.

Ltac k_step :=
  first
    [ wp_step
    | lazymatch goal with
      | |- wp (load_connection (Ptr _)) _ _ _ => eapply wp_load_connection; [heap_lookup |]
      | |- wp (load_writer (Ptr _)) _ _ _ => eapply wp_load_writer; [heap_lookup |]
      | |- wp (load_reader (Ptr _)) _ _ _ => eapply wp_load_reader; [heap_lookup |]
      | |- wp (load_conf (Ptr _)) _ _ _ => eapply wp_load_conf; [heap_lookup |]
      | |- wp (load_client (Ptr _)) _ _ _ => eapply wp_load_client; [heap_lookup |]
      | |- wp (load_cell (Ptr _)) _ _ _ => eapply wp_load_cell; [heap_lookup |]
      | |- wp (load_message (Ptr _)) _ _ _ => eapply wp_load_message; [heap_lookup |]
      | |- wp (load_semaphore (Ptr _)) _ _ _ => eapply wp_load_semaphore; [heap_lookup |]
      | |- wp (load_dynamic_data (Ptr _)) _ _ _ => eapply wp_load_dynamic_data; [heap_lookup |]
      | |- wp (update_writer (Ptr _) _) _ _ _ => eapply wp_update_writer; [heap_lookup |]
      | |- wp (update_reader (Ptr _) _) _ _ _ => eapply wp_update_reader; [heap_lookup |]
      | |- wp (set_error _) _ _ _ => unfold set_error
      | |- wp (rd_kafka_conf_new) _ _ _ => unfold rd_kafka_conf_new
      | |- wp (rd_kafka_conf_set _ _ _) _ _ _ => unfold rd_kafka_conf_set
      | |- wp (rd_kafka_conf_set_dr_msg_cb _) _ _ _ => unfold rd_kafka_conf_set_dr_msg_cb
      | |- wp (rd_kafka_new _ _) _ _ _ => unfold rd_kafka_new
      | |- wp (rd_kafka_destroy _) _ _ _ => unfold rd_kafka_destroy
      | |- wp (rd_kafka_message_destroy _) _ _ _ => unfold rd_kafka_message_destroy
      | |- wp (RTIOsapiSemaphore_new) _ _ _ => unfold RTIOsapiSemaphore_new
      | |- wp (RTIOsapiSemaphore_give _) _ _ _ => unfold RTIOsapiSemaphore_give
      | |- wp (RTIOsapiSemaphore_take _) _ _ _ => unfold RTIOsapiSemaphore_take
      | |- wp (RTIOsapiSemaphore_delete _) _ _ _ => unfold RTIOsapiSemaphore_delete
      | |- wp (if (?a =? ?b)%Z then _ else _) _ _ _ => destruct (Z.eqb_spec a b); subst
      | |- wp (if decide ?P then _ else _) _ _ _ => case_decide; try discriminate; try contradiction
      end ];
  cbn [w_next w_heap w_ext w_trace set_heap fst snd
       wr_rk wr_topic cn_adapter cn_bootstrap_servers cf_props cf_dr_msg_cb
       rd_rk rd_rkm rd_topic rd_polling_thread rd_poll_sem rd_read_sem rd_run_thread
       rd_sample_list rd_info_list rd_type_support rd_payload].

Ltac k_run := repeat k_step.

(** Blocks of different kinds are at different addresses. *)
Ltac distinct_blocks :=
  repeat match goal with
  | H1 : w_heap ?w !! ?a = Some _, H2 : w_heap ?w !! ?b = Some _ |- _ =>
      tryif constr_eq a b then fail else lazymatch goal with
      | _ : a ≠ b |- _ => fail
      | _ : b ≠ a |- _ => fail
      | _ => assert (a ≠ b) by
             (let Heq := fresh in intros Heq; rewrite Heq in H1; rewrite H1 in H2; discriminate H2)
      end
  end.
