(* ===== verification/KafkaConnection.v ===== *)
(** KafkaConnection.c: creation and deletion of the stream writers and stream
    readers of a Kafka connection, with every allocation, every error label
    and every cleanup routine. *)
From Stdlib Require Import ZArith Lia.
From stdpp Require Import base gmap strings list fin_maps.
From S2P Require Import Prelude KafkaTypes.

#[local] Open Scope string_scope.
#[local] Open Scope list_scope.
#[local] Open Scope nat_scope.

Section operations.
Context {X : Type} `{!Env X kcall} {PA : PropertyApi}.
#[local] Abbreviation W := (world kobj X kcall).
Context {E : Type}.

(** The delivery report callback only logs: it makes no external call that
    changes state and touches no object of the adapter. *)
Definition RTI_RS_KafkaConnection_dr_msg_cb (rkmessage : ptr) : M W E () :=
  load_message rkmessage;; mret ().

(** ** Cleanup *)

Definition RTI_RS_KafkaConnection_cleanup_stream_writer (self : ptr) : M W E () :=
  (* if (self->rk != NULL) *)
  s ← load_writer self;
  rk_null ← is_null (wr_rk s);
  when (negb rk_null)
    (rd_kafka_destroy (wr_rk s);;
     update_writer self (λ s, KafkaStreamWriter Null (wr_topic s)));;
  (* if (self != NULL) *)
  self_null ← is_null self;
  when (negb self_null) (free self).

Definition RTI_RS_KafkaConnection_cleanup_stream_reader (self : ptr) : M W E () :=
  s ← load_reader self;
  rk_null ← is_null (rd_rk s);
  when (negb rk_null) (rd_kafka_destroy (rd_rk s));;
  call QOctetSeqFinalize;;
  poll_null ← is_null (rd_poll_sem s);
  when (negb poll_null) (RTIOsapiSemaphore_delete (rd_poll_sem s));;
  read_null ← is_null (rd_read_sem s);
  when (negb read_null) (RTIOsapiSemaphore_delete (rd_read_sem s));;
  samples_null ← is_null (rd_sample_list s);
  when (negb samples_null)
    (free (rd_sample_list s);;
     update_reader self (λ s,
       KafkaStreamReader (rd_rk s) (rd_rkm s) (rd_topic s) (rd_polling_thread s)
         (rd_poll_sem s) (rd_read_sem s) (rd_run_thread s) Null (rd_info_list s)
         (rd_type_support s) (rd_payload s)));;
  infos_null ← is_null (rd_info_list s);
  when (negb infos_null)
    (free (rd_info_list s);;
     update_reader self (λ s,
       KafkaStreamReader (rd_rk s) (rd_rkm s) (rd_topic s) (rd_polling_thread s)
         (rd_poll_sem s) (rd_read_sem s) (rd_run_thread s) (rd_sample_list s) Null
         (rd_type_support s) (rd_payload s)));;
  self_null ← is_null self;
  when (negb self_null) (free self).

(** ** Configuration *)

(** The names that configure Routing Service itself and are not passed on. *)
Definition is_rti_property (name : string) : bool :=
  bool_decide (name = "topic")
  || bool_decide (name = "rti.routing_service.entity.resource_name").

(** for (i = 0; i < properties->count; i++) ...; both creators have it. *)
Fixpoint conf_set_properties (cf : ptr) (ps : properties) : M W () () :=
  match ps with
  | [] => mret ()
  | (name, value) :: ps' =>
      (if is_rti_property name then mret ()
       else res ← rd_kafka_conf_set cf name (Some value);
            when (negb (res =? RD_KAFKA_CONF_OK)%Z)
              (set_error "errstr";; goto ()));;
      conf_set_properties cf ps'
  end.

(** ** Stream writers *)

Definition RTI_RS_KafkaConnection_create_stream_writer
    (connection : ptr) (stream_name : option string) (ps : properties) : M W E ptr :=
  stream_writer ← new (QCalloc "RTI_RS_KafkaStreamWriter") (OWriter zero_writer);
  labelled
    (b ← is_null stream_writer;
     when b (set_error "RTI_RS_KafkaStreamWriter memory allocation error";; goto ());;
     match stream_name with
     | None => set_error "stream_name is null";; goto ()
     | Some _ => mret ()
     end;;
     update_writer stream_writer (λ s, KafkaStreamWriter (wr_rk s) (lookup_property ps "topic"));;
     s ← load_writer stream_writer;
     match wr_topic s with
     | None => set_error "topic name missing";; goto ()
     | Some _ => mret ()
     end;;
     cf ← rd_kafka_conf_new;
     kafka_connection ← load_connection connection;
     res ← rd_kafka_conf_set cf "bootstrap.servers" (cn_bootstrap_servers kafka_connection);
     when (negb (res =? RD_KAFKA_CONF_OK)%Z) (set_error "errstr";; goto ());;
     conf_set_properties cf ps;;
     rd_kafka_conf_set_dr_msg_cb cf;;
     rk ← rd_kafka_new RD_KAFKA_PRODUCER cf;
     update_writer stream_writer (λ s, KafkaStreamWriter rk (wr_topic s));;
     b ← is_null rk;
     when b (set_error "errstr";; goto ());;
     mret stream_writer)
    (λ _, RTI_RS_KafkaConnection_cleanup_stream_writer stream_writer;; mret Null).

Definition RTI_RS_KafkaConnection_delete_stream_writer (stream_writer : ptr) : M W E () :=
  self ← load_writer stream_writer;
  load_client (wr_rk self);;
  call (QFlush (10 * 1000));;
  n ← call QOutqLen;
  when (0 <? n)%Z (call QOutqLen;; mret ());;   (* the argument of the log message *)
  RTI_RS_KafkaConnection_cleanup_stream_writer stream_writer.

(** ** Stream readers *)

(** Lines 298-356: the struct, its one-element sample and info arrays, the
    type support, the preallocated sample and its info, the topic.  The
    return value is [false] where the code returns NULL at once (line 339). *)
Definition create_stream_reader_alloc (stream_reader : ptr) (ps : properties) : M W () bool :=
  b ← is_null stream_reader;
  when b (set_error "RTI_RS_KafkaStreamReader memory allocation error";; goto ());;
  update_reader stream_reader (λ s,
    KafkaStreamReader (rd_rk s) (rd_rkm s) (rd_topic s) (rd_polling_thread s)
      (rd_poll_sem s) (rd_read_sem s) true (rd_sample_list s) (rd_info_list s)
      (rd_type_support s) (rd_payload s));;
  samples ← new (QCalloc "sample_list") (OCell Null);
  infos ← new (QCalloc "info_list") (OCell Null);
  update_reader stream_reader (λ s,
    KafkaStreamReader (rd_rk s) (rd_rkm s) (rd_topic s) (rd_polling_thread s)
      (rd_poll_sem s) (rd_read_sem s) (rd_run_thread s) samples infos
      (rd_type_support s) (rd_payload s));;
  b ← is_null samples;
  when b (set_error "Memory allocation error (sample_list)";; goto ());;
  b ← is_null infos;
  when b (set_error "Memory allocation error (info_list)";; goto ());;
  tsupport ← new QTypeSupportNew OTypeSupport;
  update_reader stream_reader (λ s,
    KafkaStreamReader (rd_rk s) (rd_rkm s) (rd_topic s) (rd_polling_thread s)
      (rd_poll_sem s) (rd_read_sem s) (rd_run_thread s) (rd_sample_list s) (rd_info_list s)
      tsupport (rd_payload s));;
  data ← new QDynamicDataNew (ODynamicData []);
  store samples (OCell data);;
  info ← new (QCalloc "DDS_SampleInfo") (OSampleInfo false);
  store infos (OCell info);;
  b ← is_null info;
  if b : bool then set_error "Failure creating sample info";; mret false
  else
    store info (OSampleInfo true);;
    update_reader stream_reader (λ s,
      KafkaStreamReader (rd_rk s) (rd_rkm s) (lookup_property ps "topic") (rd_polling_thread s)
        (rd_poll_sem s) (rd_read_sem s) (rd_run_thread s) (rd_sample_list s) (rd_info_list s)
        (rd_type_support s) (rd_payload s));;
    s ← load_reader stream_reader;
    match rd_topic s with
    | None => set_error "topic missing";; goto ()
    | Some _ => mret ()
    end;;
    mret true.

(** Lines 358-448: the configuration and the consumer. *)
Definition create_stream_reader_client (connection stream_reader : ptr) (ps : properties)
    : M W () () :=
  cf ← rd_kafka_conf_new;
  ok ← call QOctetSeqInitialize;
  when (ok =? 0)%Z (set_error "DDS_OctetSeq_initialize error";; goto ());;
  kafka_connection ← load_connection connection;
  res ← rd_kafka_conf_set cf "bootstrap.servers" (cn_bootstrap_servers kafka_connection);
  when (negb (res =? RD_KAFKA_CONF_OK)%Z) (set_error "errstr";; goto ());;
  res ← rd_kafka_conf_set cf "group.id" (Some "1");
  when (negb (res =? RD_KAFKA_CONF_OK)%Z) (set_error "errstr";; goto ());;
  conf_set_properties cf ps;;
  rk ← rd_kafka_new RD_KAFKA_CONSUMER cf;
  update_reader stream_reader (λ s,
    KafkaStreamReader rk (rd_rkm s) (rd_topic s) (rd_polling_thread s)
      (rd_poll_sem s) (rd_read_sem s) (rd_run_thread s) (rd_sample_list s) (rd_info_list s)
      (rd_type_support s) (rd_payload s));;
  b ← is_null rk;
  when b (set_error "errstr";; goto ()).

(** Lines 458-485: the subscription. *)
Definition create_stream_reader_subscribe (stream_reader : ptr) : M W () () :=
  s ← load_reader stream_reader;
  load_client (rd_rk s);;
  call QPollSetConsumer;;
  subscription ← alloc (OTopicList []);
  let topics := match rd_topic s with Some t => [t] | None => [] end in
  store subscription (OTopicList topics);;
  error ← call (QSubscribe topics);
  if (error =? RD_KAFKA_RESP_ERR_NO_ERROR)%Z then free subscription
  else set_error "Failed to subscribe";; free subscription;; goto ().

Definition set_poll_sem (p : ptr) (s : RTI_RS_KafkaStreamReader) : RTI_RS_KafkaStreamReader :=
  KafkaStreamReader (rd_rk s) (rd_rkm s) (rd_topic s) (rd_polling_thread s)
    p (rd_read_sem s) (rd_run_thread s) (rd_sample_list s) (rd_info_list s)
    (rd_type_support s) (rd_payload s).
Definition set_read_sem (p : ptr) (s : RTI_RS_KafkaStreamReader) : RTI_RS_KafkaStreamReader :=
  KafkaStreamReader (rd_rk s) (rd_rkm s) (rd_topic s) (rd_polling_thread s)
    (rd_poll_sem s) p (rd_run_thread s) (rd_sample_list s) (rd_info_list s)
    (rd_type_support s) (rd_payload s).
Definition set_polling_thread (p : ptr) (s : RTI_RS_KafkaStreamReader) : RTI_RS_KafkaStreamReader :=
  KafkaStreamReader (rd_rk s) (rd_rkm s) (rd_topic s) p
    (rd_poll_sem s) (rd_read_sem s) (rd_run_thread s) (rd_sample_list s) (rd_info_list s)
    (rd_type_support s) (rd_payload s).
Definition set_run_thread (b : bool) (s : RTI_RS_KafkaStreamReader) : RTI_RS_KafkaStreamReader :=
  KafkaStreamReader (rd_rk s) (rd_rkm s) (rd_topic s) (rd_polling_thread s)
    (rd_poll_sem s) (rd_read_sem s) b (rd_sample_list s) (rd_info_list s)
    (rd_type_support s) (rd_payload s).

(** Lines 488-536: the semaphores (each of them created twice) and the
    polling thread. *)
Definition create_stream_reader_threads (stream_reader : ptr) : M W () () :=
  poll ← RTIOsapiSemaphore_new;
  update_reader stream_reader (set_poll_sem poll);;
  b ← is_null poll;
  when b (set_error "Error creating semaphore";; goto ());;
  read ← RTIOsapiSemaphore_new;
  update_reader stream_reader (set_read_sem read);;
  b ← is_null read;
  when b (set_error "Error creating semaphore";; goto ());;
  poll ← RTIOsapiSemaphore_new;
  update_reader stream_reader (set_poll_sem poll);;
  b ← is_null poll;
  when b (set_error "Error creating mutex";; goto ());;
  RTIOsapiSemaphore_give poll;;
  read ← RTIOsapiSemaphore_new;
  update_reader stream_reader (set_read_sem read);;
  b ← is_null read;
  when b (set_error "Error creating mutex";; goto ());;
  thread ← new (QThreadNew "KafkaStreamReader_run") (OThread stream_reader);
  update_reader stream_reader (set_polling_thread thread);;
  b ← is_null thread;
  when b (set_error "Error creating polling_thread";; goto ()).

Definition RTI_RS_KafkaConnection_create_stream_reader
    (connection : ptr) (ps : properties) : M W E ptr :=
  stream_reader ← new (QCalloc "RTI_RS_KafkaStreamReader") (OReader zero_reader);
  labelled
    (go_on ← create_stream_reader_alloc stream_reader ps;
     if go_on : bool then
       create_stream_reader_client connection stream_reader ps;;
       create_stream_reader_subscribe stream_reader;;
       create_stream_reader_threads stream_reader;;
       mret stream_reader
     else mret Null)
    (λ _, RTI_RS_KafkaConnection_cleanup_stream_reader stream_reader;; mret Null).

Definition RTI_RS_KafkaConnection_delete_stream_reader (stream_reader : ptr) : M W E () :=
  update_reader stream_reader (set_run_thread false);;
  self ← load_reader stream_reader;
  stopped ← call QThreadStopAndDelete;
  when (negb (stopped =? 0)%Z) (free (rd_polling_thread self));;
  update_reader stream_reader (set_polling_thread Null);;
  rk_null ← is_null (rd_rk self);
  when (negb rk_null) (call QConsumerClose;; mret ());;
  RTI_RS_KafkaConnection_cleanup_stream_reader stream_reader.
End operations.

(** * Specifications *)

(** The properties a creator passes on to librdkafka, in order. *)
Definition forwarded (ps : properties) : list (string * option string) :=
  (λ nv : string * string, (nv.1, Some nv.2)) <$>
    filter (λ nv : string * string, is_rti_property nv.1 = false) ps.

Definition writer_conf (servers : option string) (ps : properties) :=
  ("bootstrap.servers", servers) :: forwarded ps.

Definition reader_conf (servers : option string) (ps : properties) :=
  ("bootstrap.servers", servers) :: ("group.id", Some "1") :: forwarded ps.

Section theorems.
Context {X : Type} `{!Env X kcall} {PA : PropertyApi}.
#[local] Abbreviation W := (world kobj X kcall).
Implicit Types w : W.

Lemma forwarded_cons n v ps :
  forwarded ((n, v) :: ps)
  = if is_rti_property n then forwarded ps else (n, Some v) :: forwarded ps.
Proof.
  unfold forwarded. rewrite filter_cons. cbn [fst snd].
  destruct (is_rti_property n); by case_decide.
Qed.

(** The property loop appends the forwarded properties to the configuration
    object and touches nothing else; it stops at the first rejected one. *)
Lemma conf_set_properties_wp c kv cb ps w :
  w_heap w !! c = Some (OConf (Conf kv cb)) →
  wp (conf_set_properties (Ptr c) ps)
     (λ _ w', w_next w' = w_next w
        ∧ w_heap w' = <[c := OConf (Conf (kv ++ forwarded ps) cb)]> (w_heap w))
     (λ _ w', w_next w' = w_next w
        ∧ ∃ kv', kv' `prefix_of` forwarded ps
        ∧ w_heap w' = <[c := OConf (Conf (kv ++ kv') cb)]> (w_heap w)) w.
Proof.
  revert kv w. induction ps as [|[n v] ps IH]; intros kv w Hc; cbn [conf_set_properties].
  { wp_run. split; [done|]. rewrite app_nil_r. by rewrite insert_id. }
  rewrite forwarded_cons. wp_step. destruct (is_rti_property n).
  - wp_run. by apply IH.
  - k_run.
    + eapply wp_mono; [eapply (IH (kv ++ [(n, Some v)])%list)| |];
        cbn [w_next w_heap w_ext w_trace set_heap cf_props].
      * heap_lookup.
      * intros _ v' [-> ->]. split; [done|]. by rewrite insert_insert_eq, <- app_assoc.
      * intros _ v' [-> (kv' & [k Hk] & ->)]. split; [done|].
        exists ((n, Some v) :: kv'). split; [by exists k; rewrite Hk|].
        by rewrite insert_insert_eq, <- app_assoc.
    + split; [done|]. exists []. split; [apply prefix_nil|].
      rewrite app_nil_r. by rewrite insert_id.
Qed.

(** Cleaning up a writer without a client frees the writer. *)
Lemma cleanup_stream_writer_wp {E} (R : E → W → Prop) l t Q w :
  w_heap w !! l = Some (OWriter (KafkaStreamWriter Null t)) →
  Q () (set_heap (delete l (w_heap w)) w) →
  wp (RTI_RS_KafkaConnection_cleanup_stream_writer (Ptr l)) Q R w.
Proof.
  intros Hl HQ. unfold RTI_RS_KafkaConnection_cleanup_stream_writer. k_run. done.
Qed.

(** Whether a creator gets as far as making a configuration object. *)
Definition topic_given (stream_name : option string) (ps : properties) : Prop :=
  stream_name ≠ None ∧ lookup_property ps "topic" ≠ None.

#[export] Instance topic_given_dec stream_name ps : Decision (topic_given stream_name ps).
Proof. unfold topic_given. apply _. Defined.

(** The outcome of creating a stream writer, on every branch. *)
Definition create_stream_writer_post (w : W) (conn : RTI_RS_KafkaConnection)
    (stream_name : option string) (ps : properties) (r : ptr) (w' : W) : Prop :=
  heap_wf w' ∧
  match r with
  | Ptr sw =>
      ∃ rk, sw ≠ rk ∧ w_heap w !! sw = None ∧ w_heap w !! rk = None
      ∧ topic_given stream_name ps
      ∧ w_heap w' =
          <[rk := OClient RD_KAFKA_PRODUCER
                    (Conf (writer_conf (cn_bootstrap_servers conn) ps) true)]>
          (<[sw := OWriter (KafkaStreamWriter (Ptr rk) (lookup_property ps "topic"))]>
            (w_heap w))
  | Null =>
      if decide (topic_given stream_name ps)
      then ∃ cf c, w_heap w !! cf = None ∧ w_heap w' = <[cf := OConf c]> (w_heap w)
      else w_heap w' = w_heap w
  | Wild => False
  end.

(** The error label after the configuration object was made: the writer is
    freed, the configuration is not. *)
Lemma writer_error_label {E} (R : E → W → Prop) w conn sn ps t sw cf c w' :
  w_heap w' = <[cf := OConf c]> (<[sw := OWriter (KafkaStreamWriter Null t)]> (w_heap w)) →
  heap_wf w → w_next w' = S (S (w_next w)) → sw = w_next w → cf = S (w_next w) →
  topic_given sn ps →
  wp (RTI_RS_KafkaConnection_cleanup_stream_writer (Ptr sw))
     (λ _, create_stream_writer_post w conn sn ps Null) R w'.
Proof.
  intros Hh Hwf Hn -> -> Ht.
  eapply cleanup_stream_writer_wp; [rewrite Hh; heap_lookup|]. split; [rewrite Hh; intros k Hk; wsimpl|].
  - heap_lookup. apply Hwf. lia.
  - rewrite decide_True by done. exists (S (w_next w)), c.
    split; [apply Hwf; lia|]. wsimpl. rewrite Hh.
    rewrite delete_insert_ne by lia. by rewrite delete_insert_id by by apply heap_wf_fresh.
Qed.

Lemma create_stream_writer_wp {E} (R : E → W → Prop) w cn conn stream_name ps :
  heap_wf w →
  w_heap w !! cn = Some (OConnection conn) →
  (answer (w_ext w) (QCalloc "RTI_RS_KafkaStreamWriter")).1 ≠ 0%Z →
  wp (RTI_RS_KafkaConnection_create_stream_writer (Ptr cn) stream_name ps)
    (create_stream_writer_post w conn stream_name ps) R w.
Proof.
  intros Hwf Hcn Hcalloc. unfold RTI_RS_KafkaConnection_create_stream_writer.
  pose proof (heap_wf_lt _ _ _ Hwf Hcn) as Hlt.
  k_run.
  destruct stream_name as [sn|].
  2: { k_run. eapply cleanup_stream_writer_wp; [heap_lookup|]. k_run. split; [heap_wf_tac|].
       rewrite decide_False by (by intros [? _]). wsimpl.
       by rewrite delete_insert_id by by apply heap_wf_fresh. }
  k_run. destruct (lookup_property ps "topic") as [topic|] eqn:Ht.
  2: { k_run. eapply cleanup_stream_writer_wp; [heap_lookup|]. k_run. split; [heap_wf_tac|].
       rewrite decide_False by (by intros [_ ?]). wsimpl. rewrite insert_insert_eq.
       by rewrite delete_insert_id by by apply heap_wf_fresh. }
  assert (topic_given (Some sn) ps) as Hgiven by (split; congruence).
  k_run.
  2: { eapply writer_error_label; try done; wsimpl. by rewrite insert_insert_eq. }
  eapply wp_mono; [eapply conf_set_properties_wp; heap_lookup| |].
  2: { intros _ [n h x t]; wsimpl; intros [-> (kv & _ & ->)].
    k_run. eapply writer_error_label; try done; wsimpl. by rewrite !insert_insert_eq. }
  intros _ [n h x t]; wsimpl; intros [-> ->]. k_run.
  - eapply (writer_error_label _ _ _ _ _ (Some topic)); try done. heap_eq.
  - split; [heap_wf_tac|]. exists (S (S (w_next w))).
    split_and!; [lia | apply Hwf; lia | apply Hwf; lia | done |]. rewrite Ht. heap_eq.
Qed.

(** C18: creating a stream writer, on every branch after the allocation of
    the struct.  Success needs a stream name and a topic; it adds exactly the
    writer and one producer configured with the bootstrap servers, then the
    forwarded properties in order, with the delivery callback installed.
    Failure frees the writer; it leaves the heap as it was before the
    configuration object is made, and loses that one block afterwards. *)
Theorem create_stream_writer_spec w cn conn stream_name ps :
  heap_wf w →
  w_heap w !! cn = Some (OConnection conn) →
  (answer (w_ext w) (QCalloc "RTI_RS_KafkaStreamWriter")).1 ≠ 0%Z →
  wp (RTI_RS_KafkaConnection_create_stream_writer (E := Empty_set) (Ptr cn) stream_name ps)
    (create_stream_writer_post w conn stream_name ps) no_jump w.
Proof. apply create_stream_writer_wp. Qed.

(** When the allocation of the struct fails, the error label hands NULL
    to the cleanup routine, which dereferences it. *)
Theorem create_stream_writer_calloc_fault w cn stream_name ps :
  (answer (w_ext w) (QCalloc "RTI_RS_KafkaStreamWriter")).1 = 0%Z →
  RTI_RS_KafkaConnection_create_stream_writer (E := Empty_set) (Ptr cn) stream_name ps w
  = Fault NullDeref.
Proof.
  intros Hcalloc. unfold RTI_RS_KafkaConnection_create_stream_writer, new, labelled.
  unfold mbind, M_bind, call. rewrite Hcalloc. reflexivity.
Qed.

(** The calls of the destructor of a writer; the length of the queue is asked
    for once more when there is something to complain about. *)
Definition farewell (k : rd_kafka_type) (qs : list kcall) : Prop :=
  qs = [QFlush 10000; QOutqLen; QDestroy k] ∨ qs = [QFlush 10000; QOutqLen; QOutqLen; QDestroy k].

Lemma delete_stream_writer_wp {E} (R : E → W → Prop) sw rk t k c w :
  w_heap w !! sw = Some (OWriter (KafkaStreamWriter (Ptr rk) t)) →
  w_heap w !! rk = Some (OClient k c) →
  wp (RTI_RS_KafkaConnection_delete_stream_writer (Ptr sw))
     (λ _ w', w_next w' = w_next w
        ∧ w_heap w' = delete sw (delete rk (w_heap w))
        ∧ ∃ qs, w_trace w' = (w_trace w ++ qs)%list ∧ farewell k qs) R w.
Proof.
  intros Hsw Hrk. assert (sw ≠ rk) as Hne by congruence.
  unfold RTI_RS_KafkaConnection_delete_stream_writer,
    RTI_RS_KafkaConnection_cleanup_stream_writer.
  k_run; (split_and!; [done | heap_eq |]); rewrite <- !app_assoc; eexists; (split; [done|]).
  - by right.
  - by left.
Qed.

(** C19: deleting a stream writer right after creating it gives back every
    block: the writer's life cycle does not leak, and the producer is
    flushed before it is destroyed. *)
Theorem create_delete_stream_writer w cn conn stream_name ps :
  heap_wf w →
  w_heap w !! cn = Some (OConnection conn) →
  (answer (w_ext w) (QCalloc "RTI_RS_KafkaStreamWriter")).1 ≠ 0%Z →
  wp (sw ← RTI_RS_KafkaConnection_create_stream_writer (E := Empty_set)
             (Ptr cn) stream_name ps;
      when (negb (bool_decide (sw = Null)))
        (RTI_RS_KafkaConnection_delete_stream_writer sw);;
      mret sw)
    (λ sw w', sw ≠ Null → w_heap w' = w_heap w
       ∧ ∃ qs, farewell RD_KAFKA_PRODUCER qs ∧ qs `suffix_of` w_trace w')
    no_jump w.
Proof.
  intros Hwf Hcn Hcalloc. wp_step.
  eapply wp_mono; [by eapply create_stream_writer_wp| |done].
  intros [|sw|] w1 [Hwf1 Hpost]; [by k_run | | done].
  destruct Hpost as (rk & Hne & Hsw & Hrk & Hgiven & Hh). k_run.
  eapply wp_mono; [eapply delete_stream_writer_wp; rewrite Hh; heap_lookup| |done].
  intros _ w2 (_ & Hh2 & qs & Ht2 & Hqs). k_run. intros _.
  split; [|exists qs; split; [done | by exists (w_trace w1)]].
  rewrite Hh2, Hh. heap_eq; done.
Qed.

(** ** Stream readers *)

(** What a pointer field must point to for the cleanup routine. *)
Definition points_to (w : W) (p : ptr) (P : kobj → Prop) : Prop :=
  match p with
  | Null => True
  | Ptr l => ∃ o, w_heap w !! l = Some o ∧ P o
  | Wild => False
  end.

Definition is_client (o : kobj) : Prop := match o with OClient _ _ => True | _ => False end.
Definition is_semaphore (o : kobj) : Prop := match o with OSemaphore _ => True | _ => False end.
Definition is_cell (o : kobj) : Prop := match o with OCell _ => True | _ => False end.

(** A reader struct the cleanup routine can be applied to. *)
Record cleanable (w : W) (r : nat) (s : RTI_RS_KafkaStreamReader) : Prop := {
  cl_self : w_heap w !! r = Some (OReader s);
  cl_rk : points_to w (rd_rk s) is_client;
  cl_poll : points_to w (rd_poll_sem s) is_semaphore;
  cl_read : points_to w (rd_read_sem s) is_semaphore;
  cl_samples : points_to w (rd_sample_list s) is_cell;
  cl_infos : points_to w (rd_info_list s) is_cell;
  cl_sems : rd_poll_sem s = rd_read_sem s → rd_poll_sem s = Null;
  cl_cells : rd_sample_list s = rd_info_list s → rd_sample_list s = Null
}.

(** The heap without the blocks a reader struct owns. *)
Definition without_reader (r : nat) (s : RTI_RS_KafkaStreamReader) (h : gmap nat kobj) :=
  delete r (delete_ptr (rd_rk s) (delete_ptr (rd_poll_sem s) (delete_ptr (rd_read_sem s)
    (delete_ptr (rd_sample_list s) (delete_ptr (rd_info_list s) h))))).

(** During the cleanup of reader [r], the blocks of the pointers [D] are
    gone and only the struct itself may have changed. *)
Definition released (h : gmap nat kobj) (r : nat) (D : list ptr) (w' : W) : Prop :=
  ∃ s', w_heap w' = <[r := OReader s']> (foldr delete_ptr h D).

Lemma lookup_released (h : gmap nat kobj) D l :
  Forall (λ q, q ≠ Ptr l) D → foldr delete_ptr h D !! l = h !! l.
Proof.
  induction 1 as [|q D Hq _ IH]; [done|]. cbn. rewrite lookup_delete_ptr.
  by rewrite decide_False.
Qed.

(** One field of the cleanup: test against NULL and release. *)
Lemma wp_release {E} (R : E → W → Prop) h r D p (P : kobj → Prop) body (k : () → M W E ()) Q w :
  released h r D w →
  match p with Null => True | Ptr l => l ≠ r ∧ ∃ o, h !! l = Some o ∧ P o | Wild => False end →
  Forall (λ q, q = p → q = Null) D →
  (∀ l o w1 s1, p = Ptr l → l ≠ r → w_heap w1 !! l = Some o → P o →
     w_heap w1 !! r = Some (OReader s1) →
     wp body (λ _ w2, w_next w2 = w_next w1
        ∧ ∃ s2, w_heap w2 = <[r := OReader s2]> (delete l (w_heap w1))) R w1) →
  (∀ w', w_next w' = w_next w → released h r (p :: D) w' → wp (k ()) Q R w') →
  wp (b ← is_null p; when (negb b) body ≫= k) Q R w.
Proof.
  intros [s Hh] Hp HD Hbody HQ. destruct p as [|l|]; [| | done].
  - k_run. apply HQ; [done|]. by exists s.
  - destruct Hp as (Hne & o & Hl & HP). k_run.
    eapply wp_mono; [eapply (Hbody l o _ s); try done| |done]; rewrite ?Hh; heap_lookup.
    { rewrite lookup_released; [done|]. eapply Forall_impl; [exact HD|]. naive_solver. }
    intros [] w' [? [s' Hs']]. apply HQ; [done|]. exists s'. rewrite Hs'. cbn [foldr delete_ptr].
    by rewrite delete_insert_ne, insert_insert_eq by done.
Qed.

(** Cleanup frees exactly the blocks the struct owns. *)
Lemma cleanup_stream_reader_wp {E} (R : E → W → Prop) w r s :
  cleanable w r s →
  wp (RTI_RS_KafkaConnection_cleanup_stream_reader (Ptr r))
     (λ _ w', w_next w' = w_next w ∧ w_heap w' = without_reader r s (w_heap w)) R w.
Proof.
  intros [Hr Hrk Hp Hre Hs Hi Hps Hc].
  assert (∀ q P, points_to w q P → (∀ s', P (OReader s') → False) →
    match q with Null => True | Ptr l => l ≠ r ∧ ∃ o, w_heap w !! l = Some o ∧ P o
            | Wild => False end) as Hown.
  { intros [|l|] P; try done. intros (o & Ho & HP) Hd. split; [|by exists o].
    intros ->. naive_solver. }
  assert (∀ q p P P', points_to w q P → points_to w p P' → (∀ o, P o → P' o → False) →
    q = p → q = Null) as Hdis.
  { intros [|l|] p P P' Hq Hp' Hd; try done. intros <-.
    destruct Hq as (? & ? & ?), Hp' as (? & ? & ?). naive_solver. }
  unfold RTI_RS_KafkaConnection_cleanup_stream_reader.
  wp_step. eapply wp_load_reader; [done|].
  eapply (wp_release _ (w_heap w) r [] _ is_client);
    [exists s; by rewrite insert_id | by apply Hown | done | |].
  { intros l [] w1 s1 -> ? Hl [] Hs1. k_run. split; [done|]. exists s1. by rewrite insert_id by heap_lookup. }
  intros w1 Hn1 [s1 Hh1]. wp_step. wp_step.
  eapply (wp_release _ (w_heap w) r [rd_rk s] _ is_semaphore);
    [by exists s1 | by apply Hown | | |].
  { constructor; [|done]. intros ?. eapply Hdis; [exact Hrk | exact Hp | by intros [] | done]. }
  { intros l [] w2 s2 -> ? Hl [] Hs2. k_run. split; [done|]. exists s2. by rewrite insert_id by heap_lookup. }
  intros w2 Hn2 Hrel2.
  eapply (wp_release _ (w_heap w) r [_; _] _ is_semaphore); [exact Hrel2 | by apply Hown | | |].
  { constructor; [|constructor; [|done]]; intros ?; [by rewrite Hps|].
    eapply Hdis; [exact Hrk | exact Hre | by intros [] | done]. }
  { intros l [] w3 s3 -> ? Hl [] Hs3. k_run. split; [done|]. exists s3. by rewrite insert_id by heap_lookup. }
  intros w3 Hn3 Hrel3.
  eapply (wp_release _ (w_heap w) r [_; _; _] _ is_cell); [exact Hrel3 | by apply Hown | | |].
  { rewrite !Forall_cons, Forall_nil. split_and!; [| | |done]; intros ?;
      [eapply (Hdis _ _ _ _ Hre Hs) | eapply (Hdis _ _ _ _ Hp Hs) | eapply (Hdis _ _ _ _ Hrk Hs)];
      first [done | by intros []]. }
  { intros l [] w4 s4 -> ? Hl [] Hs4. k_run. split; [done|]. by eexists. }
  intros w4 Hn4 Hrel4.
  eapply (wp_release _ (w_heap w) r [_; _; _; _] _ is_cell); [exact Hrel4 | by apply Hown | | |].
  { rewrite !Forall_cons, Forall_nil. split_and!; [by intros Heq; apply Hc| | | |done]; intros ?;
      [eapply (Hdis _ _ _ _ Hre Hi) | eapply (Hdis _ _ _ _ Hp Hi) | eapply (Hdis _ _ _ _ Hrk Hi)];
      first [done | by intros []]. }
  { intros l [] w5 s5 -> ? Hl [] Hs5. k_run. split; [done|]. by eexists. }
  intros w5 Hn5 [s5 Hh5]. k_run; [rewrite Hh5; heap_lookup|]. split; [wsimpl; congruence|].
  rewrite Hh5. unfold without_reader. cbn [foldr]. apply map_eq. intros i.
  repeat first [ rewrite lookup_delete | rewrite lookup_insert | rewrite lookup_delete_ptr ].
  repeat case_decide; done.
Qed.

(** A creation step of reader [r]: it may rewrite [r] and adds fresh blocks. *)
Definition grows (r : nat) (w w' : W) : Prop :=
  heap_wf w' ∧ w_next w ≤ w_next w'
  ∧ ∀ l, l < w_next w → l ≠ r → w_heap w' !! l = w_heap w !! l.

(** What a reader struct owns was allocated at or above address [n]. *)
Definition above (n : nat) (p : ptr) : Prop :=
  match p with Ptr l => n ≤ l | _ => True end.
Definition owned_above (n : nat) (s : RTI_RS_KafkaStreamReader) : Prop :=
  above n (rd_rk s) ∧ above n (rd_poll_sem s) ∧ above n (rd_read_sem s)
  ∧ above n (rd_sample_list s) ∧ above n (rd_info_list s).

(** Where the creator's label can be reached from, and what it can rely on. *)
Definition at_error_label (n r : nat) (w w' : W) : Prop :=
  grows r w w' ∧ ∃ s, cleanable w' r s ∧ owned_above n s.

(** After the allocations: the struct, its arrays and its sample info. *)
Record reader_allocated (ps : properties) (r : nat) (s : RTI_RS_KafkaStreamReader)
    (w : W) : Prop := {
  ra_self : w_heap w !! r = Some (OReader s);
  ra_arrays : ∃ sl il i d, rd_sample_list s = Ptr sl ∧ rd_info_list s = Ptr il
    ∧ sl ≠ il
    ∧ w_heap w !! sl = Some (OCell d) ∧ w_heap w !! il = Some (OCell (Ptr i))
    ∧ w_heap w !! i = Some (OSampleInfo true);
  ra_topic : rd_topic s = lookup_property ps "topic" ∧ rd_topic s ≠ None;
  ra_run : rd_run_thread s = true;
  ra_rkm : rd_rkm s = Null
}.

Ltac grows_tac :=
  split; [heap_wf_tac|]; split; [wsimpl; lia|]; intros ? ? ?; heap_lookup.

Ltac cleanable_tac :=
  eexists; split; [constructor; [heap_lookup | ..]; cbn; try done;
  first [ eexists; split; [heap_lookup | done] | intros [=]; lia ]
  | unfold owned_above; cbn; split_and!; lia ].

Lemma create_stream_reader_alloc_wp r ps w :
  heap_wf w → w_heap w !! r = Some (OReader zero_reader) →
  wp (create_stream_reader_alloc (Ptr r) ps)
     (λ b w', grows r w w' ∧
        if b : bool then ∃ s, reader_allocated ps r s w'
          ∧ rd_rk s = Null ∧ rd_poll_sem s = Null ∧ rd_read_sem s = Null
          ∧ rd_polling_thread s = Null ∧ owned_above (w_next w) s
        else ∃ s il, w_heap w' !! r = Some (OReader s) ∧ rd_info_list s = Ptr il
          ∧ w_heap w' !! il = Some (OCell Null))
     (λ _ w', at_error_label (w_next w) r w w') w.
Proof.
  intros Hwf Hr. pose proof (heap_wf_lt _ _ _ Hwf Hr) as Hlt.
  unfold create_stream_reader_alloc. k_run.
  all: try (destruct (lookup_property ps "topic") as [topic|] eqn:Ht; k_run).
  all: try (split; [grows_tac | cleanable_tac]).
  all: split; [grows_tac | ].
  all: try (do 2 eexists; split_and!; [heap_lookup | done | heap_lookup]; fail).
  all: eexists; split; [constructor; [heap_lookup | | by rewrite Ht | done..] |
    unfold owned_above; cbn; split_and!; first [done | lia]].
  all: do 4 eexists; split_and!; [done | done | lia | heap_lookup ..].
Qed.

Lemma grows_refl r w : heap_wf w → grows r w w.
Proof. intros Hwf. unfold grows. by split_and!. Qed.

Lemma grows_trans r w1 w2 w3 : grows r w1 w2 → grows r w2 w3 → grows r w1 w3.
Proof.
  intros (? & ? & Hu1) (? & ? & Hu2). unfold grows. split_and!; [done | lia |].
  intros l Hl Hr. rewrite Hu2, Hu1; [done | lia | done | lia | done].
Qed.

Lemma grows_lookup r w w' l o :
  heap_wf w → grows r w w' → l ≠ r → w_heap w !! l = Some o → w_heap w' !! l = Some o.
Proof.
  intros Hwf (_ & _ & Hu) Hne Hl. rewrite Hu; [done | by eapply heap_wf_lt | done].
Qed.

(** The struct fields set by the allocation step. *)
Definition same_arrays (s s' : RTI_RS_KafkaStreamReader) : Prop :=
  rd_sample_list s' = rd_sample_list s ∧ rd_info_list s' = rd_info_list s
  ∧ rd_topic s' = rd_topic s ∧ rd_run_thread s' = rd_run_thread s ∧ rd_rkm s' = rd_rkm s.

Lemma reader_allocated_grows ps r s s' w w' :
  heap_wf w → reader_allocated ps r s w → grows r w w' →
  w_heap w' !! r = Some (OReader s') → same_arrays s s' → reader_allocated ps r s' w'.
Proof.
  intros Hwf [Hr (sl & il & i & d & Hsl & Hil & Hne & H1 & H2 & H3) Ht Hrun Hrkm] Hg Hr' Hs.
  destruct Hs as (E1 & E2 & E3 & E4 & E5).
  constructor; [done | | by rewrite E3 | by rewrite E4 | by rewrite E5].
  exists sl, il, i, d. rewrite E1, E2.
  split_and!; [done | done | done | ..]; (eapply grows_lookup; [done.. | | done]); congruence.
Qed.

Lemma points_to_grows r w w' s p P :
  heap_wf w → grows r w w' → w_heap w !! r = Some (OReader s) → points_to w p P →
  (∀ s', P (OReader s') → False) → points_to w' p P.
Proof.
  destruct p as [|l|]; try done. intros Hwf Hg Hr (o & Hl & HP) Hd. exists o. split; [|done].
  eapply grows_lookup; [done | done | | done]. intros ->. simplify_eq. by eapply Hd.
Qed.

(** A reader that got as far as the allocation step can be cleaned up. *)
Lemma reader_allocated_cleanable ps r s w :
  reader_allocated ps r s w →
  points_to w (rd_rk s) is_client →
  points_to w (rd_poll_sem s) is_semaphore → points_to w (rd_read_sem s) is_semaphore →
  (rd_poll_sem s = rd_read_sem s → rd_poll_sem s = Null) →
  cleanable w r s.
Proof.
  intros [Hr (sl & il & i & d & Hsl & Hil & Hne & H1 & H2 & H3) _ _ _] ? ? ? ?.
  constructor; try done; rewrite ?Hsl, ?Hil; cbn; [by eexists .. |]. congruence.
Qed.

Lemma create_stream_reader_client_wp n cn conn r s ps w :
  heap_wf w → reader_allocated ps r s w → w_heap w !! cn = Some (OConnection conn) →
  rd_rk s = Null → rd_poll_sem s = Null → rd_read_sem s = Null → rd_polling_thread s = Null →
  n ≤ w_next w → owned_above n s →
  wp (create_stream_reader_client (Ptr cn) (Ptr r) ps)
     (λ _ w', grows r w w' ∧ ∃ s' rk, reader_allocated ps r s' w'
        ∧ rd_rk s' = Ptr rk
        ∧ w_heap w' !! rk = Some (OClient RD_KAFKA_CONSUMER
              (Conf (reader_conf (cn_bootstrap_servers conn) ps) false))
        ∧ rd_poll_sem s' = Null ∧ rd_read_sem s' = Null ∧ rd_polling_thread s' = Null
        ∧ owned_above n s')
     (λ _ w', at_error_label n r w w') w.
Proof.
  intros Hwf Hra Hcn Hrk Hp Hre Hth Hn Hab. pose proof (ra_self _ _ _ _ Hra) as Hr.
  pose proof (heap_wf_lt _ _ _ Hwf Hr) as Hlt. pose proof (heap_wf_lt _ _ _ Hwf Hcn) as Hlt2.
  assert (cn ≠ r) by congruence.
  assert (∀ w' s', grows r w w' → w_heap w' !! r = Some (OReader s') → same_arrays s s' →
    rd_rk s' = Null → rd_poll_sem s' = Null → rd_read_sem s' = Null →
    at_error_label n r w w') as Herr.
  { intros w' s' Hg Hr' Hs Hrk' Hp' Hre'. split; [done|]. exists s'.
    split; [|unfold owned_above in *; destruct Hs as (-> & -> & _);
             rewrite Hrk', Hp', Hre'; destruct Hab as (_ & _ & _ & ? & ?); by split_and!].
    eapply reader_allocated_cleanable; rewrite ?Hrk', ?Hp', ?Hre'; try done.
    by eapply reader_allocated_grows. }
  unfold create_stream_reader_client. k_run.
  all: try (by eapply (Herr _ s); [grows_tac | heap_lookup | ..]).
  eapply wp_mono; [eapply conf_set_properties_wp; heap_lookup| |].
  2: { intros _ [n0 h0 x0 t0]; wsimpl. intros (-> & kv & _ & ->). k_run.
       by eapply (Herr _ s); [grows_tac | heap_lookup | ..]. }
  intros _ [n0 h0 x0 t0]; wsimpl. intros [-> ->]. k_run.
  { eapply Herr; [grows_tac | heap_lookup | done..]. }
  assert (∀ w' rk, grows r w w' → w_heap w' !! r = Some (OReader
     (KafkaStreamReader rk (rd_rkm s) (rd_topic s) (rd_polling_thread s) (rd_poll_sem s)
        (rd_read_sem s) (rd_run_thread s) (rd_sample_list s) (rd_info_list s)
        (rd_type_support s) (rd_payload s))) →
     reader_allocated ps r (KafkaStreamReader rk (rd_rkm s) (rd_topic s) (rd_polling_thread s)
        (rd_poll_sem s) (rd_read_sem s) (rd_run_thread s) (rd_sample_list s) (rd_info_list s)
        (rd_type_support s) (rd_payload s)) w') as Hres.
  { intros w' rk Hg Hr'. by eapply reader_allocated_grows. }
  split; [grows_tac|]. eexists _, _.
  split; [apply Hres; [grows_tac | heap_lookup]|]. split; [done|].
  split; [heap_lookup|]. split_and!; try done.
  unfold owned_above in *; cbn; split_and!; [lia | apply Hab ..].
Qed.

(** A subscribed reader with its semaphores and its thread.  [p0] and [q0]
    are the semaphores that were overwritten by a second pair. *)
Record reader_ready (ps : properties) (servers : option string) (r : nat)
    (s : RTI_RS_KafkaStreamReader) (w : W) : Prop := {
  rr_allocated : reader_allocated ps r s w;
  rr_client : ∃ rk, rd_rk s = Ptr rk
    ∧ w_heap w !! rk = Some (OClient RD_KAFKA_CONSUMER (Conf (reader_conf servers ps) false));
  rr_sems : ∃ p q n, rd_poll_sem s = Ptr p ∧ rd_read_sem s = Ptr q ∧ p ≠ q ∧ n ≤ 1
    ∧ w_heap w !! p = Some (OSemaphore n) ∧ w_heap w !! q = Some (OSemaphore 0);
  rr_thread : ∃ t, rd_polling_thread s = Ptr t ∧ w_heap w !! t = Some (OThread (Ptr r))
}.

Definition orphaned_semaphores (s : RTI_RS_KafkaStreamReader) (w w' : W) : Prop :=
  ∃ p0 q0, p0 ≠ q0 ∧ w_next w ≤ p0 ∧ w_next w ≤ q0
    ∧ rd_poll_sem s ≠ Ptr p0 ∧ rd_poll_sem s ≠ Ptr q0
    ∧ rd_read_sem s ≠ Ptr p0 ∧ rd_read_sem s ≠ Ptr q0
    ∧ w_heap w' !! p0 = Some (OSemaphore 0) ∧ w_heap w' !! q0 = Some (OSemaphore 0).

Lemma create_stream_reader_subscribe_wp r s rk k c w :
  heap_wf w → w_heap w !! r = Some (OReader s) → rd_rk s = Ptr rk →
  w_heap w !! rk = Some (OClient k c) →
  wp (create_stream_reader_subscribe (Ptr r))
     (λ _ w', grows r w w' ∧ w_heap w' = w_heap w)
     (λ _ w', grows r w w' ∧ w_heap w' = w_heap w) w.
Proof.
  intros Hwf Hr Hrk Hc. pose proof (heap_wf_lt _ _ _ Hwf Hr) as Hlt.
  unfold create_stream_reader_subscribe. k_run. rewrite Hrk. k_run.
  all: split; [grows_tac | heap_eq].
Qed.

Lemma create_stream_reader_threads_wp n servers r s ps w rk :
  heap_wf w → reader_allocated ps r s w → rd_rk s = Ptr rk →
  w_heap w !! rk = Some (OClient RD_KAFKA_CONSUMER (Conf (reader_conf servers ps) false)) →
  rd_poll_sem s = Null → rd_read_sem s = Null → rd_polling_thread s = Null →
  n ≤ w_next w → owned_above n s →
  wp (create_stream_reader_threads (Ptr r))
     (λ _ w', grows r w w' ∧ ∃ s', reader_ready ps servers r s' w'
        ∧ orphaned_semaphores s' w w')
     (λ _ w', at_error_label n r w w') w.
Proof.
  intros Hwf Hra Hrk Hc Hp Hre Hth Hn Hab. pose proof (ra_self _ _ _ _ Hra) as Hr.
  pose proof (heap_wf_lt _ _ _ Hwf Hr) as Hlt. pose proof (heap_wf_lt _ _ _ Hwf Hc) as Hlt2.
  assert (rk ≠ r) by congruence.
  assert (∀ w' p q t, grows r w w' → w_heap w' !! r = Some (OReader
     (set_polling_thread t (set_read_sem q (set_poll_sem p s)))) →
     points_to w' p is_semaphore → points_to w' q is_semaphore → (p = q → p = Null) →
     above n p → above n q → at_error_label n r w w') as Herr.
  { intros w' p q t Hg Hr' Hp' Hq' Hpq Hap Haq. split; [done|].
    exists (set_polling_thread t (set_read_sem q (set_poll_sem p s))).
    split; [|destruct Hab as (? & _ & _ & ? & ?); unfold owned_above; cbn [set_polling_thread set_read_sem set_poll_sem rd_rk rd_poll_sem rd_read_sem rd_sample_list rd_info_list]; by split_and!].
    eapply reader_allocated_cleanable; [by eapply reader_allocated_grows | | done..].
    cbn [rd_rk set_polling_thread set_read_sem set_poll_sem]. rewrite Hrk. eexists. split; [by eapply grows_lookup | done]. }
  assert (∀ w' p q t, grows r w w' → w_heap w' !! r = Some (OReader
     (set_polling_thread t (set_read_sem q (set_poll_sem p s)))) →
     reader_allocated ps r (set_polling_thread t (set_read_sem q (set_poll_sem p s))) w') as Hok.
  { intros w' p q t Hg Hr'. by eapply reader_allocated_grows. }
  destruct s as [rk0 rkm tp th psem rsem rt sl il ts pl]; cbn in Hrk, Hp, Hre, Hth; subst.
  unfold create_stream_reader_threads. k_run; unfold set_poll_sem, set_read_sem in *; cbn in *.
  all: try (eapply Herr; [grows_tac | heap_lookup | ..];
     first [done | eexists; split; [heap_lookup | done] | intros [=]; lia | cbn; lia]).
  all: split; [grows_tac|]; eexists; split;
    [ constructor; [eapply Hok; [grows_tac | heap_lookup] | ..]
    | exists (w_next w), (S (w_next w)); split_and!; cbn;
      first [lia | (intros [=]; lia) | heap_lookup ] ].
  all: cbn.
  all: match goal with
       | |- ∃ rk, Ptr _ = _ ∧ _ => eexists; split; [reflexivity | heap_lookup]
       | |- ∃ p q n, _ => do 3 eexists; split_and!;
           [reflexivity | reflexivity | lia | | heap_lookup | heap_lookup]; lia
       end.
Qed.

(** The outcome of creating a stream reader.  No block that existed before
    is touched.  Success: a reader ready to be used (and two semaphores
    nobody can reach any more).  Failure: the struct is freed, except where
    the creation of the sample info failed and the code returns at once. *)
Definition create_stream_reader_post (w : W) (conn : RTI_RS_KafkaConnection)
    (ps : properties) (p : ptr) (w' : W) : Prop :=
  heap_wf w' ∧ (∀ l, l < w_next w → w_heap w' !! l = w_heap w !! l) ∧
  match p with
  | Ptr r => w_next w ≤ r
      ∧ ∃ s, reader_ready ps (cn_bootstrap_servers conn) r s w'
      ∧ orphaned_semaphores s w w'
  | Null => w_heap w' !! w_next w = None
      ∨ ∃ s il, w_heap w' !! w_next w = Some (OReader s) ∧ rd_info_list s = Ptr il
        ∧ w_heap w' !! il = Some (OCell Null)
  | Wild => False
  end.

Lemma grows_fresh r w w1 w' :
  w_next w ≤ r → (∀ l, l < w_next w → w_heap w1 !! l = w_heap w !! l) →
  w_next w ≤ w_next w1 → grows r w1 w' → ∀ l, l < w_next w → w_heap w' !! l = w_heap w !! l.
Proof. intros Hr Hw Hn (_ & _ & Hu) l Hl. rewrite Hu, Hw; [done | done | lia | lia]. Qed.

Lemma lookup_without_reader n r s h l :
  owned_above n s → n ≤ r → l < n → without_reader r s h !! l = h !! l.
Proof.
  intros (Hrk & Hp & Hre & Hs & Hi) Hr Hl. unfold without_reader.
  assert (∀ p, above n p → p ≠ Ptr l) as Hne by (intros [|k|] Hk [=]; cbn in Hk; lia).
  rewrite lookup_delete_ne by lia. rewrite !lookup_delete_ptr.
  by rewrite !decide_False by auto.
Qed.

Lemma lookup_without_reader_next r s w l :
  heap_wf w → w_next w ≤ l → without_reader r s (w_heap w) !! l = None.
Proof.
  intros Hwf Hl. unfold without_reader. rewrite lookup_delete, !lookup_delete_ptr.
  repeat case_decide; [done..|]. by apply Hwf.
Qed.

(** The creator's label, reached from any of its steps. *)
Lemma reader_error_label {E} (R : E → W → Prop) w conn ps w1 w2 :
  (∀ l, l < w_next w → w_heap w1 !! l = w_heap w !! l) → w_next w < w_next w1 →
  at_error_label (w_next w) (w_next w) w1 w2 →
  wp (RTI_RS_KafkaConnection_cleanup_stream_reader (Ptr (w_next w)))
     (λ _, create_stream_reader_post w conn ps Null) R w2.
Proof.
  intros Hold Hn [Hg (s & Hc & Hab)].
  eapply wp_mono; [by apply cleanup_stream_reader_wp| |done].
  intros _ w' [Hn' Hh]. split; [|split].
  - intros l Hl. rewrite Hh. apply lookup_without_reader_next; [apply Hg | lia].
  - intros l Hl. rewrite Hh. erewrite lookup_without_reader by done.
    eapply grows_fresh; [..|done|done]; [done | done | lia].
  - left. rewrite Hh. unfold without_reader. apply lookup_delete_eq.
Qed.

Lemma at_error_label_grows n r w1 w2 w3 :
  grows r w1 w2 → at_error_label n r w2 w3 → at_error_label n r w1 w3.
Proof. intros Hg [Hg' ?]. split; [by eapply grows_trans | done]. Qed.

Lemma owned_above_weaken n m s : n ≤ m → owned_above m s → owned_above n s.
Proof.
  intros Hn. destruct s as [[] ? ? ? [] [] ? [] [] ? ?];
    unfold owned_above, above; cbn; lia.
Qed.

(** Everything after the allocations. *)
Lemma create_stream_reader_rest_wp n cn conn r s ps w :
  heap_wf w → reader_allocated ps r s w → w_heap w !! cn = Some (OConnection conn) →
  rd_rk s = Null → rd_poll_sem s = Null → rd_read_sem s = Null → rd_polling_thread s = Null →
  n ≤ w_next w → owned_above n s →
  wp (create_stream_reader_client (Ptr cn) (Ptr r) ps;;
      create_stream_reader_subscribe (Ptr r);;
      create_stream_reader_threads (Ptr r);;
      mret (Ptr r))
     (λ p w', p = Ptr r ∧ grows r w w' ∧ ∃ s', reader_ready ps (cn_bootstrap_servers conn) r s' w'
        ∧ orphaned_semaphores s' w w')
     (λ _ w', at_error_label n r w w') w.
Proof.
  intros Hwf Hra Hcn Hrk Hp Hre Hth Hn Hab.
  wp_step. eapply wp_mono; [by eapply (create_stream_reader_client_wp n cn conn)| |done].
  intros _ w3 (Hg3 & s3 & rk & Hra3 & Hrk3 & Hcl & Hp3 & Hre3 & Hth3 & Hab3).
  pose proof (proj1 (proj2 Hg3)) as Hn3.
  wp_step. eapply wp_mono; [eapply create_stream_reader_subscribe_wp;
    [apply Hg3 | apply Hra3 | done | done]| |].
  all: intros _ w4 [Hg4 Hh4]; pose proof (proj1 (proj2 Hg4)) as Hn4.
  all: assert (reader_allocated ps r s3 w4) as Hra4
    by (eapply reader_allocated_grows; [apply Hg3 | done | done | rewrite Hh4; apply Hra3 |
        by unfold same_arrays]).
  - wp_step. eapply wp_mono; [eapply (create_stream_reader_threads_wp n
      (cn_bootstrap_servers conn) _ s3 ps _ rk)| |]; rewrite ?Hh4; try done; [apply Hg4|lia|..].
    + intros _ w5 (Hg5 & s5 & Hrr & p0 & q0 & ? & ? & ? & Hor). wp_step.
      split; [done|]. split; [by eapply grows_trans; [|eapply grows_trans]|].
      exists s5. split; [done|]. exists p0, q0. split_and!; try lia; apply Hor.
    + intros [] w5 H5. do 2 (eapply at_error_label_grows; [eassumption|]). done.
  - split; [by eapply grows_trans|]. exists s3. split; [|done].
    eapply reader_allocated_cleanable; [done | | by rewrite ?Hp3, ?Hre3..].
    rewrite Hrk3. eexists. rewrite Hh4. by split.
Qed.

Lemma create_stream_reader_wp {E} (R : E → W → Prop) w cn conn ps :
  heap_wf w → w_heap w !! cn = Some (OConnection conn) →
  (answer (w_ext w) (QCalloc "RTI_RS_KafkaStreamReader")).1 ≠ 0%Z →
  wp (RTI_RS_KafkaConnection_create_stream_reader (Ptr cn) ps)
    (create_stream_reader_post w conn ps) R w.
Proof.
  intros Hwf Hcn Hcalloc. unfold RTI_RS_KafkaConnection_create_stream_reader.
  pose proof (heap_wf_lt _ _ _ Hwf Hcn) as Hlt.
  do 3 k_step.
  set (w1 := World _ _ _ _).
  assert (∀ l, l < w_next w → w_heap w1 !! l = w_heap w !! l) as Hold
    by (intros l Hl; unfold w1; heap_lookup).
  assert (heap_wf w1) as Hwf1 by (unfold w1; heap_wf_tac).
  assert (w_next w1 = S (w_next w)) as Hn1 by done.
  assert (∀ w3, at_error_label (w_next w) (w_next w) w1 w3 →
    wp (RTI_RS_KafkaConnection_cleanup_stream_reader (Ptr (w_next w));; mret Null)
       (create_stream_reader_post w conn ps) R w3) as Herr.
  { intros w3 H3. wp_step. by eapply reader_error_label; [done | lia |]. }
  k_step. eapply wp_mono; [apply create_stream_reader_alloc_wp; [done | unfold w1; heap_lookup]| |].
  2: { intros _ w2 [Hg (s & Hc & Hab)]. apply Herr. split; [done|]. exists s. split; [done|].
       by eapply owned_above_weaken; [|exact Hab]; lia. }
  intros [] w2 [Hg2 Hpost]; cbn beta iota in Hpost |- *;
    pose proof (proj1 (proj2 Hg2)) as Hn2.
  - destruct Hpost as (s2 & Hra & Hrk & Hp & Hre & Hth & Hab).
    eapply wp_mono; [eapply (create_stream_reader_rest_wp (w_next w) cn conn)| |];
      try done; [apply Hg2 | | lia | by eapply owned_above_weaken; [|exact Hab]; lia | |].
    + destruct Hg2 as (_ & _ & Hu). rewrite Hu, Hold; [done | lia | lia | lia].
    + intros _ w5 (-> & Hg5 & s5 & Hrr & p0 & q0 & ? & ? & ? & Hor).
      split; [apply Hg5|]. split; [|split; [lia|]].
      * eapply (grows_fresh (w_next w) w w1); [done | done | lia | by eapply grows_trans].
      * exists s5. split; [done|]. exists p0, q0. split_and!; try lia; apply Hor.
    + intros [] w5 H5. apply Herr. by eapply at_error_label_grows.
  - wp_step. split; [apply Hg2|]. split; [|by right].
    eapply (grows_fresh (w_next w) w w1); [done | done | lia | done].
Qed.


(** The same oversight as in the writer's creator: a failed allocation
    of the struct reaches the label, whose cleanup dereferences NULL. *)
Theorem create_stream_reader_calloc_fault w cn ps :
  (answer (w_ext w) (QCalloc "RTI_RS_KafkaStreamReader")).1 = 0%Z →
  RTI_RS_KafkaConnection_create_stream_reader (E := Empty_set) (Ptr cn) ps w
  = Fault NullDeref.
Proof.
  intros Hcalloc. unfold RTI_RS_KafkaConnection_create_stream_reader, new, labelled.
  unfold mbind, M_bind, call. rewrite Hcalloc. reflexivity.
Qed.

(** Deleting a ready reader stops the polling thread before it closes
    the consumer, closes the consumer before it destroys it, and frees the
    thread and every block the struct names, and only those: the preallocated
    sample info (like the sample and the type support) stays allocated. *)
Theorem delete_stream_reader_spec w r s ps servers :
  reader_ready ps servers r s w →
  (answer (w_ext w) QThreadStopAndDelete).1 ≠ 0%Z →
  wp (RTI_RS_KafkaConnection_delete_stream_reader (E := Empty_set) (Ptr r))
    (λ _ w', w_heap w' = delete_ptr (rd_polling_thread s) (without_reader r s (w_heap w))
       ∧ w_trace w' = w_trace w ++
           [QThreadStopAndDelete; QConsumerClose; QDestroy RD_KAFKA_CONSUMER;
            QOctetSeqFinalize; QSemaphoreDelete; QSemaphoreDelete]
       ∧ ∃ il i, rd_info_list s = Ptr il ∧ w_heap w !! il = Some (OCell (Ptr i))
           ∧ w_heap w' !! i = Some (OSampleInfo true))
    no_jump w.
Proof.
  intros [[Hr (sl & il & i & d & Hsl & Hil & Hne & H1 & H2 & H3) _ _ _]
    (rk & Hrk & Hc) (p & q & n & Hp & Hq & Hpq & Hn & H4 & H5) (t & Hth & H6)] Hstop.
  distinct_blocks.
  destruct s as [rk0 rkm tp th psem rsem rt sll ill ts pl]; cbn in Hsl, Hil, Hrk, Hp, Hq, Hth; subst.
  unfold RTI_RS_KafkaConnection_delete_stream_reader,
    RTI_RS_KafkaConnection_cleanup_stream_reader, set_run_thread, set_polling_thread.
  k_run.
  2: { exfalso. match goal with H : answer _ QThreadStopAndDelete = _ |- _ =>
         rewrite H in Hstop end. done. }
  unfold without_reader. cbn [delete_ptr rd_rk rd_poll_sem rd_read_sem rd_sample_list rd_info_list].
  split; [heap_eq|]. split; [by rewrite <- !app_assoc|]. 
  exists il, i. split_and!; [done | done | heap_lookup].
Qed.

End theorems.
