(* ===== verification/KafkaAdapter.v ===== *)
(** KafkaAdapter.c: the adapter plugin's entry point, its table of callbacks,
    and the connections it creates. *)
From Stdlib Require Import ZArith Lia.
From stdpp Require Import base gmap strings list fin_maps.
From S2P Require Import Prelude KafkaTypes KafkaConnection.

#[local] Open Scope string_scope.
#[local] Open Scope list_scope.
#[local] Open Scope nat_scope.

(** RTI_RoutingServiceAdapterPlugin_initialize, a function of the Routing
    Service SDK: some default value of the struct. *)
Class AdapterApi := adapter_plugin_initialize : adapter_plugin → adapter_plugin.

(** KAFKA_ADAPTER_VERSION *)
Definition KAFKA_ADAPTER_VERSION : Z * Z * Z * Z := (1, 0, 0, 0)%Z.

Definition zero_plugin : adapter_plugin :=
  AdapterPlugin (0, 0, 0, 0)%Z None None None None None None None None None None None None None.

(** The table as the entry point fills it: every field of the record is
    assigned, after the SDK's initializer ran. *)
Definition assign_function_pointers (_ : adapter_plugin) : adapter_plugin := {|
  ap_plugin_version := KAFKA_ADAPTER_VERSION;
  adapter_plugin_delete := Some FnPluginDelete;
  adapter_plugin_create_connection := Some FnCreateConnection;
  adapter_plugin_delete_connection := Some FnDeleteConnection;
  connection_create_session := None;
  connection_delete_session := None;
  connection_create_stream_writer := Some FnCreateStreamWriter;
  connection_delete_stream_writer := Some FnDeleteStreamWriter;
  connection_create_stream_reader := Some FnCreateStreamReader;
  connection_delete_stream_reader := Some FnDeleteStreamReader;
  stream_writer_write := Some FnWrite;
  stream_reader_read := Some FnRead;
  stream_reader_return_loan := Some FnReturnLoan;
  stream_reader_update := None
|}.

Section operations.
Context {X : Type} `{!Env X kcall} {PA : PropertyApi} {AA : AdapterApi}.
#[local] Abbreviation W := (world kobj X kcall).
Context {E : Type}.

Definition RTI_RS_Kafka_AdapterPlugin_create (ps : properties) : M W E ptr :=
  adapter ← new (QCalloc "RTI_RS_KafkaAdapterPlugin") (OAdapter zero_plugin);
  b ← is_null adapter;
  if b : bool then
    set_error "RTI_RS_KafkaAdpterPlugin memory allocation error";; mret Null
  else
    store adapter (OAdapter (assign_function_pointers (adapter_plugin_initialize zero_plugin)));;
    mret adapter.

Definition RTI_RS_KafkaAdapterPlugin_delete (adapter : ptr) : M W E () := free adapter.

Definition RTI_RS_KafkaAdapterPlugin_create_connection (adapter : ptr) (ps : properties)
    : M W E ptr :=
  connection ← new (QCalloc "RTI_RS_KafkaConnection") (OConnection zero_connection);
  b ← is_null connection;
  if b : bool then
    set_error "RTI_RS_KafkaConnection memory allocation error";; mret Null
  else
    store connection (OConnection (KafkaConnection adapter None));;
    let bootstrap_servers := lookup_property ps "bootstrap.servers" in
    store connection (OConnection (KafkaConnection adapter bootstrap_servers));;
    match bootstrap_servers with
    | None => set_error "bootstrap.servers missing property brokers";; mret Null
    | Some _ => mret connection
    end.

Definition RTI_RS_KafkaAdapterPlugin_delete_connection (adapter connection : ptr)
    : M W E () := free connection.
End operations.

Section theorems.
Context {X : Type} `{!Env X kcall} {PA : PropertyApi} {AA : AdapterApi}.
#[local] Abbreviation W := (world kobj X kcall).
Implicit Types w : W.

(** The entry point either fails without a trace in the heap or returns
    one fresh block whose table has exactly the callbacks the adapter
    implements (no sessions, no update), whatever the SDK's initializer put
    there; deleting it restores the heap. *)
Theorem plugin_create_delete w ps :
  heap_wf w →
  wp (p ← RTI_RS_Kafka_AdapterPlugin_create (E := Empty_set) ps;
      a ← (if decide (p = Null) then mret None else o ← load p; mret (Some o));
      RTI_RS_KafkaAdapterPlugin_delete p;; mret (p, a))
    (λ pa w', w_heap w' = w_heap w
       ∧ (pa.1 = Null ↔ (answer (w_ext w) (QCalloc "RTI_RS_KafkaAdapterPlugin")).1 = 0%Z)
       ∧ (pa.1 ≠ Null → ∃ a, pa.2 = Some (OAdapter a)
            ∧ ap_plugin_version a = (1, 0, 0, 0)%Z
            ∧ connection_create_session a = None ∧ connection_delete_session a = None
            ∧ stream_reader_update a = None
            ∧ stream_writer_write a = Some FnWrite
            ∧ stream_reader_read a = Some FnRead
            ∧ stream_reader_return_loan a = Some FnReturnLoan
            ∧ connection_create_stream_reader a = Some FnCreateStreamReader
            ∧ connection_delete_stream_reader a = Some FnDeleteStreamReader
            ∧ connection_create_stream_writer a = Some FnCreateStreamWriter
            ∧ connection_delete_stream_writer a = Some FnDeleteStreamWriter))
    no_jump w.
Proof.
  intros Hwf. unfold RTI_RS_Kafka_AdapterPlugin_create, RTI_RS_KafkaAdapterPlugin_delete.
  k_run; try (exfalso; congruence).
  - split; [done|]. split; [by split | done].
  - split; [heap_eq|]. split; [by split | intros _]. by eexists.
Qed.

(** A connection is created exactly when the allocation succeeds and
    the bootstrap servers are configured; it remembers both, and deleting it
    restores the heap.  Without the property the caller gets NULL and the
    block stays allocated. *)
Theorem create_connection_spec w adapter ps :
  heap_wf w →
  wp (RTI_RS_KafkaAdapterPlugin_create_connection (E := Empty_set) adapter ps)
    (λ p w',
       if decide ((answer (w_ext w) (QCalloc "RTI_RS_KafkaConnection")).1 = 0%Z)
       then p = Null ∧ w_heap w' = w_heap w
       else ∃ cn, w_heap w !! cn = None
         ∧ w_heap w' = <[cn := OConnection (KafkaConnection adapter
                                 (lookup_property ps "bootstrap.servers"))]> (w_heap w)
         ∧ p = match lookup_property ps "bootstrap.servers" with Some _ => Ptr cn | None => Null end
         ∧ wp (RTI_RS_KafkaAdapterPlugin_delete_connection (E := Empty_set) adapter (Ptr cn))
             (λ _ w'', w_heap w'' = w_heap w) no_jump w')
    no_jump w.
Proof.
  intros Hwf. unfold RTI_RS_KafkaAdapterPlugin_create_connection. k_run.
  - by rewrite decide_True.
  - destruct (lookup_property ps "bootstrap.servers") as [servers|] eqn:Hs; k_run;
      rewrite decide_False by done; exists (w_next w);
      (split; [by apply heap_wf_fresh|]); (split; [heap_eq|]); (split; [done|]);
      unfold RTI_RS_KafkaAdapterPlugin_delete_connection; k_run; heap_eq.
Qed.
End theorems.
