(* ===== verification/KafkaWriter.v ===== *)
(** KafkaStreamWriter.c: the write callback, from the samples of the
    forwarding engine to the producer queue of librdkafka. *)
From Stdlib Require Import ZArith Lia.
From stdpp Require Import base gmap strings list fin_maps.
From S2P Require Import Prelude KafkaTypes.

#[local] Open Scope string_scope.
#[local] Open Scope list_scope.
#[local] Open Scope nat_scope.

(** ** The octet sequence the callback reads payloads into

    DDS_DynamicData_get_octet_seq copies the member into the sequence, whose
    buffer is reused when it is large enough: [octet_seq_copy buf data] is the
    contents of the whole buffer afterwards, [buf] its contents before (the
    empty buffer of a fresh sequence is a NULL pointer). *)
Class OctetSeqApi := octet_seq_copy : list Z → list Z → list Z.

(** The documented effect: the elements of the sequence are the member's. *)
Class OctetSeqLaws (C : OctetSeqApi) :=
  octet_seq_copy_prefix : ∀ buf data : list Z, data `prefix_of` octet_seq_copy buf data.

(** A sequence that grows to the exact size and never shrinks. *)
Definition reuse_buffer (buf data : list Z) : list Z := data ++ drop (length data) buf.

#[export] Instance reuse_buffer_laws : OctetSeqLaws reuse_buffer.
Proof. intros buf data. unfold octet_seq_copy, reuse_buffer. by eexists. Qed.

(** strlen: the index of the first NUL; [None] when the scan leaves the buffer. *)
Fixpoint strlen (buf : list Z) : option nat :=
  match buf with
  | [] => None
  | b :: buf' => if decide (b = 0%Z) then Some 0 else S <$> strlen buf'
  end.

Section operations.
Context {X : Type} `{!Env X kcall} {OA : OctetSeqApi}.
#[local] Abbreviation W := (world kobj X kcall).
Context {E : Type}.

(** The return code and the buffer after DDS_DynamicData_get_octet_seq. *)
Definition DDS_DynamicData_get_octet_seq (sample : ptr) (buf : list Z) (member : string)
    : M W E (Z * list Z) :=
  d ← load_dynamic_data sample;
  r ← call (QGetOctetSeq member);
  mret (r, if (r =? DDS_RETCODE_OK)%Z then octet_seq_copy buf d else buf).

(** rd_kafka_producev with the arguments both call sites pass. *)
Definition producev (self : ptr) (buffer : list Z) (len : nat) : M W E Z :=
  s ← load_writer self;
  load_client (wr_rk s);;
  call (QProducev (wr_topic s) (take len buffer)).

Definition poll (self : ptr) (timeout_ms : Z) : M W E () :=
  s ← load_writer self;
  load_client (wr_rk s);;
  call (QPoll timeout_ms);; mret ().

(** while (err == RD_KAFKA_RESP_ERR__QUEUE_FULL) ...  Running out of fuel
    stands for a loop that is still running. *)
Fixpoint retry (fuel : nat) (self : ptr) (buffer : list Z) (len : nat) (err : Z) : M W E Z :=
  if (err =? RD_KAFKA_RESP_ERR__QUEUE_FULL)%Z then
    match fuel with
    | 0 => hang
    | S fuel =>
        poll self 10;;
        err ← producev self buffer len;
        retry fuel self buffer len err
    end
  else mret err.

(** One iteration of the loop over the samples, from the buffer left by the
    previous one to the buffer it leaves. *)
Definition write_sample (fuel : nat) (self sample : ptr) (buffer_seq : list Z)
    : M W E (list Z) :=
  rb ← DDS_DynamicData_get_octet_seq sample buffer_seq "payload.data";
  let '(retcode, buffer_seq) := (rb.1, rb.2) in
  if negb (retcode =? DDS_RETCODE_OK)%Z then mret buffer_seq
  else match buffer_seq with
  | [] => mret buffer_seq
  | _ =>
      match strlen buffer_seq with
      | None => fail OutOfBounds
      | Some len =>
          err ← producev self buffer_seq len;
          (if negb (err =? RD_KAFKA_RESP_ERR_NO_ERROR)%Z
           then retry fuel self buffer_seq len err;; mret ()
           else mret ());;
          poll self 0;;
          mret buffer_seq
      end
  end.

Fixpoint write_samples (fuel : nat) (self : ptr) (samples : list ptr) (buffer_seq : list Z)
    : M W E () :=
  match samples with
  | [] => mret ()
  | sample :: samples' =>
      buffer_seq ← write_sample fuel self sample buffer_seq;
      write_samples fuel self samples' buffer_seq
  end.

Definition RTI_RS_KafkaStreamWriter_write (fuel : nat) (self : ptr) (sample_list : list ptr)
    : M W E nat :=
  write_samples fuel self sample_list [];; mret (length sample_list).
End operations.

(** * Specification *)

(** The part of a payload the callback sends. *)
Fixpoint until_nul (d : list Z) : list Z :=
  match d with
  | [] => []
  | b :: d' => if decide (b = 0%Z) then [] else b :: until_nul d'
  end.

Section replay.
Context {X : Type} `{!Env X kcall}.

(** The environment after a sequence of calls. *)
Fixpoint after (x : X) (qs : list kcall) : X :=
  match qs with
  | [] => x
  | q :: qs' => after (answer x q).2 qs'
  end.

(** The messages librdkafka accepted during a sequence of calls. *)
Fixpoint accepted (x : X) (qs : list kcall) : list (option string * list Z) :=
  match qs with
  | [] => []
  | q :: qs' =>
      match q with
      | QProducev t d =>
          if ((answer x q).1 =? RD_KAFKA_RESP_ERR_NO_ERROR)%Z
          then (t, d) :: accepted (answer x q).2 qs' else accepted (answer x q).2 qs'
      | _ => accepted (answer x q).2 qs'
      end
  end.

Lemma after_app x qs qs' : after x (qs ++ qs') = after (after x qs) qs'.
Proof. revert x. induction qs; intros x; cbn; auto. Qed.

Lemma accepted_app x qs qs' :
  accepted x (qs ++ qs') = accepted x qs ++ accepted (after x qs) qs'.
Proof.
  revert x. induction qs as [|q qs IH]; intros x; cbn; [done|].
  destruct q; rewrite ?IH; try done. by case_match.
Qed.

(** A producer queue that drains: [bound] polls are enough to make room. *)
Definition queue_drains (room : X → nat) (bound : nat) : Prop :=
  (∀ x, room x ≤ bound) ∧
  ∀ x t d, (answer x (QProducev t d)).1 = RD_KAFKA_RESP_ERR__QUEUE_FULL →
    room (answer (answer x (QProducev t d)).2 (QPoll 10)).2 < room x.

(** The environment refuses a message only for lack of room, and always
    gives access to the payload. *)
Definition healthy : Prop :=
  (∀ x m, (answer x (QGetOctetSeq m)).1 = DDS_RETCODE_OK) ∧
  ∀ x t d, (answer x (QProducev t d)).1 = RD_KAFKA_RESP_ERR_NO_ERROR
    ∨ (answer x (QProducev t d)).1 = RD_KAFKA_RESP_ERR__QUEUE_FULL.
End replay.

Lemma strlen_prefix d buf :
  (0%Z ∈ d) → d `prefix_of` buf →
  ∃ len, strlen buf = Some len ∧ take len buf = until_nul d.
Proof.
  intros Hin [k ->]. induction d as [|b d IH]; [set_solver|]. cbn.
  case_decide as Hb; [by exists 0|].
  destruct IH as (len & -> & Hlen); [set_solver|]. exists (S len). cbn. by rewrite Hlen.
Qed.

Lemma until_nul_no_nul d : (0%Z ∉ d) → until_nul d = d.
Proof.
  induction d as [|b d IH]; [done|]. intros Hn. cbn.
  rewrite decide_False by set_solver. rewrite IH; [done | set_solver].
Qed.

Lemma until_nul_string d : (0%Z ∉ d) → until_nul (d ++ [0%Z]) = d.
Proof.
  induction d as [|b d IH]; [done|]. intros Hn. cbn.
  rewrite decide_False by set_solver. rewrite IH; [done | set_solver].
Qed.

Lemma until_nul_app d k : (0%Z ∉ d) → until_nul (d ++ k) = d ++ until_nul k.
Proof.
  induction d as [|b d IH]; [done|]. intros Hn. cbn.
  rewrite decide_False by set_solver. rewrite IH; [done | set_solver].
Qed.

Section theorems.
Context {X : Type} `{!Env X kcall} {OA : OctetSeqApi}.
#[local] Abbreviation W := (world kobj X kcall).
Implicit Types w : W.

(** From [w] to [w'] only external calls were made, and librdkafka accepted
    exactly the messages [ms], in that order. *)
Definition sends w w' (ms : list (option string * list Z)) : Prop :=
  w_next w' = w_next w ∧ w_heap w' = w_heap w ∧
  ∃ qs, w_trace w' = w_trace w ++ qs ∧ w_ext w' = after (w_ext w) qs
    ∧ accepted (w_ext w) qs = ms.

Lemma sends_trans w1 w2 w3 ms ms' :
  sends w1 w2 ms → sends w2 w3 ms' → sends w1 w3 (ms ++ ms').
Proof.
  intros (Hn & Hh & qs & Ht & Hx & Ha) (Hn' & Hh' & qs' & Ht' & Hx' & Ha').
  split_and!; [congruence | congruence |]. exists (qs ++ qs').
  split_and!; [by rewrite Ht', Ht, app_assoc | by rewrite after_app, <- Hx |].
  by rewrite accepted_app, <- Hx, Ha, Ha'.
Qed.

Lemma sends_refl w : sends w w [].
Proof. split_and!; [done..|]. exists []. by rewrite app_nil_r. Qed.

(** A writer struct with a live producer. *)
Definition live_writer w (self : nat) (topic : option string) : Prop :=
  ∃ rk c, w_heap w !! self = Some (OWriter (KafkaStreamWriter (Ptr rk) topic))
    ∧ w_heap w !! rk = Some (OClient RD_KAFKA_PRODUCER c).

Lemma live_writer_sends w w' self topic ms :
  sends w w' ms → live_writer w self topic → live_writer w' self topic.
Proof. intros (_ & Hh & _). unfold live_writer. by rewrite Hh. Qed.

Lemma producev_wp {E} (R : E → W → Prop) self topic buf len w Q :
  live_writer w self topic →
  (∀ w', sends w w'
     (if ((answer (w_ext w) (QProducev topic (take len buf))).1 =? 0)%Z
      then [(topic, take len buf)] else []) →
     w_ext w' = (answer (w_ext w) (QProducev topic (take len buf))).2 →
     Q (answer (w_ext w) (QProducev topic (take len buf))).1 w') →
  wp (producev (Ptr self) buf len) Q R w.
Proof.
  intros (rk & c & Hs & Hrk) HQ. unfold producev. k_run. rewrite Hans in HQ. cbn [fst snd] in HQ.
  apply HQ; [|done]. split_and!; [done..|]. exists [QProducev topic (take len buf)].
  split_and!; [done | | ]; cbn [after accepted]; rewrite Hans; [done|].
  cbn [fst snd]. change RD_KAFKA_RESP_ERR_NO_ERROR with 0%Z. by case_match.
Qed.

Lemma poll_wp {E} (R : E → W → Prop) self topic t w Q :
  live_writer w self topic →
  (∀ w', sends w w' [] → w_ext w' = (answer (w_ext w) (QPoll t)).2 → Q () w') →
  wp (poll (Ptr self) t) Q R w.
Proof.
  intros (rk & c & Hs & Hrk) HQ. unfold poll. k_run. rewrite Hans in HQ. cbn [fst snd] in HQ.
  apply HQ; [|done]. split_and!; [done..|]. exists [QPoll t].
  cbn [after accepted]. by rewrite Hans.
Qed.

(** The message is accepted by the call or by a later one, never by both. *)
Lemma retry_messages {A} (a r : Z) (m : A) :
  r ≠ RD_KAFKA_RESP_ERR__QUEUE_FULL → (a ≠ RD_KAFKA_RESP_ERR__QUEUE_FULL → r = a) →
  (if (a =? 0)%Z then [m] else []) ++
    (if decide (r = 0%Z ∧ a = RD_KAFKA_RESP_ERR__QUEUE_FULL) then [m] else [])
  = if decide (r = 0%Z ∧ RD_KAFKA_RESP_ERR__QUEUE_FULL = RD_KAFKA_RESP_ERR__QUEUE_FULL)
    then [m] else [].
Proof.
  intros Hr Ha. destruct (decide (a = RD_KAFKA_RESP_ERR__QUEUE_FULL)) as [->|Hne].
  - cbn. repeat case_decide; naive_solver.
  - rewrite Ha by done. destruct (Z.eqb_spec a 0); repeat case_decide; naive_solver.
Qed.

Section draining.
Context (room : X → nat) (bound : nat) (Hdrain : queue_drains room bound).

(** The retry loop ends once the queue has room, with the message accepted
    at most once. *)
Lemma retry_wp {E} (R : E → W → Prop) self topic buf len fuel err w :
  live_writer w self topic →
  (err = RD_KAFKA_RESP_ERR__QUEUE_FULL → room (answer (w_ext w) (QPoll 10)).2 < fuel) →
  wp (retry fuel (Ptr self) buf len err)
     (λ r w', r ≠ RD_KAFKA_RESP_ERR__QUEUE_FULL
        ∧ (err ≠ RD_KAFKA_RESP_ERR__QUEUE_FULL → r = err)
        ∧ sends w w' (if decide (r = 0%Z ∧ err = RD_KAFKA_RESP_ERR__QUEUE_FULL)
                      then [(topic, take len buf)] else [])
        ∧ (@healthy X _ → err = 0%Z ∨ err = RD_KAFKA_RESP_ERR__QUEUE_FULL → r = 0%Z)) R w.
Proof.
  revert err w. induction fuel as [|fuel IH]; intros err w Hlive Hroom; cbn [retry];
    destruct (Z.eqb_spec err RD_KAFKA_RESP_ERR__QUEUE_FULL) as [->|Hne];
    first [ specialize (Hroom eq_refl)
          | wp_run; rewrite decide_False by naive_solver;
            split_and!; [done | done | apply sends_refl | naive_solver] ]; [lia|].
  wp_step. eapply poll_wp; [done|]. intros w1 Hs1 Hx1.
  wp_step. eapply producev_wp; [by eapply live_writer_sends|]. intros w2 Hs2 Hx2.
  set (ans := answer (w_ext w1) (QProducev topic (take len buf))) in *.
  eapply wp_mono; [apply IH| |done].
  - by do 2 (eapply live_writer_sends; [eassumption|]).
  - intros Hfull. rewrite Hx2. pose proof (proj2 Hdrain _ _ _ Hfull) as Hlt.
    unfold ans in *. rewrite Hx1 in *. lia.
  - intros r w' (Hr & Heq & Hs & Hh). split_and!; [done | done | |].
    + eapply sends_trans in Hs; [|eapply sends_trans; [exact Hs1 | exact Hs2]].
      cbn [app] in Hs. by rewrite retry_messages in Hs by done.
    + intros Hhe _. apply Hh; [done|]. apply (proj2 Hhe).
Qed.
  (** One sample: at most its own message is accepted, and exactly that one
    in a healthy environment. *)
Lemma write_sample_wp {E} (R : E → W → Prop) fuel self topic sample d buf w :
  bound < fuel → live_writer w self topic →
  w_heap w !! sample = Some (ODynamicData d) → (0%Z ∈ octet_seq_copy buf d) →
  wp (write_sample fuel (Ptr self) (Ptr sample) buf)
     (λ buf' w', ∃ ms, sends w w' ms
        ∧ ms `sublist_of` [(topic, until_nul (octet_seq_copy buf d))]
        ∧ (@healthy X _ → buf' = octet_seq_copy buf d
             ∧ ms = [(topic, until_nul (octet_seq_copy buf d))])) R w.
Proof.
  intros Hfuel Hlive Hd Hnul. unfold write_sample, DDS_DynamicData_get_octet_seq. k_run.
  assert (∀ w', sends w (World (w_next w) (w_heap w) x' (w_trace w ++ [QGetOctetSeq "payload.data"])) []) as Hget.
  { intros _. split_and!; [done..|]. exists [QGetOctetSeq "payload.data"].
    cbn [after accepted]. by rewrite Hans. }
  specialize (Hget w).
  destruct (Z.eqb_spec r DDS_RETCODE_OK) as [->|Hr]; cbn [negb].
  2: { wp_run. exists []. split_and!; [done | by apply sublist_nil_l |].
       intros [Hg _]. by specialize (Hg (w_ext w) "payload.data"); rewrite Hans in Hg. }
  destruct (strlen_prefix _ _ Hnul (reflexivity _)) as (len & Hlen & Hmsg).
  destruct (octet_seq_copy buf d) as [|b0 bs] eqn:Hbuf; [by apply elem_of_nil in Hnul|].
  rewrite <- Hbuf in *. rewrite Hlen.
  wp_step. eapply producev_wp; [by eapply live_writer_sends|]. rewrite Hmsg. wsimpl.
  intros w2 Hs2 Hx2. wp_step.
  set (ans := answer x' (QProducev topic (until_nul (octet_seq_copy buf d)))) in *.
  eapply (wp_mono _ (λ _ w3, ∃ ms, sends w w3 ms
        ∧ ms `sublist_of` [(topic, until_nul (octet_seq_copy buf d))]
        ∧ (@healthy X _ → ms = [(topic, until_nul (octet_seq_copy buf d))])) _ R); [| |done].
  - destruct (Z.eqb_spec ans.1 0) as [E0|E0]; change RD_KAFKA_RESP_ERR_NO_ERROR with 0%Z.
    + rewrite E0. cbn [negb Z.eqb]. wp_run. eexists.
      split; [by eapply sends_trans|]. by split.
    + destruct (Z.eqb_spec ans.1 0) as [?|_]; [done|]. cbn [negb].
      wp_step. eapply wp_mono; [eapply (retry_wp _ self topic)| |done].
      * by do 2 (eapply live_writer_sends; [eassumption|]).
      * intros Hfull. pose proof (proj1 Hdrain (answer (w_ext w2) (QPoll 10)).2). lia.
      * intros r w3 (Hr & Heq & Hs3 & Hh). wp_run. rewrite Hmsg in Hs3. eexists.
        split; [eapply sends_trans; [exact Hget | eapply sends_trans; [exact Hs2 | exact Hs3]]|].
        cbn [app]. split; [by case_decide; [|apply sublist_nil_l]|].
        intros Hhe. pose proof (proj2 Hhe x' topic (until_nul (octet_seq_copy buf d))) as Hans2.
        fold ans in Hans2. rewrite decide_True; [done|]. naive_solver.
  - intros _ w3 (ms & Hs3 & Hms & Hh). wp_step. eapply poll_wp; [by eapply live_writer_sends|].
    intros w4 Hs4 _. wp_run. exists (ms ++ []). split; [by eapply sends_trans|].
    rewrite app_nil_r. split; [done|]. intros Hhe. by split; [|apply Hh].
Qed.

(** The samples of one call, all of them NUL-terminated. *)
Lemma write_samples_wp {E} (R : E → W → Prop) fuel self topic samples ds buf w :
  OctetSeqLaws OA →
  bound < fuel → live_writer w self topic →
  Forall2 (λ p d, ∃ l, p = Ptr l ∧ w_heap w !! l = Some (ODynamicData d) ∧ 0%Z ∈ d)
    samples ds →
  wp (write_samples fuel (Ptr self) samples buf)
     (λ _ w', ∃ ms, sends w w' ms
        ∧ ms `sublist_of` ((λ d, (topic, until_nul d)) <$> ds)
        ∧ (@healthy X _ → ms = (λ d, (topic, until_nul d)) <$> ds)) R w.
Proof.
  intros Hlaw Hfuel Hlive Hds. revert ds buf w Hlive Hds.
  induction samples as [|p samples IH]; intros ds buf w Hlive Hds; inversion Hds; subst; cbn [write_samples].
  { wp_run. exists []. split_and!; [apply sends_refl | done | done]. }
  match goal with H : ∃ l, _ |- _ => destruct H as (l & -> & Hl & Hnul) end.
  destruct (strlen_prefix _ _ Hnul (Hlaw buf y)) as (len & Hlen & Hmsg).
  assert (0%Z ∈ octet_seq_copy buf y) as Hnul'.
  { destruct (Hlaw buf y) as [k Hk]. rewrite Hk. set_solver. }
  assert (until_nul (octet_seq_copy buf y) = until_nul y) as Huntil.
  { destruct (strlen_prefix _ _ Hnul' (reflexivity _)) as (len' & Hlen' & Hmsg'). congruence. }
  wp_step. eapply wp_mono; [by eapply write_sample_wp| |done].
  intros buf' w1 (ms1 & Hs1 & Hsub1 & Hh1). rewrite Huntil in *.
  eapply wp_mono; [eapply IH| |done].
  - by eapply live_writer_sends.
  - destruct Hs1 as (_ & -> & _). done.
  - intros _ w2 (ms2 & Hs2 & Hsub2 & Hh2). exists (ms1 ++ ms2).
    split; [by eapply sends_trans|]. split; [by apply (sublist_app ms1 [_])|].
    intros Hhe. rewrite Hh2 by done. by destruct (Hh1 Hhe) as [_ ->].
Qed.



(** C7: the write callback returns the number of samples it was given,
    faults on none whose payload holds a NUL, changes no object, and hands
    librdkafka, in order and each at most once, the payloads up to their
    first NUL; every one of them when the queue only refuses for lack of
    room, however often it does. *)
Theorem write_delivers_in_order fuel self topic samples ds w :
  OctetSeqLaws OA →
  bound < fuel → live_writer w self topic →
  Forall2 (λ p d, ∃ l, p = Ptr l ∧ w_heap w !! l = Some (ODynamicData d) ∧ 0%Z ∈ d)
    samples ds →
  wp (RTI_RS_KafkaStreamWriter_write (E := Empty_set) fuel (Ptr self) samples)
     (λ n w', n = length samples ∧ w_heap w' = w_heap w
        ∧ ∃ qs, w_trace w' = w_trace w ++ qs
          ∧ accepted (w_ext w) qs `sublist_of` ((λ d, (topic, until_nul d)) <$> ds)
          ∧ (@healthy X _ → accepted (w_ext w) qs = (λ d, (topic, until_nul d)) <$> ds))
     no_jump w.
Proof.
  intros. unfold RTI_RS_KafkaStreamWriter_write. wp_step.
  eapply wp_mono; [by eapply write_samples_wp| |done].
  intros _ w' (ms & (_ & Hh & qs & Ht & _ & <-) & Hsub & Hhe). wp_run.
  split_and!; [done | done |]. by exists qs.
Qed.

(** Strings arrive as they are: samples holding NUL-terminated
    strings without inner NUL produce exactly those strings. *)
Theorem write_strings_roundtrip fuel self topic samples strs w :
  OctetSeqLaws OA → @healthy X _ →
  bound < fuel → live_writer w self topic →
  Forall (λ s, 0%Z ∉ s) strs →
  Forall2 (λ p s, ∃ l, p = Ptr l ∧ w_heap w !! l = Some (ODynamicData (s ++ [0%Z])))
    samples strs →
  wp (RTI_RS_KafkaStreamWriter_write (E := Empty_set) fuel (Ptr self) samples)
     (λ n w', ∃ qs, w_trace w' = w_trace w ++ qs
          ∧ accepted (w_ext w) qs = (λ s, (topic, s)) <$> strs) no_jump w.
Proof.
  intros Hlaw Hhe Hf Hlive Hnul Hs. unfold RTI_RS_KafkaStreamWriter_write. wp_step.
  eapply wp_mono; [eapply (write_samples_wp _ _ _ _ _ ((λ s, s ++ [0%Z]) <$> strs)); try done| |done].
  - apply Forall2_fmap_r. eapply Forall2_impl; [exact Hs|].
    intros p s (l & -> & Hl). exists l. split_and!; [done | done | set_solver].
  - intros _ w' (ms & (_ & Hh & qs & Ht & _ & <-) & _ & Hall). wp_run.
    exists qs. split; [done|]. rewrite Hall by done. rewrite <- list_fmap_compose.
    apply list_fmap_ext. intros i s Hi. cbn. f_equal. apply until_nul_string.
    by eapply (Forall_lookup_1 _ _ _ _ Hnul).
Qed.

End draining.

(** A payload without NUL is not transmitted faithfully.  When it is
    the first of a call the scan for its end leaves the buffer. *)
Theorem write_overreads_binary_payload fuel self topic l d samples w :
  (octet_seq_copy [] d = d) → d ≠ [] → (0%Z ∉ d) →
  live_writer w self topic → w_heap w !! l = Some (ODynamicData d) →
  (answer (w_ext w) (QGetOctetSeq "payload.data")).1 = DDS_RETCODE_OK →
  RTI_RS_KafkaStreamWriter_write (E := Empty_set) fuel (Ptr self) (Ptr l :: samples) w
  = Fault OutOfBounds.
Proof.
  intros Hcopy Hne Hnul Hlive Hl Hget.
  assert (strlen d = None) as Hlen.
  { clear -Hnul. induction d as [|b d IH]; [done|]. cbn.
    rewrite decide_False by set_solver. rewrite IH; [done | set_solver]. }
  unfold RTI_RS_KafkaStreamWriter_write. cbn [write_samples].
  unfold write_sample, DDS_DynamicData_get_octet_seq, load_dynamic_data, load, call, mbind, M_bind.
  rewrite Hl. cbn [mret M_ret fst snd]. rewrite Hget. cbn [Z.eqb DDS_RETCODE_OK negb].
  rewrite Hcopy, Hlen. by destruct d.
Qed.

End theorems.

Section stale_bytes.
Context {X : Type} `{!Env X kcall}.
#[local] Abbreviation W := (world kobj X kcall).
Implicit Types w : W.

(** With a buffer that is reused between the samples of a call, a
    binary payload shorter than its predecessor is sent with the tail of the
    predecessor, up to its NUL, appended. *)
Theorem write_sends_stale_bytes room bound fuel self topic l1 l2 d1 d2 w :
  queue_drains room bound → healthy → bound < fuel → live_writer w self topic →
  w_heap w !! l1 = Some (ODynamicData d1) → w_heap w !! l2 = Some (ODynamicData d2) →
  (0%Z ∉ d2) → (0%Z ∈ drop (length d2) d1) →
  wp (RTI_RS_KafkaStreamWriter_write (OA := reuse_buffer) (E := Empty_set) fuel
        (Ptr self) [Ptr l1; Ptr l2])
     (λ n w', ∃ qs, w_trace w' = w_trace w ++ qs
        ∧ accepted (w_ext w) qs =
            [(topic, until_nul d1); (topic, d2 ++ until_nul (drop (length d2) d1))])
     no_jump w.
Proof.
  intros Hdrain Hhe Hf Hlive H1 H2 Hd2 Hd1.
  assert (0%Z ∈ reuse_buffer [] d1) as Hin1.
  { unfold octet_seq_copy, reuse_buffer. rewrite drop_nil, app_nil_r.
    rewrite <- (take_drop (length d2) d1). set_solver. }
  unfold RTI_RS_KafkaStreamWriter_write. wp_step. cbn [write_samples].
  wp_step. eapply wp_mono; [by eapply (write_sample_wp room bound Hdrain)| |done].
  intros buf w1 (ms1 & Hs1 & _ & Hh1). destruct (Hh1 Hhe) as [-> ->].
  assert (0%Z ∈ reuse_buffer
            (reuse_buffer [] d1) d2) as Hin2.
  { unfold octet_seq_copy, reuse_buffer. rewrite drop_nil, app_nil_r. set_solver. }
  wp_step. eapply wp_mono; [eapply (write_sample_wp room bound Hdrain); [done | | | exact Hin2]| |done].
  { by eapply live_writer_sends. }
  { destruct Hs1 as (_ & -> & _). done. }
  intros buf w2 (ms2 & Hs2 & _ & Hh2). destruct (Hh2 Hhe) as [_ ->].
  destruct (sends_trans _ _ _ _ _ Hs1 Hs2) as (_ & _ & qs & Ht & _ & Hacc). wp_run.
  exists qs. split; [done|]. rewrite Hacc. unfold octet_seq_copy, reuse_buffer.
  rewrite drop_nil, app_nil_r. cbn [app]. repeat f_equal. apply until_nul_app. done.
Qed.
End stale_bytes.

