(* ===== verification/KafkaReader.v ===== *)
(** KafkaStreamReader.c: the polling thread, the read and return_loan
    callbacks, and their interleavings. *)
From Stdlib Require Import ZArith Lia.
From stdpp Require Import base gmap strings list fin_maps relations.
From S2P Require Import Prelude KafkaTypes KafkaConnection.

#[local] Open Scope string_scope.
#[local] Open Scope list_scope.
#[local] Open Scope nat_scope.

(** What rd_kafka_consumer_poll delivers when it delivers something: the
    error code and the payload of the message. *)
Class Fetch (X : Type) := fetched : X → Z * list Z.

(** The part of a payload a loan covers: the size_t length of the message is
    passed as a DDS_Long. *)
Definition loan_length (d : list Z) : Z := s32 (u64 (Z.of_nat (length d))).
Definition loaned_bytes (d : list Z) : list Z := take (Z.to_nat (loan_length d)) d.

(** How an iteration of the polling loop ends. *)
Inductive flow := Continue | Return.

Section operations.
Context {X : Type} `{!Env X kcall, !Fetch X}.
#[local] Abbreviation W := (world kobj X kcall).
Context {E : Type}.

Definition set_rkm (p : ptr) (s : RTI_RS_KafkaStreamReader) : RTI_RS_KafkaStreamReader :=
  KafkaStreamReader (rd_rk s) p (rd_topic s) (rd_polling_thread s)
    (rd_poll_sem s) (rd_read_sem s) (rd_run_thread s) (rd_sample_list s) (rd_info_list s)
    (rd_type_support s) (rd_payload s).
Definition set_payload (p : option ptr) (s : RTI_RS_KafkaStreamReader)
    : RTI_RS_KafkaStreamReader :=
  KafkaStreamReader (rd_rk s) (rd_rkm s) (rd_topic s) (rd_polling_thread s)
    (rd_poll_sem s) (rd_read_sem s) (rd_run_thread s) (rd_sample_list s) (rd_info_list s)
    (rd_type_support s) p.

Definition rd_kafka_consumer_poll (rk : ptr) (timeout_ms : Z) : M W E ptr :=
  load_client rk;;
  m ← ask (λ w, fetched (w_ext w));
  new (QConsumerPoll timeout_ms) (OMessage m.1 m.2).

Definition RTI_RS_KafkaStreamReader_error_cleanup (stream_reader : ptr) : M W E Z :=
  s ← load_reader stream_reader;
  b ← is_null (rd_rkm s);
  when (negb b) (rd_kafka_message_destroy (rd_rkm s));;
  r ← RTIOsapiSemaphore_give (rd_poll_sem s);
  mret (if negb (r =? RTI_OSAPI_SEMAPHORE_STATUS_OK)%Z then (-1)%Z else 0%Z).

(** ** The polling thread, one iteration in four pieces *)

(** Lines 53-59: the result tells whether the semaphore was taken. *)
Definition poll_take (self : ptr) : M W E bool :=
  s ← load_reader self;
  r ← RTIOsapiSemaphore_take (rd_poll_sem s);
  mret (r =? RTI_OSAPI_SEMAPHORE_STATUS_OK)%Z.

(** Line 61. *)
Definition poll_fetch (self : ptr) : M W E () :=
  s ← load_reader self;
  rkm ← rd_kafka_consumer_poll (rd_rk s) CONSUMER_POLL_TIMEOUT;
  update_reader self (set_rkm rkm).

(** [if (!RTI_RS_KafkaStreamReader_error_cleanup(self)) return NULL; continue;] *)
Definition cleanup_and_leave (self : ptr) : M W E (option flow) :=
  c ← RTI_RS_KafkaStreamReader_error_cleanup self;
  mret (Some (if (c =? 0)%Z then Return else Continue)).

(** Lines 64-126: [None] when a message was loaned and is to be announced. *)
Definition poll_handle (self : ptr) : M W E (option flow) :=
  s ← load_reader self;
  b ← is_null (rd_rkm s);
  if b : bool then
    r ← RTIOsapiSemaphore_give (rd_poll_sem s);
    mret (Some (if negb (r =? RTI_OSAPI_SEMAPHORE_STATUS_OK)%Z then Return else Continue))
  else
    m ← load_message (rd_rkm s);
    if negb (m.1 =? 0)%Z then cleanup_and_leave self
    else
      ok ← call QOctetSeqInitialize;
      if (ok =? 0)%Z then cleanup_and_leave self
      else
        update_reader self (set_payload None);;
        ok ← call (QOctetSeqLoan (loan_length m.2) (loan_length m.2));
        if (ok =? 0)%Z then cleanup_and_leave self
        else
          update_reader self (set_payload (Some (rd_rkm s)));;
          mret None.

(** Lines 128-136. *)
Definition poll_notify (self : ptr) : M W E flow :=
  call QOnDataAvailable;;
  s ← load_reader self;
  r ← RTIOsapiSemaphore_give (rd_read_sem s);
  mret (if negb (r =? RTI_OSAPI_SEMAPHORE_STATUS_OK)%Z then Return else Continue).

Definition poll_iteration (self : ptr) : M W E flow :=
  taken ← poll_take self;
  if negb taken then mret Return
  else
    poll_fetch self;;
    f ← poll_handle self;
    match f with
    | Some f => mret f
    | None => poll_notify self
    end.

(** The thread function; [fuel] bounds the iterations looked at. *)
Fixpoint RTI_RS_KafkaStreamReader_on_data_availabe_thread (fuel : nat) (self : ptr)
    : M W E () :=
  match fuel with
  | 0 => hang
  | S fuel =>
      s ← load_reader self;
      if rd_run_thread s then
        f ← poll_iteration self;
        match f with
        | Return => mret ()
        | Continue => RTI_RS_KafkaStreamReader_on_data_availabe_thread fuel self
        end
      else mret ()
  end.

(** ** The callbacks of the forwarding engine *)

(** The contents of the octet sequence: the loaned part of the message. *)
Definition payload_bytes (payload : option ptr) : M W E (list Z) :=
  match payload with
  | None => mret []
  | Some p => m ← load_message p; mret (loaned_bytes m.2)
  end.

Definition DDS_DynamicData_set_octet_seq (sample : ptr) (member : string)
    (payload : option ptr) : M W E Z :=
  load_dynamic_data sample;;
  d ← payload_bytes payload;
  r ← call (QSetOctetSeq member);
  (if (r =? DDS_RETCODE_OK)%Z then store sample (ODynamicData d) else mret ());;
  mret r.

(** The out parameters: count, sample list, info list. *)
Definition RTI_RS_KafkaStreamReader_read (stream_reader : ptr) : M W E (nat * ptr * ptr) :=
  self ← load_reader stream_reader;
  sample ← load_cell (rd_sample_list self);
  info ← load_cell (rd_info_list self);
  r ← RTIOsapiSemaphore_take (rd_read_sem self);
  if negb (r =? RTI_OSAPI_SEMAPHORE_STATUS_OK)%Z then mret (0, Null, Null)
  else
    self ← load_reader stream_reader;
    retcode ← DDS_DynamicData_set_octet_seq sample "payload.data" (rd_payload self);
    if negb (retcode =? DDS_RETCODE_OK)%Z then mret (0, Null, Null)
    else mret (1, rd_sample_list self, rd_info_list self).

Definition RTI_RS_KafkaStreamReader_return_loan (stream_reader : ptr) : M W E () :=
  self ← load_reader stream_reader;
  b ← is_null (rd_rkm self);
  when (negb b) (rd_kafka_message_destroy (rd_rkm self));;
  RTIOsapiSemaphore_give (rd_poll_sem self);;
  mret ().
End operations.

(** * The two threads *)

(** Where the polling thread is: at the loop test, at or inside the take of the
    poll semaphore, and between the later pieces of an iteration; [TExit] after
    [return NULL]. *)
Inductive tpc := TLoop | TTake | TFetch | THandle | TNotify | TExit.

(** Where the forwarding engine is: it may call read at any time, and calls
    return_loan for a read that gave it a sample. *)
Inductive epc := EIdle | ELoan.

#[export] Instance tpc_eq_dec : EqDecision tpc.
Proof. solve_decision. Defined.
#[export] Instance epc_eq_dec : EqDecision epc.
Proof. solve_decision. Defined.

(** The system: memory, the two control points, and two histories: the
    payloads announced to the engine, and the samples the engine was given. *)
Record sys (X : Type) := Sys {
  s_w : world kobj X kcall;
  s_t : tpc;
  s_e : epc;
  s_in : list (list Z);
  s_out : list (list Z)
}.
Arguments Sys {X} _ _ _ _ _.
Arguments s_w {X} _.
Arguments s_t {X} _.
Arguments s_e {X} _.
Arguments s_in {X} _.
Arguments s_out {X} _.

Section system.
Context {X : Type} `{!Env X kcall, !Fetch X}.
#[local] Abbreviation W := (world kobj X kcall).
#[local] Abbreviation run m w a w' := (m w = @Ok W Empty_set _ a w').
Implicit Types w : W.

Definition flow_pc (f : flow) : tpc := match f with Continue => TLoop | Return => TExit end.

(** The bytes a sample holds, as the engine sees them. *)
Definition sample_bytes (w : W) (samples : ptr) : option (list Z) :=
  match samples with
  | Ptr sl =>
      match w_heap w !! sl with
      | Some (OCell (Ptr sd)) =>
          match w_heap w !! sd with Some (ODynamicData d) => Some d | _ => None end
      | _ => None
      end
  | _ => None
  end.

(** The payload that the reader has on loan. *)
Definition loaned (w : W) (self : nat) : option (list Z) :=
  match w_heap w !! self with
  | Some (OReader s) =>
      match rd_payload s with
      | Some (Ptr m) =>
          match w_heap w !! m with
          | Some (OMessage _ d) => Some (loaned_bytes d)
          | _ => None
          end
      | _ => None
      end
  | _ => None
  end.

Inductive step (self : nat) : sys X → sys X → Prop :=
  | step_loop_exit w e i o s :
      w_heap w !! self = Some (OReader s) → rd_run_thread s = false →
      step self (Sys w TLoop e i o) (Sys w TExit e i o)
  | step_loop_enter w e i o s :
      w_heap w !! self = Some (OReader s) → rd_run_thread s = true →
      step self (Sys w TLoop e i o) (Sys w TTake e i o)
  | step_take w w' e i o b :
      run (poll_take (Ptr self)) w b w' →
      step self (Sys w TTake e i o) (Sys w' (if b : bool then TFetch else TExit) e i o)
  | step_fetch w w' e i o :
      run (poll_fetch (Ptr self)) w () w' →
      step self (Sys w TFetch e i o) (Sys w' THandle e i o)
  | step_handle_leave w w' e i o f :
      run (poll_handle (Ptr self)) w (Some f) w' →
      step self (Sys w THandle e i o) (Sys w' (flow_pc f) e i o)
  | step_handle_loan w w' e i o d :
      run (poll_handle (Ptr self)) w None w' → loaned w' self = Some d →
      step self (Sys w THandle e i o) (Sys w' TNotify e (i ++ [d]) o)
  | step_notify w w' e i o f :
      run (poll_notify (Ptr self)) w f w' →
      step self (Sys w TNotify e i o) (Sys w' (flow_pc f) e i o)
  | step_read_none w w' t i o sl il :
      run (RTI_RS_KafkaStreamReader_read (Ptr self)) w (0, sl, il) w' →
      step self (Sys w t EIdle i o) (Sys w' t EIdle i o)
  | step_read_one w w' t i o sl il d :
      run (RTI_RS_KafkaStreamReader_read (Ptr self)) w (1, sl, il) w' →
      sample_bytes w' sl = Some d →
      step self (Sys w t EIdle i o) (Sys w' t ELoan i (o ++ [d]))
  | step_return_loan w w' t i o :
      run (RTI_RS_KafkaStreamReader_return_loan (Ptr self)) w () w' →
      step self (Sys w t ELoan i o) (Sys w' t EIdle i o)
  | step_stop w t e i o s :
      (* delete_stream_reader: self->run_thread = RTI_FALSE *)
      w_heap w !! self = Some (OReader s) →
      step self (Sys w t e i o)
        (Sys (set_heap (<[self := OReader (KafkaStreamReader (rd_rk s) (rd_rkm s)
           (rd_topic s) (rd_polling_thread s) (rd_poll_sem s) (rd_read_sem s) false
           (rd_sample_list s) (rd_info_list s) (rd_type_support s) (rd_payload s))]>
           (w_heap w)) w) t e i o)
  | step_env w x t e i o :
      (* the broker, the network and the clock *)
      step self (Sys w t e i o)
        (Sys (World (w_next w) (w_heap w) x (w_trace w)) t e i o).

(** ** The invariant *)

(** The parts of the reader that never change while it is used. *)
Record layout := Layout {
  la_self : nat; la_rk : nat; la_conf : conf; la_poll : nat; la_read : nat;
  la_samples : nat; la_sample : nat; la_infos : nat; la_info : ptr;
  la_topic : option string; la_thread : ptr; la_tsupport : ptr
}.

(** The memory of a reader in use. *)
Record reader_mem (la : layout) (rkm : ptr) (pl : option ptr) (run : bool) (np nq : nat)
    (w : W) : Prop := {
  rm_wf : heap_wf w;
  rm_self : w_heap w !! la_self la = Some (OReader (KafkaStreamReader (Ptr (la_rk la)) rkm
      (la_topic la) (la_thread la) (Ptr (la_poll la)) (Ptr (la_read la)) run
      (Ptr (la_samples la)) (Ptr (la_infos la)) (la_tsupport la) pl));
  rm_rk : w_heap w !! la_rk la = Some (OClient RD_KAFKA_CONSUMER (la_conf la));
  rm_poll : w_heap w !! la_poll la = Some (OSemaphore np);
  rm_read : w_heap w !! la_read la = Some (OSemaphore nq);
  rm_sems : la_poll la ≠ la_read la;
  rm_samples : w_heap w !! la_samples la = Some (OCell (Ptr (la_sample la)));
  rm_sample : ∃ d, w_heap w !! la_sample la = Some (ODynamicData d);
  rm_infos : w_heap w !! la_infos la = Some (OCell (la_info la));
  rm_cells : la_samples la ≠ la_infos la
}.

Definition message_at (w : W) (p : ptr) (P : Z → list Z → Prop) : Prop :=
  ∃ m e d, p = Ptr m ∧ w_heap w !! m = Some (OMessage e d) ∧ P e d.

(** Who owns the message slot of the reader: one of
    - nobody, and the next poll may fill it ([Free]);
    - the polling thread, with what the poll returned ([Polled]);
    - the reader, with a loaned message to be read ([Full]);
    - the engine ([Loaned]);
    - nobody, and nobody will ever again ([Lost]). *)
Inductive phase := Free | Polled | Full | Loaned | Lost.

Definition in_loop (t : tpc) : Prop := t = TLoop ∨ t = TTake ∨ t = TExit.

Definition control (ph : phase) (np nq : nat) (t : tpc) (e : epc) : Prop :=
  match ph with
  | Free => nq = 0 ∧ e = EIdle ∧ (np = 1 ∧ in_loop t ∨ np = 0 ∧ t = TFetch)
  | Polled => np = 0 ∧ nq = 0 ∧ e = EIdle ∧ t = THandle
  | Full => np = 0 ∧ e = EIdle ∧ (nq = 0 ∧ t = TNotify ∨ nq = 1 ∧ in_loop t)
  | Loaned => np = 0 ∧ nq = 0 ∧ e = ELoan ∧ in_loop t
  | Lost => np = 0 ∧ nq = 0 ∧ e = EIdle ∧ in_loop t
  end.

Definition data (ph : phase) (w : W) (rkm : ptr) (pl : option ptr) (i o : list (list Z)) : Prop :=
  match ph with
  | Free => i = o
  | Polled => i = o ∧ (rkm = Null ∨ message_at w rkm (λ _ _, True))
  | Full => pl = Some rkm ∧ message_at w rkm (λ e d, e = 0%Z ∧ i = o ++ [loaned_bytes d])
  | Loaned => i = o ∧ message_at w rkm (λ _ _, True)
  | Lost => i = o ∨ ∃ d, i = o ++ [d]
  end.

Definition inv (la : layout) (ph : phase) (st : sys X) : Prop :=
  ∃ rkm pl run np nq,
    reader_mem la rkm pl run np nq (s_w st)
    ∧ control ph np nq (s_t st) (s_e st)
    ∧ data ph (s_w st) rkm pl (s_in st) (s_out st).
End system.

Ltac mem_open H :=
  let d := fresh "sample" in
  destruct H as [Hwf Hself Hrk Hpoll Hread Hsems Hsamples [d Hsample] Hinfos Hcells];
  cbn [la_self la_rk la_conf la_poll la_read la_samples la_sample la_infos la_info
       la_topic la_thread la_tsupport] in *;
  distinct_blocks; bound_blocks.

Ltac mem_close :=
  constructor;
  cbn [la_self la_rk la_conf la_poll la_read la_samples la_sample la_infos la_info
       la_topic la_thread la_tsupport];
  [ heap_wf_tac | heap_lookup | heap_lookup | heap_lookup | heap_lookup | assumption
  | heap_lookup | eexists; heap_lookup | heap_lookup | assumption ].

Section theorems.
Context {X : Type} `{!Env X kcall, !Fetch X}.
#[local] Abbreviation W := (world kobj X kcall).
Implicit Types w : W.
Context {E : Type} (R : E → W → Prop).

Lemma poll_take_wp la rkm pl run np nq w :
  reader_mem la rkm pl run np nq w →
  np = 1 ∨ (answer (w_ext w) QSemaphoreTake).1 ≠ 0%Z →
  wp (poll_take (Ptr (la_self la)))
     (λ b w', reader_mem la rkm pl run (if b : bool then 0 else np) nq w'
        ∧ (b = true → np = 1) ∧ (b = false → w_heap w' = w_heap w)) R w.
Proof.
  intros Hm Hnp. destruct la. mem_open Hm.
  unfold poll_take. k_run.
  - destruct Hnp as [|Hnp]; [nlia | by rewrite Hans in Hnp].
  - split; [mem_close|]. split; [|done]. intros _.
    destruct Hnp as [|Hnp]; [done | by rewrite Hans in Hnp].
  - destruct (Z.eqb_spec r RTI_OSAPI_SEMAPHORE_STATUS_OK); [done|].
    split; [mem_close | by split].
Qed.

Lemma poll_fetch_wp la rkm pl run np nq w :
  reader_mem la rkm pl run np nq w →
  wp (poll_fetch (Ptr (la_self la)))
     (λ _ w', ∃ rkm', reader_mem la rkm' pl run np nq w'
        ∧ (rkm' = Null ∨ message_at w' rkm'
             (λ e d, (e, d) = fetched (w_ext w)))) R w.
Proof.
  intros Hm. destruct la. mem_open Hm.
  unfold poll_fetch, rd_kafka_consumer_poll. k_run.
  - exists Null. split; [mem_close | by left].
  - exists (Ptr (w_next w)). split; [mem_close|]. right. do 3 eexists.
    split; [done|]. split; [heap_lookup|]. by destruct (fetched _).
Qed.

(** Giving back the message and the poll semaphore. *)
Lemma error_cleanup_wp la rkm pl run np nq w :
  reader_mem la rkm pl run np nq w → message_at w rkm (λ _ _, True) →
  wp (RTI_RS_KafkaStreamReader_error_cleanup (Ptr (la_self la)))
     (λ r w', (r = 0%Z ∧ reader_mem la rkm pl run 1 nq w')
        ∨ (r ≠ 0%Z ∧ reader_mem la rkm pl run np nq w'
           ∧ ∃ x, (answer x QSemaphoreGive).1 ≠ RTI_OSAPI_SEMAPHORE_STATUS_OK)) R w.
Proof.
  intros Hm (m & e & d & -> & Hmsg & _). destruct la. mem_open Hm.
  unfold RTI_RS_KafkaStreamReader_error_cleanup. k_run.
  - left. split; [done | mem_close].
  - right. destruct (Z.eqb_spec r0 RTI_OSAPI_SEMAPHORE_STATUS_OK); [done|].
    split; [done|]. split; [mem_close|]. exists x'. by rewrite Hans0.
Qed.

(** The handling of what the poll returned: a proper message is loaned, and
    in every other case the message is gone. *)
Lemma poll_handle_wp la rkm pl run np nq w :
  reader_mem la rkm pl run np nq w → rkm = Null ∨ message_at w rkm (λ _ _, True) →
  wp (poll_handle (Ptr (la_self la)))
     (λ f w', match f with
        | None => reader_mem la rkm (Some rkm) run np nq w'
            ∧ ∃ d, message_at w' rkm (λ e d', e = 0%Z ∧ d' = d)
              ∧ message_at w rkm (λ e d', e = 0%Z ∧ d' = d)
        | Some f => ∃ pl' np', reader_mem la rkm pl' run np' nq w' ∧ (np' = np ∨ np' = 1)
        end) R w.
Proof.
  assert (∀ pl' w1, reader_mem la rkm pl' run np nq w1 → message_at w1 rkm (λ _ _, True) →
    wp (cleanup_and_leave (Ptr (la_self la)))
      (λ f w', ∃ f' pl' np', f = Some f' ∧ reader_mem la rkm pl' run np' nq w'
         ∧ (np' = np ∨ np' = 1)) R w1) as Hclean.
  { intros pl' w1 Hm1 Hmsg1. unfold cleanup_and_leave. wp_step.
    eapply wp_mono; [by eapply error_cleanup_wp| |done].
    intros r w' [[-> ?]|(? & ? & _)]; wp_run; by eauto 10. }
  intros Hm [->|Hmsg]; unfold poll_handle.
  { destruct la. mem_open Hm. k_run; (do 2 eexists; split; [mem_close | by eauto]). }
  pose proof Hmsg as (m & e & d & -> & Hl & _). pose proof Hm as Hm0.
  destruct la. mem_open Hm. k_run. cbn [negb].
  destruct (Z.eqb_spec e 0) as [->|He]; cbn [negb].
  2: { eapply wp_mono; [by eapply (Hclean pl)| |done]. intros f w' (? & ? & ? & -> & ?). eauto. }
  k_run.
  - eapply wp_mono; [eapply (Hclean pl)| |done]; [mem_close | do 3 eexists; by split_and! |].
    intros f w' (? & ? & ? & -> & ?). eauto.
  - eapply wp_mono; [eapply (Hclean None)| |done]; [mem_close | do 3 eexists; split_and!;
      [done | heap_lookup | done] |].
    intros f w' (? & ? & ? & -> & ?). eauto.
  - split; [mem_close|]. exists d. split; (do 3 eexists; split; [done|]; split; [heap_lookup | done]).
Qed.

Lemma poll_notify_wp la rkm pl run np nq w :
  reader_mem la rkm pl run np nq w →
  wp (poll_notify (Ptr (la_self la)))
     (λ f w', ((f = Continue ∧ reader_mem la rkm pl run np 1 w')
        ∨ (f = Return ∧ reader_mem la rkm pl run np nq w'))
        ∧ ∀ p P, message_at w p P → message_at w' p P) R w.
Proof.
  intros Hm. destruct la. mem_open Hm. unfold poll_notify. k_run.
  - split; [left; split; [done | mem_close]|].
    intros p P (m & e & d & -> & Hl & HP). do 3 eexists. split; [done|]. split; [|done].
    distinct_blocks. heap_lookup.
  - destruct (Z.eqb_spec r0 RTI_OSAPI_SEMAPHORE_STATUS_OK); [done|].
    split; [right; split; [done | mem_close] | done].
Qed.


(** The copy into the sample succeeds. *)
Definition set_ok (x : X) : Prop :=
  (answer x (QSetOctetSeq "payload.data")).1 = DDS_RETCODE_OK.

(** read with a message available, or with a semaphore that errs. *)
Lemma read_wp la rkm pl run np nq w :
  reader_mem la rkm pl run np nq w →
  (nq = 1 ∧ pl = Some rkm ∧ message_at w rkm (λ _ _, True))
    ∨ (answer (w_ext w) QSemaphoreTake).1 ≠ 0%Z →
  wp (RTI_RS_KafkaStreamReader_read (Ptr (la_self la)))
     (λ r w',
        (r = (0, Null, Null) ∧ w_heap w' = w_heap w ∧ reader_mem la rkm pl run np nq w'
           ∧ (answer (w_ext w) QSemaphoreTake).1 ≠ 0%Z)
        ∨ (nq = 1 ∧ reader_mem la rkm pl run np 0 w'
             ∧ ∃ m e d, rkm = Ptr m ∧ w_heap w !! m = Some (OMessage e d)
               ∧ w_heap w' !! m = Some (OMessage e d)
               ∧ (r = (0, Null, Null) ∧ ¬ set_ok (answer (w_ext w) QSemaphoreTake).2
                  ∨ r = (1, Ptr (la_samples la), Ptr (la_infos la))
                    ∧ set_ok (answer (w_ext w) QSemaphoreTake).2
                    ∧ sample_bytes w' (Ptr (la_samples la)) = Some (loaned_bytes d)))) R w.
Proof.
  intros Hm Hnq. destruct la. mem_open Hm.
  destruct Hnq as [(-> & -> & m & e & d & -> & Hl & _)|Hans0]; distinct_blocks; bound_blocks;
    unfold RTI_RS_KafkaStreamReader_read, DDS_DynamicData_set_octet_seq, payload_bytes; k_run.
  - cbn [negb Z.eqb RTI_OSAPI_SEMAPHORE_STATUS_OK]. k_run; cbn [negb Z.eqb DDS_RETCODE_OK]; k_run.
    + right. split; [done|]. split; [mem_close|]. exists m, e, d. split; [done|]. split; [done|].
      split; [heap_lookup|]. right. split; [done|].
      split; [unfold set_ok; by rewrite Hans; cbn; rewrite Hans0|]. unfold sample_bytes. cbn [la_samples].
      heap_lookup. rewrite Hsamples. by heap_lookup.
    + destruct (Z.eqb_spec r DDS_RETCODE_OK); [done|]. cbn [negb]. k_run.
      right. split; [done|]. split; [mem_close|]. exists m, e, d. split; [done|]. split; [done|].
      split; [heap_lookup|]. left. split; [done|].
      unfold set_ok. by rewrite Hans; cbn; rewrite Hans0.
  - destruct (Z.eqb_spec r RTI_OSAPI_SEMAPHORE_STATUS_OK); [done|]. cbn [negb]. k_run.
    left. split; [done|]. split; [done|]. split; [mem_close | by rewrite Hans].
  - by rewrite Hans in Hans0.
  - by rewrite Hans in Hans0.
  - destruct (Z.eqb_spec r RTI_OSAPI_SEMAPHORE_STATUS_OK); [done|]. cbn [negb]. k_run.
    left. split; [done|]. split; [done|]. split; [mem_close | by rewrite Hans].
Qed.

Lemma reader_return_loan_wp la rkm pl run np nq w :
  reader_mem la rkm pl run np nq w → message_at w rkm (λ _ _, True) →
  wp (RTI_RS_KafkaStreamReader_return_loan (Ptr (la_self la)))
     (λ _ w', reader_mem la rkm pl run 1 nq w' ∨ reader_mem la rkm pl run np nq w') R w.
Proof.
  intros Hm (m & e & d & -> & Hl & _). destruct la. mem_open Hm.
  unfold RTI_RS_KafkaStreamReader_return_loan. k_run; [left | right]; mem_close.
Qed.


(** A semaphore that is not available blocks its taker. *)
Lemma poll_take_blocked la rkm pl run nq w :
  reader_mem la rkm pl run 0 nq w → (answer (w_ext w) QSemaphoreTake).1 = 0%Z →
  poll_take (E := E) (Ptr (la_self la)) w = Hang.
Proof.
  intros [_ Hself _ Hpoll _ _ _ _ _ _] Ha.
  unfold poll_take, load_reader, RTIOsapiSemaphore_take, load_semaphore, mbind, M_bind, load, call.
  rewrite Hself. cbn [mret M_ret rd_poll_sem]. rewrite Hpoll. cbn [mret M_ret].
  by rewrite Ha.
Qed.

Lemma read_blocked la rkm pl run np w :
  reader_mem la rkm pl run np 0 w → (answer (w_ext w) QSemaphoreTake).1 = 0%Z →
  RTI_RS_KafkaStreamReader_read (E := E) (Ptr (la_self la)) w = Hang.
Proof.
  intros [_ Hself _ _ Hread _ Hsl [d Hs] Hil _] Ha.
  unfold RTI_RS_KafkaStreamReader_read, load_reader, load_cell, RTIOsapiSemaphore_take,
    load_semaphore, mbind, M_bind, load, call.
  rewrite Hself. cbn [mret M_ret rd_sample_list rd_info_list rd_read_sem]. rewrite Hsl.
  cbn [mret M_ret]. rewrite Hil. cbn [mret M_ret]. rewrite Hread. cbn [mret M_ret].
  by rewrite Ha.
Qed.

(** The run of a piece whose [wp] is known. *)
Lemma wp_run_post {A} (m : M W E A) (Q : A → W → Prop) J w a w' :
  wp m Q J w → m w = Ok a w' → Q a w'.
Proof. unfold wp. intros H Hr. by rewrite Hr in H. Qed.

Lemma wp_no_fault {A} (m : M W E A) (Q : A → W → Prop) J w f : wp m Q J w → m w ≠ Fault f.
Proof. unfold wp. intros H Hf. by rewrite Hf in H. Qed.

End theorems.

Section interleavings.
Context {X : Type} `{!Env X kcall, !Fetch X}.
#[local] Abbreviation W := (world kobj X kcall).
Implicit Types (w : W) (la : layout) (st : sys X).
#[local] Abbreviation J := (@no_jump W Empty_set).

Lemma message_at_impl w p (P Q : Z → list Z → Prop) :
  (∀ e d, P e d → Q e d) → message_at w p P → message_at w p Q.
Proof. intros H (m & e & d & ? & ? & ?). exists m, e, d. auto. Qed.

Lemma take_or_block (x : X) (n : nat) :
  (n = 1 ∨ (answer x QSemaphoreTake).1 ≠ 0%Z) ∨ (n ≠ 1 ∧ (answer x QSemaphoreTake).1 = 0%Z).
Proof.
  destruct (decide (n = 1)); [by left; left|].
  destruct (decide ((answer x QSemaphoreTake).1 = 0%Z)); [by right | by left; right].
Qed.

(** In every phase, the pieces that can run do not fault. *)
Definition no_fault (self : nat) st : Prop :=
  ∀ f,
    match s_t st with
    | TTake => poll_take (E := Empty_set) (Ptr self) (s_w st) ≠ Fault f
    | TFetch => poll_fetch (E := Empty_set) (Ptr self) (s_w st) ≠ Fault f
    | THandle => poll_handle (E := Empty_set) (Ptr self) (s_w st) ≠ Fault f
    | TNotify => poll_notify (E := Empty_set) (Ptr self) (s_w st) ≠ Fault f
    | TLoop | TExit => True
    end
    ∧ match s_e st with
      | EIdle => RTI_RS_KafkaStreamReader_read (E := Empty_set) (Ptr self) (s_w st) ≠ Fault f
      | ELoan => RTI_RS_KafkaStreamReader_return_loan (E := Empty_set) (Ptr self) (s_w st)
                   ≠ Fault f
      end.

Lemma control_counts ph np nq t e : control ph np nq t e → np + nq ≤ 1.
Proof. destruct ph; cbn; unfold in_loop; intros; naive_solver lia. Qed.

Lemma inv_no_fault la ph st : inv la ph st → no_fault (la_self la) st.
Proof.
  intros (rkm & pl & run & np & nq & Hm & Hc & Hd) f. destruct st as [w t e i o]; cbn in *. split.
  - destruct t; [done| | | | |done].
    + destruct (take_or_block (w_ext w) np) as [Hnp|[Hnp Ha]].
      * by eapply wp_no_fault, (poll_take_wp J).
      * assert (np = 0) as -> by (pose proof (control_counts _ _ _ _ _ Hc); lia).
        by erewrite poll_take_blocked.
    + by eapply wp_no_fault, (poll_fetch_wp J).
    + eapply wp_no_fault, (poll_handle_wp J); [done|].
      destruct ph; cbn in Hc, Hd; unfold in_loop in Hc; naive_solver.
    + by eapply wp_no_fault, (poll_notify_wp J).
  - destruct e.
    + destruct (take_or_block (w_ext w) nq) as [Hnq|[Hnq Ha]].
      * eapply wp_no_fault, (read_wp J); [done|]. destruct Hnq as [->|]; [left | by right].
        split; [done|]. destruct ph; cbn in Hc, Hd; unfold in_loop in Hc; try naive_solver.
        destruct Hd as [-> Hd]. split; [done|]. by eapply message_at_impl; [|exact Hd].
      * assert (nq = 0) as -> by (pose proof (control_counts _ _ _ _ _ Hc); lia).
        by erewrite read_blocked.
    + eapply wp_no_fault, (reader_return_loan_wp J); [done|].
      destruct ph; cbn in Hc, Hd; unfold in_loop in Hc; naive_solver.
Qed.

Lemma inv_take la ph w w' e i o b :
  inv la ph (Sys w TTake e i o) → poll_take (E := Empty_set) (Ptr (la_self la)) w = Ok b w' →
  inv la ph (Sys w' (if b : bool then TFetch else TExit) e i o).
Proof.
  intros (rkm & pl & run & np & nq & Hm & Hc & Hd) Hrun; cbn in *.
  destruct (take_or_block (w_ext w) np) as [Hnp|[Hnp Ha]].
  2: { assert (np = 0) as -> by (pose proof (control_counts _ _ _ _ _ Hc); lia).
       by erewrite poll_take_blocked in Hrun. }
  destruct (wp_run_post _ _ J _ _ _ (poll_take_wp J _ _ _ _ _ _ _ Hm Hnp) Hrun)
    as (Hm' & Ht & Hf).
  exists rkm, pl, run, (if b then 0 else np), nq. split; [done|]. destruct b.
  - specialize (Ht eq_refl) as ->.
    destruct ph; cbn in *; unfold in_loop in *; naive_solver.
  - specialize (Hf eq_refl). split.
    + destruct ph; cbn in *; unfold in_loop in *; naive_solver.
    + destruct ph; cbn in *; unfold message_at in *; by rewrite ?Hf.
Qed.

Lemma inv_fetch la ph w w' e i o :
  inv la ph (Sys w TFetch e i o) → poll_fetch (E := Empty_set) (Ptr (la_self la)) w = Ok () w' →
  inv la Polled (Sys w' THandle e i o).
Proof.
  intros (rkm & pl & run & np & nq & Hm & Hc & Hd) Hrun; cbn in *.
  assert (ph = Free) as -> by (destruct ph; cbn in Hc; unfold in_loop in Hc; naive_solver).
  destruct (wp_run_post _ _ J _ _ _ (poll_fetch_wp J _ _ _ _ _ _ _ Hm) Hrun)
    as (rkm' & Hm' & Hmsg).
  exists rkm', pl, run, np, nq. split; [done|]. cbn in *. split.
  - unfold in_loop in Hc; naive_solver.
  - split; [done|]. destruct Hmsg as [|Hmsg]; [by left|]. right.
    by eapply message_at_impl; [|exact Hmsg].
Qed.

Lemma inv_polled la ph w e i o :
  inv la ph (Sys w THandle e i o) → ph = Polled.
Proof.
  intros (rkm & pl & run & np & nq & Hm & Hc & Hd).
  destruct ph; cbn in Hc; unfold in_loop in Hc; naive_solver.
Qed.

Lemma inv_handle_leave la ph w w' e i o f :
  inv la ph (Sys w THandle e i o) →
  poll_handle (E := Empty_set) (Ptr (la_self la)) w = Ok (Some f) w' →
  ∃ ph', (ph' = Free ∨ ph' = Lost) ∧ inv la ph' (Sys w' (flow_pc f) e i o).
Proof.
  intros Hinv Hrun. pose proof (inv_polled _ _ _ _ _ _ Hinv) as ->.
  destruct Hinv as (rkm & pl & run & np & nq & Hm & Hc & Hd); cbn in Hm, Hc, Hd.
  destruct Hc as (-> & -> & -> & _), Hd as [-> Hd].
  destruct (wp_run_post _ _ J _ _ _ (poll_handle_wp J _ _ _ _ _ _ _ Hm Hd) Hrun)
    as (pl' & np' & Hm' & [->| ->]).
  - exists Lost. split; [by right|]. exists rkm, pl', run, 0, 0. split; [done|].
    cbn. unfold in_loop. destruct f; naive_solver.
  - exists Free. split; [by left|]. exists rkm, pl', run, 1, 0. split; [done|].
    cbn. unfold in_loop. destruct f; naive_solver.
Qed.

Lemma inv_handle_loan la ph w w' e i o d :
  inv la ph (Sys w THandle e i o) →
  poll_handle (E := Empty_set) (Ptr (la_self la)) w = Ok None w' →
  loaned w' (la_self la) = Some d →
  inv la Full (Sys w' TNotify e (i ++ [d]) o).
Proof.
  intros Hinv Hrun Hl. pose proof (inv_polled _ _ _ _ _ _ Hinv) as ->.
  destruct Hinv as (rkm & pl & run & np & nq & Hm & Hc & Hd); cbn in Hm, Hc, Hd.
  destruct Hc as (-> & -> & -> & _), Hd as [-> Hd].
  destruct (wp_run_post _ _ J _ _ _ (poll_handle_wp J _ _ _ _ _ _ _ Hm Hd) Hrun)
    as (Hm' & d' & (m & e' & d'' & -> & Hlk & -> & ->) & _).
  exists (Ptr m), (Some (Ptr m)), run, 0, 0. split; [done|]. split; [cbn; naive_solver|].
  split; [done|]. exists m, 0%Z, d'. split_and!; [done | done | done |]. cbn.
  unfold loaned in Hl. rewrite (rm_self _ _ _ _ _ _ _ Hm') in Hl. cbn in Hl. rewrite Hlk in Hl.
  by injection Hl as <-.
Qed.

Lemma inv_notify la ph w w' e i o f :
  inv la ph (Sys w TNotify e i o) →
  poll_notify (E := Empty_set) (Ptr (la_self la)) w = Ok f w' →
  ∃ ph', (ph' = Full ∨ ph' = Lost) ∧ inv la ph' (Sys w' (flow_pc f) e i o).
Proof.
  intros (rkm & pl & run & np & nq & Hm & Hc & Hd) Hrun; cbn in *.
  assert (ph = Full) as -> by (destruct ph; cbn in Hc; unfold in_loop in Hc; naive_solver).
  destruct (wp_run_post _ _ J _ _ _ (poll_notify_wp J _ _ _ _ _ _ _ Hm) Hrun)
    as ([[-> Hm']|[-> Hm']] & Hkeep); cbn in Hc, Hd; unfold in_loop in Hc.
  - exists Full. split; [by left|]. exists rkm, pl, run, np, 1. split; [done|].
    destruct Hd as [-> Hd]. split; [cbn; unfold in_loop; naive_solver|].
    split; [done|]. by apply Hkeep.
  - exists Lost. split; [by right|]. exists rkm, pl, run, np, nq. split; [done|].
    destruct Hd as [-> (m & e' & d & -> & _ & _ & ->)].
    split; [cbn; unfold in_loop; naive_solver|]. right. by eexists.
Qed.


(** A read that gives no sample: the semaphore erred, or the copy of the
    payload failed and the token is lost. *)
Lemma inv_read la ph w w' t i o n sl il :
  inv la ph (Sys w t EIdle i o) →
  RTI_RS_KafkaStreamReader_read (E := Empty_set) (Ptr (la_self la)) w = Ok (n, sl, il) w' →
  (n = 0 ∧ ∃ ph', (ph' = ph ∨ (ph = Full ∧ ph' = Lost)) ∧ inv la ph' (Sys w' t EIdle i o))
  ∨ (n = 1 ∧ ph = Full ∧ ∃ d, i = o ++ [d] ∧ sample_bytes w' sl = Some d
       ∧ inv la Loaned (Sys w' t ELoan i (o ++ [d]))).
Proof.
  intros (rkm & pl & run & np & nq & Hm & Hc & Hd) Hrun; cbn in Hm, Hc, Hd.
  destruct (take_or_block (w_ext w) nq) as [Hnq|[Hnq Ha]].
  2: { assert (nq = 0) as -> by (pose proof (control_counts _ _ _ _ _ Hc); lia).
       by erewrite read_blocked in Hrun. }
  assert (nq = 1 → ph = Full ∧ np = 0 ∧ in_loop t ∧ pl = Some rkm ∧
    message_at w rkm (λ e d, e = 0%Z ∧ i = o ++ [loaned_bytes d])) as Hfull.
  { intros ->. destruct ph; cbn in Hc, Hd; unfold in_loop in *; naive_solver. }
  assert (nq = 1 ∧ pl = Some rkm ∧ message_at w rkm (λ _ _, True)
          ∨ (answer (w_ext w) QSemaphoreTake).1 ≠ 0%Z) as Hpre.
  { destruct Hnq as [->|]; [left | by right]. destruct (Hfull eq_refl) as (_ & _ & _ & -> & Hmsg).
    split_and!; [done | done |]. by eapply message_at_impl; [|exact Hmsg]. }
  pose proof (wp_run_post _ _ J _ _ _ (read_wp J _ _ _ _ _ _ _ Hm Hpre) Hrun) as Hpost.
  cbv beta in Hpost. destruct Hpost as [(Hr & Hh & Hm' & _)|(-> & Hm' & m & e & d & -> & Hl & Hl' & Hr)].
  - injection Hr as -> -> ->. left. split; [done|]. exists ph. split; [by left|].
    exists rkm, pl, run, np, nq. split; [done|]. split; [done|].
    destruct ph; cbn in *; unfold message_at in *; by rewrite ?Hh.
  - destruct (Hfull eq_refl) as (-> & -> & Ht & -> & m' & e' & d' & [= <-] & Hl2 & -> & ->).
    rewrite Hl in Hl2. injection Hl2 as -> ->.
    destruct Hr as [[Hr _]|(Hr & _ & Hsb)]; injection Hr as -> -> ->.
    + left. split; [done|]. exists Lost. split; [by right|].
      eexists _, _, run, 0, 0. split; [done|]. split; [by cbn | right; by eexists].
    + right. split; [done|]. split; [done|]. exists (loaned_bytes d').
      split; [done|]. split; [done|]. eexists _, _, run, 0, 0. split; [done|].
      split; [by cbn|]. split; [done|]. by do 3 eexists.
Qed.

Lemma inv_return_loan la ph w w' t i o :
  inv la ph (Sys w t ELoan i o) →
  RTI_RS_KafkaStreamReader_return_loan (E := Empty_set) (Ptr (la_self la)) w = Ok () w' →
  ph = Loaned ∧ ∃ ph', (ph' = Free ∨ ph' = Lost) ∧ inv la ph' (Sys w' t EIdle i o).
Proof.
  intros (rkm & pl & run & np & nq & Hm & Hc & Hd) Hrun; cbn in Hm, Hc, Hd.
  assert (ph = Loaned) as -> by (destruct ph; cbn in Hc; naive_solver).
  destruct Hc as (-> & -> & _ & Ht), Hd as [-> Hd]. split; [done|].
  destruct (wp_run_post _ _ J _ _ _ (reader_return_loan_wp J _ _ _ _ _ _ _ Hm Hd) Hrun) as [Hm'|Hm'].
  - exists Free. split; [by left|]. exists rkm, pl, run, 1, 0. split; [done|]. cbn. naive_solver.
  - exists Lost. split; [by right|]. exists rkm, pl, run, 0, 0. split; [done|]. cbn. naive_solver.
Qed.

Lemma inv_stop la ph w t e i o s :
  inv la ph (Sys w t e i o) → w_heap w !! la_self la = Some (OReader s) →
  inv la ph (Sys (set_heap (<[la_self la := OReader (KafkaStreamReader (rd_rk s) (rd_rkm s)
           (rd_topic s) (rd_polling_thread s) (rd_poll_sem s) (rd_read_sem s) false
           (rd_sample_list s) (rd_info_list s) (rd_type_support s) (rd_payload s))]>
           (w_heap w)) w) t e i o).
Proof.
  intros (rkm & pl & run & np & nq & Hm & Hc & Hd) Hs; cbn in Hm, Hc, Hd.
  pose proof (rm_self _ _ _ _ _ _ _ Hm) as Hs'. rewrite Hs in Hs'. injection Hs' as ->. cbn.
  assert (∀ p P, message_at w p P → message_at (set_heap (<[la_self la := OReader
    (KafkaStreamReader (Ptr (la_rk la)) rkm (la_topic la) (la_thread la) (Ptr (la_poll la))
       (Ptr (la_read la)) false (Ptr (la_samples la)) (Ptr (la_infos la)) (la_tsupport la) pl)]>
    (w_heap w)) w) p P) as Hkeep.
  { intros p P (m & e' & d & -> & Hl & HP). exists m, e', d. split; [done|]. split; [|done].
    wsimpl. rewrite lookup_insert_ne; [done|]. intros <-. congruence. }
  exists rkm, pl, false, np, nq. split; [|split; [done|]].
  - clear Hs Hc Hd Hkeep. cbn [s_w]. destruct la. mem_open Hm. mem_close.
  - destruct ph; cbn in *; naive_solver.
Qed.

Lemma inv_env la ph w (x : X) t e i o :
  inv la ph (Sys w t e i o) →
  inv la ph (Sys (World (w_next w) (w_heap w) x (w_trace w)) t e i o).
Proof.
  intros (rkm & pl & run & np & nq & Hm & Hc & Hd); cbn in *.
  exists rkm, pl, run, np, nq. split; [|by destruct ph]. by destruct Hm.
Qed.

(** How the owner of the message slot can change. *)
Inductive phase_step : phase → phase → Prop :=
  | ph_stay ph : phase_step ph ph
  | ph_polled : phase_step Free Polled
  | ph_dropped : phase_step Polled Free
  | ph_loaned : phase_step Polled Full
  | ph_read : phase_step Full Loaned
  | ph_returned : phase_step Loaned Free
  | ph_lost ph : phase_step ph Lost.

Lemma inv_step la ph st st' :
  inv la ph st → step (la_self la) st st' → ∃ ph', phase_step ph ph' ∧ inv la ph' st'.
Proof.
  intros Hinv Hstep.
  assert (∀ w e i o t, in_loop t → inv la ph (Sys w TLoop e i o) → inv la ph (Sys w t e i o)) as Hloop.
  { intros w e i o t Ht (rkm & pl & run & np & nq & Hm & Hc & Hd). exists rkm, pl, run, np, nq.
    split; [done|]. split; [|done]. destruct ph; cbn in *; unfold in_loop in *; naive_solver. }
  destruct Hstep as
    [w e i o s Hs Hrun|w e i o s Hs Hrun|w w' e i o b Hrun|w w' e i o Hrun|w w' e i o f Hrun
    |w w' e i o d Hrun Hl|w w' e i o f Hrun|w w' t i o sl il Hrun|w w' t i o sl il d Hrun Hsb
    |w w' t i o Hrun|w t e i o s Hs|w x t e i o].
  - exists ph. split; [constructor|]. apply Hloop; [unfold in_loop; auto | done].
  - exists ph. split; [constructor|]. apply Hloop; [unfold in_loop; auto | done].
  - exists ph. split; [constructor | by eapply inv_take].
  - exists Polled. split; [|by eapply inv_fetch].
    destruct Hinv as (rkm & pl & run & np & nq & Hm & Hc & Hd).
    destruct ph; cbn in Hc; unfold in_loop in Hc; try (exfalso; naive_solver); constructor.
  - pose proof (inv_polled _ _ _ _ _ _ Hinv) as ->.
    destruct (inv_handle_leave _ _ _ _ _ _ _ _ Hinv Hrun) as (ph' & [->| ->] & ?); eauto using phase_step.
  - pose proof (inv_polled _ _ _ _ _ _ Hinv) as ->. exists Full.
    split; [constructor | by eapply inv_handle_loan].
  - destruct (inv_notify _ _ _ _ _ _ _ _ Hinv Hrun) as (ph' & [->| ->] & ?);
      [|by eauto using phase_step].
    exists Full. split; [|done]. destruct Hinv as (rkm & pl & run & np & nq & Hm & Hc & Hd).
    destruct ph; cbn in Hc; unfold in_loop in Hc; try (exfalso; naive_solver); constructor.
  - destruct (inv_read _ _ _ _ _ _ _ _ _ _ Hinv Hrun) as [(_ & ph' & [->|[-> ->]] & ?)|(? & _)];
      [by eauto using phase_step | by eauto using phase_step | done].
  - destruct (inv_read _ _ _ _ _ _ _ _ _ _ Hinv Hrun) as [(? & _)|(_ & -> & d' & -> & Hsb' & ?)];
      [done|]. rewrite Hsb in Hsb'. injection Hsb' as ->. eauto using phase_step.
  - destruct (inv_return_loan _ _ _ _ _ _ _ Hinv Hrun) as (-> & ph' & [->| ->] & ?);
      eauto using phase_step.
  - exists ph. split; [constructor | by apply inv_stop].
  - exists ph. split; [constructor | by apply inv_env].
Qed.

Definition reachable (la : layout) (st0 st : sys X) : Prop := rtc (step (la_self la)) st0 st.

Lemma inv_reachable la ph st0 st :
  inv la ph st0 → reachable la st0 st → ∃ ph', rtc phase_step ph ph' ∧ inv la ph' st.
Proof.
  intros Hinv Hreach. revert ph Hinv. induction Hreach as [st|st1 st2 st3 Hs Hr IH]; intros ph Hinv.
  { by exists ph. }
  destruct (inv_step _ _ _ _ Hinv Hs) as (ph1 & Hp1 & Hinv1).
  destruct (IH _ Hinv1) as (ph2 & Hp2 & Hinv2). exists ph2. split; [|done]. by eapply rtc_l.
Qed.


(** C1: whatever the broker, the semaphores and the scheduler do, no piece
    of the polling thread and no callback faults: the message is never used
    after it was destroyed, never destroyed twice, and never missing. *)
Theorem reader_memory_safe la st0 st :
  inv la Free st0 → reachable la st0 st → no_fault (la_self la) st.
Proof.
  intros Hinv Hr. destruct (inv_reachable _ _ _ _ Hinv Hr) as (ph & _ & Hinv').
  by eapply inv_no_fault.
Qed.

Lemma data_histories ph w rkm pl i o :
  data ph w rkm pl i o → o `prefix_of` i ∧ length i ≤ S (length o).
Proof.
  intros Hd. assert (i = o ∨ ∃ d, i = o ++ [d]) as [->|[d ->]].
  { destruct ph; cbn in Hd; [by left | by left; destruct Hd | | by left; destruct Hd | done].
    destruct Hd as [_ (m & e & d & _ & _ & _ & ->)]. right. by eexists. }
  - split; [done | lia].
  - rewrite length_app. split; [by apply prefix_app_r | cbn; lia].
Qed.

(** C2: the engine is given the announced payloads in order, each exactly
    once, and is at most one behind. *)
Theorem reader_delivers_in_order la st0 st :
  inv la Free st0 → reachable la st0 st →
  s_out st `prefix_of` s_in st ∧ length (s_in st) ≤ S (length (s_out st)).
Proof.
  intros Hinv Hr. destruct (inv_reachable _ _ _ _ Hinv Hr) as (ph & _ & Hinv').
  destruct Hinv' as (rkm & pl & run & np & nq & _ & _ & Hd). by eapply data_histories.
Qed.

(** The abstract one-place buffer. *)
Inductive buffer_step : list (list Z) * list (list Z) → list (list Z) * list (list Z) → Prop :=
  | buffer_put l d : buffer_step (l, l) (l ++ [d], l)
  | buffer_get l d : buffer_step (l ++ [d], l) (l ++ [d], l ++ [d]).

Definition histories (st : sys X) := (s_in st, s_out st).

(** C3: the reader refines a one-place buffer: every step puts into an
    empty buffer, takes from a full one, or does not change its contents. *)
Theorem reader_refines_buffer la ph st st' :
  inv la ph st → step (la_self la) st st' →
  histories st' = histories st ∨ buffer_step (histories st) (histories st').
Proof.
  intros Hinv Hstep. unfold histories.
  destruct Hstep as [| | | | |w w' e i o d Hrun Hl| | |w w' t i o sl il d Hrun Hsb| | |];
    try (by left); cbn; right.
  - pose proof (inv_polled _ _ _ _ _ _ Hinv) as ->.
    destruct Hinv as (rkm & pl & run & np & nq & Hm & Hc & Hd). destruct Hd as [Hio _].
    cbn in Hio. subst. constructor.
  - destruct (inv_read _ _ _ _ _ _ _ _ _ _ Hinv Hrun) as [(? & _)|(_ & -> & d' & -> & Hsb' & _)];
      [done|]. rewrite Hsb in Hsb'. injection Hsb' as ->. constructor.
Qed.

Lemma inv_control la ph st :
  inv la ph st → ∃ np nq, control ph np nq (s_t st) (s_e st).
Proof. intros (rkm & pl & run & np & nq & _ & Hc & _). by exists np, nq. Qed.

Lemma inv_memory la ph st :
  inv la ph st → ∃ rkm pl run np nq, reader_mem la rkm pl run np nq (s_w st).
Proof. intros (rkm & pl & run & np & nq & Hm & _). by eexists _, _, _, _, _. Qed.

Lemma lost_step la st st' :
  inv la Lost st → step (la_self la) st st' →
  inv la Lost st' ∧ s_in st' = s_in st ∧ s_out st' = s_out st
  ∧ ((∀ x, (answer x QSemaphoreTake).1 = 0%Z) → s_t st = TTake → s_t st' = TTake).
Proof.
  intros Hinv Hstep. destruct (inv_step _ _ _ _ Hinv Hstep) as (ph' & Hp & Hinv').
  assert (ph' = Lost) as -> by by inversion Hp.
  split; [done|]. destruct (inv_control _ _ _ Hinv) as (np & nq & -> & -> & He & Ht).
  destruct (inv_memory _ _ _ Hinv) as (rkm & pl & run & np & nq & Hm).
  destruct Hstep as [| |w w' e i o b Hrun| | | | | |w w' t i o sl il d Hrun Hsb| | |];
    cbn in *; unfold in_loop in Ht; try (by destruct Ht as [?|[?|?]]); try done.
  - split_and!; [done | done |]. intros Hx _.
    destruct Hinv as (? & ? & ? & ? & ? & Hm2 & (-> & -> & _) & _).
    by erewrite poll_take_blocked in Hrun.
  - destruct (inv_read _ _ _ _ _ _ _ _ _ _ Hinv Hrun) as [(? & _)|(_ & ? & _)]; done.
Qed.

(** Once the token is lost it stays lost: nothing is announced or
    delivered any more, and a polling thread that waits for its semaphore
    waits forever (so deleting the reader, which joins it, blocks). *)
Theorem lost_forever la st st' :
  inv la Lost st → reachable la st st' →
  s_in st' = s_in st ∧ s_out st' = s_out st
  ∧ ((∀ x, (answer x QSemaphoreTake).1 = 0%Z) → s_t st = TTake → s_t st' = TTake).
Proof.
  intros Hinv Hr. induction Hr as [st|st1 st2 st3 Hs _ IH]; [done|].
  destruct (lost_step _ _ _ Hinv Hs) as (Hinv2 & Hi & Ho & Ht).
  destruct (IH Hinv2) as (Hi' & Ho' & Ht'). split_and!; [congruence | congruence | auto].
Qed.

(** C36: a read whose copy into the sample fails loses the token: the
    message stays announced but undelivered, and by [lost_forever] the reader
    never delivers again. *)
Theorem failed_read_loses_token la w t i o :
  inv la Full (Sys w t EIdle i o) → in_loop t →
  (answer (w_ext w) QSemaphoreTake).1 = 0%Z →
  ¬ set_ok (answer (w_ext w) QSemaphoreTake).2 →
  ∃ w', RTI_RS_KafkaStreamReader_read (E := Empty_set) (Ptr (la_self la)) w
        = Ok (0, Null, Null) w'
    ∧ step (la_self la) (Sys w t EIdle i o) (Sys w' t EIdle i o)
    ∧ inv la Lost (Sys w' t EIdle i o) ∧ i ≠ o.
Proof.
  intros (rkm & pl & run & np & nq & Hm & Hc & Hd) Ht Htake Hset; cbn in Hm, Hc, Hd.
  assert (np = 0 ∧ nq = 1) as [-> ->] by (unfold in_loop in *; naive_solver).
  destruct Hd as [-> Hmsg].
  destruct (wp_returns _ _ _ (read_wp J la rkm (Some rkm) run 0 1 w Hm
    (or_introl (conj eq_refl (conj eq_refl (message_at_impl _ _ _ _ (λ _ _ _, I) Hmsg))))))
    as (r & w' & Hrun & [(_ & _ & _ & ?)|(_ & Hm' & m & e & d & -> & Hl & _ & Hr)]); [done|].
  destruct Hr as [[-> _]|(_ & ? & _)]; [|done].
  exists w'. split; [done|]. split; [by eapply step_read_none|].
  destruct Hmsg as (m' & e' & d' & [= <-] & Hl' & _ & ->). split.
  - eexists _, _, run, 0, 0. split; [done|]. split; [by cbn | right; by eexists].
  - intros Heq. apply (f_equal length) in Heq. rewrite length_app in Heq. cbn in Heq. lia.
Qed.

Lemma exited_step self st st' :
  step self st st' → s_t st = TExit → s_t st' = TExit ∧ s_in st' = s_in st.
Proof. destruct 1; cbn; intros; simplify_eq; done. Qed.

Lemma exited_forever la st st' :
  reachable la st st' → s_t st = TExit → s_t st' = TExit ∧ s_in st' = s_in st.
Proof.
  induction 1 as [st|st1 st2 st3 Hs _ IH]; [done|]. intros Ht.
  destruct (exited_step _ _ _ Hs Ht) as [Ht2 Hi2]. destruct (IH Ht2) as [? ?].
  split; [done | congruence].
Qed.

(** A consumer error, which the code means to be informational, ends
    the polling thread for good when its cleanup succeeds: the thread gives
    the semaphore back, returns, and nothing is ever announced again. *)
Theorem consumer_error_ends_thread la rkm pl run w e i o err d st :
  reader_mem la rkm pl run 0 0 w → message_at w rkm (λ e' d', e' = err ∧ d' = d) →
  err ≠ 0%Z → (∀ x, (answer x QSemaphoreGive).1 = RTI_OSAPI_SEMAPHORE_STATUS_OK) →
  ∃ w', poll_handle (E := Empty_set) (Ptr (la_self la)) w = Ok (Some Return) w'
    ∧ step (la_self la) (Sys w THandle e i o) (Sys w' TExit e i o)
    ∧ reader_mem la rkm pl run 1 0 w'
    ∧ (reachable la (Sys w' TExit e i o) st → s_t st = TExit ∧ s_in st = i).
Proof.
  intros Hm (m & e' & d' & -> & Hl & -> & ->) Herr Hgive.
  assert (wp (poll_handle (E := Empty_set) (Ptr (la_self la)))
    (λ f w', f = Some Return ∧ reader_mem la (Ptr m) pl run 1 0 w') no_jump w) as Hwp.
  { unfold poll_handle, cleanup_and_leave. wp_step.
    eapply wp_load_reader; [apply Hm|]. cbn [rd_rkm]. wp_run. eapply wp_load_message; [done|].
    cbn [fst]. destruct (Z.eqb_spec err 0); [done|]. cbn [negb]. wp_step.
    eapply wp_mono; [eapply (error_cleanup_wp _ la (Ptr m)); [done | by do 3 eexists]| |done].
    intros r w' [[-> ?]|(? & _ & x & Hx)]; wp_run; [done|]. by rewrite Hgive in Hx. }
  destruct (wp_returns _ _ _ Hwp) as (f & w' & Hrun & -> & Hm').
  exists w'. split; [done|]. split; [by eapply (step_handle_leave _ _ _ _ _ _ Return)|].
  split; [done|]. intros Hr. by apply (exited_forever _ _ _ Hr).
Qed.


(** The calls whose failure would lose the token succeed. *)
Definition reliable : Prop :=
  (∀ x, (answer x QSemaphoreTake).1 = RTI_OSAPI_SEMAPHORE_STATUS_OK) ∧ (∀ x, set_ok x).

Lemma handle_progress la w e i o :
  inv la Polled (Sys w THandle e i o) →
  ∃ st', step (la_self la) (Sys w THandle e i o) st' ∧ s_t st' ≠ THandle.
Proof.
  intros (rkm & pl & run & np & nq & Hm & Hc & [_ Hd]); cbn in Hm, Hd.
  destruct (wp_returns _ _ _ (poll_handle_wp J _ _ _ _ _ _ _ Hm Hd)) as ([f|] & w' & Hrun & Hpost).
  - eexists. split; [by eapply step_handle_leave|]. by destruct f.
  - destruct Hpost as (Hm' & d & (m & e' & d' & -> & Hl & _) & _). eexists.
    split; [eapply (step_handle_loan _ _ _ _ _ _ (loaned_bytes d')); [done|]|done].
    unfold loaned. rewrite (rm_self _ _ _ _ _ _ _ Hm'). cbn. by rewrite Hl.
Qed.

Lemma free_progress la w t e i o :
  reliable → inv la Free (Sys w t e i o) → t ≠ TExit →
  ∃ st', step (la_self la) (Sys w t e i o) st' ∧ s_t st' ≠ t.
Proof.
  intros [Htake _] (rkm & pl & run & np & nq & Hm & Hc & Hd) Ht; cbn in Hm, Hc.
  destruct Hc as (-> & -> & [[-> Hloop]|[-> ->]]).
  - destruct Hloop as [->|[->|?]]; [| |done].
    + destruct run; eexists.
      * split; [eapply step_loop_enter; [apply Hm | done] | done].
      * split; [eapply step_loop_exit; [apply Hm | done] | done].
    + destruct (wp_returns _ _ _ (poll_take_wp J _ _ _ _ _ _ _ Hm (or_introl eq_refl)))
        as (b & w' & Hrun & _).
      eexists. split; [by eapply step_take|]. by destruct b.
  - destruct (wp_returns _ _ _ (poll_fetch_wp J _ _ _ _ _ _ _ Hm)) as ([] & w' & Hrun & _).
    eexists. split; [by eapply step_fetch | done].
Qed.

Lemma full_progress la w t e i o :
  reliable → inv la Full (Sys w t e i o) →
  ∃ st', step (la_self la) (Sys w t e i o) st' ∧ (s_t st' ≠ t ∨ s_e st' ≠ e).
Proof.
  intros [Htake Hset] Hinv. pose proof Hinv as (rkm & pl & run & np & nq & Hm & Hc & Hd).
  cbn in Hm, Hc, Hd. destruct Hc as (-> & -> & [[-> ->]|[-> Hloop]]), Hd as [-> Hmsg].
  - destruct (wp_returns _ _ _ (poll_notify_wp J _ _ _ _ _ _ _ Hm)) as (f & w' & Hrun & _).
    eexists. split; [by eapply step_notify|]. left. by destruct f.
  - destruct (wp_returns _ _ _ (read_wp J la rkm (Some rkm) run 0 1 w Hm
      (or_introl (conj eq_refl (conj eq_refl (message_at_impl _ _ _ _ (λ _ _ _, I) Hmsg))))))
      as (r & w' & Hrun & Hpost).
    destruct Hpost as [(_ & _ & _ & Hne)|(_ & Hm' & m & e' & d & -> & _ & _ & [[_ Hn]|(-> & _ & Hsb)])];
      [by specialize (Htake (w_ext w)) | by specialize (Hset (answer (w_ext w) QSemaphoreTake).2) |].
    eexists. split; [by eapply step_read_one|]. by right.
Qed.




(** The reader that the connection's creator hands out is in the initial
    state of the system: its slot is free, or lost at once when giving the
    poll semaphore failed. *)
Lemma ready_inv {PA : PropertyApi} ps servers r s w sl sd d :
  heap_wf w → reader_ready ps servers r s w →
  rd_sample_list s = Ptr sl → w_heap w !! sl = Some (OCell (Ptr sd)) →
  w_heap w !! sd = Some (ODynamicData d) →
  ∃ la ph, la_self la = r ∧ (ph = Free ∨ ph = Lost) ∧ inv la ph (Sys w TLoop EIdle [] []).
Proof.
  intros Hwf [[Hr (sl' & il & i & d0 & Hsl & Hil & Hne & H1 & H2 & H3) _ Hrun Hrkm]
    (rk & Hrk & Hc) (p & q & n & Hp & Hq & Hpq & Hn & H4 & H5) _] Hsl' Hcell Hsd.
  rewrite Hsl in Hsl'. injection Hsl' as ->.
  destruct s as [rk0 rkm tp th psem rsem rt sll ill ts pl].
  cbn in Hsl, Hil, Hrk, Hp, Hq, Hrun, Hrkm. subst.
  set (la := Layout r rk (Conf (reader_conf servers ps) false) p q sl sd il (Ptr i) tp th ts).
  assert (reader_mem la Null pl true n 0 w) as Hm.
  { constructor; cbn; try done. by eexists. }
  exists la, (if decide (n = 1) then Free else Lost). split; [done|]. split; [case_decide; auto|].
  exists Null, pl, true, n, 0. split; [exact Hm|]. cbn. case_decide; cbn; unfold in_loop.
  - split; [|done]. split; [done|]. split; [done|]. left. auto.
  - split; [|by left]. split; [lia|]. auto.
Qed.

(** C8: from the creator to the engine: after a successful creation of a
    stream reader with its preallocated sample, every interleaving of the
    polling thread and the engine is free of faults and delivers the
    announced payloads in order. *)
Theorem created_reader_works {PA : PropertyApi} w cn conn ps r w1 sl sd d s :
  heap_wf w → w_heap w !! cn = Some (OConnection conn) →
  (answer (w_ext w) (QCalloc "RTI_RS_KafkaStreamReader")).1 ≠ 0%Z →
  RTI_RS_KafkaConnection_create_stream_reader (E := Empty_set) (Ptr cn) ps w = Ok (Ptr r) w1 →
  w_heap w1 !! r = Some (OReader s) → rd_sample_list s = Ptr sl →
  w_heap w1 !! sl = Some (OCell (Ptr sd)) → w_heap w1 !! sd = Some (ODynamicData d) →
  ∀ st, rtc (step r) (Sys w1 TLoop EIdle [] []) st →
    no_fault r st ∧ s_out st `prefix_of` s_in st ∧ length (s_in st) ≤ S (length (s_out st)).
Proof.
  intros Hwf Hcn Hcalloc Hcreate Hs Hsl Hcell Hsd st Hr.
  pose proof (create_stream_reader_wp (no_jump (E := Empty_set)) w cn conn ps Hwf Hcn Hcalloc) as Hspec.
  unfold wp in Hspec. rewrite Hcreate in Hspec.
  destruct Hspec as (Hwf1 & _ & _ & s' & Hrr & _).
  pose proof (ra_self _ _ _ _ (rr_allocated _ _ _ _ _ Hrr)) as Hs'.
  rewrite Hs in Hs'. injection Hs' as <-.
  destruct (ready_inv _ _ _ _ _ _ _ _ Hwf1 Hrr Hsl Hcell Hsd) as (la & ph & <- & Hph & Hinv).
  destruct (inv_reachable _ _ _ _ Hinv Hr) as (ph' & _ & Hinv').
  split; [by eapply inv_no_fault|]. destruct Hinv' as (? & ? & ? & ? & ? & _ & _ & Hd).
  by eapply data_histories.
Qed.

End interleavings.

