(* ===== verification/KafkaShapes.v ===== *)
(** The two demonstration programs of examples/kafka/kafka-shapes-protobuf
    (shapes_kafka_publisher.cxx and shapes_kafka_subscriber.cxx): the far ends
    of the gateway's Kafka routes.  The publisher sends random shapes for ever,
    the subscriber prints the shapes that it receives, and both stop at the
    first error.

    A try block is a body that jumps to its handler with the locals that the
    code after it reads.  An endless loop is looked at for a number of rounds:
    a program that is still in its loop after them is [Running]. *)
From Stdlib Require Import ZArith Lia.
From stdpp Require Import base gmap strings list fin_maps.
From S2P Require Import Prelude KafkaTypes KafkaWriter KafkaReader.

#[local] Open Scope string_scope.
#[local] Open Scope list_scope.
#[local] Open Scope nat_scope.

(** ** Shapes *)

(** message ShapeType of shape_type.proto. *)
Record ShapeType := Shape {
  sh_color : string;
  sh_x : Z;
  sh_y : Z;
  sh_shapesize : Z
}.

#[export] Instance ShapeType_eq_dec : EqDecision ShapeType.
Proof. solve_decision. Defined.

(** The class that protoc generates from it: the size of the encoding, the
    encoding into an array of a given size ([None] is the result false), the
    decoding of a given number of bytes, and the strings that Protobuf accepts. *)
Class ShapeProto := {
  ByteSizeLong : ShapeType → nat;
  SerializeToArray : ShapeType → Z → option (list Z);
  ParseFromArray : list Z → Z → option ShapeType;
  valid_utf8 : string → bool
}.

(** Fields that their types can hold. *)
Definition int32_fields (s : ShapeType) : Prop :=
  is_s32 (sh_x s) ∧ is_s32 (sh_y s) ∧ is_s32 (sh_shapesize s).

(** What Protobuf documents: the encoding has the announced size, is refused
    when it does not fit, and decodes to the message. *)
Class ShapeLaws (SP : ShapeProto) := {
  serialize_size : ∀ s n d, SerializeToArray s n = Some d →
    length d = ByteSizeLong s ∧ (Z.of_nat (length d) <= n)%Z;
  serialize_fits : ∀ s, (Z.of_nat (ByteSizeLong s) < 2 ^ 31)%Z →
    is_Some (SerializeToArray s (Z.of_nat (ByteSizeLong s)));
  parse_serialize : ∀ s n d, SerializeToArray s n = Some d →
    int32_fields s → valid_utf8 (sh_color s) = true →
    ParseFromArray d (Z.of_nat (length d)) = Some s
}.

(** How far a program got: still in its loop, or returned.  The list is what
    it has printed on std::cout. *)
Inductive progress (L : Type) :=
  | Running (out : list L)
  | Exited (rc : Z) (out : list L).
Arguments Running {L} _.
Arguments Exited {L} _ _.

(** The lines that the two programs print on std::cout. *)
Inductive pub_line := Published (s : ShapeType) | NotDelivered (n : Z).
Inductive sub_line := Received (s : ShapeType) | ParseFailed | ConsumerError.

Definition RD_KAFKA_RESP_ERR__PARTITION_EOF : Z := -191.

(** std::vector::resize. *)
Definition resize (buffer : list Z) (n : nat) : list Z :=
  take n buffer ++ replicate (n - length buffer) 0%Z.

Section operations.
Context {X : Type} `{!Env X kcall, !Fetch X} {SP : ShapeProto}.
#[local] Abbreviation W := (world kobj X kcall).
Context {E : Type}.

(** [min + (std::rand() % (max - min + 1))] on unsigned 32-bit integers. *)
Definition random_between (min max : Z) : M W E Z :=
  r ← call QRand;
  let range := u32 (u32 (max - min) + 1) in
  if (range =? 0)%Z then fail DivisionByZero else mret (u32 (min + u32 r mod range)).

Definition fill_random_shape (color : string) (minSize maxSize minX maxX minY maxY : Z)
    : M W E ShapeType :=
  x ← random_between minX maxX;
  y ← random_between minY maxY;
  size ← random_between minSize maxSize;
  mret (Shape color (s32 x) (s32 y) (s32 size)).

(** rd_kafka_topic_new: the topic refers to its client, which must live as
    long as the topic. *)
Definition rd_kafka_topic_new (rk : ptr) (topic : string) : M W E ptr :=
  load_client rk;; new (QTopicNew topic) (OTopic rk topic).

Definition load_topic (p : ptr) : M W E (ptr * string) :=
  o ← load p; match o with OTopic rk t => mret (rk, t) | _ => fail BadCast end.

Definition rd_kafka_topic_destroy (p : ptr) : M W E () :=
  t ← load_topic p; load_client t.1;; call QTopicDestroy;; free p.

(** rd_kafka_produce with a copy of the payload, to any partition. *)
Definition rd_kafka_produce (topic : ptr) (payload : list Z) : M W E Z :=
  t ← load_topic topic; load_client t.1;; call (QProduce t.2 payload).

(** [if (p == nullptr) throw ...] *)
Definition null_throws {L} (locals : L) (p : ptr) : M W L () :=
  b ← is_null p; when b (goto locals).

(** [res = rd_kafka_conf_set(...); if (res != RD_KAFKA_CONF_OK) throw ...] *)
Definition conf_set_or_throw {L} (locals : L) (conf : ptr) (name value : string) : M W L () :=
  res ← rd_kafka_conf_set conf name (Some value);
  when (negb (res =? RD_KAFKA_CONF_OK)%Z) (goto locals).
End operations.

(** ** The publisher *)
Section publisher.
Context {X : Type} `{!Env X kcall} {SP : ShapeProto}.
#[local] Abbreviation W := (world kobj X kcall).

(** The locals that the end of main reads, and what was printed: producer,
    topic, output. *)
Definition pub_locals : Type := ptr * ptr * list pub_line.

(** One round of the loop, from the buffer of the previous one. *)
Definition publish_round (producer topic : ptr) (color : string) (buffer : list Z)
    (out : list pub_line) : M W pub_locals (ShapeType * list Z) :=
  shape ← fill_random_shape color 10 50 0 255 0 255;
  let payloadLen := ByteSizeLong shape in
  let buffer := resize buffer payloadLen in
  match SerializeToArray shape (s32 (Z.of_nat payloadLen)) with
  | None => goto (producer, topic, out)
  | Some d =>
      if decide (length buffer < length d) then fail OutOfBounds
      else
        let buffer := d ++ drop (length d) buffer in
        r ← rd_kafka_produce topic (take payloadLen buffer);
        when (negb (RD_KAFKA_RESP_ERR_NO_ERROR =? r)%Z) (goto (producer, topic, out));;
        load_client producer;;
        call (QPoll 0);;
        mret (shape, buffer)
  end.

Fixpoint publish (rounds : nat) (producer topic : ptr) (color : string) (buffer : list Z)
    (out : list pub_line) : M W pub_locals (list pub_line) :=
  match rounds with
  | 0 => mret out
  | S rounds =>
      sb ← publish_round producer topic color buffer out;
      publish rounds producer topic color sb.2 (out ++ [Published sb.1])
  end.

(** The try block. *)
Definition publisher_try (rounds : nat) (serverUrl color topicName : string)
    : M W pub_locals (list pub_line) :=
  kafkaConf ← new QConfNew (OConf (Conf [] false));
  null_throws (Null, Null, []) kafkaConf;;
  conf_set_or_throw (Null, Null, []) kafkaConf "bootstrap.servers" serverUrl;;
  conf_set_or_throw (Null, Null, []) kafkaConf "acks" "all";;
  producer ← rd_kafka_new RD_KAFKA_PRODUCER kafkaConf;
  null_throws (producer, Null, []) producer;;
  topic ← rd_kafka_topic_new producer topicName;
  null_throws (producer, topic, []) topic;;
  publish rounds producer topic color [] [].

(** The end of main: the lines it prints. *)
Definition publisher_cleanup {E} (producer topic : ptr) : M W E (list pub_line) :=
  b ← is_null topic;
  when (negb b) (rd_kafka_topic_destroy topic);;
  b ← is_null producer;
  if b : bool then mret []
  else
    load_client producer;;
    call (QFlush (10 * 1000));;
    n ← call QOutqLen;
    warning ← (if (0 <? n)%Z then n ← call QOutqLen; mret [NotDelivered n] else mret []);
    rd_kafka_destroy producer;;
    mret warning.

Definition publisher_main (rounds : nat) (argv : list string)
    : M W Empty_set (progress pub_line) :=
  match argv with
  | [_; serverUrl; color; topicName] =>
      r ← labelled (out ← publisher_try rounds serverUrl color topicName; mret (inl out))
            (λ locals, mret (inr locals));
      match r with
      | inl out => mret (Running out)
      | inr (producer, topic, out) =>
          warning ← publisher_cleanup producer topic;
          mret (Exited 1 (out ++ warning))
      end
  | _ => mret (Exited 1 [])
  end.
End publisher.

(** ** The subscriber *)
Section subscriber.
Context {X : Type} `{!Env X kcall, !Fetch X} {SP : ShapeProto}.
#[local] Abbreviation W := (world kobj X kcall).

Definition sub_locals : Type := ptr * list sub_line.

Definition report (payload : list Z) : sub_line :=
  match ParseFromArray payload (s32 (u64 (Z.of_nat (length payload)))) with
  | None => ParseFailed
  | Some shape => Received shape
  end.

(** One round of the loop: the lines printed so far and in this round. *)
Definition receive_round (consumer : ptr) (out : list sub_line)
    : M W sub_locals (list sub_line) :=
  message ← rd_kafka_consumer_poll consumer 500;
  b ← is_null message;
  if b : bool then mret out
  else
    m ← load_message message;
    out ← (if negb (m.1 =? 0)%Z then
             when (negb (m.1 =? RD_KAFKA_RESP_ERR__PARTITION_EOF)%Z)
               (goto (consumer, out ++ [ConsumerError]));;
             mret out
           else mret (out ++ [report m.2]));
    rd_kafka_message_destroy message;;
    mret out.

Fixpoint receive (rounds : nat) (consumer : ptr) (out : list sub_line)
    : M W sub_locals (list sub_line) :=
  match rounds with
  | 0 => mret out
  | S rounds => out ← receive_round consumer out; receive rounds consumer out
  end.

Definition subscriber_try (rounds : nat) (serverUrl topicName : string)
    : M W sub_locals (list sub_line) :=
  kafkaConf ← new QConfNew (OConf (Conf [] false));
  null_throws (Null, []) kafkaConf;;
  conf_set_or_throw (Null, []) kafkaConf "bootstrap.servers" serverUrl;;
  conf_set_or_throw (Null, []) kafkaConf "group.id" "shapesdemo";;
  consumer ← rd_kafka_new RD_KAFKA_CONSUMER kafkaConf;
  null_throws (consumer, []) consumer;;
  load_client consumer;;
  call QPollSetConsumer;;
  subscription ← new QPartitionListNew (OTopicList []);
  null_throws (consumer, []) subscription;;
  store subscription (OTopicList [topicName]);;
  load_client consumer;;
  err ← call (QSubscribe [topicName]);
  free subscription;;
  when (negb (err =? 0)%Z) (goto (consumer, []));;
  receive rounds consumer [].

Definition subscriber_cleanup {E} (consumer : ptr) : M W E () :=
  b ← is_null consumer;
  when (negb b)
    (load_client consumer;; call QConsumerClose;; rd_kafka_destroy consumer).

Definition subscriber_main (rounds : nat) (argv : list string)
    : M W Empty_set (progress sub_line) :=
  match argv with
  | [_; serverUrl; topicName] =>
      r ← labelled (out ← subscriber_try rounds serverUrl topicName; mret (inl out))
            (λ locals, mret (inr locals));
      match r with
      | inl out => mret (Running out)
      | inr (consumer, out) => subscriber_cleanup consumer;; mret (Exited 1 out)
      end
  | _ => mret (Exited 1 [])
  end.
End subscriber.

(** * Specification *)

(** ** Runs and what librdkafka saw of them *)
Section runs.
Context {X : Type} `{!Env X kcall, !Fetch X} {SP : ShapeProto}.
#[local] Abbreviation W := (world kobj X kcall).
Implicit Types w : W.

(** From [w] to [w'] the calls [qs] were made. *)
Definition ran w w' (qs : list kcall) : Prop :=
  w_trace w' = w_trace w ++ qs ∧ w_ext w' = after (w_ext w) qs.

(** The same, and the memory did not change. *)
Definition quiet w w' (qs : list kcall) : Prop :=
  ran w w' qs ∧ w_next w' = w_next w ∧ w_heap w' = w_heap w.

(** The messages that rd_kafka_produce accepted. *)
Fixpoint produced (x : X) (qs : list kcall) : list (string * list Z) :=
  match qs with
  | [] => []
  | q :: qs' =>
      match q with
      | QProduce t d =>
          if ((answer x q).1 =? RD_KAFKA_RESP_ERR_NO_ERROR)%Z
          then (t, d) :: produced (answer x q).2 qs' else produced (answer x q).2 qs'
      | _ => produced (answer x q).2 qs'
      end
  end.

(** The messages that rd_kafka_consumer_poll delivered. *)
Fixpoint delivered (x : X) (qs : list kcall) : list (Z * list Z) :=
  match qs with
  | [] => []
  | q :: qs' =>
      match q with
      | QConsumerPoll _ =>
          if ((answer x q).1 =? 0)%Z then delivered (answer x q).2 qs'
          else fetched x :: delivered (answer x q).2 qs'
      | _ => delivered (answer x q).2 qs'
      end
  end.

Lemma produced_app x qs qs' :
  produced x (qs ++ qs') = produced x qs ++ produced (after x qs) qs'.
Proof.
  revert x. induction qs as [|q qs IH]; intros x; cbn; [done|].
  destruct q; rewrite ?IH; try done. by case_match.
Qed.

Lemma delivered_app x qs qs' :
  delivered x (qs ++ qs') = delivered x qs ++ delivered (after x qs) qs'.
Proof.
  revert x. induction qs as [|q qs IH]; intros x; cbn; [done|].
  destruct q; rewrite ?IH; try done. by case_match.
Qed.

Lemma ran_refl w : ran w w [].
Proof. split; [by rewrite app_nil_r | done]. Qed.

Lemma ran_trans w1 w2 w3 qs qs' : ran w1 w2 qs → ran w2 w3 qs' → ran w1 w3 (qs ++ qs').
Proof.
  intros [Ht Hx] [Ht' Hx']. split; [by rewrite Ht', Ht, app_assoc|].
  by rewrite after_app, <- Hx.
Qed.

Lemma quiet_refl w : quiet w w [].
Proof. by split; [apply ran_refl|]. Qed.

Lemma quiet_trans w1 w2 w3 qs qs' : quiet w1 w2 qs → quiet w2 w3 qs' → quiet w1 w3 (qs ++ qs').
Proof.
  intros (Hr & Hn & Hh) (Hr' & Hn' & Hh').
  split_and!; [by eapply ran_trans | congruence | congruence].
Qed.

(** A constructor with the answer it got. *)
Lemma wp_new_ans {E} (R : E → W → Prop) (q : kcall) (o : kobj) (Q : ptr → W → Prop) w :
  (∀ x', answer (w_ext w) q = (0%Z, x') →
     Q Null (World (w_next w) (w_heap w) x' (w_trace w ++ [q]))) →
  (∀ r x', answer (w_ext w) q = (r, x') → r ≠ 0%Z →
     Q (Ptr (w_next w))
       (World (S (w_next w)) (<[w_next w := o]> (w_heap w)) x' (w_trace w ++ [q]))) →
  wp (new q o) Q R w.
Proof.
  intros H0 H1. unfold wp, new, mbind, M_bind, call. destruct (answer (w_ext w) q) as [r x'] eqn:Hq.
  cbn [fst snd]. destruct (Z.eqb_spec r 0); [subst; by apply H0 | by eapply H1].
Qed.

(** A shape of the publisher, and the message that carries it. *)
Definition random_shape (color : string) (s : ShapeType) : Prop :=
  sh_color s = color ∧ (0 <= sh_x s <= 255)%Z ∧ (0 <= sh_y s <= 255)%Z
  ∧ (10 <= sh_shapesize s <= 50)%Z.

Definition carries (topic : string) (m : string * list Z) (s : ShapeType) : Prop :=
  m.1 = topic ∧ (Z.of_nat (length m.2) < 2 ^ 31)%Z
  ∧ SerializeToArray s (Z.of_nat (length m.2)) = Some m.2.

Lemma random_shape_fields color s : random_shape color s → int32_fields s.
Proof. unfold random_shape, int32_fields, is_s32. lia. Qed.
End runs.

(** The calls of a run that the symbolic execution went through. *)
Ltac ran_tac :=
  split; cbn [w_trace w_ext set_heap];
    [ rewrite <- ?app_assoc; cbn [app]; reflexivity
    | cbn [after]; repeat (match goal with H : answer ?x ?q = _ |- context [answer ?x ?q] => rewrite H end;
        cbn [fst snd]); reflexivity ].

Ltac s_step :=
  first
    [ lazymatch goal with
      | |- wp (new _ _) _ _ _ =>
          apply wp_new_ans; [let H := fresh "Hans" in intros ? H
                            | let H := fresh "Hans" in intros ? ? H ?];
          cbn [w_ext set_heap] in *
      | |- wp (null_throws _ _) _ _ _ => unfold null_throws
      | |- wp (conf_set_or_throw _ _ _ _) _ _ _ => unfold conf_set_or_throw
      | |- wp (rd_kafka_topic_new _ _) _ _ _ => unfold rd_kafka_topic_new
      | |- wp (load_topic _) _ _ _ => unfold load_topic
      | |- wp (rd_kafka_produce _ _) _ _ _ => unfold rd_kafka_produce
      | |- wp (rd_kafka_topic_destroy _) _ _ _ => unfold rd_kafka_topic_destroy
      | |- wp (random_between _ _) _ _ _ => unfold random_between
      | |- wp (rd_kafka_consumer_poll _ _) _ _ _ => unfold rd_kafka_consumer_poll
      end
    | k_step ].
Ltac s_run := repeat s_step.

Section fill.
Context {X : Type} `{!Env X kcall}.
#[local] Abbreviation W := (world kobj X kcall).
Context {E : Type} (R : E → W → Prop).
Implicit Types w : W.

Lemma random_between_wp min max w Q :
  (0 <= min <= max)%Z → (max < 2 ^ 31)%Z →
  (∀ z w', (min <= z <= max)%Z → quiet w w' [QRand] → Q z w') →
  wp (random_between min max) Q R w.
Proof.
  intros Hmin Hmax HQ. unfold random_between. wp_step. apply wp_call. intros r x' Hans.
  assert (u32 (u32 (max - min) + 1) = max - min + 1)%Z as ->.
  { unfold u32. rewrite (Z.mod_small (max - min)) by lia. apply Z.mod_small. lia. }
  destruct (Z.eqb_spec (max - min + 1) 0); [lia|]. wp_run.
  pose proof (Z.mod_pos_bound (u32 r) (max - min + 1)) as Hb.
  apply HQ.
  - unfold u32 at 1 3. rewrite Z.mod_small by lia. lia.
  - split; [ran_tac | done].
Qed.

Lemma s32_small z : is_s32 z → s32 z = z.
Proof. unfold is_s32, s32. intros. rewrite Z.mod_small by lia. lia. Qed.

Lemma fill_random_shape_wp color minSize maxSize minX maxX minY maxY w Q :
  (0 <= minSize <= maxSize)%Z → (maxSize < 2 ^ 31)%Z →
  (0 <= minX <= maxX)%Z → (maxX < 2 ^ 31)%Z →
  (0 <= minY <= maxY)%Z → (maxY < 2 ^ 31)%Z →
  (∀ s w', sh_color s = color → (minSize <= sh_shapesize s <= maxSize)%Z →
     (minX <= sh_x s <= maxX)%Z → (minY <= sh_y s <= maxY)%Z →
     quiet w w' [QRand; QRand; QRand] → Q s w') →
  wp (fill_random_shape color minSize maxSize minX maxX minY maxY) Q R w.
Proof.
  intros Hs Hs' Hx Hx' Hy Hy' HQ. unfold fill_random_shape.
  wp_step. apply random_between_wp; [done..|]. intros x w1 Hx1 Hw1.
  wp_step. apply random_between_wp; [done..|]. intros y w2 Hy1 Hw2.
  wp_step. apply random_between_wp; [done..|]. intros z w3 Hz1 Hw3. wp_run.
  apply HQ; cbn; rewrite ?s32_small by (unfold is_s32; lia); try done.
  by apply (quiet_trans w w1 w3 [_] [_; _]); [|apply (quiet_trans w1 w2 w3 [_] [_])].
Qed.
End fill.


(** ** The publisher *)
Section publisher_spec.
Context {X : Type} `{!Env X kcall} {SP : ShapeProto} `{!ShapeLaws SP}.
#[local] Abbreviation W := (world kobj X kcall).
Implicit Types w : W.

(** An environment in which nothing fails, and shapes that fit in a message. *)
Definition smooth (color : string) : Prop :=
  (∀ (x : X) (q : kcall), match q with
     | QConfNew | QNew _ _ | QTopicNew _ => (answer x q).1 ≠ 0%Z
     | QConfSet _ _ => (answer x q).1 = RD_KAFKA_CONF_OK
     | QProduce _ _ => (answer x q).1 = RD_KAFKA_RESP_ERR_NO_ERROR
     | _ => True
     end)
  ∧ ∀ s, random_shape color s → (Z.of_nat (ByteSizeLong s) < 2 ^ 31)%Z.

(** A call that failed is none of a smooth run. *)
Ltac not_smooth :=
  let Hok := fresh in
  intros [Hok _]; unfold RD_KAFKA_RESP_ERR_NO_ERROR, RD_KAFKA_CONF_OK in *;
  match goal with
  | H : answer ?x ?q = (_, _) |- _ =>
      let Hq := fresh in
      pose proof (Hok x q) as Hq; cbn in Hq; rewrite H in Hq; cbn in Hq; solve [congruence | lia]
  end.

(** A producer and a topic of it. *)
Definition live_topic w (rk tp : nat) (topic : string) : Prop :=
  (∃ c, w_heap w !! rk = Some (OClient RD_KAFKA_PRODUCER c))
  ∧ w_heap w !! tp = Some (OTopic (Ptr rk) topic).

Lemma live_topic_quiet w w' qs rk tp topic :
  quiet w w' qs → live_topic w rk tp topic → live_topic w' rk tp topic.
Proof. intros (_ & _ & Hh). unfold live_topic. by rewrite Hh. Qed.

(** What the rounds of the loop sent: random shapes, in order. *)
Definition published w w' (color topic : string) (shapes : list ShapeType) : Prop :=
  ∃ qs, quiet w w' qs ∧ Forall (random_shape color) shapes
    ∧ Forall2 (carries topic) (produced (w_ext w) qs) shapes.

Lemma published_nil w w' qs color topic :
  quiet w w' qs → produced (w_ext w) qs = [] → published w w' color topic [].
Proof. intros Hq Hp. exists qs. by rewrite Hp. Qed.

Lemma published_app w1 w2 w3 color topic ss ss' :
  published w1 w2 color topic ss → published w2 w3 color topic ss' →
  published w1 w3 color topic (ss ++ ss').
Proof.
  intros (qs & Hq & Hr & Hc) (qs' & Hq' & Hr' & Hc'). exists (qs ++ qs').
  split_and!; [by eapply quiet_trans | by apply Forall_app |].
  rewrite produced_app, <- (proj2 (proj1 Hq)). by apply Forall2_app.
Qed.

Lemma resize_length buffer n : length (resize buffer n) = n.
Proof. unfold resize. rewrite length_app, length_take, length_replicate. lia. Qed.

(** The encoding of a shape fills the buffer that was resized for it. *)
Lemma serialized_buffer s d buffer :
  SerializeToArray s (s32 (Z.of_nat (ByteSizeLong s))) = Some d →
  length (resize buffer (ByteSizeLong s)) = length d
  ∧ take (ByteSizeLong s) (d ++ drop (length d) (resize buffer (ByteSizeLong s))) = d
  ∧ (Z.of_nat (length d) < 2 ^ 31)%Z
  ∧ SerializeToArray s (Z.of_nat (length d)) = Some d.
Proof.
  intros Hd. destruct (serialize_size _ _ _ Hd) as [Hl Hn].
  assert (s32 (Z.of_nat (ByteSizeLong s)) < 2 ^ 31)%Z as Hb.
  { unfold s32. pose proof (Z.mod_pos_bound (Z.of_nat (ByteSizeLong s) + 2 ^ 31) (2 ^ 32)). lia. }
  rewrite resize_length. split_and!; [done | | lia |].
  - by rewrite <- Hl, take_app_length.
  - rewrite Hl, <- (s32_small (Z.of_nat (ByteSizeLong s))); [done|]. unfold is_s32. lia.
Qed.

Lemma publish_round_wp rk tp topic color buffer out w :
  live_topic w rk tp topic →
  wp (publish_round (Ptr rk) (Ptr tp) color buffer out)
     (λ sb w', published w w' color topic [sb.1])
     (λ e w', e = (Ptr rk, Ptr tp, out) ∧ published w w' color topic [] ∧ ¬ smooth color) w.
Proof.
  intros Hlive. unfold publish_round. wp_step.
  apply fill_random_shape_wp; [lia..|]. intros s w1 Hc Hs Hx Hy Hw1.
  assert (random_shape color s) as Hs1 by (unfold random_shape; split; [done | lia]).
  destruct (live_topic_quiet _ _ _ _ _ _ Hw1 Hlive) as [[c Hrk] Htp].
  destruct (SerializeToArray s _) as [d|] eqn:Hd.
  2: { wp_run. split; [done|]. split; [by eapply published_nil|].
       intros [_ Hsize]. specialize (Hsize s Hs1). destruct (serialize_fits s Hsize) as [d' Hd'].
       rewrite s32_small in Hd; [congruence | unfold is_s32; lia]. }
  destruct (serialized_buffer s d buffer Hd) as (Hlen & Htake & Hsize & Hcarry).
  rewrite decide_False by lia. rewrite Htake.
  assert (∀ r x', answer (w_ext w1) (QProduce topic d) = (r, x') →
    quiet w (World (w_next w1) (w_heap w1) x' (w_trace w1 ++ [QProduce topic d]))
      ([QRand; QRand; QRand] ++ [QProduce topic d])
    ∧ produced (w_ext w) ([QRand; QRand; QRand] ++ [QProduce topic d])
      = if (r =? 0)%Z then [(topic, d)] else []) as Hcall.
  { intros r x' Hans. split; [eapply quiet_trans; [exact Hw1|]; split; [ran_tac | done]|].
    rewrite produced_app, <- (proj2 (proj1 Hw1)). cbn. by rewrite Hans. }
  s_run; destruct (Hcall _ _ Hans) as [Hq Hp].
  - tidy_bool. split; [done|]. split; [|not_smooth]. eapply published_nil; [exact Hq|].
    rewrite Hp. by destruct (Z.eqb_spec r 0).
  - change RD_KAFKA_RESP_ERR_NO_ERROR with 0%Z in *. subst r. cbn [Z.eqb fst] in *.
    exists (([QRand; QRand; QRand] ++ [QProduce topic d]) ++ [QPoll 0]). split_and!.
    + eapply quiet_trans; [exact Hq|]. split; [ran_tac | done].
    + by constructor.
    + rewrite produced_app, Hp. cbn. by repeat constructor.
Qed.

(** The loop, round by round: it publishes one shape in each, or stops with
    those that it has published. *)
Lemma publish_wp rounds rk tp topic color buffer out w :
  live_topic w rk tp topic →
  wp (publish rounds (Ptr rk) (Ptr tp) color buffer out)
     (λ out' w', ∃ shapes, out' = out ++ (Published <$> shapes) ∧ length shapes = rounds
        ∧ published w w' color topic shapes)
     (λ e w', ∃ shapes, e = (Ptr rk, Ptr tp, out ++ (Published <$> shapes))
        ∧ length shapes < rounds ∧ published w w' color topic shapes ∧ ¬ smooth color) w.
Proof.
  revert buffer out w. induction rounds as [|rounds IH]; intros buffer out w Hlive; cbn [publish].
  { wp_run. exists []. rewrite app_nil_r. split_and!; [done..|].
    eapply published_nil; [apply quiet_refl | done]. }
  wp_step. eapply wp_mono; [by apply publish_round_wp| |].
  2: { intros e w1 (-> & Hw1 & Hn). exists []. rewrite app_nil_r.
       split_and!; [done | cbn; lia | done | done]. }
  intros [s buffer'] w1 Hw1. cbn [fst snd] in *.
  eapply wp_mono; [apply IH| |].
  - destruct Hw1 as (qs & Hq & _). by eapply live_topic_quiet.
  - intros out' w2 (ss & -> & Hl & Hw2). exists (s :: ss). rewrite <- app_assoc.
    split_and!; [done | cbn; lia | by apply (published_app w w1 w2 _ _ [s] ss)].
  - intros e w2 (ss & -> & Hl & Hw2 & Hn). exists (s :: ss). rewrite <- app_assoc.
    split_and!; [done | cbn; lia | by apply (published_app w w1 w2 _ _ [s] ss) | done].
Qed.

(** The configuration of the publisher's client. *)
Definition publisher_conf (serverUrl : string) : conf :=
  Conf [("bootstrap.servers", Some serverUrl); ("acks", Some "all")] false.

(** At most one object more than before: a configuration. *)
Definition conf_leaked w w' : Prop :=
  w_heap w' = w_heap w
  ∨ ∃ l c, w_heap w !! l = None ∧ w_heap w' = <[l := OConf c]> (w_heap w).

(** What a publisher owns that holds the locals [producer] and [topic]. *)
Definition pub_mem w w' (serverUrl topicName : string) (producer topic : ptr) : Prop :=
  match producer, topic with
  | Null, Null => conf_leaked w w'
  | Ptr rk, Null =>
      w_heap w !! rk = None
      ∧ w_heap w' = <[rk := OClient RD_KAFKA_PRODUCER (publisher_conf serverUrl)]> (w_heap w)
  | Ptr rk, Ptr tp =>
      w_heap w !! rk = None ∧ w_heap w !! tp = None ∧ rk ≠ tp
      ∧ w_heap w' = <[tp := OTopic (Ptr rk) topicName]>
          (<[rk := OClient RD_KAFKA_PRODUCER (publisher_conf serverUrl)]> (w_heap w))
  | _, _ => False
  end.

(** What was sent between two states. *)
Definition sent w w' (color topic : string) (shapes : list ShapeType) : Prop :=
  ∃ qs, ran w w' qs ∧ Forall (random_shape color) shapes
    ∧ Forall2 (carries topic) (produced (w_ext w) qs) shapes.

Lemma sent_nil w w' qs color topic :
  ran w w' qs → produced (w_ext w) qs = [] → sent w w' color topic [].
Proof. intros Hr Hp. exists qs. by rewrite Hp. Qed.

Lemma sent_app w1 w2 w3 color topic ss ss' :
  sent w1 w2 color topic ss → sent w2 w3 color topic ss' → sent w1 w3 color topic (ss ++ ss').
Proof.
  intros (qs & Hq & Hr & Hc) (qs' & Hq' & Hr' & Hc'). exists (qs ++ qs').
  split_and!; [by eapply ran_trans | by apply Forall_app |].
  rewrite produced_app, <- (proj2 Hq). by apply Forall2_app.
Qed.

Lemma published_sent w w' color topic ss :
  published w w' color topic ss → sent w w' color topic ss ∧ w_heap w' = w_heap w.
Proof. intros (qs & (Hr & _ & Hh) & Hf & Hc). split; [by exists qs | done]. Qed.

(** A publisher in its loop, and one that left it. *)
Definition pub_state w w' (serverUrl color topicName : string) (producer topic : ptr)
    (out : list pub_line) (shapes : list ShapeType) : Prop :=
  out = Published <$> shapes ∧ sent w w' color topicName shapes
  ∧ pub_mem w w' serverUrl topicName producer topic
  ∧ (shapes ≠ [] → topic ≠ Null).

(** Before the loop nothing was sent. *)
Ltac not_sent :=
  lazymatch goal with
  | |- ∃ _, _ ∧ pub_state _ _ _ _ _ _ _ _ _ ∧ _ =>
      exists []; split; [cbn; lia|]; split; [|not_smooth]; split; [done|]; split;
      [eapply sent_nil; [ran_tac | done] | split; [|done]]
  end.

(** The loop of a publisher that has its producer and its topic. *)
Lemma publish_from_wp rounds serverUrl color topicName rk tp w v :
  sent w v color topicName [] → pub_mem w v serverUrl topicName (Ptr rk) (Ptr tp) →
  wp (publish rounds (Ptr rk) (Ptr tp) color [] [])
     (λ out w', ∃ shapes rk tp, length shapes = rounds
        ∧ pub_state w w' serverUrl color topicName (Ptr rk) (Ptr tp) out shapes)
     (λ e w', ∃ shapes, length shapes <= rounds
        ∧ pub_state w w' serverUrl color topicName e.1.1 e.1.2 e.2 shapes ∧ ¬ smooth color) v.
Proof.
  intros Hs (Hrk & Htp & Hne & Hh).
  assert (∀ w' ss, published v w' color topicName ss →
    pub_state w w' serverUrl color topicName (Ptr rk) (Ptr tp) (Published <$> ss) ss) as Hst.
  { intros w' ss Hp%published_sent. destruct Hp as [Hp Hh'].
    split; [done|]. split; [by apply (sent_app w v w' _ _ [] ss)|]. split; [|done].
    cbn [pub_mem]. by rewrite Hh', Hh. }
  eapply wp_mono; [apply (publish_wp rounds _ _ topicName)| |].
  - split; [eexists|]; rewrite Hh; heap_lookup.
  - intros out w' (ss & -> & Hl & Hp). exists ss, rk, tp. split; [done | by apply Hst].
  - intros e w' (ss & -> & Hl & Hp & Hn). exists ss. split; [lia|]. split; [by apply Hst | done].
Qed.

Lemma publisher_try_wp rounds serverUrl color topicName w :
  heap_wf w →
  wp (publisher_try rounds serverUrl color topicName)
     (λ out w', ∃ shapes rk tp, length shapes = rounds
        ∧ pub_state w w' serverUrl color topicName (Ptr rk) (Ptr tp) out shapes)
     (λ e w', ∃ shapes, length shapes <= rounds
        ∧ pub_state w w' serverUrl color topicName e.1.1 e.1.2 e.2 shapes ∧ ¬ smooth color) w.
Proof.
  intros Hwf. unfold publisher_try. s_run; tidy_bool; cbn [fst snd app] in *.
  (* the configuration, the producer, the topic *)
  - not_sent. by left.
  - not_sent. right. eexists _, _. split; [by apply heap_wf_fresh | heap_eq].
  - not_sent. split; [apply Hwf; lia | heap_eq].
  - (* the loop *)
    apply (publish_from_wp _ _ _ _ _ _ w); [eapply sent_nil; [ran_tac | done]|].
    split_and!; [apply Hwf; lia | apply Hwf; lia | lia | heap_eq].
  (* its two properties *)
  - not_sent. right. eexists _, _. split; [by apply heap_wf_fresh | heap_eq].
  - not_sent. right. eexists _, _. split; [by apply heap_wf_fresh | heap_eq].
Qed.

(** The end of main gives back the topic and the producer, after the queue had
    its time to drain. *)
Lemma publisher_cleanup_wp {E} (R : E → W → Prop) serverUrl topicName producer topic w w' Q :
  heap_wf w → pub_mem w w' serverUrl topicName producer topic →
  (∀ warning v qs, ran w' v qs → produced (w_ext w') qs = [] → conf_leaked w v →
     (warning = [] ∨ ∃ n, warning = [NotDelivered n]) →
     (topic ≠ Null → w_heap v = w_heap w ∧ [QTopicDestroy; QFlush 10000; QOutqLen] `prefix_of` qs) →
     Q warning v) →
  wp (publisher_cleanup producer topic) Q R w'.
Proof.
  intros Hwf Hm HQ. unfold publisher_cleanup.
  destruct producer as [|rk|]; [| |destruct topic; done]; (destruct topic as [|tp|]; try done);
    cbn [pub_mem] in Hm.
  - s_run. eapply HQ; [apply ran_refl | done | done | by left | done].
  - destruct Hm as [Hrk Hh].
    assert (w_heap w' !! rk = Some (OClient RD_KAFKA_PRODUCER (publisher_conf serverUrl))) as Hl
      by (rewrite Hh; heap_lookup).
    s_run; case_match; s_run.
    all: eapply HQ; [ran_tac | cbn; done | left; rewrite Hh; heap_eq | eauto | done].
  - destruct Hm as (Hrk & Htp & Hne & Hh).
    assert (w_heap w' !! rk = Some (OClient RD_KAFKA_PRODUCER (publisher_conf serverUrl))) as Hl
      by (rewrite Hh; heap_lookup).
    assert (w_heap w' !! tp = Some (OTopic (Ptr rk) topicName)) as Hl'
      by (rewrite Hh; heap_lookup).
    s_run; case_match; s_run.
    all: eapply HQ; [ran_tac | cbn; done | left; rewrite Hh; heap_eq | eauto |].
    all: intros _; split; [rewrite Hh; heap_eq | by eexists].
Qed.



(** The flush and what came before it. *)
Definition flushed (x : X) (qs : list kcall) : Prop :=
  ∃ qs1 qs2, qs = qs1 ++ [QTopicDestroy; QFlush 10000; QOutqLen] ++ qs2
    ∧ produced x qs = produced x qs1.

(** What a publisher has done that was looked at for [rounds] rounds: the
    shapes that it reports are those of the messages that librdkafka accepted.
    Either it is in its loop and owns its producer and its topic, or something
    failed and it has returned 1; then it owns nothing that it had created,
    a configuration object apart, and if it had sent something the queue had
    been flushed after the last message. *)
Definition publisher_result (rounds : nat) (serverUrl color topicName : string) w
    (p : progress pub_line) w' : Prop :=
  ∃ shapes qs, ran w w' qs
    ∧ Forall (random_shape color) shapes
    ∧ Forall2 (carries topicName) (produced (w_ext w) qs) shapes
    ∧ match p with
      | Running out =>
          out = Published <$> shapes ∧ length shapes = rounds
          ∧ ∃ rk tp, pub_mem w w' serverUrl topicName (Ptr rk) (Ptr tp)
      | Exited rc out =>
          rc = 1%Z ∧ length shapes <= rounds
          ∧ (out = Published <$> shapes
             ∨ ∃ n, out = (Published <$> shapes) ++ [NotDelivered n])
          ∧ conf_leaked w w'
          ∧ (shapes ≠ [] → w_heap w' = w_heap w ∧ flushed (w_ext w) qs)
          ∧ ¬ smooth color
      end.

Lemma publisher_main_wp rounds prog serverUrl color topicName w :
  heap_wf w →
  wp (publisher_main rounds [prog; serverUrl; color; topicName])
     (publisher_result rounds serverUrl color topicName w) no_jump w.
Proof.
  intros Hwf. unfold publisher_main. wp_step. apply wp_labelled. wp_step.
  eapply wp_mono; [by apply publisher_try_wp| |].
  - intros out w' (ss & rk & tp & Hl & -> & (qs & Hr & Hf & Hc) & Hm & _). wp_run.
    exists ss, qs. split_and!; [done..|]. by exists rk, tp.
  - intros [[producer topic] out] w' (ss & Hl & (Hout & (qs & Hr & Hf & Hc) & Hm & Ht) & Hn).
    cbn [fst snd] in *. subst out. wp_step. wp_step. eapply publisher_cleanup_wp; [done..|].
    intros warning v qs' Hr' Hp Hleak Hwarn Htopic. wp_run.
    assert (produced (w_ext w) (qs ++ qs') = produced (w_ext w) qs) as Hp'.
    { rewrite produced_app, <- (proj2 Hr), Hp. apply app_nil_r. }
    exists ss, (qs ++ qs'). rewrite Hp'.
    split; [by eapply ran_trans|]. split; [done|]. split; [done|]. split; [done|].
    split; [done|]. split; [|split; [done|split; [|done]]].
    + destruct Hwarn as [->|[n ->]]; [left; apply app_nil_r | right; by exists n].
    + intros Hne. destruct (Htopic (Ht Hne)) as [Hh [qs2 ->]]. split; [done|].
      exists qs, qs2. by split.
Qed.

(** C20: the publisher, whatever librdkafka answers and however long it runs:
    it never touches memory wrongly; it sends exactly the shapes that it
    reports, in order, each in one message of its topic, with positions in 0
    to 255 and sizes in 10 to 50; it returns only when something fails, and
    then 1, having destroyed its topic and, after a flush that follows the last
    message, its producer. *)
Theorem publisher_publishes rounds prog serverUrl color topicName w :
  heap_wf w →
  wp (publisher_main rounds [prog; serverUrl; color; topicName])
     (publisher_result rounds serverUrl color topicName w) no_jump w.
Proof. apply publisher_main_wp. Qed.

(** When librdkafka refuses nothing the publisher never returns: it has
    sent a shape in every round, however many there are. *)
Theorem publisher_never_returns rounds prog serverUrl color topicName w :
  heap_wf w → smooth color →
  ∃ shapes w', publisher_main rounds [prog; serverUrl; color; topicName] w
      = Ok (Running (Published <$> shapes)) w' ∧ length shapes = rounds.
Proof.
  intros Hwf Hs.
  destruct (wp_returns _ _ _ (publisher_main_wp rounds prog serverUrl color topicName w Hwf))
    as ([out|rc out] & w' & Hm & ss & qs & _ & _ & _ & H).
  - destruct H as (-> & Hl & _). by exists ss, w'.
  - by destruct H as (_ & _ & _ & _ & _ & Hn).
Qed.


End publisher_spec.

(** ** The subscriber *)
Section subscriber_spec.
Context {X : Type} `{!Env X kcall, !Fetch X} {SP : ShapeProto}.
#[local] Abbreviation W := (world kobj X kcall).
Implicit Types w : W.

(** What is printed for a message. *)
Definition line_of (m : Z * list Z) : option sub_line :=
  if (m.1 =? 0)%Z then Some (report m.2)
  else if (m.1 =? RD_KAFKA_RESP_ERR__PARTITION_EOF)%Z then None
  else Some ConsumerError.

(** The calls of a run, what it printed, and the blocks it leaves. *)
Definition received w w' (lines : list sub_line) (h : gmap nat kobj) : Prop :=
  ∃ qs, ran w w' qs ∧ lines = omap line_of (delivered (w_ext w) qs)
    ∧ w_next w <= w_next w' ∧ w_heap w' = h.

Lemma received_app w1 w2 w3 ls ls' h h' :
  received w1 w2 ls h → received w2 w3 ls' h' → received w1 w3 (ls ++ ls') h'.
Proof.
  intros (qs & Hq & -> & Hn & _) (qs' & Hq' & -> & Hn' & Hh'). exists (qs ++ qs').
  split; [by eapply ran_trans|]. split; [|split; [lia | done]].
  by rewrite delivered_app, <- (proj2 Hq), omap_app.
Qed.

Lemma received_nil w w' qs :
  ran w w' qs → delivered (w_ext w) qs = [] → w_next w <= w_next w' →
  received w w' [] (w_heap w').
Proof. intros Hr Hd Hn. exists qs. by rewrite Hd. Qed.

Lemma report_no_error d : report d ≠ ConsumerError.
Proof. unfold report. by case_match. Qed.

(** The message of the error is not destroyed. *)
Definition message_leaked (h h' : gmap nat kobj) : Prop :=
  ∃ l e d, h !! l = None ∧ h' = <[l := OMessage e d]> h.

Lemma receive_round_wp rk c out w :
  heap_wf w → w_heap w !! rk = Some (OClient RD_KAFKA_CONSUMER c) →
  wp (receive_round (Ptr rk) out)
     (λ out' w', ∃ ls, out' = out ++ ls ∧ ConsumerError ∉ ls ∧ received w w' ls (w_heap w))
     (λ e w', e = (Ptr rk, out ++ [ConsumerError])
        ∧ ∃ h, received w w' [ConsumerError] h ∧ message_leaked (w_heap w) h) w.
Proof.
  intros Hwf Hrk. unfold receive_round. s_run.
  - exists []. rewrite app_nil_r. split_and!; [done | set_solver |].
    eapply (received_nil w (World _ _ _ _)); [ran_tac | cbn; by rewrite Hans | done].
  - (* a message *)
    assert (∀ v qs ls h, ran w v (QConsumerPoll 500 :: qs) → delivered x' qs = [] →
      w_next w <= w_next v → option_list (line_of (fetched (w_ext w))) = ls →
      w_heap v = h → received w v ls h) as Hdone.
    { intros v qs ls h Hr Hd Hn <- Hh. eexists. split; [exact Hr|]. split; [|done].
      cbn [delivered]. rewrite Hans. cbn [fst snd]. rewrite Hd.
      destruct (Z.eqb_spec r 0); [done|]. cbn. by destruct (line_of _). }
    destruct (fetched (w_ext w)) as [e d] eqn:Hf. cbn [fst snd] in *.
    unfold line_of in Hdone. cbn [fst snd] in Hdone.
    destruct (Z.eqb_spec e 0) as [->|He]; cbn [negb].
    + s_run. exists [report d]. split; [done|]. split.
      { intros Hin%list_elem_of_singleton. by eapply report_no_error. }
      eapply Hdone; [ran_tac | done | cbn; lia | done | heap_eq].
    + destruct (Z.eqb_spec e RD_KAFKA_RESP_ERR__PARTITION_EOF) as [->|He']; cbn [negb].
      * s_run. exists []. rewrite app_nil_r. split; [done|]. split; [set_solver|].
        eapply Hdone; [ran_tac | done | cbn; lia | done | heap_eq].
      * s_run. split; [done|]. eexists. split.
        { eapply Hdone; [ran_tac | done | cbn; lia | done | done]. }
        exists (w_next w), e, d. split; [by apply heap_wf_fresh | done].
Qed.

(** The loop: the lines are those of the delivered messages, the last one that
    of the error when it stops. *)
Lemma receive_wp rounds rk c out w :
  heap_wf w → w_heap w !! rk = Some (OClient RD_KAFKA_CONSUMER c) →
  wp (receive rounds (Ptr rk) out)
     (λ out' w', ∃ ls, out' = out ++ ls ∧ ConsumerError ∉ ls ∧ received w w' ls (w_heap w))
     (λ e w', ∃ ls h, e = (Ptr rk, out ++ ls ++ [ConsumerError]) ∧ ConsumerError ∉ ls
        ∧ received w w' (ls ++ [ConsumerError]) h ∧ message_leaked (w_heap w) h) w.
Proof.
  revert out w. induction rounds as [|rounds IH]; intros out w Hwf Hrk; cbn [receive].
  { wp_run. exists []. rewrite app_nil_r. split_and!; [done | set_solver |].
    by apply (received_nil w w []); [apply ran_refl | |]. }
  wp_step. eapply wp_mono; [by eapply receive_round_wp| |].
  2: { intros e w1 (-> & h & Hr & Hl). exists [], h. split_and!; [done | set_solver | done | done]. }
  intros out1 w1 (ls & -> & Hno & Hr). pose proof Hr as (_ & _ & _ & Hn & Hh).
  eapply wp_mono; [apply IH| |].
  - intros l Hl. rewrite Hh. apply Hwf. lia.
  - by rewrite Hh.
  - intros out2 w2 (ls2 & -> & Hno2 & Hr2). exists (ls ++ ls2). rewrite <- app_assoc.
    split_and!; [done | set_solver |]. rewrite <- Hh. by eapply received_app.
  - intros e w2 (ls2 & h & -> & Hno2 & Hr2 & Hl). exists (ls ++ ls2), h.
    rewrite <- !app_assoc. split_and!; [done | set_solver | by eapply received_app |].
    by rewrite <- Hh.
Qed.

(** The configuration of the subscriber's client, and the client itself. *)
Definition subscriber_conf (serverUrl : string) : conf :=
  Conf [("bootstrap.servers", Some serverUrl); ("group.id", Some "shapesdemo")] false.
Definition consumer_of (serverUrl : string) : kobj :=
  OClient RD_KAFKA_CONSUMER (subscriber_conf serverUrl).

(** How the loop ended: it was not reached, or a consumer error stopped it. *)
Definition sub_end (h h' : gmap nat kobj) (lines : list sub_line) : Prop :=
  (lines = [] ∧ h' = h)
  ∨ ∃ ls, lines = ls ++ [ConsumerError] ∧ ConsumerError ∉ ls ∧ message_leaked h h'.

(** A subscriber that left its try block: without a consumer, or with one. *)
Definition sub_stopped w (serverUrl : string) (e : sub_locals) w' : Prop :=
  match e.1 with
  | Null => e.2 = [] ∧ received w w' [] (w_heap w') ∧ conf_leaked w w'
  | Ptr rk => w_heap w !! rk = None
      ∧ ∃ h, h !! rk = None ∧ received w w' e.2 (<[rk := consumer_of serverUrl]> h)
          ∧ sub_end (w_heap w) h e.2
  | Wild => False
  end.

(** The loop of a subscriber that has its consumer. *)
Lemma receive_from_wp rounds serverUrl rk w v :
  heap_wf v → w_heap w !! rk = None → rk < w_next v →
  received w v [] (<[rk := consumer_of serverUrl]> (w_heap w)) →
  wp (receive rounds (Ptr rk) [])
     (λ out w', ∃ rk, w_heap w !! rk = None ∧ ConsumerError ∉ out
        ∧ received w w' out (<[rk := consumer_of serverUrl]> (w_heap w)))
     (sub_stopped w serverUrl) v.
Proof.
  intros Hwf Hrk Hlt Hr. pose proof Hr as (_ & _ & _ & _ & Hh).
  eapply wp_mono; [eapply receive_wp; [done | rewrite Hh; apply lookup_insert_eq]| |].
  - intros out w' (ls & -> & Hno & Hr'). exists rk. rewrite Hh in Hr'.
    split_and!; [done | done | by apply (received_app w v w' [] ls _ _ Hr)].
  - intros e w' (ls & h & -> & Hno & Hr' & (l & m & d & Hl & ->)).
    rewrite Hh in Hl, Hr'. apply lookup_insert_None in Hl as [Hl Hne].
    rewrite insert_insert_ne in Hr' by done.
    split; [done|]. exists (<[l := OMessage m d]> (w_heap w)). cbn [fst snd app].
    split; [by rewrite lookup_insert_ne|].
    split; [by apply (received_app w v w' [] _ _ _ Hr)|]. right. exists ls.
    split_and!; [done | done |]. by exists l, m, d.
Qed.

(** Nothing was received yet. *)
Lemma received_none w w' qs h :
  ran w w' qs → delivered (w_ext w) qs = [] → w_next w <= w_next w' → w_heap w' = h →
  received w w' [] h.
Proof. intros ??? <-. by eapply received_nil. Qed.

Ltac not_received :=
  eapply received_none; [ran_tac | done | cbn; lia | first [done | heap_eq]].

Lemma stopped_with_consumer w serverUrl rk w' :
  w_heap w !! rk = None → received w w' [] (<[rk := consumer_of serverUrl]> (w_heap w)) →
  sub_stopped w serverUrl (Ptr rk, []) w'.
Proof. intros Hrk Hr. split; [done|]. exists (w_heap w). by split_and!; [| |left]. Qed.

Lemma subscriber_try_wp rounds serverUrl topicName w :
  heap_wf w →
  wp (subscriber_try rounds serverUrl topicName)
     (λ out w', ∃ rk, w_heap w !! rk = None ∧ ConsumerError ∉ out
        ∧ received w w' out (<[rk := consumer_of serverUrl]> (w_heap w)))
     (sub_stopped w serverUrl) w.
Proof.
  intros Hwf. unfold subscriber_try. s_run; tidy_bool; cbn [fst snd app] in *.
  (* without a configuration, without a consumer *)
  - split; [done|]. split; [not_received | by left].
  - split; [done|]. split; [not_received|]. right. eexists _, _.
    split; [by apply heap_wf_fresh | heap_eq].
  (* without a list, without a subscription *)
  - apply stopped_with_consumer; [apply Hwf; lia | not_received].
  - apply stopped_with_consumer; [apply Hwf; lia | not_received].
  (* the loop *)
  - apply receive_from_wp; [| apply Hwf; lia | cbn; lia | not_received].
    intros l Hl. wsimpl. heap_lookup. apply Hwf. lia.
  (* the two properties *)
  - split; [done|]. split; [not_received|]. right. eexists _, _.
    split; [by apply heap_wf_fresh | heap_eq].
  - split; [done|]. split; [not_received|]. right. eexists _, _.
    split; [by apply heap_wf_fresh | heap_eq].
Qed.

(** What a subscriber has done that was looked at for [rounds] rounds: it has
    printed a line for every message that was delivered, those that only
    report the end of a partition apart.  Either it is in its loop and owns its
    consumer, or it has returned 1: before the loop, when at most a configuration
    object is left, or after a consumer error, whose message is left. *)
Definition subscriber_result (serverUrl : string) w (p : progress sub_line) w' : Prop :=
  ∃ qs, ran w w' qs
    ∧ match p with
      | Running out =>
          out = omap line_of (delivered (w_ext w) qs) ∧ ConsumerError ∉ out
          ∧ ∃ rk, w_heap w !! rk = None
              ∧ w_heap w' = <[rk := consumer_of serverUrl]> (w_heap w)
      | Exited rc out =>
          rc = 1%Z ∧ out = omap line_of (delivered (w_ext w) qs)
          ∧ (out = [] ∧ conf_leaked w w'
             ∨ ∃ ls, out = ls ++ [ConsumerError] ∧ ConsumerError ∉ ls
                 ∧ message_leaked (w_heap w) (w_heap w'))
      end.

Lemma subscriber_main_wp rounds prog serverUrl topicName w :
  heap_wf w →
  wp (subscriber_main rounds [prog; serverUrl; topicName])
     (subscriber_result serverUrl w) no_jump w.
Proof.
  intros Hwf. unfold subscriber_main. wp_step. apply wp_labelled. wp_step.
  eapply wp_mono; [by apply subscriber_try_wp| |].
  - intros out w' (rk & Hrk & Hno & (qs & Hr & Hl & _ & Hh)). wp_run.
    exists qs. split_and!; [done..|]. by exists rk.
  - intros [consumer out] w' He. wp_step. wp_step. unfold subscriber_cleanup.
    destruct consumer as [|rk|]; [| |done]; cbn [sub_stopped fst snd] in He.
    + destruct He as (-> & (qs & Hr & Hl & _ & _) & Hleak). s_run.
      exists qs. split_and!; [done..|]. by left.
    + destruct He as (Hrk & h & Hrk' & (qs & Hr & Hl & _ & Hh) & Hend).
      assert (w_heap w' !! rk = Some (consumer_of serverUrl)) as Hlk by (rewrite Hh; heap_lookup).
      unfold consumer_of in *. s_run.
      exists (qs ++ [QConsumerClose; QDestroy RD_KAFKA_CONSUMER]).
      assert (delete rk (w_heap w') = h) as Hdel by (rewrite Hh; by apply delete_insert_id).
      split; [eapply ran_trans; [exact Hr | ran_tac]|]. split; [done|].
      split; [rewrite delivered_app; cbn; by rewrite app_nil_r|].
      unfold conf_leaked. wsimpl. rewrite Hdel.
      destruct Hend as [[-> ->] | Hend]; [left; split; [done | by left] | by right].
Qed.

(** C21: the subscriber, whatever librdkafka answers and however long it runs:
    it never touches memory wrongly; the lines that it prints are, in order,
    those of the messages it was delivered: the shape, or that it is none; it
    stops at the first consumer error and returns 1, with its consumer closed
    and destroyed, but with the message of that error still allocated. *)
Theorem subscriber_reports rounds prog serverUrl topicName w :
  heap_wf w →
  wp (subscriber_main rounds [prog; serverUrl; topicName])
     (subscriber_result serverUrl w) no_jump w.
Proof. apply subscriber_main_wp. Qed.


End subscriber_spec.


(** ** From the publisher to the subscriber *)
Section end_to_end.
Context {X Y : Type} `{!Env X kcall} `{!Env Y kcall, !Fetch Y} {SP : ShapeProto} `{!ShapeLaws SP}.
#[local] Abbreviation WP := (world kobj X kcall).
#[local] Abbreviation WS := (world kobj Y kcall).
Implicit Types (w : WP) (v : WS).

(** The shapes of the lines of either program. *)
Definition published_shapes (p : progress pub_line) : list ShapeType :=
  match p with
  | Running out | Exited _ out => omap (λ l, match l with Published s => Some s | _ => None end) out
  end.
Definition lines (p : progress sub_line) : list sub_line :=
  match p with Running out | Exited _ out => out end.

Lemma published_shapes_fmap (ss : list ShapeType) :
  omap (λ l, match l with Published s => Some s | _ => None end) (Published <$> ss) = ss.
Proof. induction ss; cbn; [done | by f_equal]. Qed.

Lemma publisher_result_shapes rounds serverUrl color topicName w p w' :
  publisher_result rounds serverUrl color topicName w p w' →
  ∃ qs, ran w w' qs ∧ Forall (random_shape color) (published_shapes p)
    ∧ Forall2 (carries topicName) (produced (w_ext w) qs) (published_shapes p).
Proof.
  intros (ss & qs & Hr & Hf & Hc & Hp). exists qs. split; [done|].
  replace (published_shapes p) with ss; [done|]. destruct p as [out|rc out].
  - destruct Hp as (-> & _). cbn. by rewrite published_shapes_fmap.
  - destruct Hp as (_ & _ & [->|[n ->]] & _); cbn;
      by rewrite ?omap_app, published_shapes_fmap, ?app_nil_r.
Qed.

Lemma subscriber_result_lines serverUrl v p v' :
  subscriber_result serverUrl v p v' →
  ∃ qs, ran v v' qs ∧ lines p = omap line_of (delivered (w_ext v) qs).
Proof. intros (qs & Hr & Hp). exists qs. split; [done|]. destruct p; naive_solver. Qed.

(** The calls of a run are determined by its ends. *)
Lemma ran_det {Z} `{!Env Z kcall} (u u' : world kobj Z kcall) qs qs' :
  ran u u' qs → w_trace u' = w_trace u ++ qs' → qs = qs'.
Proof. intros [Ht _] Ht'. rewrite Ht in Ht'. by apply app_inv_head in Ht'. Qed.

(** What the subscriber prints for a message that carries a shape. *)
Lemma line_of_carried color topic m s :
  carries topic m s → random_shape color s → valid_utf8 color = true →
  line_of (0%Z, m.2) = Some (Received s).
Proof.
  intros (_ & Hlen & Hs) Hr Hc. unfold line_of, report. cbn [fst snd Z.eqb].
  assert (s32 (u64 (Z.of_nat (length m.2))) = Z.of_nat (length m.2)) as ->.
  { unfold u64. rewrite Z.mod_small by lia. apply s32_small. unfold is_s32. lia. }
  rewrite (parse_serialize s _ _ Hs); [done | by eapply random_shape_fields |].
  destruct Hr as [-> _]. done.
Qed.

Lemma lines_of_carried color topic ms ss :
  Forall2 (carries topic) ms ss → Forall (random_shape color) ss → valid_utf8 color = true →
  omap line_of ((λ m, (0%Z, m.2)) <$> ms) = Received <$> ss.
Proof.
  intros Hms Hss Hc. induction Hms as [|m s ms ss Hm _ IH]; [done|].
  inversion Hss; subst. cbn [fmap list_fmap omap list_omap].
  rewrite (line_of_carried color topic m s) by done. f_equal. by apply IH.
Qed.

(** C22: the two programs together: when the broker hands the subscriber the
    first messages that it accepted from the publisher, the subscriber prints
    the shapes that the publisher printed, in the same order and unchanged,
    whatever else happens to either of them. *)
Theorem shapes_end_to_end rounds rounds' prog prog' server server' color topic k w v p r w' v' qs qs' :
  heap_wf w → heap_wf v → valid_utf8 color = true →
  publisher_main rounds [prog; server; color; topic] w = Ok p w' →
  subscriber_main rounds' [prog'; server'; topic] v = Ok r v' →
  w_trace w' = w_trace w ++ qs → w_trace v' = w_trace v ++ qs' →
  delivered (w_ext v) qs' = (λ m, (0%Z, m.2)) <$> take k (produced (w_ext w) qs) →
  lines r = Received <$> take k (published_shapes p)
  ∧ Forall (random_shape color) (published_shapes p).
Proof.
  intros Hw Hv Hc Hp Hr Hqs Hqs' Hdel.
  pose proof (publisher_main_wp rounds prog server color topic w Hw) as Hpub.
  pose proof (subscriber_main_wp rounds' prog' server' topic v Hv) as Hsub.
  unfold wp in Hpub, Hsub. rewrite Hp in Hpub. rewrite Hr in Hsub.
  destruct (publisher_result_shapes _ _ _ _ _ _ _ Hpub) as (qs1 & Hr1 & Hf & Hcar).
  destruct (subscriber_result_lines _ _ _ _ Hsub) as (qs2 & Hr2 & Hl).
  rewrite (ran_det _ _ _ _ Hr1 Hqs) in Hcar. rewrite (ran_det _ _ _ _ Hr2 Hqs'), Hdel in Hl.
  split; [|done]. rewrite Hl. eapply lines_of_carried; [| |exact Hc].
  - by apply Forall2_take.
  - by apply Forall_take.
Qed.
End end_to_end.


(** ** The number of rounds *)

(** [m'] does what [m] does when that jumps. *)
Definition settles {V E A} (m m' : M V E A) : Prop :=
  ∀ w e w', m w = Jump e w' → m' w = Jump e w'.

Lemma settles_bind {V E A B} (m : M V E A) (k k' : A → M V E B) :
  (∀ a, settles (k a) (k' a)) → settles (m ≫= k) (m ≫= k').
Proof. intros Hk w e w'. unfold mbind, M_bind. destruct (m w); [apply Hk | done..]. Qed.

Section rounds.
Context {X : Type} `{!Env X kcall, !Fetch X} {SP : ShapeProto}.
#[local] Abbreviation W := (world kobj X kcall).

Lemma publish_settles n n' producer topic color buffer out :
  n <= n' → settles (publish (X := X) n producer topic color buffer out)
    (publish n' producer topic color buffer out).
Proof.
  revert n' buffer out. induction n as [|n IH]; intros n' buffer out Hn; [done|].
  destruct n' as [|n']; [lia|]. cbn [publish]. apply settles_bind. intros a. apply IH. lia.
Qed.

Lemma receive_settles n n' consumer out :
  n <= n' → settles (receive (X := X) n consumer out) (receive n' consumer out).
Proof.
  revert n' out. induction n as [|n IH]; intros n' out Hn; [done|].
  destruct n' as [|n']; [lia|]. cbn [receive]. apply settles_bind. intros a. apply IH. lia.
Qed.

Lemma publisher_try_settles n n' serverUrl color topicName :
  n <= n' → settles (publisher_try (X := X) n serverUrl color topicName)
    (publisher_try n' serverUrl color topicName).
Proof.
  intros Hn. unfold publisher_try.
  repeat (apply settles_bind; intros ?). by apply publish_settles.
Qed.

Lemma subscriber_try_settles n n' serverUrl topicName :
  n <= n' → settles (subscriber_try (X := X) n serverUrl topicName)
    (subscriber_try n' serverUrl topicName).
Proof.
  intros Hn. unfold subscriber_try.
  repeat (apply settles_bind; intros ?). by apply receive_settles.
Qed.

(** A program that has returned within some number of rounds has returned the
    same within any larger one: the bound only says how long one looks. *)
Theorem publisher_settled n n' argv rc out (w w' : W) :
  n <= n' → publisher_main n argv w = Ok (Exited rc out) w' →
  publisher_main n' argv w = Ok (Exited rc out) w'.
Proof.
  intros Hn. unfold publisher_main. repeat (case_match; try done).
  unfold labelled, mbind, M_bind.
  destruct (publisher_try n _ _ _ w) as [?|[[??]?] w1|?|] eqn:Ht; cbn; try done.
  by rewrite (publisher_try_settles n n' _ _ _ Hn _ _ _ Ht).
Qed.

Theorem subscriber_settled n n' argv rc out (w w' : W) :
  n <= n' → subscriber_main n argv w = Ok (Exited rc out) w' →
  subscriber_main n' argv w = Ok (Exited rc out) w'.
Proof.
  intros Hn. unfold subscriber_main. repeat (case_match; try done).
  unfold labelled, mbind, M_bind.
  destruct (subscriber_try n _ _ w) as [?|[??] w1|?|] eqn:Ht; cbn; try done.
  by rewrite (subscriber_try_settles n n' _ _ Hn _ _ _ Ht).
Qed.

(** Any other number of arguments: the usage message, and nothing happens. *)
Lemma publisher_usage rounds argv (w : W) :
  length argv ≠ 4 → publisher_main rounds argv w = Ok (Exited 1 []) w.
Proof. by destruct argv as [|? [|? [|? [|? [|]]]]]. Qed.
Lemma subscriber_usage rounds argv (w : W) :
  length argv ≠ 3 → subscriber_main rounds argv w = Ok (Exited 1 []) w.
Proof. by destruct argv as [|? [|? [|? [|]]]]. Qed.
End rounds.

