(* ===== verification/TsfmTypes.v ===== *)
(** The data of the transformation framework (common/transformation/srcC):
    the structs of TransformationSimple.h and TransformationTypes.h, the
    pointer sequences of TransformationInfrastructure.c, the mutex, the user
    plugin's callbacks, and the external calls. *)
From Stdlib Require Import ZArith Lia.
From stdpp Require Import base gmap strings list fin_maps.
From S2P Require Import Prelude KafkaTypes.

#[local] Open Scope string_scope.
#[local] Open Scope list_scope.
#[local] Open Scope nat_scope.

Inductive RTI_TSFM_TransformationKind :=
  | RTI_TSFM_TransformationKind_SERIALIZER
  | RTI_TSFM_TransformationKind_DESERIALIZER.

#[export] Instance kind_eq_dec : EqDecision RTI_TSFM_TransformationKind.
Proof. solve_decision. Defined.

(** struct RTI_TSFM_TransformationConfig; a NULL string is [None]. *)
Record RTI_TSFM_TransformationConfig := TransformationConfig {
  cfg_type : RTI_TSFM_TransformationKind;
  cfg_input_type : option string;
  cfg_output_type : option string
}.

(** struct RTI_TSFM_TransformationPluginConfig *)
Record RTI_TSFM_TransformationPluginConfig := TransformationPluginConfig {
  pc_dll : option string;
  pc_create_fn : option string
}.

(** RTI_TSFM_TransformationConfig_INITIALIZER and its plugin counterpart. *)
Definition RTI_TSFM_TransformationConfig_DEFAULT : RTI_TSFM_TransformationConfig :=
  TransformationConfig RTI_TSFM_TransformationKind_SERIALIZER (Some "") (Some "").
Definition RTI_TSFM_TransformationPluginConfig_DEFAULT : RTI_TSFM_TransformationPluginConfig :=
  TransformationPluginConfig (Some "") (Some "").

(** ** Sequences of pointers (the DDS_SEQUENCE instances of the framework) *)

(** The length and the buffer; the length of the buffer is the maximum. *)
Record ptr_seq := PtrSeq { sq_length : nat; sq_buffer : list ptr }.

(** DDS_SEQUENCE_INITIALIZER *)
Definition empty_seq : ptr_seq := PtrSeq 0 [].

Definition sq_maximum (s : ptr_seq) : nat := length (sq_buffer s).

(** The element functions the sequences are instantiated with
    (T_initialize_w_params, T_finalize_w_params, T_copy). *)
Definition RTI_TSFM_DDS_DynamicDataPtr_initialize_w_params (_ : ptr) : ptr := Null.
Definition RTI_TSFM_DDS_DynamicDataPtr_finalize_w_params (_ : ptr) : ptr := Null.
Definition RTI_TSFM_DDS_DynamicDataPtr_copy (dst src : ptr) : ptr := src.
Definition RTI_TSFM_TransformationPtr_initialize_w_params (_ : ptr) : ptr := Null.
Definition RTI_TSFM_TransformationPtr_finalize_w_params (_ : ptr) : ptr := Null.
Definition RTI_TSFM_TransformationPtr_copy (dst src : ptr) : ptr := src.

(** The reallocation of a sequence's buffer, code generated by DDS. *)
Class SeqApi := seq_grow : (ptr → ptr) → (ptr → ptr → ptr) → ptr_seq → nat → list ptr.

(** What DDS documents: the new buffer has the requested maximum; its first
    elements are copies of those of the sequence, the others are initialized. *)
Class SeqLaws (S : SeqApi) := {
  seq_grow_length : ∀ (ini : ptr → ptr) (cp : ptr → ptr → ptr) (s : ptr_seq) (n : nat),
    sq_maximum s < n → length (seq_grow ini cp s n) = n;
  seq_grow_old : ∀ (ini : ptr → ptr) (cp : ptr → ptr → ptr) (s : ptr_seq) (n i : nat) (p : ptr),
    sq_maximum s < n → i < sq_length s → sq_buffer s !! i = Some p →
    seq_grow ini cp s n !! i = Some (cp (ini Wild) p);
  seq_grow_new : ∀ (ini : ptr → ptr) (cp : ptr → ptr → ptr) (s : ptr_seq) (n i : nat),
    sq_maximum s < n → sq_length s ≤ i → i < n → seq_grow ini cp s n !! i = Some (ini Wild)
}.

(** A concrete reallocation. *)
Definition realloc_seq (ini : ptr → ptr) (cp : ptr → ptr → ptr) (s : ptr_seq) (n : nat) : list ptr :=
  (cp (ini Wild) <$> take (sq_length s) (sq_buffer s))
    ++ replicate (n - length (take (sq_length s) (sq_buffer s))) (ini Wild).

(** ** Objects *)

(** The members that the template adds to the base structs: the configuration
    and the state of the user's type. *)
Record t_fields := TFields { t_config : ptr; t_state : ptr }.

(** struct RTI_TSFM_Transformation.  [tf_lock] is the state of the mutex when
    the library is compiled with one: [true] while it is held. *)
Record RTI_TSFM_Transformation := Transformation {
  tf_config : ptr;
  tf_plugin : ptr;
  tf_tsupport : ptr;
  tf_read_buffer : ptr_seq;
  tf_read_buffer_loaned : bool;
  tf_lock : bool;
  tf_fields : t_fields     (* the rest of the template's T *)
}.

(** struct RTI_TSFM_TransformationPlugin; [pl_vtable] tells whether TPlugin_new
    has filled the callback table of the parent struct. *)
Record RTI_TSFM_TransformationPlugin := TransformationPlugin {
  pl_transforms : ptr_seq;
  pl_config : ptr;
  pl_user_plugin : ptr;
  pl_lock : bool;
  pl_vtable : bool;
  pl_fields : t_fields     (* the rest of the template's TPlugin *)
}.

(** struct RTI_TSFM_UserTypePlugin: which callbacks are set. *)
Record RTI_TSFM_UserTypePlugin := UserTypePlugin {
  up_delete_plugin : bool;
  up_serialize_sample : bool;
  up_deserialize_sample : bool
}.

Inductive tobj (D : Type) :=
  | OTransformation (t : RTI_TSFM_Transformation)
  | OPlugin (p : RTI_TSFM_TransformationPlugin)
  | OUserPlugin (u : RTI_TSFM_UserTypePlugin)
  | OTConfig (c : RTI_TSFM_TransformationConfig)
  | OPConfig (c : RTI_TSFM_TransformationPluginConfig)
  | OTState
  | OTSupport (type_representation : string)
  | OData (d : D)
  | OInfo (valid_data : bool).
Arguments OTransformation {D} _.
Arguments OPlugin {D} _.
Arguments OUserPlugin {D} _.
Arguments OTConfig {D} _.
Arguments OPConfig {D} _.
Arguments OTState {D}.
Arguments OTSupport {D} _.
Arguments OData {D} _.
Arguments OInfo {D} _.

(** The external calls; answers as in the Kafka adapter: 0 is NULL for a
    constructor, FALSE for a boolean, DDS_RETCODE_OK for a return code and
    success for the pthread functions. *)
Inductive tcall :=
  | QMalloc (what : string)
  | QStringAlloc
  | QStringCopy (value : string)
  | QStringReplace (value : string)
  | QTSupportNew (type_representation : string)
  | QTSupportDelete
  | QCreateData
  | QDeleteData
  | QClearMembers
  | QSeqInitialize
  | QSeqEnsureLength (length max : nat)
  | QSeqSetLength (length : nat)
  | QSeqFinalize
  | QMutexInit
  | QMutexLock
  | QMutexUnlock
  | QMutexDestroy
  | QTConfigNew
  | QTConfigParse
  | QTConfigDelete
  | QTStateNew
  | QTStateDelete
  | QTPluginConfigNew
  | QTPluginConfigParse
  | QTPluginConfigDelete
  | QTPluginStateNew
  | QTPluginStateDelete.

(** The samples of the user plugin: what its callbacks make of a sample and
    of the previous contents of the output sample, when they succeed. *)
Class Codec (D : Type) := {
  blank : D;                               (* a sample as create_data makes it *)
  clear : D → D;                           (* DDS_DynamicData_clear_all_members *)
  serialize_sample : D → D → option D;
  deserialize_sample : D → D → option D
}.

(** * Typed access and the sequence operations *)
Section access.
Context {D X : Type} `{!Env X tcall}.
#[local] Abbreviation W := (world (tobj D) X tcall).
Context {E : Type}.

Definition load_transformation (p : ptr) : M W E RTI_TSFM_Transformation :=
  o ← load p; match o with OTransformation t => mret t | _ => fail BadCast end.
Definition load_plugin (p : ptr) : M W E RTI_TSFM_TransformationPlugin :=
  o ← load p; match o with OPlugin t => mret t | _ => fail BadCast end.
Definition load_user_plugin (p : ptr) : M W E RTI_TSFM_UserTypePlugin :=
  o ← load p; match o with OUserPlugin t => mret t | _ => fail BadCast end.
Definition load_tconfig (p : ptr) : M W E RTI_TSFM_TransformationConfig :=
  o ← load p; match o with OTConfig t => mret t | _ => fail BadCast end.
Definition load_pconfig (p : ptr) : M W E RTI_TSFM_TransformationPluginConfig :=
  o ← load p; match o with OPConfig t => mret t | _ => fail BadCast end.
Definition load_data (p : ptr) : M W E D :=
  o ← load p; match o with OData d => mret d | _ => fail BadCast end.
Definition load_info (p : ptr) : M W E bool :=
  o ← load p; match o with OInfo b => mret b | _ => fail BadCast end.
Definition load_tsupport (p : ptr) : M W E string :=
  o ← load p; match o with OTSupport t => mret t | _ => fail BadCast end.

(** *TSeq_get_reference(seq, i): outside the buffer it is undefined. *)
Definition seq_get (s : ptr_seq) (i : nat) : M W E ptr :=
  match sq_buffer s !! i with Some p => mret p | None => fail OutOfBounds end.
Definition seq_set (s : ptr_seq) (i : nat) (p : ptr) : M W E ptr_seq :=
  match sq_buffer s !! i with
  | Some _ => mret (PtrSeq (sq_length s) (<[i := p]> (sq_buffer s)))
  | None => fail OutOfBounds
  end.

(** TSeq_ensure_length(seq, len, max): [None] when it fails. *)
Definition seq_ensure_length {SA : SeqApi} (ini : ptr → ptr) (cp : ptr → ptr → ptr)
    (s : ptr_seq) (len max : nat) : M W E (option ptr_seq) :=
  ok ← call (QSeqEnsureLength len max);
  mret (if (ok =? 0)%Z then None
        else Some (if decide (len ≤ sq_maximum s) then PtrSeq len (sq_buffer s)
                   else PtrSeq len (seq_grow ini cp s max))).

(** TSeq_set_length(seq, len): fails beyond the maximum. *)
Definition seq_set_length (s : ptr_seq) (len : nat) : M W E (option ptr_seq) :=
  ok ← call (QSeqSetLength len);
  mret (if (ok =? 0)%Z then None
        else if decide (len ≤ sq_maximum s) then Some (PtrSeq len (sq_buffer s)) else None).

(** ** RTI_TSFM_Mutex (the POSIX functions of TransformationInfrastructure.c).
    A default pthread mutex locked again by its holder deadlocks. *)
Definition RTI_TSFM_Mutex_initialize : M W E (Z * bool) :=
  r ← call QMutexInit; mret (if (r =? 0)%Z then (DDS_RETCODE_OK, false) else (DDS_RETCODE_ERROR, false)).

Definition RTI_TSFM_Mutex_finalize : M W E Z :=
  r ← call QMutexDestroy; mret (if (r =? 0)%Z then DDS_RETCODE_OK else DDS_RETCODE_ERROR).

Definition RTI_TSFM_Mutex_take (held : bool) : M W E (Z * bool) :=
  r ← call QMutexLock;
  if (r =? 0)%Z then (if held then hang else mret (DDS_RETCODE_OK, true))
  else mret (DDS_RETCODE_ERROR, held).

Definition RTI_TSFM_Mutex_give (held : bool) : M W E (Z * bool) :=
  r ← call QMutexUnlock;
  mret (if (r =? 0)%Z then (DDS_RETCODE_OK, false) else (DDS_RETCODE_ERROR, held)).
End access.

#[export] Instance realloc_seq_laws : SeqLaws realloc_seq.
Proof.
  split; intros ini cp s n; unfold seq_grow, realloc_seq, sq_maximum.
  - intros Hn. rewrite length_app, length_fmap, length_replicate, length_take. lia.
  - intros i p Hn Hi Hp. rewrite lookup_app_l.
    + rewrite list_lookup_fmap, lookup_take_lt by done. by rewrite Hp.
    + rewrite length_fmap, length_take. apply lookup_lt_Some in Hp. lia.
  - intros i Hn Hi Hin. rewrite lookup_app_r; rewrite length_fmap, length_take; [|lia].
    apply lookup_replicate. split; [done|]. lia.
Qed.

(** ** Symbolic execution of the typed accesses *)
Section access_wp.
Context {D X : Type} `{!Env X tcall}.
#[local] Abbreviation W := (world (tobj D) X tcall).
Context {E : Type} (R : E → W → Prop).

Lemma wp_load_transformation l c Q (w : W) :
  w_heap w !! l = Some (OTransformation c) → Q c w → wp (load_transformation (Ptr l)) Q R w.
Proof. intros Hl HQ. unfold load_transformation. wp_run. done. Qed.
Lemma wp_load_plugin l c Q (w : W) :
  w_heap w !! l = Some (OPlugin c) → Q c w → wp (load_plugin (Ptr l)) Q R w.
Proof. intros Hl HQ. unfold load_plugin. wp_run. done. Qed.
Lemma wp_load_user_plugin l c Q (w : W) :
  w_heap w !! l = Some (OUserPlugin c) → Q c w → wp (load_user_plugin (Ptr l)) Q R w.
Proof. intros Hl HQ. unfold load_user_plugin. wp_run. done. Qed.
Lemma wp_load_tconfig l c Q (w : W) :
  w_heap w !! l = Some (OTConfig c) → Q c w → wp (load_tconfig (Ptr l)) Q R w.
Proof. intros Hl HQ. unfold load_tconfig. wp_run. done. Qed.
Lemma wp_load_pconfig l c Q (w : W) :
  w_heap w !! l = Some (OPConfig c) → Q c w → wp (load_pconfig (Ptr l)) Q R w.
Proof. intros Hl HQ. unfold load_pconfig. wp_run. done. Qed.
Lemma wp_load_data l c Q (w : W) :
  w_heap w !! l = Some (OData c) → Q c w → wp (load_data (Ptr l)) Q R w.
Proof. intros Hl HQ. unfold load_data. wp_run. done. Qed.
Lemma wp_load_info l c Q (w : W) :
  w_heap w !! l = Some (OInfo c) → Q c w → wp (load_info (Ptr l)) Q R w.
Proof. intros Hl HQ. unfold load_info. wp_run. done. Qed.
Lemma wp_load_tsupport l c Q (w : W) :
  w_heap w !! l = Some (OTSupport c) → Q c w → wp (load_tsupport (Ptr l)) Q R w.
Proof. intros Hl HQ. unfold load_tsupport. wp_run. done. Qed.

Lemma wp_seq_get s i p Q (w : W) :
  sq_buffer s !! i = Some p → Q p w → wp (seq_get s i) Q R w.
Proof. intros Hi HQ. unfold seq_get. rewrite Hi. done. Qed.
Lemma wp_seq_set s i p q Q (w : W) :
  sq_buffer s !! i = Some q → Q (PtrSeq (sq_length s) (<[i := p]> (sq_buffer s))) w →
  wp (seq_set s i p) Q R w.
Proof. intros Hi HQ. unfold seq_set. rewrite Hi. done. Qed.
End access_wp.

Ltac t_bool :=
  match goal with
  | |- wp ?m _ _ _ =>
      match m with
      | context [ (?a =? ?b)%Z ] => destruct (Z.eqb_spec a b); subst; try discriminate; try contradiction
      end
  end; cbn [negb andb orb].

Ltac t_step :=
  first
    [ t_bool
    | wp_step
    | lazymatch goal with
      | |- wp (load_transformation (Ptr _)) _ _ _ => eapply wp_load_transformation; [heap_lookup |]
      | |- wp (load_plugin (Ptr _)) _ _ _ => eapply wp_load_plugin; [heap_lookup |]
      | |- wp (load_user_plugin (Ptr _)) _ _ _ => eapply wp_load_user_plugin; [heap_lookup |]
      | |- wp (load_tconfig (Ptr _)) _ _ _ => eapply wp_load_tconfig; [heap_lookup |]
      | |- wp (load_pconfig (Ptr _)) _ _ _ => eapply wp_load_pconfig; [heap_lookup |]
      | |- wp (load_data (Ptr _)) _ _ _ => eapply wp_load_data; [heap_lookup |]
      | |- wp (load_info (Ptr _)) _ _ _ => eapply wp_load_info; [heap_lookup |]
      | |- wp (load_tsupport (Ptr _)) _ _ _ => eapply wp_load_tsupport; [heap_lookup |]
      | |- wp (if decide ?P then _ else _) _ _ _ => case_decide; try discriminate; try contradiction
      end ];
  cbn [w_next w_heap w_ext w_trace set_heap fst snd
       cfg_type cfg_input_type cfg_output_type pc_dll pc_create_fn
       tf_config tf_plugin tf_tsupport tf_read_buffer tf_read_buffer_loaned tf_lock tf_fields
       pl_transforms pl_config pl_user_plugin pl_lock pl_vtable pl_fields t_config t_state
       up_delete_plugin up_serialize_sample up_deserialize_sample].

Ltac t_run := repeat t_step.

(** A failed call contradicts the assumption that every call succeeds. *)
Ltac not_generous :=
  let Hg := fresh "Hg" in intros Hg; exfalso;
  match goal with
  | H : answer ?x ?q = (0%Z, _) |- _ => apply (Hg x q); by rewrite H
  | H : (answer ?x ?q).1 = 0%Z |- _ => by apply (Hg x q)
  end.
