(* ===== verification/TsfmConfig.v ===== *)
(** Configurations of transformations and of their plugin: the first parts of
    Transformation.c and TransformationPlugin.c. *)
From Stdlib Require Import ZArith Lia.
From stdpp Require Import base gmap strings list fin_maps.
From S2P Require Import Prelude KafkaTypes TsfmTypes.

#[local] Open Scope string_scope.
#[local] Open Scope list_scope.
#[local] Open Scope nat_scope.

(** The names of the properties (TransformationSimple.h). *)
Definition RTI_TSFM_PLUGIN_PROPERTY_PREFIX : string := "".
Definition RTI_TSFM_TRANSFORMATION_PROPERTY_PREFIX : string := "".
Definition RTI_TSFM_PROPERTY_PLUGIN_DLL : string := RTI_TSFM_PLUGIN_PROPERTY_PREFIX +:+ "dll".
Definition RTI_TSFM_PROPERTY_CREATE_FN : string := RTI_TSFM_PLUGIN_PROPERTY_PREFIX +:+ "create_fn".
Definition RTI_TSFM_PROPERTY_TRANSFORMATION_TYPE : string :=
  RTI_TSFM_TRANSFORMATION_PROPERTY_PREFIX +:+ "transform_type".
Definition RTI_TSFM_PROPERTY_TRANSFORMATION_INPUT_TYPE : string :=
  RTI_TSFM_TRANSFORMATION_PROPERTY_PREFIX +:+ "input_type".
Definition RTI_TSFM_PROPERTY_TRANSFORMATION_OUTPUT_TYPE : string :=
  RTI_TSFM_TRANSFORMATION_PROPERTY_PREFIX +:+ "output_type".

(** RTI_TSFM_TransformationKind_from_string: the return code and *kind_out. *)
Definition RTI_TSFM_TransformationKind_from_string (str : string)
    : Z * option RTI_TSFM_TransformationKind :=
  if bool_decide (str = "serialize")
     || bool_decide (str = "serializer")
     || bool_decide (str = "s")
     || bool_decide (str = "S")
     || bool_decide (str = "RTI_TSFM_TransformationKind_SERIALIZER")
  then (DDS_RETCODE_OK, Some RTI_TSFM_TransformationKind_SERIALIZER)
  else if bool_decide (str = "deserialize")
     || bool_decide (str = "deserializer")
     || bool_decide (str = "d")
     || bool_decide (str = "D")
     || bool_decide (str = "RTI_TSFM_TransformationKind_DESERIALIZER")
  then (DDS_RETCODE_OK, Some RTI_TSFM_TransformationKind_DESERIALIZER)
  else (DDS_RETCODE_ERROR, None).

Section operations.
Context {D X : Type} `{!Env X tcall} {PA : PropertyApi}.
#[local] Abbreviation W := (world (tobj D) X tcall).
Context {E : Type}.

(** The two steps that make a string field empty: DDS_String_alloc(0), then
    RTICdrType_copyStringEx of the empty string without reallocation. *)
Definition new_string : M W E (option string) :=
  r ← call QStringAlloc;
  call (QStringCopy "");;
  mret (if (r =? 0)%Z then None else Some "").

(** RTICdrType_copyStringEx with reallocation: the new field, or failure. *)
Definition copyStringEx (value : string) : M W E (option string) :=
  r ← call (QStringCopy value);
  mret (if (r =? 0)%Z then None else Some value).

(** DDS_String_replace: the field afterwards, NULL when it fails. *)
Definition DDS_String_replace (value : string) : M W E (option string) :=
  r ← call (QStringReplace value);
  mret (if (r =? 0)%Z then None else Some value).

Definition is_none {A} (o : option A) : bool := match o with None => true | _ => false end.

Definition update_tconfig (p : ptr)
    (f : RTI_TSFM_TransformationConfig → RTI_TSFM_TransformationConfig) : M W E () :=
  c ← load_tconfig p; store p (OTConfig (f c)).
Definition update_pconfig (p : ptr)
    (f : RTI_TSFM_TransformationPluginConfig → RTI_TSFM_TransformationPluginConfig) : M W E () :=
  c ← load_pconfig p; store p (OPConfig (f c)).

Definition set_cfg_type k c := TransformationConfig k (cfg_input_type c) (cfg_output_type c).
Definition set_cfg_input s c := TransformationConfig (cfg_type c) s (cfg_output_type c).
Definition set_cfg_output s c := TransformationConfig (cfg_type c) (cfg_input_type c) s.
Definition set_pc_dll s c := TransformationPluginConfig s (pc_create_fn c).
Definition set_pc_create_fn s c := TransformationPluginConfig (pc_dll c) s.
(** RTI_TSFM_TransformationPluginConfig_copy (Transformation.c): [false]
    stands for RTI_FALSE. *)
Definition RTI_TSFM_TransformationPluginConfig_copy
    (dst : ptr) (src : option RTI_TSFM_TransformationPluginConfig) : M W E bool :=
  b ← is_null dst;
  match src with
  | None => mret false
  | Some src =>
      if b : bool then mret false
      else
        s ← match pc_dll src with Some v => copyStringEx v | None => mret None end;
        if is_none s then mret false
        else
          update_pconfig dst (set_pc_dll s);;
          s ← match pc_create_fn src with Some v => copyStringEx v | None => mret None end;
          if is_none s then mret false
          else update_pconfig dst (set_pc_create_fn s);; mret true
  end.
End operations.

Section config.
Context {D X : Type} `{!Env X tcall} {PA : PropertyApi}.
#[local] Abbreviation W := (world (tobj D) X tcall).
Context {E : Type}.

(** ** RTI_TSFM_TransformationConfig *)

(** The struct as malloc leaves it is only observed after its first three
    assignments. *)
Definition RTI_TSFM_TransformationConfig_new : M W E (Z * ptr) :=
  config ← new (QMalloc "RTI_TSFM_TransformationConfig")
             (OTConfig (TransformationConfig RTI_TSFM_TransformationKind_SERIALIZER None None));
  b ← is_null config;
  if b : bool then mret (DDS_RETCODE_ERROR, Null)
  else
    input_type ← new_string;
    update_tconfig config (set_cfg_input input_type);;
    if is_none input_type then mret (DDS_RETCODE_ERROR, Null)
    else
      output_type ← new_string;
      update_tconfig config (set_cfg_output output_type);;
      if is_none output_type then mret (DDS_RETCODE_ERROR, Null)
      else mret (DDS_RETCODE_OK, config).

Definition RTI_TSFM_TransformationConfig_delete (self : ptr) : M W E () :=
  b ← is_null self;
  if b : bool then mret ()
  else load_tconfig self;; free self.

(** The return code and *config_out. *)
Definition RTI_TSFM_TransformationConfig_default (config_out : ptr) : M W E (Z * ptr) :=
  b ← is_null config_out;
  nc ← (if b : bool then RTI_TSFM_TransformationConfig_new else mret (DDS_RETCODE_OK, config_out));
  if negb (nc.1 =? DDS_RETCODE_OK)%Z then mret (DDS_RETCODE_ERROR, config_out)
  else
    let config := nc.2 in
    labelled
      (update_tconfig config (set_cfg_type (cfg_type RTI_TSFM_TransformationConfig_DEFAULT));;
       s ← copyStringEx "";
       when (is_none s) (goto ());;
       update_tconfig config (set_cfg_input s);;
       s ← copyStringEx "";
       when (is_none s) (goto ());;
       update_tconfig config (set_cfg_output s);;
       mret (DDS_RETCODE_OK, config))
      (λ _, when b (RTI_TSFM_TransformationConfig_delete config);;
            mret (DDS_RETCODE_ERROR, config_out)).

Definition RTI_TSFM_TransformationConfig_parse_from_properties_alloc
    (ps : properties) (config_out : ptr) : M W E (Z * ptr) :=
  b ← is_null config_out;
  dc ← RTI_TSFM_TransformationConfig_default config_out;
  if negb (dc.1 =? DDS_RETCODE_OK)%Z then mret (DDS_RETCODE_ERROR, config_out)
  else
    let config := dc.2 in
    labelled
      (match lookup_property ps RTI_TSFM_PROPERTY_TRANSFORMATION_TYPE with
       | Some pval =>
           match RTI_TSFM_TransformationKind_from_string pval with
           | (_, Some k) => update_tconfig config (set_cfg_type k)
           | (_, None) => goto ()
           end
       | None => mret ()
       end;;
       match lookup_property ps RTI_TSFM_PROPERTY_TRANSFORMATION_INPUT_TYPE with
       | Some pval =>
           s ← DDS_String_replace pval;
           update_tconfig config (set_cfg_input s);;
           when (is_none s) (goto ())
       | None => mret ()
       end;;
       match lookup_property ps RTI_TSFM_PROPERTY_TRANSFORMATION_OUTPUT_TYPE with
       | Some pval =>
           s ← DDS_String_replace pval;
           update_tconfig config (set_cfg_output s);;
           when (is_none s) (goto ())
       | None => mret ()
       end;;
       mret (DDS_RETCODE_OK, config))
      (λ _, when b (RTI_TSFM_TransformationConfig_delete config);;
            mret (DDS_RETCODE_ERROR, config_out)).

Definition RTI_TSFM_TransformationConfig_parse_from_properties
    (config : ptr) (ps : properties) : M W E Z :=
  r ← RTI_TSFM_TransformationConfig_parse_from_properties_alloc ps config;
  mret r.1.

(** ** RTI_TSFM_TransformationPluginConfig *)

Definition RTI_TSFM_TransformationPluginConfig_delete (self : ptr) : M W E () :=
  b ← is_null self;
  if b : bool then mret ()
  else
    update_pconfig self (set_pc_dll None);;
    update_pconfig self (set_pc_create_fn None);;
    free self.

Definition RTI_TSFM_TransformationPluginConfig_new : M W E (Z * ptr) :=
  config ← new (QMalloc "RTI_TSFM_TransformationPluginConfig")
             (OPConfig (TransformationPluginConfig None None));
  labelled
    (b ← is_null config;
     when b (goto ());;
     dll ← new_string;
     update_pconfig config (set_pc_dll dll);;
     when (is_none dll) (goto ());;
     create_fn ← new_string;
     update_pconfig config (set_pc_create_fn create_fn);;
     when (is_none create_fn) (goto ());;
     mret (DDS_RETCODE_OK, config))
    (λ _, RTI_TSFM_TransformationPluginConfig_delete config;; mret (DDS_RETCODE_ERROR, Null)).

Definition RTI_TSFM_TransformationPluginConfig_default (config_out : ptr) : M W E (Z * ptr) :=
  b ← is_null config_out;
  nc ← (if b : bool then RTI_TSFM_TransformationPluginConfig_new
        else mret (DDS_RETCODE_OK, config_out));
  if negb (nc.1 =? DDS_RETCODE_OK)%Z then mret (DDS_RETCODE_ERROR, config_out)
  else
    let config := nc.2 in
    labelled
      (ok ← RTI_TSFM_TransformationPluginConfig_copy config
              (Some RTI_TSFM_TransformationPluginConfig_DEFAULT);
       when (negb ok) (goto ());;
       mret (DDS_RETCODE_OK, config))
      (λ _, when b (RTI_TSFM_TransformationPluginConfig_delete config);;
            mret (DDS_RETCODE_ERROR, config_out)).

Definition RTI_TSFM_TransformationPluginConfig_parse_from_properties_alloc
    (ps : properties) (config_out : ptr) : M W E (Z * ptr) :=
  b ← is_null config_out;
  dc ← RTI_TSFM_TransformationPluginConfig_default config_out;
  if negb (dc.1 =? DDS_RETCODE_OK)%Z then mret (DDS_RETCODE_ERROR, config_out)
  else
    let config := dc.2 in
    labelled
      (match lookup_property ps RTI_TSFM_PROPERTY_PLUGIN_DLL with
       | Some pval =>
           s ← DDS_String_replace pval;
           update_pconfig config (set_pc_dll s);;
           when (is_none s) (goto ())
       | None => mret ()
       end;;
       match lookup_property ps RTI_TSFM_PROPERTY_CREATE_FN with
       | Some pval =>
           s ← DDS_String_replace pval;
           update_pconfig config (set_pc_create_fn s);;
           when (is_none s) (goto ())
       | None => mret ()
       end;;
       mret (DDS_RETCODE_OK, config))
      (λ _, when b (RTI_TSFM_TransformationPluginConfig_delete config);;
            mret (DDS_RETCODE_ERROR, config_out)).

Definition RTI_TSFM_TransformationPluginConfig_parse_from_properties
    (config : ptr) (ps : properties) : M W E Z :=
  r ← RTI_TSFM_TransformationPluginConfig_parse_from_properties_alloc ps config;
  mret r.1.
End config.

(** * Specifications *)

(** The configuration a property list describes, if it is valid. *)
Definition parsed_config {PA : PropertyApi} (ps : properties)
    : option RTI_TSFM_TransformationConfig :=
  k ← match lookup_property ps RTI_TSFM_PROPERTY_TRANSFORMATION_TYPE with
      | Some v => (RTI_TSFM_TransformationKind_from_string v).2
      | None => Some RTI_TSFM_TransformationKind_SERIALIZER
      end;
  Some (TransformationConfig k (Some (default "" (lookup_property ps RTI_TSFM_PROPERTY_TRANSFORMATION_INPUT_TYPE)))
          (Some (default "" (lookup_property ps RTI_TSFM_PROPERTY_TRANSFORMATION_OUTPUT_TYPE)))).

Definition parsed_plugin_config {PA : PropertyApi} (ps : properties)
    : RTI_TSFM_TransformationPluginConfig :=
  TransformationPluginConfig (Some (default "" (lookup_property ps RTI_TSFM_PROPERTY_PLUGIN_DLL)))
    (Some (default "" (lookup_property ps RTI_TSFM_PROPERTY_CREATE_FN))).

Section theorems.
Context {D X : Type} `{!Env X tcall} {PA : PropertyApi}.
#[local] Abbreviation W := (world (tobj D) X tcall).
Implicit Types w : W.

(** Every allocation and copy succeeds. *)
Definition generous : Prop := ∀ (x : X) (q : tcall), (answer x q).1 ≠ 0%Z.

Ltac c_step :=
  first [ t_step
        | unfold new_string, copyStringEx, DDS_String_replace, update_tconfig, update_pconfig;
          progress t_run
        | progress cbn [is_none set_cfg_type set_cfg_input set_cfg_output set_pc_dll
                        set_pc_create_fn] ];
  try (exfalso; match goal with
       | H : is_none (Some _) = true |- _ => discriminate H
       | H : is_none None = false |- _ => discriminate H
       end).
Ltac c_run := repeat c_step.

Definition incomplete (c : RTI_TSFM_TransformationConfig) : Prop :=
  cfg_input_type c = None ∨ cfg_output_type c = None.

(** What a function that fills the configuration [*config_out] promises:
    the expected configuration in the caller's block, or in a fresh one; on
    failure the caller's block is kept, and a fresh one freed unless its
    strings could not be allocated. *)
Definition config_post w (p : ptr) (expect : option RTI_TSFM_TransformationConfig)
    (rc : Z * ptr) (w' : W) : Prop :=
  heap_wf w' ∧ w_next w ≤ w_next w' ∧
  match p with
  | Null =>
      (∃ c, expect = Some c ∧ rc = (DDS_RETCODE_OK, Ptr (w_next w))
         ∧ w_heap w' = <[w_next w := OTConfig c]> (w_heap w))
      ∨ (rc = (DDS_RETCODE_ERROR, Null) ∧ (generous → expect = None)
         ∧ (w_heap w' = w_heap w
            ∨ ∃ c, incomplete c ∧ w_heap w' = <[w_next w := OTConfig c]> (w_heap w)))
  | Ptr l =>
      (∃ c, expect = Some c ∧ rc = (DDS_RETCODE_OK, Ptr l)
         ∧ w_heap w' = <[l := OTConfig c]> (w_heap w))
      ∨ (rc = (DDS_RETCODE_ERROR, Ptr l) ∧ (generous → expect = None)
         ∧ ∃ c, w_heap w' = <[l := OTConfig c]> (w_heap w))
  | Wild => False
  end.

Lemma config_new_wp {E} (R : E → W → Prop) w :
  heap_wf w →
  wp RTI_TSFM_TransformationConfig_new
     (λ rc w', heap_wf w' ∧
        ((rc = (DDS_RETCODE_OK, Ptr (w_next w)) ∧ w_next w' = S (w_next w)
            ∧ ∃ c, w_heap w' = <[w_next w := OTConfig c]> (w_heap w))
         ∨ (rc = (DDS_RETCODE_ERROR, Null) ∧ (generous → False) ∧ w_next w ≤ w_next w'
            ∧ (w_heap w' = w_heap w
               ∨ ∃ c, incomplete c ∧ w_heap w' = <[w_next w := OTConfig c]> (w_heap w))))) R w.
Proof.
  intros Hwf. unfold RTI_TSFM_TransformationConfig_new. c_run.
  all: (split; [heap_wf_tac|]); wsimpl; rewrite ?insert_insert_eq.
  - right. split; [done|]. split; [not_generous|]. split; [done | by left].
  - right. split; [done|]. split; [not_generous|]. split; [lia|]. right. eexists.
    split; [|reflexivity]. by left.
  - right. split; [done|]. split; [not_generous|]. split; [lia|]. right. eexists.
    split; [|reflexivity]. by right.
  - left. split; [done|]. split; [done|]. by eexists.
Qed.

(** From an existing block: [config_post] for the statements that fill it. *)
Lemma config_default_wp {E} (R : E → W → Prop) p w :
  heap_wf w →
  match p with Ptr l => ∃ c, w_heap w !! l = Some (OTConfig c) | Null => True | Wild => False end →
  wp (RTI_TSFM_TransformationConfig_default p)
     (config_post w p (Some RTI_TSFM_TransformationConfig_DEFAULT)) R w.
Proof.
  intros Hwf Hp. unfold RTI_TSFM_TransformationConfig_default, RTI_TSFM_TransformationConfig_delete.
  destruct p as [|l|]; [| |done].
  - wp_run. eapply wp_mono; [by apply config_new_wp| |done].
    intros rc [n h x t]; wsimpl.
    intros (Hwf1 & [(-> & -> & c & ->)|(-> & Hg & Hn & Hh)]); cbn [fst snd].
    + c_run. all: (split; [heap_wf_tac|]); (split; [wsimpl; lia|]); wsimpl.
      * right. split; [done|]. split; [not_generous|]. left.
        rewrite !insert_insert_eq, delete_insert_id; [done | by apply heap_wf_fresh].
      * right. split; [done|]. split; [not_generous|]. left.
        rewrite !insert_insert_eq, delete_insert_id; [done | by apply heap_wf_fresh].
      * left. eexists. split; [done|]. split; [done|]. by rewrite !insert_insert_eq.
    + cbn [Z.eqb DDS_RETCODE_ERROR DDS_RETCODE_OK negb]. wp_run.
      split; [done|]. split; [done|]. right. split; [done|]. split; [by intros ?%Hg | done].
  - destruct Hp as [c Hc]. pose proof (heap_wf_lt _ _ _ Hwf Hc). c_run.
    all: (split; [heap_wf_tac|]); (split; [wsimpl; lia|]); wsimpl; rewrite ?insert_insert_eq.
    + right. split; [done|]. split; [not_generous|]. by eexists.
    + right. split; [done|]. split; [not_generous|]. by eexists.
    + left. by eexists.
Qed.

(** The statements that read the three properties into the block [l]. *)
Lemma config_fields_wp ps l c0 w :
  w_heap w !! l = Some (OTConfig c0) → c0 = RTI_TSFM_TransformationConfig_DEFAULT →
  wp (match lookup_property ps RTI_TSFM_PROPERTY_TRANSFORMATION_TYPE with
      | Some pval =>
          match RTI_TSFM_TransformationKind_from_string pval with
          | (_, Some k) => update_tconfig (Ptr l) (set_cfg_type k)
          | (_, None) => goto ()
          end
      | None => mret ()
      end;;
      match lookup_property ps RTI_TSFM_PROPERTY_TRANSFORMATION_INPUT_TYPE with
      | Some pval =>
          s ← DDS_String_replace pval;
          update_tconfig (Ptr l) (set_cfg_input s);;
          when (is_none s) (goto ())
      | None => mret ()
      end;;
      match lookup_property ps RTI_TSFM_PROPERTY_TRANSFORMATION_OUTPUT_TYPE with
      | Some pval =>
          s ← DDS_String_replace pval;
          update_tconfig (Ptr l) (set_cfg_output s);;
          when (is_none s) (goto ())
      | None => mret ()
      end;;
      mret (DDS_RETCODE_OK, Ptr l))
    (λ rc w', rc = (DDS_RETCODE_OK, Ptr l) ∧ w_next w' = w_next w
       ∧ ∃ c, parsed_config ps = Some c ∧ w_heap w' = <[l := OTConfig c]> (w_heap w))
    (λ _ w', (generous → parsed_config ps = None) ∧ w_next w' = w_next w
       ∧ ∃ c, w_heap w' = <[l := OTConfig c]> (w_heap w)) w.
Proof.
  intros Hl ->. unfold parsed_config.
  destruct (lookup_property ps RTI_TSFM_PROPERTY_TRANSFORMATION_TYPE) as [tt|];
    [destruct (RTI_TSFM_TransformationKind_from_string tt) as [rc [k|]] |];
    destruct (lookup_property ps RTI_TSFM_PROPERTY_TRANSFORMATION_INPUT_TYPE) as [it|], (lookup_property ps RTI_TSFM_PROPERTY_TRANSFORMATION_OUTPUT_TYPE) as [ot|];
    cbn [default snd mbind option_bind]; c_run; rewrite ?insert_insert_eq;
    first [ split; [not_generous|]; split; [done|]; by eexists
          | split; [done|]; split; [done|]; eexists; split; [done|];
            first [done | by rewrite insert_id by done]
          | split; [done|]; split; [done|]; eexists; symmetry; by apply insert_id ].
Qed.

Lemma config_parse_wp {E} (R : E → W → Prop) ps p w :
  heap_wf w →
  match p with Ptr l => ∃ c, w_heap w !! l = Some (OTConfig c) | Null => True | Wild => False end →
  wp (RTI_TSFM_TransformationConfig_parse_from_properties_alloc ps p)
     (config_post w p (parsed_config ps)) R w.
Proof.
  intros Hwf Hp. unfold RTI_TSFM_TransformationConfig_parse_from_properties_alloc,
    RTI_TSFM_TransformationConfig_delete.
  destruct p as [|l|]; [| |done]; wp_step; [apply wp_is_null_Null | apply wp_is_null_Ptr];
    (wp_step; eapply wp_mono; [by apply config_default_wp| |done]);
    intros rc [n h x t]; unfold config_post; wsimpl;
    intros (Hwf1 & Hn & [(c & [= <-] & -> & ->)|(-> & Hg & Hh)]);
    cbn [fst snd Z.eqb DDS_RETCODE_OK DDS_RETCODE_ERROR negb];
    try (wp_run; split; [done|]; split; [done|]; right; split; [done|]; split;
         [by intros ?%Hg | done]).
  - assert (w_next w < n) by (eapply (heap_wf_lt _ _ _ Hwf1); heap_lookup).
    wp_step. eapply wp_mono; [eapply config_fields_wp; [heap_lookup | done]| |].
    + intros rc [n' h' x' t'] (-> & Hn' & c & Hc & Hh); wsimpl.
      rewrite insert_insert_eq in Hh. subst. split; [|split; [wsimpl; lia|]].
      * intros k Hk. wsimpl. heap_lookup. apply Hwf. lia.
      * left. by exists c.
    + intros [] [n' h' x' t'] (Hg & Hn' & c & Hh); wsimpl.
      rewrite insert_insert_eq in Hh. subst. c_run. split; [heap_wf_tac|]. split; [wsimpl; lia|].
      right. split; [done|]. split; [done|]. left. wsimpl.
      by rewrite delete_insert_id by by apply heap_wf_fresh.
  - destruct Hp as [c0 Hc0]. pose proof (heap_wf_lt _ _ _ Hwf Hc0) as Hlt.
    wp_step. eapply wp_mono; [eapply config_fields_wp; [heap_lookup | done]| |].
    + intros rc [n' h' x' t'] (-> & Hn' & c & Hc & Hh); wsimpl.
      rewrite insert_insert_eq in Hh. subst. split; [|split; [wsimpl; lia|]].
      * intros k Hk. wsimpl. heap_lookup. apply Hwf. lia.
      * left. by exists c.
    + intros [] [n' h' x' t'] (Hg & Hn' & c & Hh); wsimpl.
      rewrite insert_insert_eq in Hh. subst. c_run. split; [|split; [wsimpl; lia|]].
      * intros k Hk. wsimpl. heap_lookup. apply Hwf. lia.
      * right. split; [done|]. split; [done|]. by exists c.
Qed.

(** C35: parsing a transformation's configuration from its properties, into
    a given block or a fresh one: the kind named by [transform_type]
    (serializer when absent), the type names given or empty; an unknown kind
    is refused; nothing else changes, and on failure a fresh block is freed,
    unless its strings could not be allocated. *)
Theorem config_parse_spec ps p w :
  heap_wf w →
  match p with Ptr l => ∃ c, w_heap w !! l = Some (OTConfig c) | Null => True | Wild => False end →
  wp (RTI_TSFM_TransformationConfig_parse_from_properties_alloc (E := Empty_set) ps p)
     (config_post w p (parsed_config ps)) no_jump w.
Proof. apply config_parse_wp. Qed.


(** The same promise for the plugin's configuration, which is never lost. *)
Definition plugin_config_post w (p : ptr) (expect : RTI_TSFM_TransformationPluginConfig)
    (rc : Z * ptr) (w' : W) : Prop :=
  heap_wf w' ∧ w_next w ≤ w_next w' ∧
  match p with
  | Null =>
      (rc = (DDS_RETCODE_OK, Ptr (w_next w))
         ∧ w_heap w' = <[w_next w := OPConfig expect]> (w_heap w))
      ∨ (rc = (DDS_RETCODE_ERROR, Null) ∧ (generous → False) ∧ w_heap w' = w_heap w)
  | Ptr l =>
      (rc = (DDS_RETCODE_OK, Ptr l) ∧ w_heap w' = <[l := OPConfig expect]> (w_heap w))
      ∨ (rc = (DDS_RETCODE_ERROR, Ptr l) ∧ (generous → False)
         ∧ ∃ c, w_heap w' = <[l := OPConfig c]> (w_heap w))
  | Wild => False
  end.

Lemma plugin_config_new_wp {E} (R : E → W → Prop) w :
  heap_wf w →
  wp RTI_TSFM_TransformationPluginConfig_new
     (λ rc w', heap_wf w' ∧
        ((rc = (DDS_RETCODE_OK, Ptr (w_next w)) ∧ w_next w' = S (w_next w)
            ∧ ∃ c, w_heap w' = <[w_next w := OPConfig c]> (w_heap w))
         ∨ (rc = (DDS_RETCODE_ERROR, Null) ∧ (generous → False) ∧ w_next w ≤ w_next w'
            ∧ w_heap w' = w_heap w))) R w.
Proof.
  intros Hwf.
  unfold RTI_TSFM_TransformationPluginConfig_new, RTI_TSFM_TransformationPluginConfig_delete.
  c_run.
  all: (split; [heap_wf_tac|]); wsimpl; rewrite ?insert_insert_eq.
  - right. split; [done|]. split; [not_generous | by split; [lia|]].
  - right. split; [done|]. split; [not_generous|]. split; [lia|].
    by rewrite delete_insert_id by by apply heap_wf_fresh.
  - right. split; [done|]. split; [not_generous|]. split; [lia|].
    by rewrite delete_insert_id by by apply heap_wf_fresh.
  - left. split; [done|]. split; [done|]. by eexists.
Qed.

Lemma plugin_config_copy_wp {E} (R : E → W → Prop) l c w :
  w_heap w !! l = Some (OPConfig c) →
  wp (RTI_TSFM_TransformationPluginConfig_copy (Ptr l)
        (Some RTI_TSFM_TransformationPluginConfig_DEFAULT))
     (λ ok w', w_next w' = w_next w ∧
        if ok : bool then w_heap w' = <[l := OPConfig RTI_TSFM_TransformationPluginConfig_DEFAULT]> (w_heap w)
        else (generous → False) ∧ ∃ c', w_heap w' = <[l := OPConfig c']> (w_heap w)) R w.
Proof.
  intros Hl. unfold RTI_TSFM_TransformationPluginConfig_copy. cbn [pc_dll pc_create_fn
    RTI_TSFM_TransformationPluginConfig_DEFAULT].
  c_run; (split; [done|]); wsimpl; rewrite ?insert_insert_eq.
  - split; [not_generous|]. exists c. by rewrite insert_id.
  - split; [not_generous|]. by eexists.
  - done.
Qed.

Lemma plugin_config_default_wp {E} (R : E → W → Prop) p w :
  heap_wf w →
  match p with Ptr l => ∃ c, w_heap w !! l = Some (OPConfig c) | Null => True | Wild => False end →
  wp (RTI_TSFM_TransformationPluginConfig_default p)
     (plugin_config_post w p RTI_TSFM_TransformationPluginConfig_DEFAULT) R w.
Proof.
  intros Hwf Hp. unfold RTI_TSFM_TransformationPluginConfig_default,
    RTI_TSFM_TransformationPluginConfig_delete.
  destruct p as [|l|]; [| |done].
  - wp_run. eapply wp_mono; [by apply plugin_config_new_wp| |done].
    intros rc [n h x t]; wsimpl.
    intros (Hwf1 & [(-> & -> & c & ->)|(-> & Hg & Hn & ->)]);
      cbn [fst snd Z.eqb DDS_RETCODE_ERROR DDS_RETCODE_OK negb].
    + do 2 wp_step. eapply wp_mono; [eapply plugin_config_copy_wp; heap_lookup| |by intros ? ? HJ; exact HJ].
      intros [] [n' h' x' t']; wsimpl; intros (-> & Hh).
      * rewrite insert_insert_eq in Hh. subst. c_run. split; [heap_wf_tac|]. split; [wsimpl; lia|]. by left.
      * destruct Hh as (Hg & c' & Hh). rewrite insert_insert_eq in Hh. subst. c_run.
        split; [heap_wf_tac|]. split; [wsimpl; lia|]. right. split; [done|]. split; [done|].
        wsimpl. by rewrite !insert_insert_eq, delete_insert_id by by apply heap_wf_fresh.
    + wp_run. split; [done|]. split; [done|]. by right.
  - destruct Hp as [c Hc]. pose proof (heap_wf_lt _ _ _ Hwf Hc). wp_run.
    cbn [fst snd Z.eqb DDS_RETCODE_ERROR DDS_RETCODE_OK negb].
    do 2 wp_step. eapply wp_mono; [by eapply plugin_config_copy_wp| |by intros ? ? HJ; exact HJ].
    intros [] [n' h' x' t']; wsimpl; intros (-> & Hh).
    + subst. c_run. split; [heap_wf_tac|]. split; [wsimpl; lia|]. by left.
    + destruct Hh as (Hg & c' & ->). c_run.
      split; [heap_wf_tac|]. split; [wsimpl; lia|]. right. split; [done|]. split; [done|].
      by eexists.
Qed.

Lemma plugin_config_fields_wp ps l w :
  w_heap w !! l = Some (OPConfig RTI_TSFM_TransformationPluginConfig_DEFAULT) →
  wp (match lookup_property ps RTI_TSFM_PROPERTY_PLUGIN_DLL with
      | Some pval =>
          s ← DDS_String_replace pval;
          update_pconfig (Ptr l) (set_pc_dll s);;
          when (is_none s) (goto ())
      | None => mret ()
      end;;
      match lookup_property ps RTI_TSFM_PROPERTY_CREATE_FN with
      | Some pval =>
          s ← DDS_String_replace pval;
          update_pconfig (Ptr l) (set_pc_create_fn s);;
          when (is_none s) (goto ())
      | None => mret ()
      end;;
      mret (DDS_RETCODE_OK, Ptr l))
    (λ rc w', rc = (DDS_RETCODE_OK, Ptr l) ∧ w_next w' = w_next w
       ∧ w_heap w' = <[l := OPConfig (parsed_plugin_config ps)]> (w_heap w))
    (λ _ w', (generous → False) ∧ w_next w' = w_next w
       ∧ ∃ c, w_heap w' = <[l := OPConfig c]> (w_heap w)) w.
Proof.
  intros Hl. unfold parsed_plugin_config.
  destruct (lookup_property ps RTI_TSFM_PROPERTY_PLUGIN_DLL) as [it|], (lookup_property ps RTI_TSFM_PROPERTY_CREATE_FN) as [ot|];
    cbn [default]; c_run; rewrite ?insert_insert_eq;
    first [ split; [not_generous|]; split; [done|]; by eexists
          | split; [done|]; split; [done|]; first [done | by rewrite insert_id by done]
          | split; [done|]; split; [done|]; symmetry; by apply insert_id ].
Qed.

Lemma plugin_config_parse_wp {E} (R : E → W → Prop) ps p w :
  heap_wf w →
  match p with Ptr l => ∃ c, w_heap w !! l = Some (OPConfig c) | Null => True | Wild => False end →
  wp (RTI_TSFM_TransformationPluginConfig_parse_from_properties_alloc ps p)
     (plugin_config_post w p (parsed_plugin_config ps)) R w.
Proof.
  intros Hwf Hp. unfold RTI_TSFM_TransformationPluginConfig_parse_from_properties_alloc,
    RTI_TSFM_TransformationPluginConfig_delete.
  destruct p as [|l|]; [| |done]; wp_step; [apply wp_is_null_Null | apply wp_is_null_Ptr];
    (wp_step; eapply wp_mono; [by apply plugin_config_default_wp| |done]);
    intros rc [n h x t]; unfold plugin_config_post; wsimpl;
    intros (Hwf1 & Hn & [(-> & ->)|(-> & Hg & Hh)]);
    cbn [fst snd Z.eqb DDS_RETCODE_OK DDS_RETCODE_ERROR negb];
    try (wp_run; split; [done|]; split; [done|]; right; done).
  - assert (w_next w < n) by (eapply (heap_wf_lt _ _ _ Hwf1); heap_lookup).
    wp_step. eapply wp_mono; [eapply plugin_config_fields_wp; heap_lookup| |].
    + intros rc [n' h' x' t'] (-> & Hn' & Hh); wsimpl.
      rewrite insert_insert_eq in Hh. subst. split; [|split; [wsimpl; lia|]].
      * intros k Hk. wsimpl. heap_lookup. apply Hwf. lia.
      * by left.
    + intros [] [n' h' x' t'] (Hg & Hn' & c & Hh); wsimpl.
      rewrite insert_insert_eq in Hh. subst. c_run. split; [|split; [wsimpl; lia|]].
      * intros k Hk. wsimpl. rewrite !insert_insert_eq. heap_lookup. apply Hwf. lia.
      * right. split; [done|]. split; [done|]. wsimpl. rewrite !insert_insert_eq.
        by rewrite delete_insert_id by by apply heap_wf_fresh.
  - destruct Hp as [c0 Hc0]. pose proof (heap_wf_lt _ _ _ Hwf Hc0) as Hlt.
    wp_step. eapply wp_mono; [eapply plugin_config_fields_wp; heap_lookup| |].
    + intros rc [n' h' x' t'] (-> & Hn' & Hh); wsimpl.
      rewrite insert_insert_eq in Hh. subst. split; [|split; [wsimpl; lia|]].
      * intros k Hk. wsimpl. heap_lookup. apply Hwf. lia.
      * by left.
    + intros [] [n' h' x' t'] (Hg & Hn' & c & Hh); wsimpl.
      rewrite insert_insert_eq in Hh. subst. c_run. split; [|split; [wsimpl; lia|]].
      * intros k Hk. wsimpl. heap_lookup. apply Hwf. lia.
      * right. split; [done|]. split; [done|]. by exists c.
Qed.

(** Parsing a plugin's configuration: the two properties or empty
    strings, in the given block or a fresh one; it fails only when the
    library does, and then a fresh block is freed. *)
Theorem plugin_config_parse_spec ps p w :
  heap_wf w →
  match p with Ptr l => ∃ c, w_heap w !! l = Some (OPConfig c) | Null => True | Wild => False end →
  wp (RTI_TSFM_TransformationPluginConfig_parse_from_properties_alloc (E := Empty_set) ps p)
     (plugin_config_post w p (parsed_plugin_config ps)) no_jump w.
Proof. apply plugin_config_parse_wp. Qed.

End theorems.
