(* ===== verification/Transformation.v ===== *)
(** The base transformation: the rest of Transformation.c. *)
From Stdlib Require Import ZArith Lia.
From stdpp Require Import base gmap strings list fin_maps.
From S2P Require Import Prelude KafkaTypes TsfmTypes TsfmConfig.

#[local] Open Scope string_scope.
#[local] Open Scope list_scope.
#[local] Open Scope nat_scope.

(** struct RTI_RoutingServiceTypeInfo: the name and the type code. *)
Record type_info := TypeInfo { ti_type_name : string; ti_type_representation : string }.

(** RTI_TSFM_USE_MUTEX: whether the library is compiled with mutexes. *)
Class MutexConfig := use_mutex : bool.

Section operations.
Context {D X : Type} `{!Env X tcall, !Codec D} {PA : PropertyApi} {SA : SeqApi} {MC : MutexConfig}.
#[local] Abbreviation W := (world (tobj D) X tcall).

Definition update_transformation {E} (p : ptr)
    (f : RTI_TSFM_Transformation → RTI_TSFM_Transformation) : M W E () :=
  t ← load_transformation p; store p (OTransformation (f t)).

Definition set_tf_config c t := Transformation c (tf_plugin t) (tf_tsupport t)
  (tf_read_buffer t) (tf_read_buffer_loaned t) (tf_lock t) (tf_fields t).
Definition set_tf_tsupport p t := Transformation (tf_config t) (tf_plugin t) p
  (tf_read_buffer t) (tf_read_buffer_loaned t) (tf_lock t) (tf_fields t).
Definition set_tf_read_buffer s t := Transformation (tf_config t) (tf_plugin t) (tf_tsupport t)
  s (tf_read_buffer_loaned t) (tf_lock t) (tf_fields t).
Definition set_tf_loaned b t := Transformation (tf_config t) (tf_plugin t) (tf_tsupport t)
  (tf_read_buffer t) b (tf_lock t) (tf_fields t).
Definition set_tf_lock b t := Transformation (tf_config t) (tf_plugin t) (tf_tsupport t)
  (tf_read_buffer t) (tf_read_buffer_loaned t) b (tf_fields t).

(** RTI_TSFM_String_length(s) and RTI_TSFM_String_compare(s, t) on a string
    field: NULL is dereferenced. *)
Definition string_of {E} (s : option string) : M W E string :=
  match s with Some s => mret s | None => fail NullDeref end.

Definition RTI_TSFM_Transformation_create_type_support {E} (config : ptr) (ti : type_info)
    : M W E (Z * ptr) :=
  c ← load_tconfig config;
  type_name ← string_of (cfg_output_type c);
  labelled
    ((if bool_decide (String.length type_name = 0) then
        s ← DDS_String_replace (ti_type_name ti);
        update_tconfig config (set_cfg_output s);;
        when (is_none s) (goto ())
      else when (negb (bool_decide (type_name = ti_type_name ti))) (goto ()));;
     tsupport ← new (QTSupportNew (ti_type_representation ti))
                  (OTSupport (ti_type_representation ti));
     b ← is_null tsupport;
     when b (goto ());;
     mret (DDS_RETCODE_OK, tsupport))
    (* *tsupport is NULL wherever the label is reached from *)
    (λ _ : (), mret (DDS_RETCODE_ERROR, Null)).

(** The loop over the samples of the read buffer. *)
Fixpoint finalize_samples {E} (self : ptr) (i seq_len : nat) : M W E () :=
  match seq_len with
  | 0 => mret ()
  | S n =>
      t ← load_transformation self;
      data ← seq_get (tf_read_buffer t) i;
      b ← is_null data;
      (if b : bool then mret ()
       else
         load_tsupport (tf_tsupport t);;
         r ← call QDeleteData;
         load_data data;;
         (if (r =? DDS_RETCODE_OK)%Z then free data else mret ());;
         s ← seq_set (tf_read_buffer t) i Null;
         update_transformation self (set_tf_read_buffer s));;
      finalize_samples self (S i) n
  end.

Definition RTI_TSFM_Transformation_finalize {E} (self : ptr) : M W E Z :=
  t ← load_transformation self;
  finalize_samples self 0 (sq_length (tf_read_buffer t));;
  t ← load_transformation self;
  s ← seq_set_length (tf_read_buffer t) 0;
  match s with
  | Some s => update_transformation self (set_tf_read_buffer s)
  | None => mret ()
  end;;
  t ← load_transformation self;
  b ← is_null (tf_config t);
  when (negb b)
    (RTI_TSFM_TransformationConfig_delete (tf_config t);;
     update_transformation self (set_tf_config Null));;
  b ← is_null (tf_tsupport t);
  when (negb b)
    (load_tsupport (tf_tsupport t);; call QTSupportDelete;; free (tf_tsupport t);;
     update_transformation self (set_tf_tsupport Null));;
  ok ← call QSeqFinalize;
  (if (ok =? 0)%Z then mret () else update_transformation self (set_tf_read_buffer empty_seq));;
  r ← (if use_mutex then RTI_TSFM_Mutex_finalize else mret DDS_RETCODE_OK);
  mret (if negb (ok =? 0)%Z && (r =? DDS_RETCODE_OK)%Z then DDS_RETCODE_OK else DDS_RETCODE_ERROR).

(** The label of RTI_TSFM_Transformation_initialize (lines 337-353): the
    configuration is not deleted if the caller had set it. *)
Definition initialize_error {E} (self : ptr) (config_initd lock_initd : bool) : M W E Z :=
  (if negb use_mutex || lock_initd then
     t ← load_transformation self;
     b ← is_null (tf_config t);
     let config := if negb b && negb config_initd then tf_config t else Null in
     when (negb b && negb config_initd) (update_transformation self (set_tf_config Null));;
     RTI_TSFM_Transformation_finalize self;;
     update_transformation self (set_tf_config config)
   else mret ());;
  mret DDS_RETCODE_ERROR.

(** The jumps to the label carry [config_initd] and [lock_initd]. *)
Definition RTI_TSFM_Transformation_initialize {E} (self plugin : ptr)
    (input_type_info output_type_info : type_info) (ps : properties) : M W E Z :=
  update_transformation self (λ t,
    Transformation (tf_config t) plugin Null empty_seq false (tf_lock t) (tf_fields t));;
  labelled
    (lr ← (if use_mutex then RTI_TSFM_Mutex_initialize else mret (DDS_RETCODE_OK, false));
     when (negb (lr.1 =? DDS_RETCODE_OK)%Z) (goto (false, false));;
     when use_mutex (update_transformation self (set_tf_lock lr.2));;
     ok ← call QSeqInitialize;
     when (ok =? 0)%Z (goto (false, use_mutex));;
     t ← load_transformation self;
     b ← is_null (tf_config t);
     config_initd ←
       (if b : bool then
          rc ← RTI_TSFM_TransformationConfig_parse_from_properties_alloc ps (tf_config t);
          when (negb (rc.1 =? DDS_RETCODE_OK)%Z) (goto (false, use_mutex));;
          update_transformation self (set_tf_config rc.2);;
          mret true
        else mret false);
     t ← load_transformation self;
     rt ← RTI_TSFM_Transformation_create_type_support (tf_config t) output_type_info;
     update_transformation self (set_tf_tsupport rt.2);;
     when (negb (rt.1 =? DDS_RETCODE_OK)%Z) (goto (config_initd, use_mutex));;
     mret DDS_RETCODE_OK)
    (λ e, initialize_error self e.1 e.2).

(** Line 482: the callback the configuration selects, on the user plugin of
    the transformation's plugin. *)
Definition convert_sample {E} (t : RTI_TSFM_Transformation) (in_sample out_sample : ptr)
    : M W E Z :=
  c ← load_tconfig (tf_config t);
  pl ← load_plugin (tf_plugin t);
  u ← load_user_plugin (pl_user_plugin pl);
  d_in ← load_data in_sample;
  d_out ← load_data out_sample;
  let '(set, result) :=
    match cfg_type c with
    | RTI_TSFM_TransformationKind_SERIALIZER => (up_serialize_sample u, serialize_sample d_in d_out)
    | RTI_TSFM_TransformationKind_DESERIALIZER =>
        (up_deserialize_sample u, deserialize_sample d_in d_out)
    end in
  if negb set then fail NullDeref
  else match result with
  | Some d => store out_sample (OData d);; mret DDS_RETCODE_OK
  | None => mret DDS_RETCODE_ERROR
  end.

(** Lines 462-513: one input sample; the result tells whether it counts. *)
Definition transform_sample (self : ptr) (i : nat) (in_sample in_info : ptr) : M W () bool :=
  t ← load_transformation self;
  out_sample ← seq_get (tf_read_buffer t) i;
  valid_data ← load_info in_info;
  if negb valid_data then mret false
  else
    b ← is_null out_sample;
    out_sample ←
      (if b : bool then
         load_tsupport (tf_tsupport t);;
         p ← new QCreateData (OData blank);
         s ← seq_set (tf_read_buffer t) i p;
         update_transformation self (set_tf_read_buffer s);;
         mret p
       else mret out_sample);
    in_null ← is_null in_sample;
    out_null ← is_null out_sample;
    when (in_null || out_null) (goto ());;
    r ← convert_sample t in_sample out_sample;
    when (negb (r =? DDS_RETCODE_OK)%Z) (goto ());;
    mret true.

Fixpoint transform_samples (self : ptr) (i : nat) (ins : list (ptr * ptr)) (out_samples_initd : nat)
    : M W () nat :=
  match ins with
  | [] => mret out_samples_initd
  | (in_sample, in_info) :: ins' =>
      counted ← transform_sample self i in_sample in_info;
      transform_samples self (S i) ins'
        (if counted : bool then S out_samples_initd else out_samples_initd)
  end.

(** The out parameters: the sample array (the read buffer itself), the info
    array (the input's), the count. *)
Definition RTI_TSFM_Transformation_transform {E} (self : ptr) (ins : list (ptr * ptr))
    : M W E (Z * option (list ptr * list ptr * nat)) :=
  labelled
    (t ← load_transformation self;
     when (tf_read_buffer_loaned t) (goto ());;
     let out_samples_len := Nat.max (sq_maximum (tf_read_buffer t)) (length ins) in
     s ← seq_ensure_length RTI_TSFM_DDS_DynamicDataPtr_initialize_w_params
           RTI_TSFM_DDS_DynamicDataPtr_copy (tf_read_buffer t) out_samples_len out_samples_len;
     match s with
     | None => goto ()
     | Some s =>
         update_transformation self (set_tf_read_buffer s);;
         (* get_contiguous_buffer is NULL when nothing was ever allocated *)
         when (bool_decide (sq_maximum s = 0)) (goto ());;
         out_samples_initd ← transform_samples self 0 ins 0;
         update_transformation self (set_tf_loaned true);;
         t ← load_transformation self;
         mret (DDS_RETCODE_OK,
               Some (sq_buffer (tf_read_buffer t), ins.*2, out_samples_initd))
     end)
    (* out_samples == NULL && out_samples_initd > 0 is false wherever the
       label is reached from, so that no loan is returned *)
    (λ _ : (), mret (DDS_RETCODE_ERROR, None)).

(** A NULL sample is refused with an error code. *)
Definition DDS_DynamicData_clear_all_members {E} (p : ptr) : M W E Z :=
  b ← is_null p;
  if b : bool then mret DDS_RETCODE_ERROR
  else
    d ← load_data p;
    r ← call QClearMembers;
    (if (r =? DDS_RETCODE_OK)%Z then store p (OData (clear d)) else mret ());;
    mret r.

Fixpoint clear_samples {E} (out_samples : list ptr) (count : nat) {struct count} : M W E () :=
  match count, out_samples with
  | 0, _ => mret ()
  | S _, [] => fail OutOfBounds
  | S n, p :: ps =>
      DDS_DynamicData_clear_all_members p;;
      clear_samples ps n
  end.

Definition RTI_TSFM_Transformation_return_loan {E} (self : ptr) (sample_lst : list ptr)
    (count : nat) : M W E () :=
  load_transformation self;;
  clear_samples sample_lst count;;
  update_transformation self (set_tf_loaned false).

Definition RTI_TSFM_Transformation_update {E} (transformation : ptr) (ps : properties)
    : M W E Z := mret DDS_RETCODE_ERROR.
End operations.

(** * Specifications *)

(** Where the blocks of a transformation are. *)
Record tlayout := TLayout {
  tl_self : nat; tl_config : nat; tl_cfg : RTI_TSFM_TransformationConfig;
  tl_plugin : nat; tl_plug : RTI_TSFM_TransformationPlugin;
  tl_user : nat; tl_delete_plugin : bool;
  tl_tsupport : nat; tl_repr : string; tl_lock : bool; tl_fields : t_fields
}.

(** The parts of the memory invariant [tmem] below. *)
Ltac tmem_open H :=
  destruct H as [Hwf Hself Hconfig Hplugin Huptr Huser Hts Hbuf];
  cbn [tl_self tl_config tl_cfg tl_plugin tl_plug tl_user tl_delete_plugin tl_tsupport tl_repr
       tl_lock tl_fields] in *; distinct_blocks; bound_blocks.

Section theorems.
Context {D X : Type} `{!Env X tcall, !Codec D} {PA : PropertyApi} {SA : SeqApi} {MC : MutexConfig}.
#[local] Abbreviation W := (world (tobj D) X tcall).
Implicit Types (w : W) (la : tlayout).

(** The elements of a read buffer: NULL, or distinct samples. *)
Record buffer_ok (s : ptr_seq) (w : W) : Prop := {
  bo_length : sq_length s = sq_maximum s;
  bo_data : ∀ i l, sq_buffer s !! i = Some (Ptr l) → ∃ d, w_heap w !! l = Some (OData d);
  bo_init : ∀ i, sq_buffer s !! i ≠ Some Wild;
  bo_inj : ∀ i j l, sq_buffer s !! i = Some (Ptr l) → sq_buffer s !! j = Some (Ptr l) → i = j
}.

(** The memory of an initialized transformation. *)
Record tmem la (s : ptr_seq) (loaned : bool) (w : W) : Prop := {
  tm_wf : heap_wf w;
  tm_self : w_heap w !! tl_self la = Some (OTransformation (Transformation
    (Ptr (tl_config la)) (Ptr (tl_plugin la)) (Ptr (tl_tsupport la)) s loaned
    (tl_lock la) (tl_fields la)));
  tm_config : w_heap w !! tl_config la = Some (OTConfig (tl_cfg la));
  tm_plugin : w_heap w !! tl_plugin la = Some (OPlugin (tl_plug la));
  tm_user_ptr : pl_user_plugin (tl_plug la) = Ptr (tl_user la);
  tm_user : w_heap w !! tl_user la = Some (OUserPlugin (UserTypePlugin (tl_delete_plugin la) true true));
  tm_tsupport : w_heap w !! tl_tsupport la = Some (OTSupport (tl_repr la));
  tm_buffer : buffer_ok s w
}.

(** The conversion the configuration selects. *)
Definition convert la : D → D → option D :=
  match cfg_type (tl_cfg la) with
  | RTI_TSFM_TransformationKind_SERIALIZER => serialize_sample
  | RTI_TSFM_TransformationKind_DESERIALIZER => deserialize_sample
  end.

(** An input: its info block, and its sample, which is not an output. *)
Definition input_ok (s : ptr_seq) (w : W) (pi : ptr * ptr) (valid : bool) (d : option D) : Prop :=
  (∃ iq, pi.2 = Ptr iq ∧ w_heap w !! iq = Some (OInfo valid))
  ∧ match d with
    | None => pi.1 = Null
    | Some d => ∃ ip, pi.1 = Ptr ip ∧ w_heap w !! ip = Some (OData d)
                      ∧ Ptr ip ∉ sq_buffer s
    end.

(** What one iteration at index [i] may change. *)
Record evolves (i : nat) (s s' : ptr_seq) (w w' : W) : Prop := {
  ev_next : w_next w ≤ w_next w';
  ev_max : sq_maximum s' = sq_maximum s;
  ev_other : ∀ j, j ≠ i → sq_buffer s' !! j = sq_buffer s !! j;
  ev_slot : sq_buffer s' !! i = sq_buffer s !! i
    ∨ (sq_buffer s !! i = Some Null
       ∧ (sq_buffer s' !! i = Some Null ∨ ∃ l, sq_buffer s' !! i = Some (Ptr l) ∧ w_next w ≤ l));
  ev_new : ∀ l, w_next w ≤ l → sq_buffer s' !! i ≠ Some (Ptr l) → w_heap w' !! l = None
}.

Lemma evolves_same i s w w' :
  w_next w ≤ w_next w' → (∀ l, w_next w ≤ l → w_heap w' !! l = None) → evolves i s s w w'.
Proof. intros Hn Hh. constructor; auto. Qed.

Definition frame la (i : nat) (s : ptr_seq) (w w' : W) : Prop :=
  ∀ l, l < w_next w → l ≠ tl_self la → sq_buffer s !! i ≠ Some (Ptr l) →
    w_heap w' !! l = w_heap w !! l.

Lemma convert_sample_wp la s loaned s0 loaned0 ip op d_in d_out w :
  tmem la s loaned w → w_heap w !! ip = Some (OData d_in) → w_heap w !! op = Some (OData d_out) →
  wp (convert_sample (E := ()) (Transformation (Ptr (tl_config la)) (Ptr (tl_plugin la))
        (Ptr (tl_tsupport la)) s0 loaned0 (tl_lock la) (tl_fields la)) (Ptr ip) (Ptr op))
     (λ r w', w_next w' = w_next w ∧
        match convert la d_in d_out with
        | Some d => r = DDS_RETCODE_OK ∧ w_heap w' = <[op := OData d]> (w_heap w)
        | None => r = DDS_RETCODE_ERROR ∧ w_heap w' = w_heap w
        end) (λ _ _, False) w.
Proof.
  intros Hm Hip Hop. destruct la as [se cf cfg pl plug us dp ts re lk st]. tmem_open Hm.
  unfold convert_sample, convert. cbn [tl_cfg tl_config tl_plugin tl_tsupport tl_lock tl_fields].
  t_run. rewrite Huptr. t_run.
  destruct (cfg_type cfg); cbn [negb]; case_match; t_run; done.
Qed.

Lemma tmem_same la s loaned w w' :
  tmem la s loaned w → w_next w ≤ w_next w' → w_heap w' = w_heap w → tmem la s loaned w'.
Proof.
  intros [Hwf ? ? ? ? ? ? [? Hd ? ?]] Hn Hh. constructor; rewrite ?Hh; try done.
  - intros l Hl. rewrite Hh. apply Hwf. lia.
  - constructor; try done. intros i l Hi. rewrite Hh. by eapply Hd.
Qed.

Lemma tmem_store la s loaned w w' l d0 d :
  tmem la s loaned w → w_heap w !! l = Some (OData d0) →
  w_next w' = w_next w → w_heap w' = <[l := OData d]> (w_heap w) → tmem la s loaned w'.
Proof.
  intros Hm Hl Hn Hh. destruct la. tmem_open Hm.
  constructor; cbn [tl_self tl_config tl_cfg tl_plugin tl_plug tl_user tl_delete_plugin
    tl_tsupport tl_repr tl_lock tl_fields]; rewrite ?Hh; try (by heap_lookup).
  - intros k Hk. rewrite Hh. rewrite Hn in Hk. heap_lookup. by apply Hwf.
  - destruct Hbuf as [Hlen Hd Hi Hj]. constructor; try done.
    intros i l' Hi'. rewrite Hh. rewrite lookup_insert. case_decide; [by eexists | by eapply Hd].
Qed.

Lemma tmem_fill la s loaned w w' i d :
  tmem la s loaned w → sq_buffer s !! i = Some Null →
  w_next w' = S (w_next w) →
  w_heap w' = <[tl_self la := OTransformation (Transformation (Ptr (tl_config la))
       (Ptr (tl_plugin la)) (Ptr (tl_tsupport la))
       (PtrSeq (sq_length s) (<[i := Ptr (w_next w)]> (sq_buffer s))) loaned (tl_lock la) (tl_fields la))]>
     (<[w_next w := OData d]> (w_heap w)) →
  tmem la (PtrSeq (sq_length s) (<[i := Ptr (w_next w)]> (sq_buffer s))) loaned w'.
Proof.
  intros Hm Hi Hn Hh. destruct la. tmem_open Hm. pose proof (lookup_lt_Some _ _ _ Hi) as Hlt.
  constructor; cbn [tl_self tl_config tl_cfg tl_plugin tl_plug tl_user tl_delete_plugin
    tl_tsupport tl_repr tl_lock tl_fields]; rewrite ?Hh; try (by heap_lookup).
  - intros k Hk. rewrite Hh. rewrite Hn in Hk. heap_lookup. apply Hwf. nlia.
  - destruct Hbuf as [Hlen Hd Hini Hinj]. constructor; unfold sq_maximum; cbn [sq_length sq_buffer].
    + by rewrite length_insert.
    + intros j l. rewrite Hh. rewrite list_lookup_insert. case_decide as Hj.
      * intros [= <-]. exists d. heap_lookup.
      * intros Hj'. destruct (Hd _ _ Hj') as [d' Hd']. exists d'.
        pose proof (heap_wf_lt _ _ _ Hwf Hd'). 
        rewrite lookup_insert_ne by congruence. rewrite lookup_insert_ne by nlia. done.
    + intros j. rewrite list_lookup_insert. case_decide; [done | apply Hini].
    + intros j k l. rewrite !list_lookup_insert.
      assert (∀ m, sq_buffer s !! m ≠ Some (Ptr (w_next w))) as Hnew.
      { intros m Hm. destruct (Hd _ _ Hm) as [d' Hd']. rewrite heap_wf_fresh in Hd'; done. }
      case_decide as Hj; case_decide as Hk; [naive_solver| | |by apply Hinj].
      * intros [= <-] Hk'. by apply Hnew in Hk'.
      * intros Hj' [= <-]. by apply Hnew in Hj'.
Qed.

(** What an input sample and an output slot can make an iteration fail. *)
Definition iteration_fails la (ip : ptr) (d : option D) : Prop :=
  d = None ∨ (∃ x, (answer x QCreateData).1 = 0%Z)
  ∨ ∃ d_in d_out, d = Some d_in ∧ convert la d_in d_out = None.

(** One iteration: an invalid sample changes nothing; a valid one makes the
    output slot hold its conversion, in a sample that is reused or fresh. *)
Lemma transform_sample_wp la s loaned i pin pinfo valid d w :
  tmem la s loaned w → i < sq_length s → input_ok s w (pin, pinfo) valid d →
  wp (transform_sample (Ptr (tl_self la)) i pin pinfo)
     (λ b w', ∃ s', tmem la s' loaned w' ∧ evolves i s s' w w' ∧ frame la i s w w'
        ∧ b = valid
        ∧ (valid = false → s' = s ∧ w_heap w' = w_heap w)
        ∧ (valid = true → ∃ l d_in d_old d', d = Some d_in ∧ sq_buffer s' !! i = Some (Ptr l)
             ∧ convert la d_in d_old = Some d' ∧ w_heap w' !! l = Some (OData d')))
     (λ _ w', (∃ s', tmem la s' loaned w' ∧ evolves i s s' w w' ∧ frame la i s w w')
        ∧ valid = true ∧ iteration_fails la pin d) w.
Proof.
  intros Hm Hi [(iq & Hq & Hinfo) Hin]. cbn in Hq. subst pinfo.
  pose proof (tm_buffer _ _ _ _ Hm) as [Hlen Hdata Hinit Hinj].
  assert (∃ p, sq_buffer s !! i = Some p) as [p Hp].
  { apply lookup_lt_is_Some_2. unfold sq_maximum in Hlen. lia. }
  unfold transform_sample. wp_step. eapply wp_load_transformation; [apply Hm|].
  cbn [tf_read_buffer]. wp_step. eapply wp_seq_get; [done|].
  wp_step. eapply wp_load_info; [done|].
  assert (evolves i s s w w) as Hev by (apply evolves_same; [done | apply Hm]).
  destruct valid; cbn [negb].
  2: { wp_run. exists s. by split_and!. }
  destruct p as [|op|]; [| |by apply Hinit in Hp].
  - assert (∀ w1, w_next w1 = w_next w →
      w_heap w1 = <[tl_self la := OTransformation (Transformation (Ptr (tl_config la))
          (Ptr (tl_plugin la)) (Ptr (tl_tsupport la)) s loaned (tl_lock la) (tl_fields la))]>
          (w_heap w) →
      ∃ s', tmem la s' loaned w1 ∧ evolves i s s' w w1 ∧ frame la i s w w1) as Hnull.
    { intros w1 Hn Hh. rewrite insert_id in Hh by apply Hm. exists s.
      split; [eapply tmem_same; [done | lia | done]|].
      split; [|by intros l _ _ _; rewrite Hh].
      apply evolves_same; [lia|]. rewrite Hh. apply Hm. }
    set (s1 := PtrSeq (sq_length s) (<[i := Ptr (w_next w)]> (sq_buffer s))).
    assert (sq_buffer s1 !! i = Some (Ptr (w_next w))) as Hs1.
    { cbn. rewrite list_lookup_insert_eq; [done|]. by eapply lookup_lt_Some. }
    assert (∀ w1, tmem la s1 loaned w1 → w_next w1 = S (w_next w) →
      (∀ l, l < w_next w → l ≠ tl_self la → w_heap w1 !! l = w_heap w !! l) →
      tmem la s1 loaned w1 ∧ evolves i s s1 w w1 ∧ frame la i s w w1) as Hfill.
    { intros w1 Hm1 Hn1 Hu. split; [done|]. split.
      - constructor; [lia | | | |].
        + unfold sq_maximum, s1. cbn. apply length_insert.
        + intros j Hj. cbn. by rewrite list_lookup_insert_ne.
        + right. split; [done|]. right. exists (w_next w). split; [|done]. cbn.
          done.
        + intros l Hl Hne. rewrite Hs1 in Hne. apply Hm1.
          assert (l ≠ w_next w) by congruence. lia.
      - intros l Hl Hs _. by apply Hu. }
    pose proof (heap_wf_lt _ _ _ (tm_wf _ _ _ _ Hm) (tm_self _ _ _ _ Hm)) as Hself.
    pose proof (tm_self _ _ _ _ Hm) as Hself0. pose proof (tm_tsupport _ _ _ _ Hm) as Hts0.
    do 4 wp_step. eapply wp_load_tsupport; [done|]. do 2 wp_step.
    + wp_step. eapply wp_seq_set; [done|]. rewrite list_insert_id by done.
      unfold update_transformation, set_tf_read_buffer. t_run.
      destruct d as [d_in|]; [destruct Hin as (ip & Hip & _)|];
        cbn in *; subst pin; t_run.
      all: split; [apply Hnull; [done|]; wsimpl; by destruct s|].
      all: split; [done|]. 1: right; left; eexists; eassumption. by left.
    + wp_step. eapply wp_seq_set; [done|]. fold s1.
      unfold update_transformation, set_tf_read_buffer. t_run.
      match goal with |- wp _ _ _ ?w' => set (w1 := w') end.
      assert (tmem la s1 loaned w1) as Hm1 by by eapply tmem_fill.
      assert (w_next w1 = S (w_next w)) as Hn1 by done.
      assert (∀ l, l < w_next w → l ≠ tl_self la → w_heap w1 !! l = w_heap w !! l) as Hu1.
      { intros l Hl Hs. unfold w1. by heap_lookup. }
      assert (w_heap w1 !! w_next w = Some (OData blank)) as Hnew by (unfold w1; heap_lookup).
      clearbody w1. destruct d as [d_in|].
      2: { cbn in Hin. subst pin. t_run.
           split; [by exists s1; apply Hfill | split; [done | by left]]. }
      destruct Hin as (ip & Hip & Hd & Hni). cbn in Hip. subst pin. t_run.
      assert (w_heap w1 !! ip = Some (OData d_in)) as Hd1.
      { rewrite Hu1; [done | exact (heap_wf_lt _ _ _ (tm_wf _ _ _ _ Hm) Hd) | congruence]. }
      eapply wp_mono; [by eapply convert_sample_wp| |done].
      intros r w' (Hn & Hr). destruct (convert la d_in blank) as [d'|] eqn:Hc; destruct Hr as [-> Hh].
      * t_run. exists s1.
        destruct (Hfill w') as (? & ? & ?); [eapply (tmem_store _ _ _ w1 _ (w_next w)); [exact Hm1 | exact Hnew | exact Hn | exact Hh] | lia | |].
        { intros l Hl Hs. rewrite Hh, lookup_insert_ne by lia. by apply Hu1. }
        split_and!; try done. intros _. exists (w_next w), d_in, blank, d'.
        split_and!; [done | done | done |]. rewrite Hh. heap_lookup.
      * t_run. split; [|split; [done | right; right; by eexists _, _]].
        exists s1. apply Hfill; [eapply tmem_same; [exact Hm1 | lia | done] | lia |].
        intros l Hl Hs. rewrite Hh. by apply Hu1.
  - destruct (Hdata _ _ Hp) as [d_old Hop]. wp_run.
    pose proof (heap_wf_lt _ _ _ (tm_wf _ _ _ _ Hm) Hop) as Hltop.
    destruct d as [d_in|].
    2: { cbn in Hin. subst. t_run.
         split; [|split; [done | by left]]. by exists s. }
    destruct Hin as (ip & Hip & Hd & Hni). cbn in Hip. subst pin. wp_run.
    eapply wp_mono; [by eapply convert_sample_wp| |done].
    intros r w' (Hn & Hr). destruct (convert la d_in d_old) as [d'|] eqn:Hc; destruct Hr as [-> Hh].
    + t_run. exists s. split; [by eapply tmem_store|].
      split; [apply evolves_same; [lia|]; intros l Hl; rewrite Hh, lookup_insert_ne by lia;
              by apply Hm|].
      split; [intros l Hl Hs Hne; rewrite Hh, lookup_insert_ne by congruence; done|].
      split_and!; [done | done | intros _]. exists op, d_in, d_old, d'.
      split_and!; [done | done | done |]. rewrite Hh. heap_lookup.
    + t_run. split; [|split; [done | right; right; by eexists _, _]].
      exists s. split; [eapply tmem_same; [done | lia | done]|].
      split; [apply evolves_same; [lia|]; rewrite Hh; apply Hm|]. intros l _ _ _. by rewrite Hh.
Qed.

(** The loop over the input changes the slots from [i] on only. *)
Record loop_evolves la (i n : nat) (s s' : ptr_seq) (w w' : W) : Prop := {
  le_next : w_next w ≤ w_next w';
  le_max : sq_maximum s' = sq_maximum s;
  le_other : ∀ j, j < i ∨ i + n ≤ j → sq_buffer s' !! j = sq_buffer s !! j;
  le_frame : ∀ l, l < w_next w → l ≠ tl_self la →
    (∀ j, i ≤ j → sq_buffer s !! j ≠ Some (Ptr l)) → w_heap w' !! l = w_heap w !! l
}.

Lemma loop_evolves_refl la i s w : loop_evolves la i 0 s s w w.
Proof. by constructor. Qed.

Lemma slot_new i s s1 w w1 j l :
  evolves i s s1 w w1 → sq_buffer s1 !! j = Some (Ptr l) →
  sq_buffer s !! j = Some (Ptr l) ∨ (j = i ∧ w_next w ≤ l).
Proof.
  intros [_ _ Ho Hslot] Hj. destruct (decide (j = i)) as [->|Hne]; [|left; by rewrite <- Ho].
  destruct Hslot as [<-|[_ [Hn|(l' & Hl' & Hge)]]]; [by left | congruence |].
  right. split; [done|]. rewrite Hj in Hl'. by injection Hl' as ->.
Qed.

Lemma loop_evolves_step la i n s s1 s' w w1 w' :
  evolves i s s1 w w1 → frame la i s w w1 →
  loop_evolves la (S i) n s1 s' w1 w' → loop_evolves la i (S n) s s' w w'.
Proof.
  intros Hev Hf [Hn Hm Ho Hfr]. pose proof (ev_next _ _ _ _ _ Hev) as Hnext.
  constructor; [lia | | |].
  - rewrite Hm. apply Hev.
  - intros j Hj. rewrite Ho by lia. apply Hev. lia.
  - intros l Hl Hs Hj. rewrite Hfr; [|lia | done |].
    + apply Hf; [done | done | by apply Hj].
    + intros j Hij Hbad. destruct (slot_new _ _ _ _ _ _ _ Hev Hbad) as [Hb|[-> ?]]; [|lia].
      by apply (Hj j); [lia|].
Qed.

(** The footprint of a transformation at work: it writes its struct and the
    samples of its read buffer, which stay there, and every block it allocates
    is a sample of the read buffer. *)
Record footprint la (s s' : ptr_seq) (w w' : W) : Prop := {
  fp_next : w_next w ≤ w_next w';
  fp_frame : ∀ l, l < w_next w → l ≠ tl_self la → Ptr l ∉ sq_buffer s →
    w_heap w' !! l = w_heap w !! l;
  fp_new : ∀ l, w_next w ≤ l → Ptr l ∉ sq_buffer s' → w_heap w' !! l = None;
  fp_old : ∀ l, Ptr l ∈ sq_buffer s' → Ptr l ∈ sq_buffer s ∨ w_next w ≤ l;
  fp_keep : ∀ l, Ptr l ∈ sq_buffer s → Ptr l ∈ sq_buffer s'
}.

Lemma footprint_trans la s s1 s' w w1 w' :
  tl_self la < w_next w →
  footprint la s s1 w w1 → footprint la s1 s' w1 w' → footprint la s s' w w'.
Proof.
  intros Hself [Hn Hf Hnew Hold Hkeep] [Hn' Hf' Hnew' Hold' Hkeep']. constructor; [lia | | | |auto].
  - intros l Hl Hs Hni. rewrite Hf', Hf by (try done; try lia; by intros [?|?]%Hold; [|lia]). done.
  - intros l Hl Hni. destruct (decide (w_next w1 ≤ l)) as [|Hlt]; [by apply Hnew'|].
    assert (Ptr l ∉ sq_buffer s1) by auto. rewrite Hf' by (done || lia). by apply Hnew.
  - intros l Hin. destruct (Hold' _ Hin) as [?|?]; [by apply Hold | right; lia].
Qed.

(** The struct alone was written, or a sample of the buffer. *)
Lemma footprint_heap la s s' loaned w w' :
  tmem la s loaned w → (∀ l, Ptr l ∈ sq_buffer s' ↔ Ptr l ∈ sq_buffer s) →
  w_next w' = w_next w →
  (∀ l, l ≠ tl_self la → Ptr l ∉ sq_buffer s → w_heap w' !! l = w_heap w !! l) →
  footprint la s s' w w'.
Proof.
  intros Hm Hs Hn Hh.
  pose proof (heap_wf_lt _ _ _ (tm_wf _ _ _ _ Hm) (tm_self _ _ _ _ Hm)) as Hself.
  constructor; [lia | auto | | intros l; left; by apply Hs | intros l; apply Hs].
  intros l Hl Hni. rewrite Hs in Hni. rewrite Hh by (done || lia). by apply Hm.
Qed.

Lemma evolves_footprint la i s s1 loaned w w1 :
  tmem la s loaned w → i < sq_maximum s →
  evolves i s s1 w w1 → frame la i s w w1 → footprint la s s1 w w1.
Proof.
  intros Hm Hi Hev Hf. constructor.
  - apply Hev.
  - intros l Hl Hself Hni. apply Hf; [done | done |]. intros Hb. apply Hni.
    by eapply list_elem_of_lookup_2.
  - intros l Hl Hni. apply (ev_new _ _ _ _ _ Hev); [done|]. intros Hb. apply Hni.
    by eapply list_elem_of_lookup_2.
  - intros l [j Hj]%list_elem_of_lookup.
    destruct (slot_new _ _ _ _ _ _ _ Hev Hj) as [Hb|[_ ?]]; [left | by right].
    by eapply list_elem_of_lookup_2.
  - intros l [j Hj]%list_elem_of_lookup. apply list_elem_of_lookup. exists j.
    destruct (decide (j = i)) as [->|Hne]; [|by rewrite (ev_other _ _ _ _ _ Hev)].
    destruct (ev_slot _ _ _ _ _ Hev) as [->|[Hb _]]; [done | congruence].
Qed.

(** Inputs stay inputs while outputs are written. *)
Lemma input_ok_step la i s s1 loaned w w1 pi v d :
  tmem la s loaned w → evolves i s s1 w w1 → frame la i s w w1 →
  input_ok s w pi v d → input_ok s1 w1 pi v d.
Proof.
  intros Hm Hev Hf [(iq & Hq & Hi) Hd].
  pose proof (tm_wf _ _ _ _ Hm) as Hwf. pose proof (tm_self _ _ _ _ Hm) as Hself.
  split.
  - exists iq. split; [done|]. rewrite Hf; [done | by eapply heap_wf_lt | congruence |].
    intros Hb. destruct (bo_data _ _ (tm_buffer _ _ _ _ Hm) _ _ Hb). congruence.
  - destruct d as [d|]; [|done]. destruct Hd as (ip & Hp & Hl & Hni). exists ip.
    assert (ip < w_next w) as Hlt by by eapply heap_wf_lt.
    split; [done|]. split.
    + rewrite Hf; [done | done | congruence |]. intros Hb. apply Hni.
      by eapply list_elem_of_lookup_2.
    + intros [j Hj]%list_elem_of_lookup. destruct (slot_new _ _ _ _ _ _ _ Hev Hj) as [Hb|[_ ?]]; [|lia].
      apply Hni. by eapply list_elem_of_lookup_2.
Qed.

(** What the output slots hold for the inputs [args]. *)
Definition slots_converted la (i : nat) (args : list (bool * option D)) (s s' : ptr_seq)
    (w' : W) : Prop :=
  ∀ k v d, args !! k = Some (v, d) →
    if v : bool
    then ∃ l d_in d_old d', d = Some d_in ∧ sq_buffer s' !! (i + k) = Some (Ptr l)
           ∧ convert la d_in d_old = Some d' ∧ w_heap w' !! l = Some (OData d')
    else sq_buffer s' !! (i + k) = sq_buffer s !! (i + k).

Definition valid_count (args : list (bool * option D)) : nat :=
  length (filter (λ vd, vd.1 = true) args).

Lemma transform_samples_wp la loaned ins args s i initd w :
  tmem la s loaned w → i + length ins ≤ sq_length s →
  Forall2 (λ pi vd, input_ok s w pi vd.1 vd.2) ins args →
  wp (transform_samples (Ptr (tl_self la)) i ins initd)
     (λ n w', n = initd + valid_count args
        ∧ ∃ s', tmem la s' loaned w' ∧ loop_evolves la i (length ins) s s' w w'
          ∧ footprint la s s' w w' ∧ slots_converted la i args s s' w')
     (λ _ w', (∃ s', tmem la s' loaned w' ∧ footprint la s s' w w')
        ∧ ∃ k pi d, ins !! k = Some pi ∧ args !! k = Some (true, d)
          ∧ iteration_fails la pi.1 d) w.
Proof.
  revert args s i initd w. induction ins as [|[pin pinfo] ins IH]; intros args s i initd w Hm Hi Hins;
    inversion Hins as [|? [v d] ? args' Hin Hrest]; subst; cbn [transform_samples].
  { wp_run. split; [cbn; lia|]. exists s.
    split_and!; [done | apply loop_evolves_refl | by eapply footprint_heap | done]. }
  cbn [length fst snd] in Hi, Hin.
  pose proof (heap_wf_lt _ _ _ (tm_wf _ _ _ _ Hm) (tm_self _ _ _ _ Hm)) as Hself.
  assert (i < sq_maximum s) as Himax by (rewrite <- (bo_length _ _ (tm_buffer _ _ _ _ Hm)); lia).
  wp_step. eapply wp_mono; [eapply transform_sample_wp; [done | lia | exact Hin]| |].
  2: { intros [] w1 ((s1 & Hm1 & Hev & Hf) & -> & Hfail). split; [exists s1; split; [done | by eapply evolves_footprint]|].
       by exists 0, (pin, pinfo), d. }
  intros b w1 (s1 & Hm1 & Hev & Hf & -> & Hinv & Hval).
  assert (sq_length s1 = sq_length s) as Hlen.
  { rewrite (bo_length _ _ (tm_buffer _ _ _ _ Hm1)), (bo_length _ _ (tm_buffer _ _ _ _ Hm)). apply Hev. }
  eapply wp_mono; [eapply (IH args' s1); [done | rewrite Hlen; lia |]| |].
  - eapply Forall2_impl; [exact Hrest|]. intros pi vd. by apply (input_ok_step la i s s1 loaned w w1).
  - intros n w' (-> & s' & Hm' & Hle & Hfp & Hconv). split.
    { unfold valid_count. rewrite filter_cons. destruct v; cbn [fst]; case_decide; cbn; try lia; done. }
    exists s'. split; [done|]. split; [by eapply loop_evolves_step|].
    split; [by eapply footprint_trans; [|eapply evolves_footprint|]|].
    intros [|k] v' d' Hk; cbn in Hk.
    + injection Hk as -> ->. rewrite Nat.add_0_r. destruct v'.
      * destruct (Hval eq_refl) as (l & d_in & d_old & d'' & -> & Hsl & Hc & Hh).
        exists l, d_in, d_old, d''. split; [done|].
        split; [rewrite (le_other _ _ _ _ _ _ _ Hle); [done | lia]|]. split; [done|].
        rewrite (le_frame _ _ _ _ _ _ _ Hle); [done | by eapply heap_wf_lt; [apply Hm1|] | |].
        -- intros ->. rewrite (tm_self _ _ _ _ Hm1) in Hh. done.
        -- intros j Hj Hj'. pose proof (bo_inj _ _ (tm_buffer _ _ _ _ Hm1) _ _ _ Hsl Hj'). lia.
      * destruct (Hinv eq_refl) as [-> _]. apply (le_other _ _ _ _ _ _ _ Hle). lia.
    + specialize (Hconv k v' d' Hk). rewrite <- Nat.add_succ_comm. destruct v'; [done|].
      rewrite Hconv. apply Hev. lia.
  - intros [] w' ((s' & Hm' & Hfp) & k & pi & d' & Hk & Ha & Hfail). split.
    + exists s'. split; [done|]. by eapply footprint_trans; [|eapply evolves_footprint|].
    + by exists (S k), pi, d'.
Qed.

(** The read buffer after it was made large enough for [n] samples. *)
Definition grown (n : nat) (s s' : ptr_seq) : Prop :=
  sq_maximum s' = Nat.max (sq_maximum s) n ∧ sq_length s' = sq_maximum s'
  ∧ (∀ i p, sq_buffer s !! i = Some p → sq_buffer s' !! i = Some p)
  ∧ (∀ i, sq_maximum s ≤ i → i < sq_maximum s' → sq_buffer s' !! i = Some Null).

Lemma grown_lookup n s s' i p :
  grown n s s' → sq_buffer s' !! i = Some p → sq_buffer s !! i = Some p ∨ p = Null.
Proof.
  intros (Hmax & _ & Hold & Hnew) Hi. destruct (decide (i < sq_maximum s)) as [Hlt|Hge].
  - destruct (lookup_lt_is_Some_2 (sq_buffer s) i Hlt) as [q Hq].
    rewrite (Hold _ _ Hq) in Hi. injection Hi as ->. by left.
  - right. rewrite Hnew in Hi; [by injection Hi | lia |].
    unfold sq_maximum. by eapply lookup_lt_Some.
Qed.

Lemma ensure_length_wp {E} (R : E → W → Prop) `{!SeqLaws SA} s n w Q :
  sq_length s = sq_maximum s →
  (∀ s' w', w_next w' = w_next w → w_heap w' = w_heap w → grown n s s' → Q (Some s') w') →
  (∀ w', w_next w' = w_next w → w_heap w' = w_heap w →
     (answer (w_ext w) (QSeqEnsureLength (Nat.max (sq_maximum s) n) (Nat.max (sq_maximum s) n))).1 = 0%Z →
     Q None w') →
  wp (seq_ensure_length RTI_TSFM_DDS_DynamicDataPtr_initialize_w_params
        RTI_TSFM_DDS_DynamicDataPtr_copy s (Nat.max (sq_maximum s) n) (Nat.max (sq_maximum s) n)) Q R w.
Proof.
  intros Hlen HQ H0. unfold seq_ensure_length. wp_run.
  destruct (Z.eqb_spec r 0) as [->|Hr]; [apply H0; [done | done | by rewrite Hans]|].
  apply HQ; [done | done |]. unfold grown, sq_maximum. case_decide as Hd; cbn [sq_buffer sq_length].
  - unfold sq_maximum in *. split_and!; [lia | lia | done | intros i ? ?; lia].
  - assert (sq_maximum s < Nat.max (sq_maximum s) n) as Hlt by (unfold sq_maximum; lia).
    fold (sq_maximum s). rewrite !(seq_grow_length _ _ _ _ Hlt).
    split_and!; [done | done | |].
    + intros i p Hp. rewrite (seq_grow_old RTI_TSFM_DDS_DynamicDataPtr_initialize_w_params
        RTI_TSFM_DDS_DynamicDataPtr_copy s _ i p Hlt); [done | | done].
      rewrite Hlen. unfold sq_maximum. by eapply lookup_lt_Some.
    + intros i Hi Hi'. apply (seq_grow_new RTI_TSFM_DDS_DynamicDataPtr_initialize_w_params
        RTI_TSFM_DDS_DynamicDataPtr_copy s _ i Hlt); [lia | done].
Qed.

(** Replacing the read buffer by a grown one, or only the loan flag. *)
Lemma tmem_set la s loaned w w' s' loaned' n :
  tmem la s loaned w → s' = s ∨ grown n s s' → w_next w' = w_next w →
  w_heap w' = <[tl_self la := OTransformation (Transformation (Ptr (tl_config la))
       (Ptr (tl_plugin la)) (Ptr (tl_tsupport la)) s' loaned' (tl_lock la) (tl_fields la))]> (w_heap w) →
  tmem la s' loaned' w'.
Proof.
  intros Hm Hs Hn Hh. destruct la. tmem_open Hm.
  constructor; cbn [tl_self tl_config tl_cfg tl_plugin tl_plug tl_user tl_delete_plugin
    tl_tsupport tl_repr tl_lock tl_fields]; rewrite ?Hh; try (by heap_lookup).
  - intros k Hk. rewrite Hh. rewrite Hn in Hk. heap_lookup. by apply Hwf.
  - assert (∀ i p, sq_buffer s' !! i = Some p → sq_buffer s !! i = Some p ∨ p = Null) as Hlk.
    { destruct Hs as [->|Hg]; [by left|]. intros i p. by apply (grown_lookup n). }
    destruct Hbuf as [Hlen Hd Hi Hj]. constructor.
    + destruct Hs as [->|Hg]; [done | apply Hg].
    + intros i l Hi'. destruct (Hlk _ _ Hi') as [Hi2|?]; [|done]. rewrite Hh.
      destruct (Hd _ _ Hi2) as [d Hd2]. exists d. rewrite lookup_insert_ne; [done|]. congruence.
    + intros i Hi'. destruct (Hlk _ _ Hi') as [Hi2|?]; [by eapply Hi | done].
    + intros i j l Hi' Hj'. destruct (Hlk _ _ Hi') as [Hi2|?]; [|done].
      destruct (Hlk _ _ Hj') as [Hj2|?]; [by eapply Hj | done].
Qed.

Lemma input_ok_grown n la loaned s s' w w' pi v d :
  tmem la s loaned w → s' = s ∨ grown n s s' →
  (∃ o, w_heap w' = <[tl_self la := OTransformation o]> (w_heap w)) →
  input_ok s w pi v d → input_ok s' w' pi v d.
Proof.
  intros Hm Hs [o Hh] [(iq & Hq & Hi) Hd]. pose proof (tm_self _ _ _ _ Hm) as Hself. split.
  - exists iq. split; [done|]. rewrite Hh, lookup_insert_ne; [done | congruence].
  - destruct d as [d|]; [|done]. destruct Hd as (ip & Hp & Hl & Hni). exists ip.
    split; [done|]. split; [rewrite Hh, lookup_insert_ne; [done | congruence]|].
    intros [j Hj]%list_elem_of_lookup. apply Hni. apply list_elem_of_lookup. exists j.
    destruct Hs as [->|Hg]; [done|]. by destruct (grown_lookup _ _ _ _ _ Hg Hj).
Qed.

Lemma grown_elem n s s' :
  grown n s s' → ∀ l, Ptr l ∈ sq_buffer s' ↔ Ptr l ∈ sq_buffer s.
Proof.
  intros Hg l. rewrite !list_elem_of_lookup. split; intros [i Hi]; exists i.
  - by destruct (grown_lookup _ _ _ _ _ Hg Hi).
  - by apply Hg.
Qed.

Lemma transform_wp `{!SeqLaws SA} {E} (R : E → W → Prop) la s w ins args :
  tmem la s false w → ins ≠ [] →
  Forall2 (λ pi vd, input_ok s w pi vd.1 vd.2) ins args →
  wp (RTI_TSFM_Transformation_transform (Ptr (tl_self la)) ins)
     (λ r w', match r with
        | (rc, Some (outs, infos, n)) =>
            rc = DDS_RETCODE_OK ∧ infos = ins.*2 ∧ n = valid_count args
            ∧ ∃ s1 s', grown (length ins) s s1 ∧ tmem la s' true w' ∧ outs = sq_buffer s'
              ∧ sq_maximum s' = sq_maximum s1 ∧ slots_converted la 0 args s1 s' w'
              ∧ footprint la s s' w w'
        | (rc, None) =>
            rc = DDS_RETCODE_ERROR
            ∧ (∃ s', tmem la s' false w' ∧ footprint la s s' w w')
            ∧ ((∃ x n, (answer x (QSeqEnsureLength n n)).1 = 0%Z)
               ∨ ∃ k pi d, ins !! k = Some pi ∧ args !! k = Some (true, d)
                   ∧ iteration_fails la pi.1 d)
        end) R w.
Proof.
  intros Hm Hne Hins. unfold RTI_TSFM_Transformation_transform. do 2 wp_step.
  eapply wp_load_transformation; [apply Hm|]. cbn [tf_read_buffer_loaned tf_read_buffer].
  do 3 wp_step. eapply ensure_length_wp; [apply _ | apply Hm | |].
  2: { intros w1 Hn1 Hh1 Ha. wp_run. split; [done|]. split; [|left; by eexists _, _].
       exists s. split; [eapply tmem_same; [done | lia | done]|].
       eapply footprint_heap; [done | done | done |]. intros l _ _. by rewrite Hh1. }
  intros s1 w1 Hn1 Hh1 Hg. pose proof (tm_self _ _ _ _ Hm) as Hself.
  unfold update_transformation. do 2 wp_step. eapply wp_load_transformation; [by rewrite Hh1|].
  eapply wp_store; [by rewrite Hh1|].
  match goal with |- wp _ _ _ ?w' => set (w2 := w') end.
  assert (w_heap w2 = <[tl_self la := OTransformation (Transformation (Ptr (tl_config la))
       (Ptr (tl_plugin la)) (Ptr (tl_tsupport la)) s1 false (tl_lock la) (tl_fields la))]> (w_heap w))
    as Hh2 by (unfold w2; wsimpl; by rewrite Hh1).
  assert (footprint la s s1 w w2) as Hfp2.
  { eapply footprint_heap; [done | by apply (grown_elem (length ins)) | done |].
    intros l Hl _. by rewrite Hh2, lookup_insert_ne. }
  pose proof (heap_wf_lt _ _ _ (tm_wf _ _ _ _ Hm) Hself) as Hlt.
  assert (tmem la s1 false w2) as Hm2 by (eapply tmem_set; [exact Hm | by right | by unfold w2 | done]).
  assert (0 < length ins) as Hpos by (destruct ins; [done | cbn; lia]).
  do 2 wp_step; [destruct Hg; lia|]. wp_step.
  eapply wp_mono; [eapply (transform_samples_wp la false ins args s1); [done | | ]| |].
  - destruct Hg as (Hmax & -> & _). lia.
  - eapply Forall2_impl; [exact Hins|]. intros pi vd. cbn beta.
    eapply input_ok_grown; [done | by right | by eexists].
  - intros n w3 (-> & s' & Hm3 & Hle & Hfp & Hconv). do 2 wp_step.
    eapply wp_load_transformation; [apply Hm3|]. eapply wp_store; [apply Hm3|].
    cbn [set_tf_loaned tf_config tf_plugin tf_tsupport tf_read_buffer tf_lock tf_fields].
    match goal with |- wp _ _ _ ?w' => set (w4 := w') end.
    assert (tmem la s' true w4) as Hm4
      by (eapply (tmem_set _ _ _ _ _ _ _ 0); [exact Hm3 | by left | done | done]).
    wp_step. eapply wp_load_transformation; [apply Hm4|]. wp_run.
    split_and!; [done | done | done |]. exists s1, s'.
    split_and!; [done | done | done | apply Hle | |].
    2: { eapply footprint_trans; [done | exact Hfp2 |].
         eapply footprint_trans; [unfold w2; wsimpl; lia | exact Hfp |].
         eapply footprint_heap; [done | done | done |]. intros l Hl _. unfold w4. wsimpl.
         by rewrite lookup_insert_ne. }
    intros k v d Hk. specialize (Hconv k v d Hk). destruct v; [|done].
    destruct Hconv as (l & d_in & d_old & d' & ? & ? & ? & Hl). exists l, d_in, d_old, d'.
    split_and!; [done | done | done |]. unfold w4. wsimpl. rewrite lookup_insert_ne; [done|].
    intros <-. by rewrite (tm_self _ _ _ _ Hm3) in Hl.
  - intros [] w3 ((s' & Hm3 & Hfp) & k & pi & d & ? & ? & ?). wp_run. split; [done|].
    split; [|right; by exists k, pi, d].
    exists s'. split; [done|]. by eapply footprint_trans.
Qed.

(** C6: transforming a batch.  Each valid sample is converted into the
    output slot of its own position, with the converter the configuration
    selects; the slots are reused from call to call and grow on demand; the
    count is the number of valid samples.  It fails only when the library
    gives no memory, a sample is missing or the user's converter refuses it;
    then nothing is loaned and the transformation can be used again. *)
Theorem transform_spec `{!SeqLaws SA} la s w ins args :
  tmem la s false w → ins ≠ [] →
  Forall2 (λ pi vd, input_ok s w pi vd.1 vd.2) ins args →
  wp (RTI_TSFM_Transformation_transform (E := Empty_set) (Ptr (tl_self la)) ins)
     (λ r w', match r with
        | (rc, Some (outs, infos, n)) =>
            rc = DDS_RETCODE_OK ∧ infos = ins.*2 ∧ n = valid_count args
            ∧ ∃ s1 s', grown (length ins) s s1 ∧ tmem la s' true w' ∧ outs = sq_buffer s'
              ∧ sq_maximum s' = sq_maximum s1 ∧ slots_converted la 0 args s1 s' w'
              ∧ footprint la s s' w w'
        | (rc, None) =>
            rc = DDS_RETCODE_ERROR
            ∧ (∃ s', tmem la s' false w' ∧ footprint la s s' w w')
            ∧ ((∃ x n, (answer x (QSeqEnsureLength n n)).1 = 0%Z)
               ∨ ∃ k pi d, ins !! k = Some pi ∧ args !! k = Some (true, d)
                   ∧ iteration_fails la pi.1 d)
        end) no_jump w.
Proof. apply transform_wp. Qed.

Lemma transform_busy_eq {E} la s w ins :
  tmem la s true w →
  RTI_TSFM_Transformation_transform (E := E) (Ptr (tl_self la)) ins w
  = Ok (DDS_RETCODE_ERROR, None) w.
Proof.
  intros Hm. unfold RTI_TSFM_Transformation_transform, labelled, load_transformation, load, mbind, M_bind.
  rewrite (tm_self _ _ _ _ Hm). reflexivity.
Qed.

(** A loan excludes another: while the samples of a transform call are
    on loan, a second call fails and changes nothing, not even the trace of
    calls. *)
Theorem transform_busy la s w ins :
  tmem la s true w →
  RTI_TSFM_Transformation_transform (E := Empty_set) (Ptr (tl_self la)) ins w
  = Ok (DDS_RETCODE_ERROR, None) w.
Proof. apply transform_busy_eq. Qed.

(** Positions and count disagree when a batch mixes invalid and valid
    samples.  On a new transformation, an invalid sample followed by a valid
    one yields the count 1 and an output array whose first sample is NULL;
    the converted sample is behind it. *)
Theorem transform_misaligned `{!SeqLaws SA} la w i1 p1 i2 p2 d1 d2 :
  tmem la empty_seq false w →
  input_ok empty_seq w (p1, i1) false d1 → input_ok empty_seq w (p2, i2) true (Some d2) →
  (∀ d_out, convert la d2 d_out ≠ None) → generous →
  wp (RTI_TSFM_Transformation_transform (E := Empty_set) (Ptr (tl_self la)) [(p1, i1); (p2, i2)])
     (λ r w', ∃ outs l d_old d', r = (DDS_RETCODE_OK, Some (outs, [i1; i2], 1))
        ∧ outs !! 0 = Some Null
        ∧ outs !! 1 = Some (Ptr l) ∧ w_heap w' !! l = Some (OData d')
        ∧ convert la d2 d_old = Some d') no_jump w.
Proof.
  intros Hm Hi1 Hi2 Hconv Hgen.
  eapply wp_mono; [eapply (transform_wp no_jump la empty_seq w _ [(false, d1); (true, Some d2)])| |done];
    [done | done | apply Forall2_cons; split; [done|]; apply Forall2_cons; split; [done|]; by apply Forall2_nil |].
  intros [rc [[[outs infos] n]|]] w'.
  - intros (-> & -> & -> & s1 & s' & (Hmax & _ & _ & Hnull) & _ & -> & _ & Hslots & _).
    destruct (Hslots 1 true (Some d2) eq_refl) as (l & d_in & d_old & d' & [= <-] & Hl & Hc & Hh).
    exists (sq_buffer s'), l, d_old, d'. split_and!; try done.
    pose proof (Hslots 0 false d1 eq_refl) as H0. cbn in H0, Hmax. rewrite H0. apply Hnull; [apply Nat.le_0_l|]. rewrite Hmax. cbn. lia.
  - intros (_ & _ & [(x & n & Hx)|(k & pi & d & Hk & Ha & [->|[[x Hx]|(d_in & d_out & -> & Hc)]])]);
      exfalso.
    + by apply (Hgen x (QSeqEnsureLength n n)).
    + destruct k as [|[|k]]; discriminate Ha.
    + by apply (Hgen x QCreateData).
    + destruct k as [|[|k]]; try discriminate Ha. injection Ha as <-. by eapply Hconv.
Qed.

Lemma clear_samples_wp {E} (R : E → W → Prop) la s loaned k n w :
  tmem la s loaned w → k + n ≤ sq_length s →
  wp (clear_samples (drop k (sq_buffer s)) n)
     (λ _ w', tmem la s loaned w' ∧ footprint la s s w w'
        ∧ (∀ i l, sq_buffer s !! i = Some (Ptr l) → i < k → w_heap w' !! l = w_heap w !! l)
        ∧ ((∀ x, (answer x QClearMembers).1 = DDS_RETCODE_OK) →
           ∀ i l d, k ≤ i < k + n → sq_buffer s !! i = Some (Ptr l) →
             w_heap w !! l = Some (OData d) → w_heap w' !! l = Some (OData (clear d)))) R w.
Proof.
  revert k w. induction n as [|n IH]; intros k w Hm Hk; cbn [clear_samples].
  { wp_run. split; [done|]. split; [by eapply footprint_heap|]. split; [done|].
    intros _ i ? ?. lia. }
  pose proof (tm_buffer _ _ _ _ Hm) as [Hlen Hdata Hinit Hinj].
  pose proof (heap_wf_lt _ _ _ (tm_wf _ _ _ _ Hm) (tm_self _ _ _ _ Hm)) as Hself.
  destruct (lookup_lt_is_Some_2 (sq_buffer s) k) as [p Hp]; [unfold sq_maximum in Hlen; lia|].
  rewrite (drop_S _ _ _ Hp). wp_step.
  assert (∀ w1, tmem la s loaned w1 → footprint la s s w w1 →
    (∀ i l, sq_buffer s !! i = Some (Ptr l) → i ≠ k → w_heap w1 !! l = w_heap w !! l) →
    ((∀ x, (answer x QClearMembers).1 = DDS_RETCODE_OK) → ∀ l d, p = Ptr l →
       w_heap w !! l = Some (OData d) → w_heap w1 !! l = Some (OData (clear d))) →
    wp (clear_samples (drop (S k) (sq_buffer s)) n)
      (λ _ w', tmem la s loaned w' ∧ footprint la s s w w'
        ∧ (∀ i l, sq_buffer s !! i = Some (Ptr l) → i < k → w_heap w' !! l = w_heap w !! l)
        ∧ ((∀ x, (answer x QClearMembers).1 = DDS_RETCODE_OK) →
           ∀ i l d, k ≤ i < k + S n → sq_buffer s !! i = Some (Ptr l) →
             w_heap w !! l = Some (OData d) → w_heap w' !! l = Some (OData (clear d)))) R w1) as Hrest.
  { intros w1 Hm1 Hfp1 Hsame Hclear. eapply wp_mono; [apply (IH (S k)); [done | lia]| |done].
    intros _ w' (Hm' & Hfp & Hlow & Hc). split; [done|].
    split; [by eapply footprint_trans|]. split.
    - intros i l Hi Hik. rewrite (Hlow _ _ Hi) by lia. apply (Hsame _ _ Hi). lia.
    - intros Hans i l d Hik Hi Hd. destruct (decide (i = k)) as [->|Hne].
      + rewrite (Hlow _ _ Hi) by lia. rewrite Hp in Hi. injection Hi as ->. by apply Hclear.
      + apply (Hc Hans i); [lia | done |]. by rewrite (Hsame _ _ Hi Hne). }
  unfold DDS_DynamicData_clear_all_members. destruct p as [|l|]; [| |by apply Hinit in Hp].
  - wp_run. apply Hrest; [done | by eapply footprint_heap | done | done].
  - destruct (Hdata _ _ Hp) as [d Hd]. t_run; apply Hrest.
    + by eapply (tmem_store _ _ _ w).
    + eapply footprint_heap; [done | done | done |]. intros l' _ Hni. wsimpl.
      rewrite lookup_insert_ne; [done|]. intros ->. apply Hni. by eapply list_elem_of_lookup_2.
    + intros i l' Hi Hne. wsimpl. rewrite lookup_insert_ne; [done|]. intros ->.
      apply Hne. by eapply Hinj.
    + intros _ l' d' [= <-] Hd'. wsimpl. rewrite lookup_insert_eq. congruence.
    + eapply tmem_same; [exact Hm | done | done].
    + by eapply footprint_heap.
    + done.
    + intros Hans'. specialize (Hans' (w_ext w)). by rewrite Hans in Hans'.
Qed.

Lemma return_loan_wp {E} (R : E → W → Prop) la s w count :
  tmem la s true w → count ≤ sq_length s →
  wp (RTI_TSFM_Transformation_return_loan (Ptr (tl_self la)) (sq_buffer s) count)
     (λ _ w', tmem la s false w' ∧ footprint la s s w w'
        ∧ ((∀ x, (answer x QClearMembers).1 = DDS_RETCODE_OK) →
           ∀ i l d, i < count → sq_buffer s !! i = Some (Ptr l) →
             w_heap w !! l = Some (OData d) → w_heap w' !! l = Some (OData (clear d)))) R w.
Proof.
  intros Hm Hc. unfold RTI_TSFM_Transformation_return_loan.
  pose proof (heap_wf_lt _ _ _ (tm_wf _ _ _ _ Hm) (tm_self _ _ _ _ Hm)) as Hself.
  wp_step. eapply wp_load_transformation; [apply Hm|]. wp_step.
  eapply wp_mono; [apply (clear_samples_wp R la s true 0 count); [done | lia]| |done].
  intros _ w1 (Hm1 & Hfp & _ & Hclear). unfold update_transformation.
  wp_step. eapply wp_load_transformation; [apply Hm1|]. eapply wp_store; [apply Hm1|]. split_and!.
  - eapply (tmem_set _ _ _ _ _ _ _ 0); [exact Hm1 | by left | done | done].
  - eapply footprint_trans; [done | exact Hfp |]. eapply footprint_heap; [done | done | done |].
    intros l Hl _. wsimpl. by rewrite lookup_insert_ne.
  - intros Hans i l d Hi Hl Hd. wsimpl. rewrite lookup_insert_ne.
    + eapply Hclear; [done | | done | done]. lia.
    + intros <-. rewrite (tm_self _ _ _ _ Hm) in Hd. done.
Qed.

(** C26: returning the loan of a transform call clears the first [count]
    samples of the read buffer, keeps the buffer and makes the
    transformation available again. *)
Theorem return_loan_spec la s w count :
  tmem la s true w → count ≤ sq_length s →
  wp (RTI_TSFM_Transformation_return_loan (E := Empty_set) (Ptr (tl_self la)) (sq_buffer s) count)
     (λ _ w', tmem la s false w' ∧ footprint la s s w w'
        ∧ ((∀ x, (answer x QClearMembers).1 = DDS_RETCODE_OK) →
           ∀ i l d, i < count → sq_buffer s !! i = Some (Ptr l) →
             w_heap w !! l = Some (OData d) → w_heap w' !! l = Some (OData (clear d))))
     no_jump w.
Proof. apply return_loan_wp. Qed.

(** A transformation with a type support, as the finalizer finds it: its
    configuration may have been deleted already. *)
Record live (self : nat) (t : RTI_TSFM_Transformation) (w : W) : Prop := {
  lv_wf : heap_wf w;
  lv_self : w_heap w !! self = Some (OTransformation t);
  lv_config : match tf_config t with
              | Ptr c => ∃ cfg, w_heap w !! c = Some (OTConfig cfg)
              | Null => True
              | Wild => False
              end;
  lv_tsupport : ∃ ts repr, tf_tsupport t = Ptr ts ∧ w_heap w !! ts = Some (OTSupport repr);
  lv_buffer : buffer_ok (tf_read_buffer t) w
}.

Lemma tmem_live la s loaned w :
  tmem la s loaned w → live (tl_self la) (Transformation (Ptr (tl_config la)) (Ptr (tl_plugin la))
    (Ptr (tl_tsupport la)) s loaned (tl_lock la) (tl_fields la)) w.
Proof.
  intros Hm. constructor; [apply Hm | apply Hm | | | apply Hm]; cbn.
  - eexists. apply Hm.
  - do 2 eexists. split; [done | apply Hm].
Qed.

Lemma live_drop self t w w' i l :
  live self t w → sq_buffer (tf_read_buffer t) !! i = Some (Ptr l) → w_next w' = w_next w →
  let s' := PtrSeq (sq_length (tf_read_buffer t)) (<[i := Null]> (sq_buffer (tf_read_buffer t))) in
  w_heap w' = <[self := OTransformation (set_tf_read_buffer s' t)]> (delete l (w_heap w)) →
  live self (set_tf_read_buffer s' t) w'.
Proof.
  intros [Hwf Hself Hcfg (ts & repr & Hts & Htsh) Hbuf] Hi Hn s' Hh.
  destruct (bo_data _ _ Hbuf _ _ Hi) as [d Hd]. pose proof (lookup_lt_Some _ _ _ Hi) as Hlt.
  bound_blocks. destruct t as [cfg pl tsp s ld lk fs].
  cbn [tf_config tf_tsupport tf_read_buffer set_tf_read_buffer] in *. subst tsp.
  constructor; rewrite ?Hh; cbn [tf_config tf_tsupport tf_read_buffer set_tf_read_buffer].
  - intros k Hk. rewrite Hh. rewrite Hn in Hk. heap_lookup. by apply Hwf.
  - by heap_lookup.
  - destruct cfg as [|c|]; [done | | done]. destruct Hcfg as [k Hk]. exists k.
    distinct_blocks. by heap_lookup.
  - exists ts, repr. split; [done|]. distinct_blocks. by heap_lookup.
  - destruct Hbuf as [Hlen Hdata Hini Hinj]. unfold s'.
    constructor; unfold sq_maximum; cbn [sq_length sq_buffer].
    + by rewrite length_insert.
    + intros j m. rewrite Hh. rewrite list_lookup_insert. case_decide as Hj; [done|].
      intros Hj'. destruct (Hdata _ _ Hj') as [d' Hd']. exists d'.
      rewrite lookup_insert_ne by congruence. rewrite lookup_delete_ne; [done|].
      intros <-. apply Hj. split; [by eapply Hinj | lia].
    + intros j. rewrite list_lookup_insert. case_decide; [done | apply Hini].
    + intros j k m. rewrite !list_lookup_insert. repeat case_decide; naive_solver.
Qed.

Lemma finalize_samples_wp {E} (R : E → W → Prop) self n i t w :
  live self t w → i + n = sq_length (tf_read_buffer t) →
  (∀ x, (answer x QDeleteData).1 = DDS_RETCODE_OK) →
  wp (finalize_samples (Ptr self) i n)
     (λ _ w', w_next w' = w_next w ∧ ∃ s', live self (set_tf_read_buffer s' t) w'
        ∧ (∀ l, l ≠ self → (∀ j, i ≤ j → sq_buffer (tf_read_buffer t) !! j ≠ Some (Ptr l)) →
             w_heap w' !! l = w_heap w !! l)
        ∧ (∀ j l, i ≤ j → sq_buffer (tf_read_buffer t) !! j = Some (Ptr l) → w_heap w' !! l = None))
     R w.
Proof.
  intros Hm Hin Hok. revert i t w Hm Hin. induction n as [|n IH]; intros i t w Hm Hin;
    cbn [finalize_samples]; pose proof (lv_buffer _ _ _ Hm) as [Hlen Hdata Hinit Hinj].
  { wp_run. split; [done|]. exists (tf_read_buffer t). split_and!; [by destruct t | done |].
    intros j l Hj Hl. apply lookup_lt_Some in Hl. unfold sq_maximum in Hlen. lia. }
  set (s := tf_read_buffer t) in *.
  destruct (lookup_lt_is_Some_2 (sq_buffer s) i) as [p Hp]; [unfold sq_maximum in Hlen; lia|].
  pose proof (lv_self _ _ _ Hm) as Hself. destruct (lv_tsupport _ _ _ Hm) as (ts & repr & Htsp & Hts).
  wp_step. eapply wp_load_transformation; [done|]. rewrite Htsp. fold s.
  wp_step. eapply wp_seq_get; [done|]. destruct p as [|l|]; [| |by apply Hinit in Hp].
  - wp_run. eapply wp_mono; [apply (IH (S i) t); [done | fold s; lia]| |done]. fold s.
    intros _ w' (Hn & s' & Hm' & Hs & Hf). split; [done|]. exists s'.
    split_and!; [done | |].
    + intros l Hl Hj. apply Hs; [done|]. intros j ?. apply Hj. lia.
    + intros j l Hij Hj. eapply Hf; [|done]. destruct (decide (j = i)) as [->|]; [congruence | lia].
  - destruct (Hdata _ _ Hp) as [d Hd]. assert (l ≠ self) as Hne by congruence.
    specialize (Hok (w_ext w)) as Hok'. unfold update_transformation.
    do 4 wp_step. eapply wp_load_tsupport; [done|]. t_run; [|by rewrite Hans in Hok'].
    eapply wp_seq_set; [done|]. t_run.
    set (s1 := PtrSeq (sq_length s) (<[i := Null]> (sq_buffer s))).
    match goal with |- wp _ _ _ ?w' => set (w1 := w') end.
    assert (live self (set_tf_read_buffer s1 t) w1) as Hm1 by by eapply live_drop.
    eapply wp_mono; [apply (IH (S i) _ _ Hm1); cbn; lia| |done].
    intros _ w' (Hn & s' & Hm' & Hs & Hf). split; [done|]. exists s'.
    cbn [set_tf_read_buffer tf_read_buffer] in Hs, Hf.
    assert (∀ j p, j ≠ i → sq_buffer s1 !! j = Some p ↔ sq_buffer s !! j = Some p) as Hother.
    { intros j p Hj. unfold s1. cbn. by rewrite list_lookup_insert_ne. }
    split_and!; [done | |].
    + intros m Hm0 Hj. rewrite Hs; [|done|].
      * unfold w1. wsimpl. rewrite lookup_insert_ne, lookup_delete_ne; [done| |done].
        intros <-. by apply (Hj i).
      * intros j Hij. destruct (decide (j = i)) as [->|Hji]; [lia|].
        intros Hbad. apply (Hother _ _ Hji) in Hbad. apply (Hj j); [lia | done].
    + intros j m Hij Hj. destruct (decide (j = i)) as [->|Hji].
      * rewrite Hp in Hj. injection Hj as <-. rewrite Hs; [|done|].
        -- unfold w1. wsimpl. by rewrite lookup_insert_ne, lookup_delete_eq.
        -- intros j Hij' Hbad. apply (Hother j) in Hbad; [|lia].
           pose proof (Hinj _ _ _ Hbad Hp). lia.
      * eapply (Hf j); [lia | by apply Hother].
Qed.

(** Finalization frees the configuration, the type support and the samples. *)
Lemma transformation_finalize_wp {E} (R : E → W → Prop) self t w Q :
  live self t w → (∀ x, (answer x QDeleteData).1 = DDS_RETCODE_OK) →
  (∀ rc s' w', w_next w' = w_next w →
     w_heap w' !! self = Some (OTransformation (Transformation Null (tf_plugin t) Null s'
       (tf_read_buffer_loaned t) (tf_lock t) (tf_fields t))) →
     (∀ l, l ≠ self → w_heap w' !! l =
        if decide (Ptr l = tf_config t ∨ Ptr l = tf_tsupport t ∨ Ptr l ∈ sq_buffer (tf_read_buffer t))
        then None else w_heap w !! l) → Q rc w') →
  wp (RTI_TSFM_Transformation_finalize (Ptr self)) Q R w.
Proof.
  intros Hm Hok HQ. unfold RTI_TSFM_Transformation_finalize.
  wp_step. eapply wp_load_transformation; [apply Hm|].
  wp_step. eapply wp_mono; [by apply (finalize_samples_wp R self _ 0 t)| |done].
  intros _ w1 (Hn1 & s1 & Hm1 & Hkeep & Hgone).
  assert (∀ l, l ≠ self → w_heap w1 !! l =
    if decide (Ptr l ∈ sq_buffer (tf_read_buffer t)) then None else w_heap w !! l) as Hh1.
  { intros l Hl. case_decide as Hin.
    - apply list_elem_of_lookup in Hin as [j Hj]. eapply Hgone; [|done]. lia.
    - apply Hkeep; [done|]. intros j _ Hj. apply Hin. by eapply list_elem_of_lookup_2. }
  clear Hkeep Hgone Hm. destruct t as [cfg pl tsp s ld lk fs].
  destruct Hm1 as [Hwf Hself Hcfg (ts & repr & Hts & Htsh) _].
  unfold set_tf_read_buffer in Hself.
  cbn [set_tf_read_buffer tf_config tf_plugin tf_tsupport tf_read_buffer tf_read_buffer_loaned
       tf_lock tf_fields] in *. subst tsp.
  assert (∀ rc s2 w2, w_next w2 = w_next w → w_heap w2 = <[self := OTransformation
      (Transformation Null pl Null s2 ld lk fs)]> (delete ts (delete_ptr cfg (w_heap w1))) →
      Q rc w2) as Hfin.
  { intros rc s2 w2 Hn2 Hh2. apply (HQ rc s2 w2); [done | by rewrite Hh2; heap_lookup |].
    intros l Hl. rewrite Hh2, lookup_insert_ne, lookup_delete, lookup_delete_ptr, Hh1 by done.
    repeat case_decide; naive_solver. }
  clear HQ.
  unfold seq_set_length, update_transformation, RTI_TSFM_TransformationConfig_delete,
    RTI_TSFM_Mutex_finalize, set_tf_config, set_tf_tsupport, set_tf_read_buffer.
  destruct cfg as [|c|]; [| |done]; try destruct Hcfg as [k Hk]; distinct_blocks;
    t_run; try case_decide; t_run; destruct use_mutex; t_run;
    (eapply Hfin; [done|]); cbn [delete_ptr]; heap_eq.
Qed.

(** C25: finalizing a transformation gives back everything it owns: its
    configuration, its type support and every sample of its read buffer, and
    nothing else; the struct is left without dangling pointers. *)
Theorem transformation_finalize_spec la s loaned w :
  tmem la s loaned w → (∀ x, (answer x QDeleteData).1 = DDS_RETCODE_OK) →
  wp (RTI_TSFM_Transformation_finalize (E := Empty_set) (Ptr (tl_self la)))
     (λ _ w', (∃ s', w_heap w' !! tl_self la = Some (OTransformation
          (Transformation Null (Ptr (tl_plugin la)) Null s' loaned (tl_lock la) (tl_fields la))))
        ∧ ∀ l, l ≠ tl_self la → w_heap w' !! l =
            if decide (l = tl_config la ∨ l = tl_tsupport la ∨ Ptr l ∈ sq_buffer s) then None
            else w_heap w !! l) no_jump w.
Proof.
  intros Hm Hok. eapply transformation_finalize_wp; [by apply tmem_live | done |].
  intros rc s' w' _ Hself Hh. split; [by exists s'|]. intros l Hl. rewrite Hh by done.
  cbn. repeat case_decide; naive_solver.
Qed.

(** Finalizing a transformation that never had a type support. *)
Lemma finalize_fresh_wp {E} (R : E → W → Prop) self cfg pl ld lk st w Q :
  w_heap w !! self = Some (OTransformation (Transformation cfg pl Null empty_seq ld lk st)) →
  match cfg with Null => True | Ptr c => ∃ k, w_heap w !! c = Some (OTConfig k) | Wild => False end →
  (∀ rc w', w_next w' = w_next w →
     w_heap w' = <[self := OTransformation (Transformation Null pl Null empty_seq ld lk st)]>
                   (match cfg with Ptr c => delete c (w_heap w) | _ => w_heap w end) → Q rc w') →
  wp (RTI_TSFM_Transformation_finalize (Ptr self)) Q R w.
Proof.
  intros Hself Hcfg HQ. unfold RTI_TSFM_Transformation_finalize, seq_set_length,
    update_transformation, RTI_TSFM_TransformationConfig_delete,
    RTI_TSFM_Mutex_finalize, set_tf_config, set_tf_tsupport, set_tf_read_buffer.
  t_run. cbn [finalize_samples sq_length empty_seq].
  destruct cfg as [|c|]; [| |done].
  - t_run; try case_decide; t_run; destruct use_mutex; t_run; apply HQ; try done; heap_eq.
  - destruct Hcfg as [k Hk]. assert (c ≠ self) by congruence.
    t_run; try case_decide; t_run; destruct use_mutex; t_run; apply HQ; try done; heap_eq.
Qed.

Lemma create_type_support_wp {E} (R : E → W → Prop) c cfg out ti w :
  heap_wf w → w_heap w !! c = Some (OTConfig cfg) → cfg_output_type cfg = Some out →
  wp (RTI_TSFM_Transformation_create_type_support (Ptr c) ti)
     (λ rt w', heap_wf w' ∧ ∃ cfg', cfg_type cfg' = cfg_type cfg ∧
        ((rt = (DDS_RETCODE_OK, Ptr (w_next w)) ∧ w_next w' = S (w_next w)
           ∧ (out = "" ∨ out = ti_type_name ti)
           ∧ cfg_output_type cfg' = Some (ti_type_name ti)
           ∧ w_heap w' = <[w_next w := OTSupport (ti_type_representation ti)]>
                           (<[c := OTConfig cfg']> (w_heap w)))
        ∨ (rt = (DDS_RETCODE_ERROR, Null) ∧ w_next w' = w_next w
           ∧ (generous → out ≠ "" ∧ out ≠ ti_type_name ti)
           ∧ w_heap w' = <[c := OTConfig cfg']> (w_heap w)))) R w.
Proof.
  intros Hwf Hc Hout. pose proof (heap_wf_lt _ _ _ Hwf Hc) as Hlt.
  unfold RTI_TSFM_Transformation_create_type_support, string_of, update_tconfig, DDS_String_replace.
  wp_step. eapply wp_load_tconfig; [done|]. rewrite Hout. do 4 wp_step.
  assert (String.length out = 0 ↔ out = "") as Hempty by (destruct out; cbn; split; congruence).
  case_bool_decide as Hb.
  - apply Hempty in Hb as ->. wp_step. wp_step. t_run; cbn [is_none set_cfg_output] in *; try done.
    all: (split; [heap_wf_tac|]); wsimpl; eexists; (split; [|first
      [ right; split; [done|]; split; [done|]; split; [not_generous | done]
      | left; split; [done|]; split; [done|]; split; [by left|]; split; [|reflexivity]; done ]]); done.
  - assert (out ≠ "") as Hne by (by intros ->; apply Hb).
    t_run.
    + split; [done|]. exists cfg. split; [done|]. right. split; [done|]. split; [done|].
      rewrite insert_id by done. split; [|done]. done.
    + split; [done|]. exists cfg. split; [done|]. right. split; [done|]. split; [done|].
      split; [not_generous|]. by rewrite insert_id.
    + split; [heap_wf_tac|]. exists cfg. split; [done|]. left. split; [done|]. split; [done|].
      split; [by right|]. split; [by rewrite Hout, H|]. wsimpl. by rewrite (insert_id _ c).
Qed.

(** The mutex after its initialization, where there is one. *)
Definition new_lock (t0 : RTI_TSFM_Transformation) : bool :=
  if use_mutex then false else tf_lock t0.

(** The memory after a successful and after a failed initialization: the struct
    [self], the configuration (the caller's, or a parsed one) and the type
    support; nothing else. *)
Definition initialize_post (w : W) (self : nat) (t0 : RTI_TSFM_Transformation) (plugin : ptr)
    (oti : type_info) (ps : properties) (rc : Z) (w' : W) : Prop :=
  heap_wf w' ∧ w_next w ≤ w_next w'
  ∧ ((rc = DDS_RETCODE_OK ∧ ∃ c cfg ts,
        w_heap w' = <[self := OTransformation
            (Transformation (Ptr c) plugin (Ptr ts) empty_seq false (new_lock t0) (tf_fields t0))]>
          (<[ts := OTSupport (ti_type_representation oti)]> (<[c := OTConfig cfg]> (w_heap w)))
        ∧ cfg_output_type cfg = Some (ti_type_name oti)
        ∧ w_next w ≤ ts ∧ ts ≠ c ∧ c ≠ self
        ∧ match tf_config t0 with
          | Ptr c0 => c = c0
          | _ => w_next w ≤ c ∧ ∃ cfg0, parsed_config ps = Some cfg0
                   ∧ cfg_type cfg = cfg_type cfg0
          end)
     ∨ (rc = DDS_RETCODE_ERROR ∧ ∃ t1,
          tf_config t1 = tf_config t0 ∧ tf_fields t1 = tf_fields t0
          ∧ match tf_config t0 with
            | Ptr c0 => ∃ cfg, w_heap w' =
                <[self := OTransformation t1]> (<[c0 := OTConfig cfg]> (w_heap w))
            | _ => w_heap w' = <[self := OTransformation t1]> (w_heap w)
                ∨ ∃ k c, w_next w ≤ k ∧ incomplete c ∧ w_heap w' =
                    <[self := OTransformation t1]> (<[k := OTConfig c]> (w_heap w))
            end)).

Lemma initialize_error_wp {E} (R : E → W → Prop) self cfg pl lk st config_initd lock_initd w Q :
  w_heap w !! self = Some (OTransformation (Transformation cfg pl Null empty_seq false lk st)) →
  match cfg with Null => True | Ptr c => ∃ k, w_heap w !! c = Some (OTConfig k) | Wild => False end →
  (config_initd = true → negb use_mutex || lock_initd = true) →
  (∀ w', w_next w' = w_next w →
     w_heap w' = <[self := OTransformation (Transformation (if config_initd then Null else cfg)
                                             pl Null empty_seq false lk st)]>
                   (match cfg with
                    | Ptr c => if config_initd then delete c (w_heap w) else w_heap w
                    | _ => w_heap w
                    end) → Q DDS_RETCODE_ERROR w') →
  wp (initialize_error (Ptr self) config_initd lock_initd) Q R w.
Proof.
  intros Hself Hcfg Hlock HQ. unfold initialize_error, update_transformation, set_tf_config.
  destruct (negb use_mutex || lock_initd).
  2: { destruct config_initd; [by discriminate Hlock|]. t_run. apply HQ; [done|].
       destruct cfg; [| |done]; cbn; by rewrite insert_id. }
  destruct cfg as [|c|]; [| |done].
  - t_run.
    eapply finalize_fresh_wp; [heap_lookup | done |]. intros rc w1 Hn1 Hh1. wp_run.
    eapply wp_load_transformation; [rewrite Hh1; heap_lookup|].
    eapply wp_store; [rewrite Hh1; heap_lookup|]. wp_run. apply HQ; [done|].
    wsimpl. rewrite Hh1, insert_insert_eq. by destruct config_initd.
  - destruct Hcfg as [k Hk]. assert (c ≠ self) by congruence.
    destruct config_initd; t_run.
    + eapply finalize_fresh_wp; [heap_lookup | by exists k |]. intros rc w1 Hn1 Hh1. wp_run.
      eapply wp_load_transformation; [rewrite Hh1; heap_lookup|].
      eapply wp_store; [rewrite Hh1; heap_lookup|]. wp_run. apply HQ; [done|].
      wsimpl. by rewrite Hh1, insert_insert_eq.
    + eapply finalize_fresh_wp; [heap_lookup | done |]. intros rc w1 Hn1 Hh1. wp_run.
      wsimpl. rewrite insert_insert_eq in Hh1.
      eapply wp_load_transformation; [rewrite Hh1; heap_lookup|].
      eapply wp_store; [rewrite Hh1; heap_lookup|]. wp_run. apply HQ; [done|].
      wsimpl. by rewrite Hh1, insert_insert_eq.
Qed.

(** The struct in the state of the initialization: its configuration is [cfg]. *)
Definition initializing (plugin : ptr) (lk : bool) (t0 : RTI_TSFM_Transformation) (cfg : ptr)
    : RTI_TSFM_Transformation :=
  Transformation cfg plugin Null empty_seq false lk (tf_fields t0).

Definition config_given (w : W) (t0 : RTI_TSFM_Transformation) : Prop :=
  match tf_config t0 with
  | Ptr c => ∃ cfg out, w_heap w !! c = Some (OTConfig cfg) ∧ cfg_output_type cfg = Some out
  | Null => True
  | Wild => False
  end.

(** The label, before this call parsed a configuration. *)
Lemma initialize_error_early {E} (R : E → W → Prop) w self t0 plugin oti ps lk lock_initd w2 :
  heap_wf w2 → w_next w ≤ w_next w2 → config_given w t0 →
  w_heap w !! self = Some (OTransformation t0) →
  w_heap w2 = <[self := OTransformation (initializing plugin lk t0 (tf_config t0))]> (w_heap w)
  ∨ tf_config t0 = Null ∧ (∃ k c, w_next w ≤ k ∧ self ≠ k ∧ incomplete c ∧ w_heap w2 =
      <[self := OTransformation (initializing plugin lk t0 Null)]>
        (<[k := OTConfig c]> (w_heap w))) →
  wp (initialize_error (Ptr self) false lock_initd) (initialize_post w self t0 plugin oti ps) R w2.
Proof.
  intros Hwf2 Hn2 Hgiven Hself Hh2.
  assert (w_heap w2 !! self = Some (OTransformation (initializing plugin lk t0 (tf_config t0)))) as Hself2.
  { destruct Hh2 as [->|(-> & k & c & _ & _ & _ & ->)]; heap_lookup. }
  unfold config_given in Hgiven.
  eapply initialize_error_wp; [exact Hself2 | | done |].
  { destruct Hh2 as [->|(-> & _)]; [|done]. destruct (tf_config t0) as [|c0|]; [done | | done].
    destruct Hgiven as (cfg & out & Hc & _). exists cfg. rewrite lookup_insert_ne; [done | congruence]. }
  intros w' Hn' Hh'. assert (w_heap w' = w_heap w2) as Hsame.
  { rewrite Hh'. cbn iota. destruct (tf_config t0); by apply insert_id. }
  split; [intros l Hl; rewrite Hsame; apply Hwf2; lia|]. split; [lia|]. right. split; [done|].
  exists (initializing plugin lk t0 (tf_config t0)). split; [done|]. split; [done|].
  rewrite Hsame. destruct Hh2 as [Hh2|(-> & k & c & ? & _ & ? & Hh2)]; [|right; by exists k, c].
  destruct (tf_config t0) as [|c0|]; [by left | | done].
  destruct Hgiven as (cfg & out & Hc & _). exists cfg. by rewrite (insert_id _ c0).
Qed.

(** From the configuration to the end. *)
Lemma initialize_support_wp {E} (R : E → W → Prop) w self t0 plugin oti ps lk c cfg out config_initd w2 :
  heap_wf w → heap_wf w2 → w_next w ≤ w_next w2 → self < w_next w → self ≠ c →
  w_heap w2 = <[self := OTransformation (initializing plugin lk t0 (Ptr c))]>
                (<[c := OTConfig cfg]> (w_heap w)) →
  cfg_output_type cfg = Some out →
  (config_initd = false → tf_config t0 = Ptr c) →
  (config_initd = true → tf_config t0 = Null ∧ w_next w ≤ c ∧ parsed_config ps = Some cfg) →
  lk = new_lock t0 →
  wp (t ← load_transformation (Ptr self);
      rt ← RTI_TSFM_Transformation_create_type_support (tf_config t) oti;
      update_transformation (Ptr self) (set_tf_tsupport rt.2);;
      when (negb (rt.1 =? DDS_RETCODE_OK)%Z) (goto (config_initd, use_mutex));;
      mret DDS_RETCODE_OK)
     (initialize_post w self t0 plugin oti ps)
     (λ e w', wp (initialize_error (E := E) (Ptr self) e.1 e.2)
                (initialize_post w self t0 plugin oti ps) R w') w2.
Proof.
  intros Hwf Hwf2 Hn2 Hlt Hne Hh2 Hout Hgiven Hparsed ->.
  assert (w_heap w2 !! self = Some (OTransformation (initializing plugin (new_lock t0) t0 (Ptr c)))) as Hself2
    by (rewrite Hh2; heap_lookup).
  assert (w_heap w2 !! c = Some (OTConfig cfg)) as Hc2 by (rewrite Hh2; heap_lookup).
  pose proof (heap_wf_lt _ _ _ Hwf2 Hc2) as Hltc.
  wp_step. eapply wp_load_transformation; [done|]. cbn [initializing tf_config].
  wp_step. eapply wp_mono; [by eapply create_type_support_wp| |by intros ? ? HJ; exact HJ].
  intros rt [n3 h3 x3 t3]; wsimpl; intros (Hwf3 & cfg' & Htype & Hcase). unfold update_transformation.
  destruct Hcase as [(-> & -> & _ & Hout' & ->)|(-> & -> & _ & ->)]; cbn [fst snd].
  - t_run. split; [heap_wf_tac|]. split; [wsimpl; lia|].
    left. split; [done|]. exists c, cfg', (w_next w2). wsimpl. split.
    { rewrite Hh2. unfold set_tf_tsupport, initializing. heap_eq. }
    split; [done|]. split; [done|]. split; [lia|]. split; [congruence|]. destruct config_initd.
    + destruct (Hparsed eq_refl) as (-> & ? & Hp). split; [done|]. by exists cfg.
    + by rewrite Hgiven.
  - t_run. eapply initialize_error_wp; [heap_lookup | | by destruct config_initd, use_mutex |].
    { cbn. eexists. heap_lookup. }
    intros w' Hn' Hh'. wsimpl. unfold set_tf_tsupport in Hh'.
    cbn [initializing tf_config tf_plugin tf_tsupport tf_read_buffer tf_read_buffer_loaned
         tf_lock tf_fields] in Hh'.
    assert (heap_wf w') as Hwf'.
    { intros l Hl. rewrite Hn' in Hl. rewrite Hh'. destruct config_initd;
        rewrite ?lookup_insert_ne, ?lookup_delete_ne by lia; heap_lookup; apply Hwf2; lia. }
    split; [done|]. split; [lia|]. right. split; [done|].
    eexists (initializing plugin (new_lock t0) t0 (if config_initd then Null else Ptr c)). destruct config_initd.
    + destruct (Hparsed eq_refl) as (-> & Hge & _). split; [done|]. split; [done|]. left.
      rewrite Hh', Hh2. heap_eq.
    + rewrite Hgiven by done. split; [done|]. split; [done|]. exists cfg'.
      rewrite Hh', Hh2. heap_eq.
Qed.

Lemma parsed_config_output ps cfg :
  parsed_config ps = Some cfg → ∃ out, cfg_output_type cfg = Some out.
Proof.
  unfold parsed_config, mbind, option_bind.
  destruct (lookup_property ps RTI_TSFM_PROPERTY_TRANSFORMATION_TYPE) as [v|];
    [destruct (RTI_TSFM_TransformationKind_from_string v) as [? [k|]] |];
    intros [= <-]; by eexists.
Qed.

Lemma initialize_config_wp {E} (R : E → W → Prop) w self t0 plugin oti ps lk w2 :
  heap_wf w → w_heap w !! self = Some (OTransformation t0) → config_given w t0 →
  w_next w2 = w_next w → lk = new_lock t0 →
  w_heap w2 = <[self := OTransformation (initializing plugin lk t0 (tf_config t0))]> (w_heap w) →
  wp (t ← load_transformation (Ptr self);
      b ← is_null (tf_config t);
      config_initd ←
        (if b : bool then
           rc ← RTI_TSFM_TransformationConfig_parse_from_properties_alloc ps (tf_config t);
           when (negb (rc.1 =? DDS_RETCODE_OK)%Z) (goto (false, use_mutex));;
           update_transformation (Ptr self) (set_tf_config rc.2);;
           mret true
         else mret false);
      t ← load_transformation (Ptr self);
      rt ← RTI_TSFM_Transformation_create_type_support (tf_config t) oti;
      update_transformation (Ptr self) (set_tf_tsupport rt.2);;
      when (negb (rt.1 =? DDS_RETCODE_OK)%Z) (goto (config_initd, use_mutex));;
      mret DDS_RETCODE_OK)
     (initialize_post w self t0 plugin oti ps)
     (λ e w', wp (initialize_error (E := E) (Ptr self) e.1 e.2)
              (initialize_post w self t0 plugin oti ps) R w') w2.
Proof.
  intros Hwf Hself Hgiven Hn2 Hlk Hh2. pose proof (heap_wf_lt _ _ _ Hwf Hself) as Hlt.
  assert (heap_wf w2) as Hwf2.
  { intros l Hl. rewrite Hn2 in Hl. rewrite Hh2, lookup_insert_ne by lia. by apply Hwf. }
  wp_step. eapply wp_load_transformation; [rewrite Hh2; heap_lookup|]. cbn [initializing tf_config].
  pose proof Hgiven as Hcfg. unfold config_given in Hcfg.
  destruct (tf_config t0) as [|c0|] eqn:Hc0; [| |done].
  - do 4 wp_step. eapply wp_mono; [apply config_parse_wp; done| |by intros ? ? HJ; exact HJ].
    intros rc [n3 h3 x3 t3]; unfold config_post; wsimpl.
    intros (Hwf3 & Hn3 & [(cfg & Hp & -> & ->)|(-> & _ & Hh3)]); cbn [fst snd].
    + destruct (parsed_config_output _ _ Hp) as [out Hout].
      assert (w_next w2 < n3) by (eapply (heap_wf_lt _ _ _ Hwf3); heap_lookup).
      unfold update_transformation at 1, set_tf_config. do 2 wp_step.
      do 2 wp_step. eapply wp_load_transformation; [heap_lookup; rewrite Hh2; heap_lookup|].
      eapply wp_store; [heap_lookup; rewrite Hh2; heap_lookup|]. wp_step.
      cbn [initializing tf_plugin tf_tsupport tf_read_buffer tf_read_buffer_loaned tf_lock tf_fields].
      eapply (initialize_support_wp R w self t0 plugin oti ps lk (w_next w2) cfg out true);
        try done; wsimpl; try lia.
      * intros k Hk. wsimpl. rewrite !lookup_insert_ne, Hh2, lookup_insert_ne by lia. apply Hwf. lia.
      * unfold initializing. rewrite Hh2. heap_eq.
      * intros _. split; [done|]. split; [lia | done].
    + cbn [Z.eqb DDS_RETCODE_ERROR DDS_RETCODE_OK negb]. do 3 wp_step.
      cbn [fst snd]. apply (initialize_error_early R w self t0 plugin oti ps lk); wsimpl;
        [done | lia | done | done |]. rewrite Hc0.
      destruct Hh3 as [->|(c & Hinc & ->)]; [by left|]. right. split; [done|].
      exists (w_next w2), c. split; [lia|]. split; [lia|]. split; [done|].
      rewrite Hh2, insert_insert_ne by lia. done.
  - destruct Hcfg as (cfg & out & Hc & Hout). assert (self ≠ c0) by congruence.
    do 4 wp_step.
    eapply (initialize_support_wp R w self t0 plugin oti ps lk c0 cfg out false);
      try done; try lia. by rewrite Hh2, (insert_id _ c0).
Qed.

Lemma transformation_initialize_wp {E} (R : E → W → Prop) w self t0 plugin iti oti ps :
  heap_wf w → w_heap w !! self = Some (OTransformation t0) → config_given w t0 →
  wp (RTI_TSFM_Transformation_initialize (Ptr self) plugin iti oti ps)
     (initialize_post w self t0 plugin oti ps) R w.
Proof.
  intros Hwf Hself Hcfg. unfold RTI_TSFM_Transformation_initialize.
  pose proof (heap_wf_lt _ _ _ Hwf Hself) as Hlt.
  assert (∀ w2 lk li, w_next w2 = w_next w →
    w_heap w2 = <[self := OTransformation (initializing plugin lk t0 (tf_config t0))]> (w_heap w) →
    wp (initialize_error (E := E) (Ptr self) false li)
     (initialize_post w self t0 plugin oti ps) R w2) as Herr.
  { intros w2 lk li Hn2 Hh2. eapply initialize_error_early; [ | lia | done | done | by left; exact Hh2].
    intros l Hl. rewrite Hn2 in Hl. rewrite Hh2, lookup_insert_ne by lia. by apply Hwf. }
  assert (∀ w2 lk, _ → _ → _ → _) as Hrest
    by (intros w2 lk; exact (initialize_config_wp R w self t0 plugin oti ps lk w2 Hwf Hself Hcfg)).
  wp_step. unfold update_transformation at 1. wp_step.
  eapply wp_load_transformation; [done|]. eapply wp_store; [done|].
  wp_step. wp_step. unfold new_lock in Hrest.
  destruct use_mutex; unfold RTI_TSFM_Mutex_initialize.
  - do 3 wp_step. destruct (Z.eqb_spec r 0) as [->|Hr]; cbn [fst snd].
    + do 4 wp_step. unfold update_transformation, set_tf_lock. wp_step.
      eapply wp_load_transformation; [heap_lookup|]. eapply wp_store; [heap_lookup|].
      do 4 wp_step; [wp_step; eapply (Herr _ false) | eapply (Hrest _ false)]; try done;
        wsimpl; apply insert_insert_eq.
    + do 2 wp_step; [|done]. wp_step. by eapply Herr.
  - do 2 wp_step. cbn [fst snd]. do 7 wp_step; [|by eapply Hrest]. wp_step. by eapply Herr.
Qed.

(** C24: initializing a transformation: with the caller's configuration or
    one parsed from the properties, whose output type is empty or that of
    the output stream, it gets a type support for the stream's type and an
    empty read buffer; on failure the caller's configuration is kept and
    what this call made is freed again, except a configuration whose strings
    could not be allocated. *)
Theorem transformation_initialize_spec w self t0 plugin iti oti ps :
  heap_wf w → w_heap w !! self = Some (OTransformation t0) → config_given w t0 →
  wp (RTI_TSFM_Transformation_initialize (E := Empty_set) (Ptr self) plugin iti oti ps)
     (initialize_post w self t0 plugin oti ps) no_jump w.
Proof. apply transformation_initialize_wp. Qed.

End theorems.
