(* ===== verification/TsfmPlugin.v ===== *)
(** The transformation plugin (TransformationPlugin.c) and the user plugin it
    holds (TransformationUserPlugin.c): initialization, finalization and the
    registry of its transformations. *)
From Stdlib Require Import ZArith Lia.
From stdpp Require Import base gmap strings list fin_maps.
From S2P Require Import Prelude KafkaTypes TsfmTypes TsfmConfig Transformation.

#[local] Open Scope string_scope.
#[local] Open Scope list_scope.
#[local] Open Scope nat_scope.

Section operations.
Context {D X : Type} `{!Env X tcall} {PA : PropertyApi} {SA : SeqApi} {MC : MutexConfig}.
#[local] Abbreviation W := (world (tobj D) X tcall).

(** ** The user plugin *)

Definition RTI_TSFM_UserTypePlugin_delete_default {E} (self : ptr) : M W E () :=
  b ← is_null self;
  if b : bool then free self else load_user_plugin self;; free self.

(** With the two callbacks of a static plugin, which are not NULL. *)
Definition RTI_TSFM_UserTypePlugin_create_static {E} : M W E ptr :=
  new (QMalloc "RTI_TSFM_UserTypePlugin") (OUserPlugin (UserTypePlugin true true true)).

(** Not implemented in the source: no plugin is ever loaded. *)
Definition RTI_TSFM_UserTypePlugin_create_dynamic {E} (plugin_lib plugin_create_fn : option string)
    : M W E ptr := mret Null.

(** ** Fields *)

Definition update_plugin {E} (p : ptr)
    (f : RTI_TSFM_TransformationPlugin → RTI_TSFM_TransformationPlugin) : M W E () :=
  t ← load_plugin p; store p (OPlugin (f t)).

Definition set_pl_transforms s p :=
  TransformationPlugin s (pl_config p) (pl_user_plugin p) (pl_lock p) (pl_vtable p) (pl_fields p).
Definition set_pl_config c p :=
  TransformationPlugin (pl_transforms p) c (pl_user_plugin p) (pl_lock p) (pl_vtable p) (pl_fields p).
Definition set_pl_user_plugin u p :=
  TransformationPlugin (pl_transforms p) (pl_config p) u (pl_lock p) (pl_vtable p) (pl_fields p).
Definition set_pl_lock b p :=
  TransformationPlugin (pl_transforms p) (pl_config p) (pl_user_plugin p) b (pl_vtable p) (pl_fields p).
Definition set_pl_vtable b p :=
  TransformationPlugin (pl_transforms p) (pl_config p) (pl_user_plugin p) (pl_lock p) b (pl_fields p).

(** ** Initialization and finalization *)

Definition RTI_TSFM_TransformationPlugin_finalize {E} (self : ptr) : M W E Z :=
  p ← load_plugin self;
  if bool_decide (0 < sq_length (pl_transforms p)) then mret DDS_RETCODE_ERROR
  else
    ok ← call QSeqFinalize;
    (if (ok =? 0)%Z then mret () else update_plugin self (set_pl_transforms empty_seq));;
    b ← is_null (pl_user_plugin p);
    (if b : bool then mret ()
     else
       u ← load_user_plugin (pl_user_plugin p);
       when (up_delete_plugin u)
         (RTI_TSFM_UserTypePlugin_delete_default (pl_user_plugin p);;
          update_plugin self (set_pl_user_plugin Null)));;
    p ← load_plugin self;
    b ← is_null (pl_config p);
    when (negb b)
      (RTI_TSFM_TransformationPluginConfig_delete (pl_config p);;
       update_plugin self (set_pl_config Null));;
    (if use_mutex then RTI_TSFM_Mutex_finalize else mret DDS_RETCODE_OK);;
    mret DDS_RETCODE_OK.

(** The label of RTI_TSFM_TransformationPlugin_initialize_static. *)
Definition initialize_static_error {E} (self : ptr) (parsed_config lock_initd : bool) : M W E Z :=
  (if negb use_mutex || lock_initd then
     p ← load_plugin self;
     b ← is_null (pl_config p);
     let config := if negb b && negb parsed_config then pl_config p else Null in
     when (negb b && negb parsed_config) (update_plugin self (set_pl_config Null));;
     RTI_TSFM_TransformationPlugin_finalize self;;
     update_plugin self (set_pl_config config)
   else mret ());;
  mret DDS_RETCODE_ERROR.

Definition RTI_TSFM_TransformationPlugin_initialize_static {E}
    (self user_plugin config : ptr) (ps : properties) : M W E Z :=
  update_plugin self (λ p, TransformationPlugin empty_seq config user_plugin (pl_lock p) false (pl_fields p));;
  labelled
    (lr ← (if use_mutex then RTI_TSFM_Mutex_initialize else mret (DDS_RETCODE_OK, false));
     when (negb (lr.1 =? DDS_RETCODE_OK)%Z) (goto (false, false));;
     when use_mutex (update_plugin self (set_pl_lock lr.2));;
     ok ← call QSeqInitialize;
     when (ok =? 0)%Z (goto (false, use_mutex));;
     p ← load_plugin self;
     b ← is_null (pl_config p);
     (if b : bool then
        rc ← RTI_TSFM_TransformationPluginConfig_parse_from_properties_alloc ps (pl_config p);
        when (negb (rc.1 =? DDS_RETCODE_OK)%Z) (goto (false, use_mutex));;
        update_plugin self (set_pl_config rc.2)
      else mret ());;
     mret DDS_RETCODE_OK)
    (λ e : bool * bool, initialize_static_error self e.1 e.2).

(** The entry point for plugins loaded at run time. *)
Definition RTI_TSFM_TransformationPlugin_initialize {E} (self : ptr) (ps : properties)
    : M W E Z :=
  p ← load_plugin self;
  parsed_config ← is_null (pl_config p);
  rc ← (if parsed_config : bool then
          RTI_TSFM_TransformationPluginConfig_parse_from_properties_alloc ps (pl_config p)
        else mret (DDS_RETCODE_OK, pl_config p));
  if negb (rc.1 =? DDS_RETCODE_OK)%Z then mret DDS_RETCODE_ERROR
  else
    update_plugin self (set_pl_config rc.2);;
    c ← load_pconfig rc.2;
    user_plugin ← RTI_TSFM_UserTypePlugin_create_dynamic (pc_dll c) (pc_create_fn c);
    b ← is_null user_plugin;
    r ← (if b : bool then mret DDS_RETCODE_ERROR
         else RTI_TSFM_TransformationPlugin_initialize_static self user_plugin rc.2 ps);
    if (r =? DDS_RETCODE_OK)%Z then mret DDS_RETCODE_OK
    else
      p ← load_plugin self;
      b ← is_null (pl_config p);
      when (negb b && parsed_config)
        (RTI_TSFM_TransformationPluginConfig_delete (pl_config p);;
         update_plugin self (set_pl_config Null));;
      mret DDS_RETCODE_ERROR.

(** ** The registry of transformations *)

Definition RTI_TSFM_TransformationPlugin_initialize_transformation {E} (self transform : ptr)
    : M W E Z :=
  p ← load_plugin self;
  let cur_transform_len := sq_length (pl_transforms p) in
  s ← seq_ensure_length RTI_TSFM_TransformationPtr_initialize_w_params
        RTI_TSFM_TransformationPtr_copy (pl_transforms p)
        (S cur_transform_len) (S cur_transform_len);
  match s with
  | None => mret DDS_RETCODE_ERROR
  | Some s =>
      s ← seq_set s cur_transform_len transform;
      update_plugin self (set_pl_transforms s);;
      mret DDS_RETCODE_OK
  end.

(** for (i = 0; i < seq_len && !do_rm; i++) ... *)
Fixpoint find_transform {E} (s : ptr_seq) (transform : ptr) (i n : nat) : M W E (option nat) :=
  match n with
  | 0 => mret None
  | S n =>
      p ← seq_get s i;
      if bool_decide (p = transform) then mret (Some i) else find_transform s transform (S i) n
  end.

(** for (i = rm_i; i < seq_len - 1; i++) ...: [n] iterations from [i] on. *)
Fixpoint shift_down {E} (s : ptr_seq) (i n : nat) : M W E ptr_seq :=
  match n with
  | 0 => mret s
  | S n => p ← seq_get s (S i); s ← seq_set s i p; shift_down s (S i) n
  end.

Definition RTI_TSFM_TransformationPlugin_finalize_transformation {E} (self transform : ptr)
    : M W E Z :=
  p ← load_plugin self;
  let seq_len := sq_length (pl_transforms p) in
  rm ← find_transform (pl_transforms p) transform 0 seq_len;
  match rm with
  | None => mret DDS_RETCODE_ERROR
  | Some rm_i =>
      s ← shift_down (pl_transforms p) rm_i (seq_len - 1 - rm_i);
      update_plugin self (set_pl_transforms s);;
      s' ← seq_set_length s (seq_len - 1);
      match s' with
      | None => mret DDS_RETCODE_ERROR
      | Some s' => update_plugin self (set_pl_transforms s');; mret DDS_RETCODE_OK
      end
  end.
End operations.

(** * The registry as a list *)

(** The transformations of a plugin. *)
Definition registered (s : ptr_seq) : list ptr := take (sq_length s) (sq_buffer s).

(** A sequence whose length is within its buffer. *)
Definition seq_ok (s : ptr_seq) : Prop := sq_length s ≤ sq_maximum s.

(** Removal of the first occurrence; [None] when there is none. *)
Fixpoint remove_first (p : ptr) (l : list ptr) : option (list ptr) :=
  match l with
  | [] => None
  | q :: l' => if bool_decide (q = p) then Some l' else cons q <$> remove_first p l'
  end.

Section theorems.
Context {D X : Type} `{!Env X tcall} {PA : PropertyApi} {SA : SeqApi} {MC : MutexConfig}.
#[local] Abbreviation W := (world (tobj D) X tcall).
Implicit Types (w : W) (s : ptr_seq) (p : RTI_TSFM_TransformationPlugin).

Lemma remove_first_spec t (l : list ptr) :
  match remove_first t l with
  | Some l' => ∃ i, l !! i = Some t ∧ (∀ j, j < i → l !! j ≠ Some t) ∧ l' = delete i l
  | None => t ∉ l
  end.
Proof.
  induction l as [|q l IH]; cbn; [apply not_elem_of_nil|].
  case_bool_decide as Hq.
  - exists 0. cbn. split; [by subst|]. split; [lia | done].
  - destruct (remove_first t l) as [l'|]; cbn.
    + destruct IH as (i & Hi & Hj & ->). exists (S i). cbn. split; [done|]. split; [|done].
      intros [|j] Hlt; cbn; [congruence | apply Hj; lia].
    + intros [->|Hin]%elem_of_cons; done.
Qed.

Lemma registered_lookup s i : i < sq_length s → registered s !! i = sq_buffer s !! i.
Proof. intros Hi. unfold registered. by apply lookup_take_lt. Qed.

(** The search returns the first index at which the transformation is. *)
Lemma find_transform_wp {E} (R : E → W → Prop) s t n i w Q :
  i + n ≤ sq_maximum s →
  (∀ k, i ≤ k < i + n → sq_buffer s !! k = Some t →
     (∀ j, i ≤ j < k → sq_buffer s !! j ≠ Some t) → Q (Some k) w) →
  ((∀ j, i ≤ j < i + n → sq_buffer s !! j ≠ Some t) → Q None w) →
  wp (find_transform s t i n) Q R w.
Proof.
  revert i. induction n as [|n IH]; intros i Hn Hfound Hnone; cbn [find_transform].
  { wp_step; apply Hnone. lia. }
  destruct (lookup_lt_is_Some_2 (sq_buffer s) i) as [q Hq]; [unfold sq_maximum in Hn; lia|].
  wp_step. eapply wp_seq_get; [done|]. case_bool_decide as Hqt.
  - wp_step; apply Hfound; [lia | congruence | lia].
  - apply IH; [lia | |].
    + intros k Hk Ht Hbefore. apply Hfound; [lia | done |]. intros j Hj.
      destruct (decide (j = i)) as [->|]; [congruence | apply Hbefore; lia].
    + intros Hall. apply Hnone. intros j Hj.
      destruct (decide (j = i)) as [->|]; [congruence | apply Hall; lia].
Qed.

(** The shift moves the elements after [i] down by one. *)
Lemma shift_down_wp {E} (R : E → W → Prop) n s i w Q :
  i + n < sq_maximum s →
  (∀ s', sq_length s' = sq_length s → sq_maximum s' = sq_maximum s →
     (∀ j, sq_buffer s' !! j = sq_buffer s !! (if decide (i ≤ j < i + n) then S j else j)) →
     Q s' w) →
  wp (shift_down s i n) Q R w.
Proof.
  revert s i. induction n as [|n IH]; intros s i Hn HQ; cbn [shift_down].
  { wp_step; apply HQ; [done..|]. intros j. by rewrite decide_False by lia. }
  destruct (lookup_lt_is_Some_2 (sq_buffer s) (S i)) as [q Hq]; [unfold sq_maximum in Hn; lia|].
  destruct (lookup_lt_is_Some_2 (sq_buffer s) i) as [q0 Hq0]; [unfold sq_maximum in Hn; lia|].
  wp_step. eapply wp_seq_get; [done|]. wp_step. eapply wp_seq_set; [done|].
  apply IH; unfold sq_maximum in *; cbn [sq_buffer sq_length]; rewrite length_insert; [lia|].
  intros s' Hl Hm Hs. apply HQ; [done..|]. intros j. rewrite Hs.
  destruct (decide (j = i)) as [->|Hji].
  - rewrite decide_False, decide_True by lia. by rewrite list_lookup_insert_eq by lia.
  - rewrite list_lookup_insert_ne by (case_decide; lia).
    f_equal. repeat case_decide; lia.
Qed.

(** The shifted prefix is the list without its element at [i]. *)
Lemma shifted_registered s s' i :
  seq_ok s → i < sq_length s → sq_maximum s' = sq_maximum s →
  (∀ j, sq_buffer s' !! j =
      sq_buffer s !! (if decide (i ≤ j < i + (sq_length s - 1 - i)) then S j else j)) →
  take (sq_length s - 1) (sq_buffer s') = delete i (registered s).
Proof.
  unfold seq_ok. intros Hok Hi Hm Hs. apply list_eq. intros j.
  destruct (decide (j < sq_length s - 1)) as [Hj|Hj].
  - rewrite lookup_take_lt by done. rewrite Hs.
    destruct (decide (j < i)).
    + rewrite decide_False by lia. rewrite list_lookup_delete_lt by done.
      by rewrite registered_lookup by lia.
    + rewrite decide_True by lia. rewrite list_lookup_delete_ge by lia.
      by rewrite registered_lookup by lia.
  - rewrite lookup_take_ge by lia. symmetry. apply lookup_ge_None_2.
    assert (length (registered s) = sq_length s) as Hlen.
    { unfold registered. rewrite length_take. unfold sq_maximum in Hok. lia. }
    rewrite length_delete by (by apply lookup_lt_is_Some_2; lia). lia.
Qed.

(** ** The registry *)

(** Growing the sequence by one and writing the new slot appends. *)
Lemma grown_registered `{!SeqLaws SA} s t ini :
  seq_ok s →
  let b := if decide (S (sq_length s) ≤ sq_maximum s) then sq_buffer s
           else seq_grow ini RTI_TSFM_TransformationPtr_copy s (S (sq_length s)) in
  (∃ q, b !! sq_length s = Some q)
  ∧ seq_ok (PtrSeq (S (sq_length s)) (<[sq_length s := t]> b))
  ∧ registered (PtrSeq (S (sq_length s)) (<[sq_length s := t]> b)) = registered s ++ [t].
Proof.
  intros Hok b. unfold seq_ok, sq_maximum in *. cbn [sq_buffer sq_length].
  assert (sq_length s < length b ∧ ∀ i, i < sq_length s → b !! i = sq_buffer s !! i)
    as [Hb Hold].
  { unfold b. case_decide as Hd; [split; [lia | done]|].
    rewrite seq_grow_length by (unfold sq_maximum; lia). split; [lia|]. intros i Hi.
    destruct (lookup_lt_is_Some_2 (sq_buffer s) i) as [q Hq]; [lia|]. rewrite Hq.
    erewrite seq_grow_old; [done | unfold sq_maximum; lia | done | done]. }
  split; [by apply lookup_lt_is_Some_2|]. split; [rewrite length_insert; lia|].
  unfold registered. cbn [sq_buffer sq_length].
  erewrite take_S_r by by apply list_lookup_insert_eq.
  f_equal. rewrite take_insert_ge by lia. apply list_eq. intros i.
  destruct (decide (i < sq_length s)).
  - rewrite !lookup_take_lt by done. by apply Hold.
  - by rewrite !lookup_take_ge by lia.
Qed.

Lemma initialize_transformation_wp `{!SeqLaws SA} {E} (R : E → W → Prop) self p t w Q :
  w_heap w !! self = Some (OPlugin p) → seq_ok (pl_transforms p) →
  (∀ s' w', registered s' = registered (pl_transforms p) ++ [t] → seq_ok s' →
     w_next w' = w_next w →
     w_heap w' = <[self := OPlugin (set_pl_transforms s' p)]> (w_heap w) →
     Q DDS_RETCODE_OK w') →
  (∀ w', (∃ x n, (answer x (QSeqEnsureLength n n)).1 = 0%Z) → w_next w' = w_next w →
     w_heap w' = w_heap w → Q DDS_RETCODE_ERROR w') →
  wp (RTI_TSFM_TransformationPlugin_initialize_transformation (Ptr self) t) Q R w.
Proof.
  intros Hself Hok HQ HE.
  unfold RTI_TSFM_TransformationPlugin_initialize_transformation, seq_ensure_length, update_plugin.
  t_run. { apply HE; [by eexists _, _; rewrite Hans | done | done]. }
  destruct (grown_registered (pl_transforms p) t RTI_TSFM_TransformationPtr_initialize_w_params Hok)
    as ([q Hq] & Hok' & Hreg).
  case_decide; (eapply wp_seq_set; [exact Hq|]); t_run;
    (eapply HQ; [exact Hreg | exact Hok' | done | done]).
Qed.

(** The registry without its element at [i], as the code leaves it: the last
    element stays behind when the sequence refuses its new length. *)
Lemma finalize_transformation_wp {E} (R : E → W → Prop) self p t w Q :
  w_heap w !! self = Some (OPlugin p) → seq_ok (pl_transforms p) →
  (∀ s' w' l', remove_first t (registered (pl_transforms p)) = Some l' →
     registered s' = l' → seq_ok s' → w_next w' = w_next w →
     w_heap w' = <[self := OPlugin (set_pl_transforms s' p)]> (w_heap w) →
     Q DDS_RETCODE_OK w') →
  (∀ w', remove_first t (registered (pl_transforms p)) = None →
     w_next w' = w_next w → w_heap w' = w_heap w → Q DDS_RETCODE_ERROR w') →
  (∀ s' w' l', (∃ x n, (answer x (QSeqSetLength n)).1 = 0%Z) → remove_first t (registered (pl_transforms p)) = Some l' →
     sq_length s' = sq_length (pl_transforms p) → seq_ok s' →
     take (sq_length (pl_transforms p) - 1) (sq_buffer s') = l' → w_next w' = w_next w →
     w_heap w' = <[self := OPlugin (set_pl_transforms s' p)]> (w_heap w) →
     Q DDS_RETCODE_ERROR w') →
  wp (RTI_TSFM_TransformationPlugin_finalize_transformation (Ptr self) t) Q R w.
Proof.
  intros Hself Hok HQ HN HE. set (s := pl_transforms p) in *.
  unfold RTI_TSFM_TransformationPlugin_finalize_transformation, update_plugin. t_run. fold s.
  pose proof (remove_first_spec t (registered s)) as Hrm.
  apply find_transform_wp; [done | |].
  - intros k Hk Ht Hbefore.
    destruct (remove_first t (registered s)) as [l'|] eqn:Hl'.
    2: { exfalso. apply Hrm, (list_elem_of_lookup_2 _ k). by rewrite registered_lookup by lia. }
    destruct Hrm as (i & Hi & Hfirst & Hdel).
    assert (i < sq_length s) as Hilt.
    { apply lookup_lt_Some in Hi. unfold registered in Hi. rewrite length_take in Hi. lia. }
    rewrite registered_lookup in Hi by done.
    assert (i = k) as ->.
    { destruct (lt_eq_lt_dec i k) as [[Hlt| ->]|Hlt]; [|done|].
      - by destruct (Hbefore i); [lia|].
      - destruct (Hfirst k); [done|]. by rewrite registered_lookup by lia. }
    wp_step. apply shift_down_wp; [unfold seq_ok in Hok; lia|]. intros s' Hls Hms Hs.
    assert (take (sq_length s - 1) (sq_buffer s') = l') as Hl.
    { rewrite Hdel. by apply shifted_registered. }
    unfold seq_set_length. unfold seq_ok in *. t_run.
    + eapply (HE s'); [by eexists _, _; rewrite Hans | done | done | unfold seq_ok; lia | done | done | done].
    + case_decide; [|exfalso; lia]. t_run.
      eapply (HQ (PtrSeq (sq_length s - 1) (sq_buffer s'))); [done | | | done |].
      * by unfold registered.
      * unfold seq_ok, sq_maximum in *. cbn. lia.
      * wsimpl. by rewrite insert_insert_eq.
  - intros Hnone. wp_step. apply HN; [|done | done].
    destruct (remove_first t (registered s)) as [l'|]; [|done].
    destruct Hrm as (i & Hi & _). exfalso.
    assert (i < sq_length s) as Hilt.
    { apply lookup_lt_Some in Hi. unfold registered in Hi. rewrite length_take in Hi. lia. }
    rewrite registered_lookup in Hi by done. by apply (Hnone i); [lia|].
Qed.


(** ** Life cycle *)

(** What a plugin struct owns besides its registry. *)
Definition plugin_owns p w : Prop :=
  match pl_user_plugin p with
  | Ptr u => w_heap w !! u = Some (OUserPlugin (UserTypePlugin true true true))
  | Null => True
  | Wild => False
  end
  ∧ match pl_config p with
    | Ptr c => ∃ cfg, w_heap w !! c = Some (OPConfig cfg)
    | Null => True
    | Wild => False
    end.

(** Finalization refuses a plugin that has transformations; otherwise it
    frees the user plugin and the configuration. *)
Lemma plugin_finalize_wp {E} (R : E → W → Prop) self p w Q :
  w_heap w !! self = Some (OPlugin p) → plugin_owns p w →
  (0 < sq_length (pl_transforms p) → Q DDS_RETCODE_ERROR w) →
  (∀ s' w', sq_length (pl_transforms p) = 0 → w_next w' = w_next w →
     w_heap w' = <[self := OPlugin (TransformationPlugin s' Null Null (pl_lock p) (pl_vtable p) (pl_fields p))]>
       (delete_ptr (pl_user_plugin p) (delete_ptr (pl_config p) (w_heap w))) →
     Q DDS_RETCODE_OK w') →
  wp (RTI_TSFM_TransformationPlugin_finalize (Ptr self)) Q R w.
Proof.
  intros Hself [Hu Hc] HE HQ. destruct p as [s c u lk vt fs].
  cbn [pl_transforms pl_config pl_user_plugin pl_lock pl_vtable pl_fields] in *.
  unfold RTI_TSFM_TransformationPlugin_finalize, RTI_TSFM_UserTypePlugin_delete_default,
    RTI_TSFM_TransformationPluginConfig_delete, update_plugin, set_pl_transforms,
    set_pl_user_plugin, set_pl_config, RTI_TSFM_Mutex_finalize, update_pconfig, set_pc_dll,
    set_pc_create_fn.
  t_run. case_bool_decide as Hlen; [t_run; by apply HE|].
  assert (sq_length s = 0) as H0 by lia.
  destruct u as [|u|]; [| |done]; (destruct c as [|c|]; [| |done]);
    try (destruct Hc as [cfg Hc]); distinct_blocks; t_run;
    destruct use_mutex; t_run; eapply HQ; try done; wsimpl; cbn [delete_ptr]; heap_eq; eassumption.
Qed.


(** What the configuration argument of the initializer may be. *)
Definition config_arg (config : ptr) w : Prop :=
  match config with
  | Ptr c => ∃ cfg, w_heap w !! c = Some (OPConfig cfg)
  | Null => True
  | Wild => False
  end.

(** The error label gives the caller its configuration back; the user plugin
    is freed, unless not even the mutex could be made. *)
Lemma initialize_static_error_wp {E} (R : E → W → Prop) self u config lk fs lock_initd w Q :
  w_heap w !! self = Some (OPlugin (TransformationPlugin empty_seq config (Ptr u) lk false fs)) →
  w_heap w !! u = Some (OUserPlugin (UserTypePlugin true true true)) → config_arg config w →
  (∀ s' w', w_next w' = w_next w →
     w_heap w' = (if negb use_mutex || lock_initd
       then <[self := OPlugin (TransformationPlugin s' config Null lk false fs)]> (delete u (w_heap w))
       else w_heap w) → Q DDS_RETCODE_ERROR w') →
  wp (initialize_static_error (Ptr self) false lock_initd) Q R w.
Proof.
  intros Hself Hu Hc HQ. unfold initialize_static_error, update_plugin, set_pl_config.
  destruct (negb use_mutex || lock_initd); [|t_run; by apply (HQ empty_seq)].
  destruct config as [|c|]; [| |done]; t_run.
  - eapply plugin_finalize_wp; [heap_lookup | split; cbn; [done | done] | cbn; lia |].
    intros s' w1 _ Hn Hh. cbn [delete_ptr pl_user_plugin pl_config pl_lock pl_vtable pl_fields] in Hh.
    wp_run. eapply wp_load_plugin; [rewrite Hh; heap_lookup|].
    eapply wp_store; [rewrite Hh; heap_lookup|]. wp_run. eapply HQ; [done|].
    wsimpl. by rewrite Hh, insert_insert_eq.
  - destruct Hc as [cfg Hc]. distinct_blocks.
    eapply plugin_finalize_wp; [heap_lookup | split; cbn; [heap_lookup | done] | cbn; lia |].
    intros s' w1 _ Hn Hh. cbn [delete_ptr pl_user_plugin pl_config pl_lock pl_vtable pl_fields] in Hh.
    wp_run. eapply wp_load_plugin; [rewrite Hh; heap_lookup|].
    eapply wp_store; [rewrite Hh; heap_lookup|]. wp_run. eapply HQ; [done|].
    wsimpl. rewrite Hh, insert_insert_eq. rewrite delete_insert_ne by done.
    by rewrite insert_insert_eq.
Qed.

(** What [RTI_TSFM_TransformationPlugin_initialize_static] leaves behind. *)
Definition initialize_static_post w (self u : nat) (config : ptr) (ps : properties)
    (fs : t_fields) (rc : Z) w' : Prop :=
  heap_wf w' ∧ w_next w ≤ w_next w' ∧
  ((rc = DDS_RETCODE_OK ∧ ∃ c lk,
      c = match config with Ptr c0 => c0 | _ => w_next w end
      ∧ w_heap w' =
          <[self := OPlugin (TransformationPlugin empty_seq (Ptr c) (Ptr u) lk false fs)]>
          (match config with
           | Ptr _ => w_heap w
           | _ => <[c := OPConfig (parsed_plugin_config ps)]> (w_heap w)
           end))
   ∨ (rc = DDS_RETCODE_ERROR ∧ ∃ s' lk,
        (use_mutex = true
           ∧ w_heap w' = <[self := OPlugin (TransformationPlugin s' config (Ptr u) lk false fs)]>
                           (w_heap w))
        ∨ w_heap w' = <[self := OPlugin (TransformationPlugin s' config Null lk false fs)]>
                        (delete u (w_heap w)))).

Lemma initialize_static_wp {E} (R : E → W → Prop) self u config ps p0 w :
  heap_wf w → w_heap w !! self = Some (OPlugin p0) →
  w_heap w !! u = Some (OUserPlugin (UserTypePlugin true true true)) → config_arg config w →
  wp (RTI_TSFM_TransformationPlugin_initialize_static (Ptr self) (Ptr u) config ps)
     (initialize_static_post w self u config ps (pl_fields p0)) R w.
Proof.
  intros Hwf Hself Hu Hc. pose proof (heap_wf_lt _ _ _ Hwf Hself) as Hlts.
  pose proof (heap_wf_lt _ _ _ Hwf Hu) as Hltu. assert (self ≠ u) as Hsu by congruence.
  assert (match config with Ptr c => c ≠ self ∧ c ≠ u ∧ c < w_next w | _ => True end) as Hcd.
  { destruct config as [|c|]; [done | | done]. destruct Hc as [cfg Hc].
    pose proof (heap_wf_lt _ _ _ Hwf Hc). split_and!; congruence. }
  assert (∀ lk lock_initd (w1 : W), w_next w ≤ w_next w1 →
    w_heap w1 = <[self := OPlugin (TransformationPlugin empty_seq config (Ptr u) lk false (pl_fields p0))]>
      (w_heap w) →
    wp (initialize_static_error (E := E) (Ptr self) false lock_initd)
       (initialize_static_post w self u config ps (pl_fields p0)) R w1) as Herr.
  { intros lk lock_initd w1 Hn1 Hh1.
    eapply initialize_static_error_wp; [rewrite Hh1; heap_lookup | rewrite Hh1; heap_lookup | |].
    { destruct config as [|c|]; [done | | done]. cbn. rewrite Hh1, lookup_insert_ne by naive_solver. done. }
    intros s' w' Hn' Hh'. assert (heap_wf w') as Hwf'.
    { intros k Hk. rewrite Hh', Hh1. case_match; heap_lookup; apply Hwf; lia. }
    split; [done|]. split; [lia|]. right. split; [done|].
    destruct use_mutex, lock_initd; cbn [negb orb] in Hh'; rewrite Hh1 in Hh';
      first [ exists empty_seq, lk; left; by split | exists s', lk; right; rewrite Hh' ];
      rewrite delete_insert_ne by done; by rewrite insert_insert_eq. }
  unfold RTI_TSFM_TransformationPlugin_initialize_static, update_plugin, set_pl_lock, set_pl_config.
  destruct config as [|c|]; [| |done];
    destruct use_mutex eqn:Hmx; unfold RTI_TSFM_Mutex_initialize; t_run;
    try (eapply Herr; [done | wsimpl; by rewrite ?insert_insert_eq]).
  3, 4: split; [heap_wf_tac|]; split; [done|]; left; split; [done|]; do 2 eexists;
    split; [reflexivity|]; wsimpl; by rewrite ?insert_insert_eq.
  all: (eapply wp_mono; [apply plugin_config_parse_wp; [heap_wf_tac | done] | | by intros ? ? HJ; exact HJ]).
  all: intros rc [n1 h1 x1 t1] (Hwf1 & Hn1 & [(-> & Hh1)|(-> & _ & Hh1)]); wsimpl; subst h1;
    cbn [fst snd Z.eqb DDS_RETCODE_OK DDS_RETCODE_ERROR negb]; t_run.
  2, 4: eapply Herr; [done | wsimpl; by rewrite ?insert_insert_eq].
  all: assert (w_next w < n1) by (eapply (heap_wf_lt _ _ _ Hwf1); heap_lookup).
  all: split; [heap_wf_tac|]; split; [done|]; left; split; [done|]; do 2 eexists;
    split; [reflexivity|]; heap_eq.
Qed.


(** ** Properties *)

(** C27: the registry behaves as a list: adding a transformation appends it,
    removing one takes its first occurrence out and keeps the order of the
    others, and removing an unknown one is refused without a change. *)
Theorem registry_refines_list `{!SeqLaws SA} self p t w :
  w_heap w !! self = Some (OPlugin p) → seq_ok (pl_transforms p) → generous (X := X) →
  let l := registered (pl_transforms p) in
  wp (RTI_TSFM_TransformationPlugin_initialize_transformation (E := Empty_set) (Ptr self) t)
    (λ rc w', rc = DDS_RETCODE_OK ∧ ∃ s', seq_ok s' ∧ registered s' = l ++ [t]
       ∧ w_heap w' = <[self := OPlugin (set_pl_transforms s' p)]> (w_heap w)) no_jump w
  ∧ wp (RTI_TSFM_TransformationPlugin_finalize_transformation (E := Empty_set) (Ptr self) t)
    (λ rc w', match remove_first t l with
       | None => rc = DDS_RETCODE_ERROR ∧ w_heap w' = w_heap w
       | Some l' => rc = DDS_RETCODE_OK ∧ ∃ s', seq_ok s' ∧ registered s' = l'
            ∧ w_heap w' = <[self := OPlugin (set_pl_transforms s' p)]> (w_heap w)
       end) no_jump w.
Proof.
  intros Hself Hok Hg l. split.
  - eapply initialize_transformation_wp; [done | done | |]; [|by intros ? (x & n & Hx); destruct (Hg x (QSeqEnsureLength n n))].
    intros s' w' Hr Hok' _ Hh. split; [done|]. by exists s'.
  - eapply finalize_transformation_wp; [done | done | | |].
    + intros s' w' l' Hl Hr Hok' _ Hh. unfold l. rewrite Hl. split; [done|]. by exists s'.
    + intros w' Hl _ Hh. unfold l. by rewrite Hl.
    + by intros ? ? ? (x & n & Hx); destruct (Hg x (QSeqSetLength n)).
Qed.

(** A plugin that loads its converters at run time cannot be initialized:
    whatever its properties, the call fails, and it leaves the memory as it
    was. *)
Theorem plugin_initialize_dynamic_fails self p ps w :
  heap_wf w → w_heap w !! self = Some (OPlugin p) → config_arg (pl_config p) w →
  wp (RTI_TSFM_TransformationPlugin_initialize (E := Empty_set) (Ptr self) ps)
    (λ rc w', rc = DDS_RETCODE_ERROR ∧ w_heap w' = w_heap w) no_jump w.
Proof.
  intros Hwf Hself Hc. pose proof (heap_wf_lt _ _ _ Hwf Hself) as Hlt.
  unfold RTI_TSFM_TransformationPlugin_initialize, RTI_TSFM_UserTypePlugin_create_dynamic,
    RTI_TSFM_TransformationPluginConfig_delete, update_plugin, update_pconfig, set_pc_dll,
    set_pc_create_fn, set_pl_config.
  t_run. destruct p as [s c u lk vt fs]; cbn [pl_config] in *.
  destruct c as [|c|]; [| |done].
  - t_run. eapply wp_mono; [by apply plugin_config_parse_wp | | by intros ? ? HJ; exact HJ].
    intros rc [n1 h1 x1 t1] (Hwf1 & Hn1 & [(-> & Hh1)|(-> & _ & Hh1)]); wsimpl; subst h1;
      cbn [fst snd Z.eqb DDS_RETCODE_OK DDS_RETCODE_ERROR negb andb]; t_run.
    + split; [done|]. heap_eq; by rewrite ?heap_wf_fresh.
    + by split.
  - destruct Hc as [cfg Hc]. distinct_blocks. t_run. split; [done|]. heap_eq.
Qed.


(** The life cycle of a static plugin.  A plugin that was initialized can
    be finalized, and that frees its user plugin and the configuration it
    parsed: only the struct itself is left.  An initialization that fails
    after the mutex was made has freed the caller's user plugin. *)
Theorem plugin_static_lifecycle self u ps p0 w :
  heap_wf w → w_heap w !! self = Some (OPlugin p0) →
  w_heap w !! u = Some (OUserPlugin (UserTypePlugin true true true)) →
  wp (rc ← RTI_TSFM_TransformationPlugin_initialize_static (E := Empty_set)
             (Ptr self) (Ptr u) Null ps;
      if (rc =? DDS_RETCODE_OK)%Z
      then rf ← RTI_TSFM_TransformationPlugin_finalize (Ptr self); mret (rc, rf)
      else mret (rc, rc))
    (λ r w', (∀ l, l ≠ self → l ≠ u → w_heap w' !! l = w_heap w !! l)
       ∧ (∃ p, w_heap w' !! self = Some (OPlugin p) ∧ pl_config p = Null)
       ∧ (r.1 = DDS_RETCODE_OK → r.2 = DDS_RETCODE_OK ∧ w_heap w' !! u = None)
       ∧ (r.1 ≠ DDS_RETCODE_OK → use_mutex = false → w_heap w' !! u = None)) no_jump w.
Proof.
  intros Hwf Hself Hu. assert (self ≠ u) as Hsu by congruence.
  pose proof (heap_wf_lt _ _ _ Hwf Hself) as Hlts. pose proof (heap_wf_lt _ _ _ Hwf Hu) as Hltu.
  wp_step. eapply wp_mono; [by eapply initialize_static_wp | | by intros ? ? HJ; exact HJ].
  intros rc w1 (Hwf1 & Hn1 & [(-> & c & lk & -> & Hh)|(-> & s & lk & [(Hmx & Hh)|Hh])]); t_run.
  - eapply plugin_finalize_wp; [rewrite Hh; heap_lookup | | cbn; lia |].
    { split; cbn; rewrite Hh; [heap_lookup | eexists; heap_lookup]. }
    intros s' w' _ Hn' Hh'. cbn [delete_ptr pl_user_plugin pl_config pl_lock pl_vtable pl_fields] in Hh'.
    wp_run. rewrite Hh', Hh. split_and!; [|by eexists; heap_lookup | |by intros []].
    + intros l Hl Hlu. rewrite lookup_insert_ne, lookup_delete_ne by done. rewrite lookup_delete.
      case_decide as Hc; [subst; symmetry; by apply heap_wf_fresh|]. by heap_lookup.
    + intros _. split; [done|]. heap_lookup.
  - rewrite Hh. split_and!; [|by eexists; heap_lookup | by intros [=] | congruence].
    intros l Hl Hlu. by heap_lookup.
  - rewrite Hh. split_and!; [|by eexists; heap_lookup | by intros [=] |].
    + intros l Hl Hlu. by heap_lookup.
    + intros _ _. heap_lookup.
Qed.

End theorems.

