(* ===== verification/TsfmTemplate.v ===== *)
(** The template that turns a user's types into a transformation plugin
    (TransformationTemplateDefine.h): the constructors and destructors of T and
    TPlugin, and the callbacks Routing Service calls.  The macros that select
    the parts of the template are the fields of [Template], the macro
    T_initialize is the class [TInitialize]; the hook TPlugin_initialize is not
    defined. *)
From Stdlib Require Import ZArith Lia.
From stdpp Require Import base gmap strings list fin_maps.
From S2P Require Import Prelude KafkaTypes TsfmTypes TsfmConfig Transformation TsfmPlugin.

#[local] Open Scope string_scope.
#[local] Open Scope list_scope.
#[local] Open Scope nat_scope.

(** Which of the macros T_static, TConfig, TState, TPluginConfig and
    TPluginState are defined, and the user's configuration types: their values
    after TConfig_new and after a successful TConfig_parse. *)
Class Template := {
  T_static : bool;
  has_TConfig : bool;
  has_TState : bool;
  has_TPluginConfig : bool;
  has_TPluginState : bool;
  TConfig_blank : RTI_TSFM_TransformationConfig;
  TConfig_parsed : properties → RTI_TSFM_TransformationConfig → RTI_TSFM_TransformationConfig;
  TPluginConfig_blank : RTI_TSFM_TransformationPluginConfig;
  TPluginConfig_parsed : properties → RTI_TSFM_TransformationPluginConfig →
    RTI_TSFM_TransformationPluginConfig
}.

(** The macro T_initialize: the initialization of the user's type. *)
Class TInitialize (D X : Type) `{!Env X tcall} :=
  T_initialize : ∀ E, ptr → ptr → type_info → type_info → properties →
    M (world (tobj D) X tcall) E Z.

(** Its value where the macro is not defined. *)
Definition base_initialize {D X : Type} `{!Env X tcall} {PA : PropertyApi} {MC : MutexConfig}
    : TInitialize D X :=
  λ E self plugin input_type_info output_type_info ps,
    RTI_TSFM_Transformation_initialize self plugin input_type_info output_type_info ps.

Section operations.
Context {D X : Type} `{!Env X tcall, !Codec D} {PA : PropertyApi} {SA : SeqApi}
  {MC : MutexConfig} {TP : Template} {TI : TInitialize D X}.
#[local] Abbreviation W := (world (tobj D) X tcall).

(** ** The functions of the user's types

    A configuration starts with the base configuration, so that one address
    serves as both. *)

Definition TConfig_new {E} : M W E ptr := new QTConfigNew (OTConfig TConfig_blank).

Definition TConfig_parse {E} (config : ptr) (ps : properties) : M W E Z :=
  c ← load_tconfig config;
  r ← call QTConfigParse;
  (if (r =? DDS_RETCODE_OK)%Z then store config (OTConfig (TConfig_parsed ps c)) else mret ());;
  mret r.

Definition TConfig_delete {E} (config : ptr) : M W E () :=
  load_tconfig config;; call QTConfigDelete;; free config.

Definition TPluginConfig_new {E} : M W E ptr := new QTPluginConfigNew (OPConfig TPluginConfig_blank).

Definition TPluginConfig_parse {E} (config : ptr) (ps : properties) : M W E Z :=
  c ← load_pconfig config;
  r ← call QTPluginConfigParse;
  (if (r =? DDS_RETCODE_OK)%Z then store config (OPConfig (TPluginConfig_parsed ps c))
   else mret ());;
  mret r.

Definition TPluginConfig_delete {E} (config : ptr) : M W E () :=
  load_pconfig config;; call QTPluginConfigDelete;; free config.

Definition load_state {E} (p : ptr) : M W E () :=
  o ← load p; match o with OTState => mret () | _ => fail BadCast end.

Definition TState_new {E} : M W E ptr := new QTStateNew OTState.
Definition TState_delete {E} (p : ptr) : M W E () := load_state p;; call QTStateDelete;; free p.
Definition TPluginState_new {E} : M W E ptr := new QTPluginStateNew OTState.
Definition TPluginState_delete {E} (p : ptr) : M W E () :=
  load_state p;; call QTPluginStateDelete;; free p.

Definition set_t_config (c : ptr) (t : RTI_TSFM_Transformation) : RTI_TSFM_Transformation :=
  Transformation (tf_config t) (tf_plugin t) (tf_tsupport t) (tf_read_buffer t)
    (tf_read_buffer_loaned t) (tf_lock t) (TFields c (t_state (tf_fields t))).
Definition set_t_state (s : ptr) (t : RTI_TSFM_Transformation) : RTI_TSFM_Transformation :=
  Transformation (tf_config t) (tf_plugin t) (tf_tsupport t) (tf_read_buffer t)
    (tf_read_buffer_loaned t) (tf_lock t) (TFields (t_config (tf_fields t)) s).
Definition set_tp_config (c : ptr) (p : RTI_TSFM_TransformationPlugin)
    : RTI_TSFM_TransformationPlugin :=
  TransformationPlugin (pl_transforms p) (pl_config p) (pl_user_plugin p) (pl_lock p)
    (pl_vtable p) (TFields c (t_state (pl_fields p))).
Definition set_tp_state (s : ptr) (p : RTI_TSFM_TransformationPlugin)
    : RTI_TSFM_TransformationPlugin :=
  TransformationPlugin (pl_transforms p) (pl_config p) (pl_user_plugin p) (pl_lock p)
    (pl_vtable p) (TFields (t_config (pl_fields p)) s).

(** The structs as malloc returns them.  The pointers are indeterminate; the
    other members are written before they are read. *)
Definition malloc_T : RTI_TSFM_Transformation :=
  Transformation Wild Wild Wild empty_seq false false (TFields Wild Wild).
Definition malloc_TPlugin : RTI_TSFM_TransformationPlugin :=
  TransformationPlugin empty_seq Wild Wild false false (TFields Wild Wild).

(** ** T *)

Definition T_delete {E} (self : ptr) : M W E () :=
  (if has_TConfig then
     t ← load_transformation self;
     b ← is_null (t_config (tf_fields t));
     when (negb b)
       (TConfig_delete (t_config (tf_fields t));;
        update_transformation self (set_t_config Null);;
        update_transformation self (set_tf_config Null))
   else mret ());;
  (if has_TState then
     t ← load_transformation self;
     b ← is_null (t_state (tf_fields t));
     when (negb b)
       (TState_delete (t_state (tf_fields t));; update_transformation self (set_t_state Null))
   else mret ());;
  RTI_TSFM_Transformation_finalize self;;
  free self.

(** The label of T_new; [parent_initd] is false wherever it is reached from. *)
Definition T_new_error {E} (self : ptr) : M W E (Z * ptr) :=
  (if has_TState then
     t ← load_transformation self;
     b ← is_null (t_state (tf_fields t));
     when (negb b) (TState_delete (t_state (tf_fields t)))
   else mret ());;
  (if has_TConfig then
     t ← load_transformation self;
     b ← is_null (t_config (tf_fields t));
     when (negb b) (TConfig_delete (t_config (tf_fields t)))
   else mret ());;
  free self;;
  mret (DDS_RETCODE_ERROR, Null).

(** Lines 463-468. *)
Definition T_new_state (self : ptr) : M W () () :=
  if has_TState then
    s ← TState_new;
    update_transformation self (set_t_state s);;
    b ← is_null s;
    when b (goto ())
  else mret ().

(** Lines 469-478. *)
Definition T_new_config (self : ptr) (ps : properties) : M W () () :=
  if has_TConfig then
    c ← TConfig_new;
    update_transformation self (set_t_config c);;
    b ← is_null c;
    when b (goto ());;
    r ← TConfig_parse c ps;
    when (negb (r =? DDS_RETCODE_OK)%Z) (goto ());;
    update_transformation self (set_tf_config c)
  else mret ().

(** The return code and *transform_out. *)
Definition T_new {E} (plugin : ptr) (input_type_info output_type_info : type_info)
    (ps : properties) : M W E (Z * ptr) :=
  self ← new (QMalloc "T") (OTransformation malloc_T);
  b ← is_null self;
  if b : bool then mret (DDS_RETCODE_ERROR, Null)
  else
    (if has_TConfig then update_transformation self (set_t_config Null) else mret ());;
    labelled
      (T_new_state self;;
       T_new_config self ps;;
       r ← T_initialize _ self plugin input_type_info output_type_info ps;
       when (negb (r =? DDS_RETCODE_OK)%Z) (goto ());;
       mret (DDS_RETCODE_OK, self))
      (λ _ : (), T_new_error self).

(** The callbacks; [Mutex_take] on the lock member of a struct. *)
Definition take_lock {E} (self : ptr) : M W E Z :=
  t ← load_transformation self;
  lr ← RTI_TSFM_Mutex_take (tf_lock t);
  update_transformation self (set_tf_lock lr.2);;
  mret lr.1.
Definition give_lock {E} (self : ptr) : M W E Z :=
  t ← load_transformation self;
  lr ← RTI_TSFM_Mutex_give (tf_lock t);
  update_transformation self (set_tf_lock lr.2);;
  mret lr.1.

(** The out parameters when the callback sets them. *)
Definition T_transform {E} (self : ptr) (ins : list (ptr * ptr))
    : M W E (option (list ptr * list ptr * nat)) :=
  r ← (if use_mutex then take_lock self else mret DDS_RETCODE_OK);
  if negb (r =? DDS_RETCODE_OK)%Z then mret None
  else
    res ← RTI_TSFM_Transformation_transform self ins;
    (if use_mutex then give_lock self else mret DDS_RETCODE_OK);;
    mret res.2.

Definition T_return_loan {E} (self : ptr) (sample_lst : list ptr) (count : nat) : M W E () :=
  r ← (if use_mutex then take_lock self else mret DDS_RETCODE_OK);
  if negb (r =? DDS_RETCODE_OK)%Z then mret ()
  else
    RTI_TSFM_Transformation_return_loan self sample_lst count;;
    (if use_mutex then give_lock self else mret DDS_RETCODE_OK);;
    mret ().

(** The second call of RTI_TSFM_Mutex_take is the source's. *)
Definition T_update {E} (self : ptr) (ps : properties) : M W E () :=
  r ← (if use_mutex then take_lock self else mret DDS_RETCODE_OK);
  if negb (r =? DDS_RETCODE_OK)%Z then mret ()
  else
    RTI_TSFM_Transformation_update self ps;;
    (if use_mutex then take_lock self else mret DDS_RETCODE_OK);;
    mret ().

(** ** TPlugin *)

Definition take_plugin_lock {E} (self : ptr) : M W E Z :=
  p ← load_plugin self;
  lr ← RTI_TSFM_Mutex_take (pl_lock p);
  update_plugin self (set_pl_lock lr.2);;
  mret lr.1.
Definition give_plugin_lock {E} (self : ptr) : M W E Z :=
  p ← load_plugin self;
  lr ← RTI_TSFM_Mutex_give (pl_lock p);
  update_plugin self (set_pl_lock lr.2);;
  mret lr.1.

Definition TPlugin_delete {E} (self : ptr) : M W E () :=
  load_plugin self;;
  (if has_TPluginState then
     p ← load_plugin self;
     b ← is_null (t_state (pl_fields p));
     when (negb b)
       (TPluginState_delete (t_state (pl_fields p));; update_plugin self (set_tp_state Null))
   else mret ());;
  (if has_TPluginConfig then
     p ← load_plugin self;
     b ← is_null (t_config (pl_fields p));
     when (negb b)
       (TPluginConfig_delete (t_config (pl_fields p));;
        update_plugin self (set_tp_config Null);;
        update_plugin self (set_pl_config Null))
   else mret ());;
  RTI_TSFM_TransformationPlugin_finalize self;;
  free self.

(** The label of TPlugin_new, with the variable user_plugin. *)
Definition TPlugin_new_error {E} (self user_plugin : ptr) : M W E (Z * ptr) :=
  (if has_TPluginState then
     p ← load_plugin self;
     b ← is_null (t_state (pl_fields p));
     when (negb b) (TPluginState_delete (t_state (pl_fields p)))
   else mret ());;
  (if has_TPluginConfig then
     p ← load_plugin self;
     b ← is_null (t_config (pl_fields p));
     when (negb b) (TPluginConfig_delete (t_config (pl_fields p)))
   else mret ());;
  (if T_static then
     b ← is_null user_plugin;
     when (negb b) (RTI_TSFM_UserTypePlugin_delete_default user_plugin)
   else mret ());;
  free self;;
  mret (DDS_RETCODE_ERROR, Null).

(** Lines 176-192; the jumps carry the variable user_plugin. *)
Definition TPlugin_new_members (self : ptr) (ps : properties) : M W ptr () :=
  (if has_TPluginState then
     s ← TPluginState_new;
     update_plugin self (set_tp_state s);;
     b ← is_null s;
     when b (goto Null)
   else mret ());;
  (if has_TPluginConfig then
     c ← TPluginConfig_new;
     update_plugin self (set_tp_config c);;
     b ← is_null c;
     when b (goto Null);;
     r ← TPluginConfig_parse c ps;
     when (negb (r =? DDS_RETCODE_OK)%Z) (goto Null);;
     update_plugin self (set_pl_config c)
   else mret ()).

(** Lines 198-226. *)
Definition TPlugin_new_parent (self : ptr) (ps : properties) : M W ptr () :=
  if T_static then
    user_plugin ← RTI_TSFM_UserTypePlugin_create_static;
    b ← is_null user_plugin;
    when b (goto Null);;
    r ← RTI_TSFM_TransformationPlugin_initialize_static self user_plugin Null ps;
    when (negb (r =? DDS_RETCODE_OK)%Z) (goto user_plugin)
  else
    r ← RTI_TSFM_TransformationPlugin_initialize self ps;
    when (negb (r =? DDS_RETCODE_OK)%Z) (goto Null).

(** The return code and *plugin_out. *)
Definition TPlugin_new {E} (ps : properties) : M W E (Z * ptr) :=
  self ← new (QMalloc "TPlugin") (OPlugin malloc_TPlugin);
  b ← is_null self;
  if b : bool then mret (DDS_RETCODE_ERROR, Null)
  else
    (if has_TPluginConfig then update_plugin self (set_tp_config Null) else mret ());;
    labelled
      (TPlugin_new_members self ps;;
       TPlugin_new_parent self ps;;
       update_plugin self (set_pl_vtable true);;
       mret (DDS_RETCODE_OK, self))
      (λ user_plugin, TPlugin_new_error self user_plugin).

(** NULL, or the address of the parent struct, which is that of the plugin. *)
Definition TPlugin_create {E} (ps : properties) : M W E ptr :=
  r ← TPlugin_new ps;
  mret (if (r.1 =? DDS_RETCODE_OK)%Z then r.2 else Null).

Definition TPlugin_create_transformation {E} (self : ptr)
    (input_type_info output_type_info : type_info) (ps : properties) : M W E ptr :=
  r ← (if use_mutex then take_plugin_lock self else mret DDS_RETCODE_OK);
  if negb (r =? DDS_RETCODE_OK)%Z then mret Null
  else
    rt ← T_new self input_type_info output_type_info ps;
    transform_out ←
      (if (rt.1 =? DDS_RETCODE_OK)%Z then
         r ← RTI_TSFM_TransformationPlugin_initialize_transformation self rt.2;
         if (r =? DDS_RETCODE_OK)%Z then mret rt.2
         else T_delete rt.2;; mret Null
       else
         b ← is_null rt.2;
         when (negb b) (T_delete rt.2);;
         mret Null);
    (if use_mutex then give_plugin_lock self else mret DDS_RETCODE_OK);;
    mret transform_out.

Definition TPlugin_delete_transformation {E} (self transform : ptr) : M W E () :=
  r ← (if use_mutex then take_plugin_lock self else mret DDS_RETCODE_OK);
  if negb (r =? DDS_RETCODE_OK)%Z then mret ()
  else
    r ← RTI_TSFM_TransformationPlugin_finalize_transformation self transform;
    (if (r =? DDS_RETCODE_OK)%Z then T_delete transform else mret ());;
    (if use_mutex then give_plugin_lock self else mret DDS_RETCODE_OK);;
    mret ().
End operations.
(** * Specifications *)

(** What the template asks of the initialization: the contract of the base
    class's. *)
Class InitializeLaw {D X : Type} `{!Env X tcall} {PA : PropertyApi} {MC : MutexConfig}
    (TI : TInitialize D X) :=
  initialize_law : ∀ E (R : E → world (tobj D) X tcall → Prop) w self t0 plugin iti oti ps,
    heap_wf w → w_heap w !! self = Some (OTransformation t0) → config_given w t0 →
    wp (T_initialize E (Ptr self) plugin iti oti ps) (initialize_post w self t0 plugin oti ps) R w.

#[export] Instance base_initialize_law {D X : Type} `{!Env X tcall} {PA : PropertyApi}
    {MC : MutexConfig} : InitializeLaw (base_initialize (D := D) (X := X)).
Proof. intros E R w self t0 plugin iti oti ps. apply transformation_initialize_wp. Qed.

Section theorems.
Context {D X : Type} `{!Env X tcall, !Codec D} {PA : PropertyApi} {SA : SeqApi}
  {MC : MutexConfig} {TP : Template} {TI : TInitialize D X} {TL : InitializeLaw TI}.
#[local] Abbreviation W := (world (tobj D) X tcall).
Implicit Types (w : W) (t : RTI_TSFM_Transformation).

(** ** Memory *)

(** The state member, where the template has one. *)
Definition state_ok t w : Prop :=
  has_TState = true →
  match t_state (tf_fields t) with
  | Ptr s => w_heap w !! s = Some OTState
  | Null => True
  | Wild => False
  end.

(** The configuration member. *)
Definition t_config_ok t w : Prop :=
  match t_config (tf_fields t) with
  | Ptr c => ∃ cfg, w_heap w !! c = Some (OTConfig cfg)
  | Null => True
  | Wild => False
  end.

(** The state block of [t]. *)
Definition state_ptr t : ptr := if has_TState then t_state (tf_fields t) else Null.

Lemma state_ptr_ok t w :
  state_ok t w →
  match state_ptr t with Ptr s => w_heap w !! s = Some OTState | Null => True | Wild => False end.
Proof. unfold state_ok, state_ptr. destruct has_TState; [|done]. intros H. by apply H. Qed.

(** A transformation stays alive when a block of another kind than its type
    support and samples goes, if its configuration member does not name it. *)
Lemma live_delete self t t' l o w w' :
  live self t w → w_heap w !! l = Some o → o = OTState ∨ (∃ cfg, o = OTConfig cfg) →
  w_next w' = w_next w → w_heap w' = <[self := OTransformation t']> (delete l (w_heap w)) →
  tf_tsupport t' = tf_tsupport t → tf_read_buffer t' = tf_read_buffer t →
  tf_config t' = Null ∨ (tf_config t' = tf_config t ∧ tf_config t ≠ Ptr l) →
  live self t' w'.
Proof.
  intros [Hwf Hself Hcfg (ts & repr & Hts & Htsh) Hbuf] Hl Ho Hn Hh Ht Hb Hc. bound_blocks.
  constructor; rewrite ?Hh.
  - intros k Hk. rewrite Hh. rewrite Hn in Hk. heap_lookup. by apply Hwf.
  - by heap_lookup.
  - destruct Hc as [->|[-> Hne]]; [done|]. destruct (tf_config t) as [|c|]; [done | | done].
    destruct Hcfg as [cfg Hcfg]. exists cfg. by rewrite lookup_insert_ne, lookup_delete_ne by congruence.
  - rewrite Ht. exists ts, repr. split; [done|].
    rewrite lookup_insert_ne by congruence. rewrite lookup_delete_ne; [done|].
    intros ->. destruct Ho as [->|[? ->]]; congruence.
  - rewrite Hb. destruct Hbuf as [Hlen Hdata Hini Hinj]. constructor; [done | | done | done].
    intros i k Hk. destruct (Hdata _ _ Hk) as [d Hd]. exists d.
    rewrite Hh, lookup_insert_ne by congruence. rewrite lookup_delete_ne; [done|].
    intros ->. destruct Ho as [->|[? ->]]; congruence.
Qed.

(** ** T_delete *)

(** The blocks of a transformation of the template. *)
Definition T_block (self : nat) t (l : nat) : Prop :=
  l = self ∨ Ptr l = tf_config t ∨ Ptr l = tf_tsupport t ∨ Ptr l = state_ptr t
  ∨ Ptr l ∈ sq_buffer (tf_read_buffer t).

#[local] Instance T_block_dec self t l : Decision (T_block self t l).
Proof. unfold T_block. solve_decision. Defined.

(** The state and the base, once the configuration has been deleted. *)
Lemma T_delete_rest_wp {E} (R : E → W → Prop) self t w Q :
  live self t w → state_ok t w → (∀ x, (answer x QDeleteData).1 = DDS_RETCODE_OK) →
  (∀ w', w_next w' = w_next w →
     (∀ l, w_heap w' !! l = if decide (T_block self t l) then None else w_heap w !! l) → Q () w') →
  wp ((if has_TState then
         t ← load_transformation (Ptr self);
         b ← is_null (t_state (tf_fields t));
         when (negb b)
           (TState_delete (t_state (tf_fields t));; update_transformation (Ptr self) (set_t_state Null))
       else mret ());;
      RTI_TSFM_Transformation_finalize (Ptr self);;
      free (Ptr self)) Q R w.
Proof.
  intros Hlive Hst Hdel HQ.
  assert (∀ t1 w1, live self t1 w1 → w_next w1 = w_next w →
    (∀ l, l ≠ self → w_heap w1 !! l = if decide (Ptr l = state_ptr t) then None else w_heap w !! l) →
    tf_config t1 = tf_config t → tf_tsupport t1 = tf_tsupport t →
    tf_read_buffer t1 = tf_read_buffer t →
    wp (RTI_TSFM_Transformation_finalize (Ptr self);; free (Ptr self)) Q R w1) as Hrest.
  { intros t1 w1 Hl1 Hn1 Hh1 Hc Hts Hb. wp_step.
    eapply transformation_finalize_wp; [done | done |]. intros rc s' w2 Hn2 Hself2 Hh2.
    eapply wp_free; [done|]. apply HQ; [wsimpl; lia|]. intros l. wsimpl. rewrite lookup_delete.
    destruct (decide (self = l)) as [<-|Hne].
    - rewrite decide_True; [done | by left].
    - rewrite Hh2, Hh1, Hc, Hts, Hb by done. unfold T_block. repeat case_decide; naive_solver. }
  pose proof (lv_self _ _ _ Hlive) as Hself. pose proof (state_ptr_ok _ _ Hst) as Hsp.
  unfold state_ptr, state_ok, TState_delete, load_state, update_transformation, set_t_state in *.
  destruct has_TState.
  - destruct (t_state (tf_fields t)) as [|s|] eqn:Hts; [| |done];
      try (assert (self ≠ s) by congruence); wp_step; wp_step;
      (eapply wp_load_transformation; [done|]); rewrite Hts; t_run.
    + apply wp_unbind; eapply Hrest; [done | done | | done | done | done]. intros l Hl. by rewrite decide_False by done.
    + apply wp_unbind; eapply (Hrest (set_t_state Null t)); [| done | | done | done | done].
      * eapply (live_delete self t _ s); [done | done | by left | done | done | done | done |].
        right. split; [done|]. intros Hc. pose proof (lv_config _ _ _ Hlive) as Hcfg.
        rewrite Hc in Hcfg. destruct Hcfg. congruence.
      * intros l Hl. wsimpl. rewrite lookup_insert_ne, lookup_delete by done.
        repeat case_decide; naive_solver.
  - t_run. apply wp_unbind; eapply Hrest; [done | done | | done | done | done].
    intros l Hl. by rewrite decide_False by done.
Qed.

Lemma T_delete_wp {E} (R : E → W → Prop) self t w Q :
  has_TConfig = true → live self t w → state_ok t w → t_config (tf_fields t) = tf_config t →
  (∀ x, (answer x QDeleteData).1 = DDS_RETCODE_OK) →
  (∀ w', w_next w' = w_next w →
     (∀ l, w_heap w' !! l = if decide (T_block self t l) then None else w_heap w !! l) → Q () w') →
  wp (T_delete (Ptr self)) Q R w.
Proof.
  intros Htc Hlive Hst Hc Hdel HQ. unfold T_delete. rewrite Htc.
  pose proof (lv_self _ _ _ Hlive) as Hself. pose proof (lv_config _ _ _ Hlive) as Hcfg.
  unfold TConfig_delete, update_transformation, set_t_config, set_tf_config. rewrite <- Hc in Hcfg.
  wp_step. wp_step. eapply wp_load_transformation; [done|].
  destruct (t_config (tf_fields t)) as [|c|] eqn:Htcfg; [| |done].
  - t_run. apply wp_unbind. by eapply T_delete_rest_wp.
  - destruct Hcfg as [cfg Hcfg]. assert (self ≠ c) by congruence. t_run.
    apply wp_unbind. eapply (T_delete_rest_wp R self (set_tf_config Null (set_t_config Null t))); [| |done|].
    + eapply (live_delete self t _ c); [done | done | by right; eexists | done | | done | done | by left].
      wsimpl. by rewrite insert_insert_eq.
    + intros Hts. specialize (Hst Hts). cbn. destruct (t_state (tf_fields t)) as [|s|]; [done | | done].
      wsimpl. rewrite !lookup_insert_ne, lookup_delete_ne by congruence. done.
    + intros w' Hn' Hh'. apply HQ; [done|]. intros l. rewrite Hh'. wsimpl.
      destruct (decide (l = self)) as [->|Hl].
      { rewrite !decide_True by (by left). done. }
      rewrite !lookup_insert_ne, lookup_delete by done.
      assert (T_block self t l ↔ T_block self (set_tf_config Null (set_t_config Null t)) l ∨ c = l)
        as Hiff.
      { unfold T_block, state_ptr; cbn [set_tf_config set_t_config tf_config tf_tsupport tf_fields
          tf_read_buffer t_state]. rewrite <- Hc. naive_solver. }
      repeat case_decide; naive_solver.
Qed.

(** ** T_new *)

(** The memory with a new transformation: the struct, its type support, its
    configuration and the state. *)
Definition T_new_post w (plugin : ptr) (oti : type_info) (rt : Z * ptr) w' : Prop :=
  heap_wf w' ∧ w_next w ≤ w_next w' ∧
  ((∃ self c cfg ts st, rt = (DDS_RETCODE_OK, Ptr self)
      ∧ w_heap w' = <[self := OTransformation (Transformation (Ptr c) plugin (Ptr ts) empty_seq
            false false (TFields (Ptr c) st))]>
          (<[ts := OTSupport (ti_type_representation oti)]> (<[c := OTConfig cfg]>
            (put_ptr (if has_TState then st else Null) OTState (w_heap w))))
      ∧ (if has_TState then ∃ s, st = Ptr s ∧ w_next w ≤ s ∧ s ≠ self ∧ s ≠ ts ∧ s ≠ c else True)
      ∧ cfg_output_type cfg = Some (ti_type_name oti)
      ∧ w_next w ≤ self ∧ w_next w ≤ c ∧ w_next w ≤ ts ∧ self ≠ c ∧ self ≠ ts ∧ c ≠ ts)
   ∨ (rt = (DDS_RETCODE_ERROR, Null) ∧ w_heap w' = w_heap w)).

(** The label frees the members that were made and the struct. *)
Lemma T_new_error_wp {E} (R : E → W → Prop) self t w Q :
  has_TConfig = true → w_heap w !! self = Some (OTransformation t) → state_ok t w → t_config_ok t w →
  (∀ w', w_next w' = w_next w →
     w_heap w' = delete self (delete_ptr (t_config (tf_fields t)) (delete_ptr (state_ptr t) (w_heap w))) →
     Q (DDS_RETCODE_ERROR, Null) w') →
  wp (T_new_error (Ptr self)) Q R w.
Proof.
  intros Htc Hself Hst Hcfg HQ. unfold T_new_error, TState_delete, TConfig_delete, load_state.
  unfold t_config_ok, state_ok, state_ptr in *. rewrite Htc.
  destruct t as [cf pl ts rb ld lk [c s]]; cbn [tf_fields t_config t_state] in *.
  destruct c as [|c|]; [| |done]; try (destruct Hcfg as [cfg Hcfg]; assert (self ≠ c) by congruence);
    (destruct has_TState; [specialize (Hst eq_refl); destruct s as [|s|]; [| |done]|]);
    distinct_blocks; t_run; apply HQ; try done; wsimpl; cbn [delete_ptr];
    rewrite ?(delete_delete _ self); done.
Qed.

(** The struct with its members, before the base is initialized. *)
Record T_members w (self c : nat) (cfg : RTI_TSFM_TransformationConfig) (st : ptr) t1 w1 : Prop := {
  mb_wf : heap_wf w1;
  mb_next : w_next w ≤ w_next w1;
  mb_heap : w_heap w1 = <[self := OTransformation t1]> (<[c := OTConfig cfg]>
    (put_ptr (if has_TState then st else Null) OTState (w_heap w)));
  mb_config : tf_config t1 = Ptr c;
  mb_fields : tf_fields t1 = TFields (Ptr c) st;
  mb_lock : tf_lock t1 = false;
  mb_state : if has_TState then ∃ s, st = Ptr s ∧ w_next w ≤ s ∧ s ≠ self ∧ s ≠ c else True;
  mb_self : w_next w ≤ self;
  mb_c : w_next w ≤ c;
  mb_ne : self ≠ c
}.

Lemma T_new_base_wp {E} (R : E → W → Prop) w self c cfg out st t1 plugin iti oti ps w1 :
  has_TConfig = true → heap_wf w → T_members w self c cfg st t1 w1 →
  cfg_output_type cfg = Some out →
  wp (r ← T_initialize _ (Ptr self) plugin iti oti ps;
      when (negb (r =? DDS_RETCODE_OK)%Z) (goto ());;
      mret (DDS_RETCODE_OK, Ptr self))
     (T_new_post w plugin oti) (λ _ w', wp (T_new_error (Ptr self)) (T_new_post w plugin oti) R w') w1.
Proof.
  intros Htc Hwf [Hwf1 Hn1 Hh1 Hc Hf Hlk Hst Hself Hcge Hne] Hout.
  assert (w_heap w1 !! self = Some (OTransformation t1)) as Hs1 by (rewrite Hh1; heap_lookup).
  assert (w_heap w1 !! c = Some (OTConfig cfg)) as Hc1 by (rewrite Hh1; heap_lookup).
  pose proof (heap_wf_lt _ _ _ Hwf1 Hs1). pose proof (heap_wf_lt _ _ _ Hwf1 Hc1).
  assert (match (if has_TState then st else Null) with
          | Ptr s => w_next w ≤ s ∧ s < w_next w1 ∧ s ≠ self ∧ s ≠ c
          | Null => True | Wild => False end) as Hsp.
  { destruct has_TState; [|done]. destruct Hst as (s & -> & ? & ? & ?). split_and!; try done.
    eapply (heap_wf_lt _ _ OTState Hwf1). rewrite Hh1. heap_lookup. cbn. heap_lookup. }
  wp_step. eapply wp_mono; [apply (initialize_law _ _ w1 self t1); [done | done |]| |by intros ? ? HJ; exact HJ].
  { unfold config_given. rewrite Hc. by exists cfg, out. }
  intros rc w2 (Hwf2 & Hn2 & Hcase). rewrite Hc, Hf in Hcase.
  destruct Hcase as [(-> & c' & cfg' & ts & Hh2 & Ho & Hts & Htc' & _ & ->)
                    |(-> & t2 & Hc2 & Hf2 & cfg2 & Hh2)].
  - t_run. split; [done|]. split; [lia|]. left. exists self, c, cfg', ts, st.
    split; [done|]. split; [|split; [|split_and!; try done; lia]].
    + unfold new_lock in Hh2. rewrite Hlk in Hh2. replace (if use_mutex then false else false) with false in Hh2
        by (by destruct use_mutex).
      rewrite Hh2, Hh1. apply map_eq. intros k. autorewrite with heap.
      repeat case_decide; subst; try done; try lia; try congruence.
    + destruct has_TState; [|done]. destruct Hst as (s & -> & ? & ? & ?). exists s.
      split_and!; [done | lia | done | | done]. intros ->. lia.
  - t_run. eapply T_new_error_wp; [done | rewrite Hh2; heap_lookup | | |].
    + intros HTS. rewrite Hf2, HTS in *. cbn [t_state]. destruct Hst as (s & -> & ? & ? & ?).
      rewrite Hh2, Hh1. heap_lookup. cbn. heap_lookup.
    + unfold t_config_ok. rewrite Hf2. cbn. exists cfg2. rewrite Hh2. heap_lookup.
    + intros w' Hn' Hh'.
      assert (w_heap w' = w_heap w) as Heq.
      { unfold state_ptr in Hh'. rewrite Hf2 in Hh'. cbn [t_config t_state] in Hh'.
        rewrite Hh', Hh2, Hh1. apply map_eq. intros k. autorewrite with heap.
        repeat case_decide; subst; try done; try congruence;
          try (symmetry; apply Hwf; destruct has_TState; naive_solver lia). }
      split; [intros k Hk; rewrite Heq; apply Hwf; lia|]. split; [lia | by right].
Qed.


(** A block allocated by the constructor is not in the memory before it. *)
Lemma T_new_failed w plugin oti w' :
  heap_wf w → w_next w ≤ w_next w' → w_heap w' = w_heap w →
  T_new_post w plugin oti (DDS_RETCODE_ERROR, Null) w'.
Proof.
  intros Hwf Hn Hh. split; [intros k Hk; rewrite Hh; apply Hwf; lia|]. split; [done | by right].
Qed.

(** The struct with its members. *)
Definition T_with (c st : ptr) : RTI_TSFM_Transformation :=
  Transformation c Wild Wild empty_seq false false (TFields c st).

Lemma T_new_wp {E} (R : E → W → Prop) plugin iti oti ps w :
  has_TConfig = true → heap_wf w →
  (∃ out, cfg_output_type (TConfig_parsed ps TConfig_blank) = Some out) →
  wp (T_new plugin iti oti ps) (T_new_post w plugin oti) R w.
Proof.
  intros Htc Hwf [out Hout]. unfold T_new, T_new_state, T_new_config, TState_new, TConfig_new, TConfig_parse.
  unfold update_transformation, set_t_config, set_t_state, set_tf_config. rewrite Htc.
  destruct has_TState eqn:Hts; t_run.
  all: try (apply T_new_failed; [done | wsimpl; lia | done]).
  all: try lazymatch goal with |- wp (T_initialize _ _ _ _ _ _) _ _ _ =>
    apply wp_unbind;
    first
      [ apply (T_new_base_wp R w (w_next w) (S (S (w_next w))) (TConfig_parsed ps TConfig_blank) out
          (Ptr (S (w_next w))) (T_with (Ptr (S (S (w_next w)))) (Ptr (S (w_next w)))));
        [done | done | constructor; rewrite ?Hts; cbn [put_ptr]; try done; try lia;
          [heap_wf_tac | wsimpl; lia | unfold T_with; heap_eq | exists (S (w_next w)); split_and!; first [done | lia]] | done]
      | apply (T_new_base_wp R w (w_next w) (S (w_next w)) (TConfig_parsed ps TConfig_blank) out
          Wild (T_with (Ptr (S (w_next w))) Wild));
        [done | done | constructor; rewrite ?Hts; cbn [put_ptr]; try done; try lia;
          [heap_wf_tac | wsimpl; lia | unfold T_with; heap_eq ] | done] ] end.
  all: eapply T_new_error_wp; unfold state_ok, t_config_ok, state_ptr;
    [done | heap_lookup | | | intros w' Hn' Hh'; wsimpl; apply T_new_failed; [done | lia|]; rewrite Hh'];
    rewrite ?Hts; cbn [tf_fields t_config t_state malloc_T];
    [ intros ?; first [done | heap_lookup] | first [done | eexists; heap_lookup]
    | cbn [delete_ptr]; heap_eq ].
Qed.



End theorems.

