(* ===== verification/TsfmLifecycle.v ===== *)
(** The template's transformations at work: the callbacks of Routing Service
    under the mutex, a whole session of a transformation from T_new to T_delete,
    and the transformations of a plugin. *)
From Stdlib Require Import ZArith Lia.
From stdpp Require Import base gmap strings list fin_maps.
From S2P Require Import Prelude KafkaTypes TsfmTypes TsfmConfig Transformation TsfmPlugin TsfmTemplate.

#[local] Open Scope string_scope.
#[local] Open Scope list_scope.
#[local] Open Scope nat_scope.

Section operations.
Context {D X : Type} `{!Env X tcall, !Codec D} {PA : PropertyApi} {SA : SeqApi}
  {MC : MutexConfig} {TP : Template} {TI : TInitialize D X}.
#[local] Abbreviation W := (world (tobj D) X tcall).

(** What Routing Service does with a transformation: it hands it batches of
    input samples, and returns each loan it gets. *)
Fixpoint use_transformation {E} (self : ptr) (batches : list (list (ptr * ptr))) : M W E () :=
  match batches with
  | [] => mret ()
  | batch :: batches' =>
      r ← T_transform self batch;
      match r with
      | Some (samples, _, count) => T_return_loan self samples count
      | None => mret ()
      end;;
      use_transformation self batches'
  end.
End operations.

Section theorems.
Context {D X : Type} `{!Env X tcall, !Codec D} {PA : PropertyApi} {SA : SeqApi}
  {MC : MutexConfig} {TP : Template} {TI : TInitialize D X} {TL : InitializeLaw TI}.
#[local] Abbreviation W := (world (tobj D) X tcall).
Implicit Types (w : W) (t : RTI_TSFM_Transformation) (la : tlayout).

(** ** The mutex of a transformation *)

(** pthread_mutex_unlock succeeds for the thread that holds the mutex. *)
Definition unlock_works : Prop := ∀ x, (answer x QMutexUnlock).1 = 0%Z.

(** The layout with the mutex in another state. *)
Definition locked (b : bool) la : tlayout :=
  TLayout (tl_self la) (tl_config la) (tl_cfg la) (tl_plugin la) (tl_plug la) (tl_user la)
    (tl_delete_plugin la) (tl_tsupport la) (tl_repr la) b (tl_fields la).

Lemma footprint_layout la la' s s' w w' :
  tl_self la = tl_self la' → footprint la s s' w w' → footprint la' s s' w w'.
Proof. intros Hs []. constructor; rewrite <- ?Hs; auto. Qed.

(** Writing the mutex's state into the struct. *)
Lemma wp_set_lock {E} (R : E → W → Prop) la s loaned w b (f : RTI_TSFM_Transformation → _) Q :
  tmem la s loaned w → (∀ t, f t = set_tf_lock b t) →
  (∀ w', tmem (locked b la) s loaned w' → footprint la s s w w' → w_next w' = w_next w →
     (∀ l, l ≠ tl_self la → w_heap w' !! l = w_heap w !! l) → Q () w') →
  wp (update_transformation (Ptr (tl_self la)) f) Q R w.
Proof.
  intros Hm Hf HQ. unfold update_transformation. wp_step.
  eapply wp_load_transformation; [apply Hm|]. rewrite Hf. eapply wp_store; [apply Hm|].
  apply HQ; [| | done | intros l Hl; wsimpl; by rewrite lookup_insert_ne].
  2: { eapply footprint_heap; [done | done | done |]. intros l Hl _. wsimpl. by rewrite lookup_insert_ne. }
  tmem_open Hm. constructor; cbn [locked tl_self tl_config tl_cfg tl_plugin tl_plug
    tl_user tl_delete_plugin tl_tsupport tl_repr tl_lock tl_fields]; wsimpl;
    try (by heap_lookup); try done.
  - intros k Hk. wsimpl. heap_lookup. by apply Hwf.
  - destruct Hbuf as [Hlen Hdata Hini Hinj]. constructor; [done | | done | done].
    intros j m Hj. destruct (Hdata _ _ Hj) as [d Hd]. exists d. wsimpl.
    rewrite lookup_insert_ne by congruence. done.
Qed.

Lemma tmem_call la s loaned w q x :
  tmem la s loaned w →
  let w' := World (w_next w) (w_heap w) x (w_trace w ++ [q]) in
  tmem la s loaned w' ∧ footprint la s s w w'.
Proof.
  intros Hm w'. split; [by eapply tmem_same | by eapply footprint_heap].
Qed.

(** Taking the free mutex: it is held afterwards exactly when that succeeds. *)
Lemma take_lock_wp {E} (R : E → W → Prop) la s loaned w Q :
  tmem (locked false la) s loaned w →
  (∀ rc w', tmem (locked (bool_decide (rc = DDS_RETCODE_OK)) la) s loaned w' →
     footprint la s s w w' → w_next w' = w_next w →
     (∀ l, l ≠ tl_self la → w_heap w' !! l = w_heap w !! l) → Q rc w') →
  wp (take_lock (Ptr (tl_self la))) Q R w.
Proof.
  intros Hm HQ. pose proof (tm_self _ _ _ _ Hm) as Hself. cbn [locked tl_self tl_lock] in Hself.
  pose proof (heap_wf_lt _ _ _ (tm_wf _ _ _ _ Hm) Hself) as Hlt.
  unfold take_lock, RTI_TSFM_Mutex_take. t_run.
  all: destruct (tmem_call _ _ _ _ QMutexLock x' Hm) as [Hm1 Hfp1].
  all: eapply (wp_set_lock R (locked false la)); [exact Hm1 | by intros [] |].
  all: intros w' Hm' Hfp' Hn' Hh'; wp_run; apply HQ; [exact Hm' | | done | exact Hh'].
  all: apply (footprint_layout (locked false la) la); [done | by eapply footprint_trans].
Qed.

Lemma give_lock_wp {E} (R : E → W → Prop) la s loaned w Q :
  unlock_works → tmem (locked true la) s loaned w →
  (∀ rc w', tmem (locked false la) s loaned w' → footprint la s s w w' →
     (∀ l, l ≠ tl_self la → w_heap w' !! l = w_heap w !! l) → Q rc w') →
  wp (give_lock (Ptr (tl_self la))) Q R w.
Proof.
  intros Hu Hm HQ. pose proof (tm_self _ _ _ _ Hm) as Hself. cbn [locked tl_self tl_lock] in Hself.
  pose proof (heap_wf_lt _ _ _ (tm_wf _ _ _ _ Hm) Hself) as Hlt.
  unfold give_lock, RTI_TSFM_Mutex_give. t_run.
  2: { specialize (Hu (w_ext w)). by rewrite Hans in Hu. }
  destruct (tmem_call _ _ _ _ QMutexUnlock x' Hm) as [Hm1 Hfp1].
  eapply (wp_set_lock R (locked true la)); [exact Hm1 | by intros [] |].
  intros w' Hm' Hfp' Hn' Hh'; wp_run; apply HQ; [exact Hm' | | exact Hh'].
  apply (footprint_layout (locked true la) la); [done | by eapply footprint_trans].
Qed.
(** ** The callbacks *)

Lemma valid_count_le (args : list (bool * option D)) : valid_count args ≤ length args.
Proof. unfold valid_count. apply length_filter. Qed.

Lemma input_ok_frame la s loaned w w' pi v d :
  tmem la s loaned w → (∀ l, l ≠ tl_self la → w_heap w' !! l = w_heap w !! l) →
  input_ok s w pi v d → input_ok s w' pi v d.
Proof.
  intros Hm Hh [(iq & Hq & Hi) Hd]. pose proof (tm_self _ _ _ _ Hm) as Hself. split.
  - exists iq. split; [done|]. rewrite Hh; [done | congruence].
  - destruct d as [d|]; [|done]. destruct Hd as (ip & Hp & Hl & Hni). exists ip.
    split; [done|]. split; [|done]. rewrite Hh; [done | congruence].
Qed.

Lemma slots_converted_frame la i args s s' loaned w w' :
  tmem la s' loaned w → (∀ l, l ≠ tl_self la → w_heap w' !! l = w_heap w !! l) →
  slots_converted la i args s s' w → slots_converted la i args s s' w'.
Proof.
  intros Hm Hh Hs k v d Hk. specialize (Hs k v d Hk). destruct v; [|done].
  destruct Hs as (l & d_in & d_old & d' & -> & Hl & Hc & Hd). exists l, d_in, d_old, d'.
  split_and!; [done | done | done |]. rewrite Hh; [done|].
  pose proof (tm_self _ _ _ _ Hm). congruence.
Qed.

Lemma T_transform_wp `{!SeqLaws SA} {E} (R : E → W → Prop) la s loaned w batch args :
  unlock_works → tmem (locked false la) s loaned w → batch ≠ [] →
  Forall2 (λ pi vd, input_ok s w pi vd.1 vd.2) batch args →
  wp (T_transform (Ptr (tl_self la)) batch)
    (λ r w', match r with
       | Some (samples, infos, count) =>
           loaned = false ∧ infos = batch.*2 ∧ count = valid_count args
           ∧ ∃ s1 s', grown (length batch) s s1 ∧ tmem (locked false la) s' true w'
             ∧ samples = sq_buffer s' ∧ count ≤ sq_length s'
             ∧ slots_converted la 0 args s1 s' w' ∧ footprint la s s' w w'
       | None => ∃ s', tmem (locked false la) s' loaned w' ∧ footprint la s s' w w'
       end) R w.
Proof.
  intros Hu Hm Hne Hin. unfold T_transform.
  pose proof (heap_wf_lt _ _ _ (tm_wf _ _ _ _ Hm) (tm_self _ _ _ _ Hm)) as Hlt.
  cbn [locked tl_self] in Hlt. set (b := use_mutex).
  assert (∀ w1, tmem (locked b la) s loaned w1 → footprint la s s w w1 →
    (∀ l, l ≠ tl_self la → w_heap w1 !! l = w_heap w !! l) →
    wp (res ← RTI_TSFM_Transformation_transform (Ptr (tl_self la)) batch;
        (if b then give_lock (Ptr (tl_self la)) else mret DDS_RETCODE_OK);;
        mret res.2)
    (λ r w', match r with
       | Some (samples, infos, count) =>
           loaned = false ∧ infos = batch.*2 ∧ count = valid_count args
           ∧ ∃ s1 s', grown (length batch) s s1 ∧ tmem (locked false la) s' true w'
             ∧ samples = sq_buffer s' ∧ count ≤ sq_length s'
             ∧ slots_converted la 0 args s1 s' w' ∧ footprint la s s' w w'
       | None => ∃ s', tmem (locked false la) s' loaned w' ∧ footprint la s s' w w'
       end) R w1) as Hlocked.
  { intros w1 Hm1 Hfp1 Hh1.
    assert (∀ s' ld w2 Q, tmem (locked b la) s' ld w2 → footprint la s s' w w2 →
      (∀ w3, tmem (locked false la) s' ld w3 → footprint la s s' w w3 →
         (∀ l, l ≠ tl_self la → w_heap w3 !! l = w_heap w2 !! l) → Q w3) →
      wp (if b then give_lock (Ptr (tl_self la)) else mret DDS_RETCODE_OK) (λ _, Q) R w2) as Hgive.
    { intros s' ld w2 Q Hm2 Hfp2 HQ. unfold b in *. destruct use_mutex.
      - eapply give_lock_wp; [done | exact Hm2 |]. intros rc w3 Hm3 Hfp3 Hh3.
        apply HQ; [done | by eapply footprint_trans | done].
      - wp_step; by apply HQ. }
    wp_step. destruct loaned.
    { unfold wp. erewrite (transform_busy_eq (locked b la)) by exact Hm1.
      apply wp_bind. eapply Hgive; [exact Hm1 | done |]. intros w3 Hm3 Hfp3 Hh3. wp_step. by exists s. }
    eapply wp_mono;
      [apply (transform_wp R (locked b la) s w1 batch args); [done | done |]| |by intros ? ? HJ; exact HJ].
    { eapply Forall2_impl; [exact Hin|]. intros pi vd. by apply (input_ok_frame (locked false la) s false w). }
    intros [rc [[[outs infos] n]|]] w2.
    - intros (-> & -> & -> & s1 & s' & Hg & Hm2 & -> & Hmax & Hslots & Hfp2).
      wp_step. eapply Hgive; [exact Hm2 | apply (footprint_trans la s s s' w w1 w2); [done | done | by apply (footprint_layout (locked b la))] |].
      intros w3 Hm3 Hfp3 Hh3. wp_step. cbn [snd]. split; [done|]. split; [done|]. split; [done|]. exists s1, s'.
      split_and!; try done.
      + rewrite (bo_length _ _ (tm_buffer _ _ _ _ Hm2)), Hmax. destruct Hg as [-> _].
        pose proof (valid_count_le args). pose proof (Forall2_length _ _ _ Hin). lia.
      + by eapply (slots_converted_frame (locked b la) 0 args s1 s' true w2).
    - intros (-> & (s' & Hm2 & Hfp2) & _).
      wp_step. eapply Hgive; [exact Hm2 | apply (footprint_trans la s s s' w w1 w2); [done | done | by apply (footprint_layout (locked b la))] |].
      intros w3 Hm3 Hfp3 Hh3. wp_step. cbn [snd]. by exists s'. }
  unfold b in *. destruct use_mutex eqn:Hmx.
  - wp_step. eapply take_lock_wp; [exact Hm|]. intros rc w1 Hm1 Hfp1 _ Hh1.
    destruct (Z.eqb_spec rc DDS_RETCODE_OK) as [->|Hrc]; cbn [negb].
    + by apply Hlocked.
    + wp_step. exists s. rewrite bool_decide_false in Hm1 by done. by split.
  - wp_step. wp_step. cbn [Z.eqb DDS_RETCODE_OK negb]. apply Hlocked; [done | | done].
    apply (footprint_layout (locked false la) la); [done | by eapply footprint_heap].
Qed.

Lemma T_return_loan_wp {E} (R : E → W → Prop) la s w count :
  unlock_works → tmem (locked false la) s true w → count ≤ sq_length s →
  wp (T_return_loan (Ptr (tl_self la)) (sq_buffer s) count)
    (λ _ w', footprint la s s w w' ∧ ∃ loaned, tmem (locked false la) s loaned w'
       ∧ (loaned = true → use_mutex = true)) R w.
Proof.
  intros Hu Hm Hc. unfold T_return_loan.
  pose proof (heap_wf_lt _ _ _ (tm_wf _ _ _ _ Hm) (tm_self _ _ _ _ Hm)) as Hlt.
  cbn [locked tl_self] in Hlt. destruct use_mutex eqn:Hmx.
  - wp_step. eapply take_lock_wp; [exact Hm|]. intros rc w1 Hm1 Hfp1 Hn1 Hh1.
    destruct (Z.eqb_spec rc DDS_RETCODE_OK) as [->|Hrc]; cbn [negb].
    + wp_step. eapply wp_mono; [apply (return_loan_wp R (locked true la) s w1 count); done | |done].
      intros _ w2 (Hm2 & Hfp2 & _). wp_step. eapply give_lock_wp; [done | exact Hm2 |].
      intros rc2 w3 Hm3 Hfp3 _. wp_step. split; [|by exists false].
      eapply footprint_trans; [done | exact Hfp1 |]. eapply footprint_trans; [lia | | exact Hfp3].
      by apply (footprint_layout (locked true la)).
    + wp_step. rewrite bool_decide_false in Hm1 by done. split; [done|]. by exists true.
  - wp_step. wp_step. cbn [Z.eqb DDS_RETCODE_OK negb]. wp_step.
    eapply wp_mono; [apply (return_loan_wp R (locked false la) s w count); done | |done].
    intros _ w2 (Hm2 & Hfp2 & _). wp_run. split; [by apply (footprint_layout (locked false la))|].
    by exists false.
Qed.

(** ** A session *)

(** A batch of input samples in the memory [w0], outside the transformation. *)
Definition batch_given w0 (batch : list (ptr * ptr)) : Prop :=
  batch ≠ [] ∧ ∃ args, Forall2 (λ pi vd, input_ok empty_seq w0 pi vd.1 vd.2) batch args.

(** The memory during a session of a transformation that was made in [w0]: the
    old blocks are as they were, and every new one is the transformation's. *)
Record session w0 la (s : ptr_seq) (loaned : bool) w : Prop := {
  ss_mem : tmem (locked false la) s loaned w;
  ss_wf : heap_wf w0;
  ss_next : w_next w0 ≤ w_next w;
  ss_old : ∀ l, l < w_next w0 → w_heap w !! l = w_heap w0 !! l;
  ss_new : ∀ l, w_next w0 ≤ l → w_heap w !! l = None
    ∨ l = tl_self la ∨ l = tl_config la ∨ l = tl_tsupport la
    ∨ Ptr l = (if has_TState then t_state (tl_fields la) else Null) ∨ Ptr l ∈ sq_buffer s;
  ss_self : w_next w0 ≤ tl_self la;
  ss_buf : ∀ l, Ptr l ∈ sq_buffer s → w_next w0 ≤ l;
  ss_config : t_config (tl_fields la) = Ptr (tl_config la) ∧ w_next w0 ≤ tl_config la;
  ss_tsupport : w_next w0 ≤ tl_tsupport la;
  ss_state : has_TState = true → ∃ st, t_state (tl_fields la) = Ptr st ∧ w_next w0 ≤ st
    ∧ w_heap w !! st = Some OTState
}.

Lemma session_step w0 la s s' loaned loaned' w w' :
  session w0 la s loaned w → tmem (locked false la) s' loaned' w' → footprint la s s' w w' →
  session w0 la s' loaned' w'.
Proof.
  intros [Hm Hwf Hn Hold Hnew Hself Hbuf Hcfg Hts Hst] Hm' [Hfn Hff Hfnew Hfold Hfkeep].
  constructor; [done | done | lia | | | done | | done | done |].
  - intros l Hl. rewrite Hff; [by apply Hold | lia | lia |]. intros Hin. apply Hbuf in Hin. lia.
  - intros l Hl. destruct (decide (Ptr l ∈ sq_buffer s')) as [|Hni']; [by do 5 right|].
    assert (Ptr l ∉ sq_buffer s) as Hni by auto.
    destruct (decide (l < w_next w)) as [Hlt|]; [|left; apply Hfnew; [lia | done]].
    destruct (decide (l = tl_self la)) as [|Hne]; [by right; left|].
    rewrite Hff by done. specialize (Hnew _ Hl). naive_solver.
  - intros l [?|?]%Hfold; [by apply Hbuf | lia].
  - intros HTS. destruct (Hst HTS) as (st & ? & ? & Hh). exists st. split; [done|]. split; [done|].
    rewrite Hff; [done | eapply heap_wf_lt; [apply Hm | done] | |].
    + intros ->. pose proof (tm_self _ _ _ _ Hm) as Hs. cbn in Hs. congruence.
    + intros [j Hj]%list_elem_of_lookup.
      destruct (bo_data _ _ (tm_buffer _ _ _ _ Hm) _ _ Hj). congruence.
Qed.

Lemma session_input w0 la s loaned w batch :
  session w0 la s loaned w → batch_given w0 batch →
  batch ≠ [] ∧ ∃ args, Forall2 (λ pi vd, input_ok s w pi vd.1 vd.2) batch args.
Proof.
  intros Hs [Hne [args Hin]]. split; [done|]. exists args. eapply Forall2_impl; [exact Hin|].
  intros pi vd [(iq & Hq & Hi) Hd]. pose proof (ss_wf _ _ _ _ _ Hs) as Hwf. split.
  - exists iq. split; [done|]. rewrite (ss_old _ _ _ _ _ Hs); [done | by eapply heap_wf_lt].
  - destruct vd.2 as [d|]; [|done]. destruct Hd as (ip & Hp & Hl & _). exists ip.
    pose proof (heap_wf_lt _ _ _ Hwf Hl) as Hlt. split; [done|].
    split; [by rewrite (ss_old _ _ _ _ _ Hs)|]. intros Hb%(ss_buf _ _ _ _ _ Hs). lia.
Qed.

Lemma use_transformation_wp `{!SeqLaws SA} {E} (R : E → W → Prop) w0 la batches s loaned w :
  unlock_works → session w0 la s loaned w → Forall (batch_given w0) batches →
  wp (use_transformation (Ptr (tl_self la)) batches)
    (λ _ w', ∃ s' loaned', session w0 la s' loaned' w') R w.
Proof.
  intros Hu Hs Hb. revert s loaned w Hs. induction Hb as [|batch batches Hbatch Hb IH]; intros s loaned w Hs;
    cbn [use_transformation].
  { wp_step; by exists s, loaned. }
  destruct (session_input _ _ _ _ _ _ Hs Hbatch) as (Hne & args & Hin).
  wp_step. eapply wp_mono; [apply (T_transform_wp R la s loaned w batch args); try done; apply Hs| |done].
  intros [[[samples infos] count]|] w1.
  - intros (-> & _ & -> & s1 & s' & _ & Hm1 & -> & Hc & _ & Hfp). wp_step.
    eapply wp_mono; [by apply (T_return_loan_wp R la s' w1)| |done].
    intros _ w2 (Hfp2 & ld & Hm2 & _). eapply IH. eapply session_step; [|exact Hm2 | exact Hfp2].
    by eapply session_step.
  - intros (s' & Hm1 & Hfp). wp_run. eapply IH. by eapply session_step.
Qed.

(** The memory T_new leaves is that of a session that has not transformed
    anything yet. *)
Lemma T_new_session w pl plug u dp oti self w' :
  heap_wf w → w_heap w !! pl = Some (OPlugin plug) → pl_user_plugin plug = Ptr u →
  w_heap w !! u = Some (OUserPlugin (UserTypePlugin dp true true)) →
  T_new_post w (Ptr pl) oti (DDS_RETCODE_OK, self) w' →
  ∃ la, self = Ptr (tl_self la) ∧ session w la empty_seq false w'
    ∧ tl_plugin la = pl ∧ tl_plug la = plug
    ∧ cfg_output_type (tl_cfg la) = Some (ti_type_name oti).
Proof.
  intros Hwf Hpl Hup Hu (Hwf' & Hn & [(sf & c & cfg & ts & st & Heq & Hh & Hst & Ho & Hs1 & Hc1 & Ht1
    & ? & ? & ?)|[Heq _]]); [|discriminate Heq]. injection Heq as ->.
  exists (TLayout sf c cfg pl plug u dp ts (ti_type_representation oti) false (TFields (Ptr c) st)).
  cbn [tl_self tl_config tl_cfg tl_plugin tl_plug tl_tsupport tl_fields t_config t_state].
  pose proof (heap_wf_lt _ _ _ Hwf Hpl). pose proof (heap_wf_lt _ _ _ Hwf Hu).
  assert (∀ l, l ≠ sf → l ≠ ts → l ≠ c → w_heap w' !! l =
    if decide ((if has_TState then st else Null) = Ptr l) then Some OTState else w_heap w !! l) as Hlook.
  { intros l ? ? ?. rewrite Hh. autorewrite with heap. repeat case_decide; congruence. }
  assert (has_TState = true → ∃ s, st = Ptr s ∧ w_next w ≤ s ∧ s ≠ sf ∧ s ≠ ts ∧ s ≠ c) as Hst'.
  { intros HTS. by rewrite HTS in Hst. }
  split; [done|]. split; [|done].
  assert (∀ l, l < w_next w → w_heap w' !! l = w_heap w !! l) as Hold.
  { intros l Hl. rewrite Hlook by lia. rewrite decide_False; [done|].
    destruct has_TState; [|done]. destruct (Hst' eq_refl) as (s & -> & ? & _). intros [= ->]. lia. }
  constructor; cbn [tl_self tl_config tl_tsupport tl_fields t_state].
  - constructor; cbn [locked tl_self tl_config tl_cfg tl_plugin tl_plug tl_user tl_delete_plugin
      tl_tsupport tl_repr tl_lock tl_fields]; rewrite ?Hold by done; try done;
      try (rewrite Hh; by heap_lookup).
  - done.
  - done.
  - done.
  - intros l Hl. destruct (decide (l = sf)) as [|?]; [by right; left|].
    destruct (decide (l = ts)) as [|?]; [by right; right; right; left|].
    destruct (decide (l = c)) as [|?]; [by right; right; left|].
    rewrite Hlook by done. case_decide; [by right; right; right; right; left|]. left. by apply Hwf.
  - done.
  - by intros l ?%elem_of_nil.
  - done.
  - done.
  - intros HTS. destruct (Hst' HTS) as (s & -> & ? & ? & ? & ?). exists s. split; [done|]. split; [done|].
    rewrite Hlook, HTS by done. by rewrite decide_True.
Qed.

(** Deleting the transformation of a session brings the old memory back. *)
Lemma session_delete_wp {E} (R : E → W → Prop) w0 la s loaned w Q :
  has_TConfig = true → (∀ x, (answer x QDeleteData).1 = DDS_RETCODE_OK) →
  session w0 la s loaned w →
  (∀ w', w_next w ≤ w_next w' → w_heap w' = w_heap w0 → Q () w') →
  wp (T_delete (Ptr (tl_self la))) Q R w.
Proof.
  intros Htc Hdel Hs HQ. pose proof (ss_mem _ _ _ _ _ Hs) as Hm.
  pose proof (ss_state _ _ _ _ _ Hs) as Hst. pose proof (ss_tsupport _ _ _ _ _ Hs) as Htge.
  destruct (ss_config _ _ _ _ _ Hs) as [Hc Hcge].
  eapply (T_delete_wp R (tl_self la)); [done | by apply tmem_live in Hm | | done | done |].
  { intros HTS. cbn. destruct (Hst HTS) as (st & -> & _ & ?). done. }
  intros w' Hn' Hh'. apply HQ; [lia|]. apply map_eq. intros l. rewrite Hh'.
  unfold T_block, state_ptr; cbn [tf_config tf_tsupport tf_read_buffer tf_fields locked tl_config
    tl_tsupport tl_fields].
  destruct (decide (l < w_next w0)) as [Hl|Hl].
  - rewrite decide_False; [by apply Hs|].
    intros [->|[[= ->]|[[= ->]|[Heq|Hin]]]]; [pose proof (ss_self _ _ _ _ _ Hs); lia | lia | lia | |].
    + destruct has_TState; [|done]. destruct (Hst eq_refl) as (st & Hst' & ? & _). rewrite Hst' in Heq.
      injection Heq as ->. lia.
    + apply (ss_buf _ _ _ _ _ Hs) in Hin. lia.
  - rewrite (ss_wf _ _ _ _ _ Hs l) by lia. case_decide as Hb; [done|].
    destruct (ss_new _ _ _ _ _ Hs l) as [?|?]; [lia | done|]. exfalso. apply Hb. naive_solver.
Qed.

(** C4: the whole life of a transformation: made by T_new, used for any
    batches of samples and deleted by T_delete, whatever the library and the
    user's converters answer on the way.  No access to memory goes wrong, the
    calls return, and in the end every block made on the way is free and every
    other one is as it was: there is no leak. *)
Theorem transformation_session `{!SeqLaws SA} w pl plug u dp iti oti ps batches out :
  has_TConfig = true → cfg_output_type (TConfig_parsed ps TConfig_blank) = Some out →
  heap_wf w → w_heap w !! pl = Some (OPlugin plug) → pl_user_plugin plug = Ptr u →
  w_heap w !! u = Some (OUserPlugin (UserTypePlugin dp true true)) →
  unlock_works → (∀ x, (answer x QDeleteData).1 = DDS_RETCODE_OK) →
  Forall (batch_given w) batches →
  wp (rt ← T_new (E := Empty_set) (Ptr pl) iti oti ps;
      if (rt.1 =? DDS_RETCODE_OK)%Z
      then use_transformation rt.2 batches;; T_delete rt.2
      else mret ())
    (λ _ w', w_heap w' = w_heap w) no_jump w.
Proof.
  intros Htc Hout Hwf Hpl Hup Hu Hul Hdel Hb. wp_step.
  eapply wp_mono; [apply T_new_wp; [done | done | by exists out]| |by intros ? ? HJ; exact HJ].
  intros [rc self] w1 Hpost. cbn [fst snd].
  assert (rc = DDS_RETCODE_OK ∨ (rc = DDS_RETCODE_ERROR ∧ w_heap w1 = w_heap w)) as [->|[-> Hh]].
  { destruct Hpost as (_ & _ & [(? & ? & ? & ? & ? & [= -> _] & _)|[[= -> _] ?]]); auto. }
  2: { by wp_run. }
  destruct (T_new_session _ _ _ _ _ _ _ _ Hwf Hpl Hup Hu Hpost)
    as (la & -> & Hs & _).
  cbn [Z.eqb DDS_RETCODE_OK]. wp_step.
  eapply wp_mono; [by apply (use_transformation_wp no_jump w la batches empty_seq false)| |done].
  intros _ w2 (s' & ld & Hs2). by eapply session_delete_wp.
Qed.

(** ** The transformations of a plugin *)

(** The mutex functions succeed. *)
Definition mutex_works : Prop :=
  (∀ x, (answer x QMutexLock).1 = 0%Z) ∧ unlock_works.

(** The old memory with the plugin struct in another state. *)
Definition with_plugin (pl : nat) (plug : RTI_TSFM_TransformationPlugin) w : W :=
  set_heap (<[pl := OPlugin plug]> (w_heap w)) w.

Definition replug plug la : tlayout :=
  TLayout (tl_self la) (tl_config la) (tl_cfg la) (tl_plugin la) plug (tl_user la)
    (tl_delete_plugin la) (tl_tsupport la) (tl_repr la) (tl_lock la) (tl_fields la).

(** Writing the plugin struct, which is an old block, keeps a session. *)
Lemma session_plugin w0 la s loaned w plug w' :
  session w0 la s loaned w → w_heap w0 !! tl_plugin la = Some (OPlugin (tl_plug la)) →
  pl_user_plugin plug = pl_user_plugin (tl_plug la) →
  w_next w' = w_next w → w_heap w' = <[tl_plugin la := OPlugin plug]> (w_heap w) →
  session (with_plugin (tl_plugin la) plug w0) (replug plug la) s loaned w'.
Proof.
  intros Hs Hpl Hu Hn' Hh'. pose proof (heap_wf_lt _ _ _ (ss_wf _ _ _ _ _ Hs) Hpl) as Hlt.
  destruct Hs as [Hm Hwf0 Hn Hold Hnew Hself0 Hbuf0 Hcfg0 Hts0 Hst0].
  unfold with_plugin. constructor; wsimpl;
    cbn [replug tl_self tl_config tl_plugin tl_tsupport tl_fields] in *; try done.
  - tmem_open Hm. constructor; cbn [locked replug tl_self tl_config tl_cfg tl_plugin tl_plug
      tl_user tl_delete_plugin tl_tsupport tl_repr tl_lock tl_fields] in *; rewrite ?Hh';
      try (by heap_lookup); try congruence.
    + intros k Hk. rewrite Hh'. rewrite Hn' in Hk. rewrite lookup_insert_ne by lia. by apply Hwf.
    + destruct Hbuf as [Hlen Hdata Hini Hinj]. constructor; [done | | done | done].
      intros j m Hj. destruct (Hdata _ _ Hj) as [d Hd]. exists d.
      rewrite Hh', lookup_insert_ne by congruence. done.
  - intros k Hk. wsimpl. rewrite lookup_insert_ne by lia. by apply Hwf0.
  - lia.
  - intros l Hl. rewrite Hh'. rewrite !lookup_insert. case_decide; [done | by apply Hold].
  - intros l Hl. rewrite Hh', lookup_insert_ne by lia. by apply Hnew.
  - intros HTS. destruct (Hst0 HTS) as (st & ? & ? & ?). exists st. split; [done|]. split; [done|].
    rewrite Hh', lookup_insert_ne by lia. done.
Qed.

(** The plugin's mutex: taking it when it is free, giving it back. *)
Lemma take_plugin_lock_wp {E} (R : E → W → Prop) pl plug w Q :
  mutex_works → w_heap w !! pl = Some (OPlugin plug) → pl_lock plug = false →
  (∀ w', w_next w' = w_next w →
     w_heap w' = <[pl := OPlugin (set_pl_lock use_mutex plug)]> (w_heap w) → Q DDS_RETCODE_OK w') →
  wp (if use_mutex then take_plugin_lock (Ptr pl) else mret DDS_RETCODE_OK) Q R w.
Proof.
  intros [Hl _] Hpl Hlk HQ. destruct use_mutex.
  - unfold take_plugin_lock, RTI_TSFM_Mutex_take, update_plugin. t_run; rewrite ?Hlk; t_run.
    + by apply HQ.
    + specialize (Hl (w_ext w)). by rewrite Hans in Hl.
  - wp_step; apply HQ; [done|]. rewrite insert_id; [done|]. rewrite Hpl. destruct plug. cbn in *. by subst.
Qed.

Lemma give_plugin_lock_wp {E} (R : E → W → Prop) pl plug w Q :
  mutex_works → w_heap w !! pl = Some (OPlugin (set_pl_lock use_mutex plug)) → pl_lock plug = false →
  (∀ rc w', w_next w' = w_next w → w_heap w' = <[pl := OPlugin plug]> (w_heap w) → Q rc w') →
  wp (if use_mutex then give_plugin_lock (Ptr pl) else mret DDS_RETCODE_OK) Q R w.
Proof.
  intros [_ Hu] Hpl Hlk HQ.
  assert (∀ b, set_pl_lock false (set_pl_lock b plug) = plug) as Hid
    by (intros b; destruct plug; cbn in *; by subst).
  destruct use_mutex.
  - unfold give_plugin_lock, RTI_TSFM_Mutex_give, update_plugin. t_run.
    + apply HQ; [done|]. wsimpl. by rewrite Hid.
    + specialize (Hu (w_ext w)). by rewrite Hans in Hu.
  - wp_step; apply HQ; [done|]. rewrite insert_id; [done|]. rewrite Hpl.
    destruct plug. cbn in *. by subst.
Qed.

Lemma session_ext w0 w1 la s loaned w :
  session w0 la s loaned w → w_next w1 = w_next w0 → w_heap w1 = w_heap w0 →
  session w1 la s loaned w.
Proof.
  intros [] Hn Hh. constructor; rewrite ?Hn; rewrite ?Hh; try done.
  intros k Hk. rewrite Hh. rewrite Hn in Hk. auto.
Qed.

(** A plugin whose user plugin has both callbacks, with its mutex free. *)
Definition plugin_ready (pl : nat) plug w : Prop :=
  heap_wf w ∧ w_heap w !! pl = Some (OPlugin plug) ∧ pl_lock plug = false
  ∧ seq_ok (pl_transforms plug) ∧ (∀ l, Ptr l ∈ registered (pl_transforms plug) → l < w_next w)
  ∧ ∃ u dp, pl_user_plugin plug = Ptr u
      ∧ w_heap w !! u = Some (OUserPlugin (UserTypePlugin dp true true)).

(** The memory after a transformation was asked of a plugin: there is a
    registered one at the beginning of its session, or nothing has changed. *)
Definition create_transformation_post (pl : nat) plug oti w (t : ptr) w' : Prop :=
  (∃ la s, t = Ptr (tl_self la)
     ∧ session (with_plugin pl (set_pl_transforms s plug) w) la empty_seq false w'
     ∧ tl_plugin la = pl ∧ tl_plug la = set_pl_transforms s plug
     ∧ cfg_output_type (tl_cfg la) = Some (ti_type_name oti)
     ∧ seq_ok s ∧ registered s = registered (pl_transforms plug) ++ [t])
  ∨ (t = Null ∧ w_heap w' = w_heap w).

Lemma create_transformation_wp `{!SeqLaws SA} {E} (R : E → W → Prop) pl plug iti oti ps out w :
  has_TConfig = true → cfg_output_type (TConfig_parsed ps TConfig_blank) = Some out →
  mutex_works → (∀ x, (answer x QDeleteData).1 = DDS_RETCODE_OK) → plugin_ready pl plug w →
  wp (TPlugin_create_transformation (Ptr pl) iti oti ps)
     (create_transformation_post pl plug oti w) R w.
Proof.
  intros Htc Hout Hmx Hdel (Hwf & Hpl & Hlk & Hok & Hreg & u & dp & Hup & Hu).
  unfold TPlugin_create_transformation.
  pose proof (heap_wf_lt _ _ _ Hwf Hpl) as Hltp. pose proof (heap_wf_lt _ _ _ Hwf Hu) as Hltu.
  assert (pl ≠ u) as Hpu by congruence. set (plk := set_pl_lock use_mutex plug).
  wp_step. eapply take_plugin_lock_wp; [done | done | done |]. intros w1 Hn1 Hh1.
  cbn [Z.eqb DDS_RETCODE_OK negb]. fold plk in Hh1.
  assert (heap_wf w1) as Hwf1.
  { intros k Hk. rewrite Hh1, lookup_insert_ne by lia. apply Hwf. lia. }
  wp_step. eapply wp_mono; [apply T_new_wp; [done | done | by exists out]| |by intros ? ? HJ; exact HJ].
  intros [rc self] w2 Hpost. cbn [fst snd].
  assert ((rc = DDS_RETCODE_ERROR ∧ self = Null ∧ w_heap w2 = w_heap w1) ∨ rc = DDS_RETCODE_OK)
    as [(-> & -> & Hh2)| ->].
  { destruct Hpost as (_ & _ & [(? & ? & ? & ? & ? & [= -> _] & _)|[[= -> ->] ?]]); auto. }
  { cbn [Z.eqb DDS_RETCODE_OK DDS_RETCODE_ERROR]. do 5 wp_step. wp_step. wp_step.
    eapply (give_plugin_lock_wp R pl plug); [done | rewrite Hh2, Hh1; heap_lookup | done |].
    intros _ w3 _ Hh3. wp_step; right. split; [done|].
    by rewrite Hh3, Hh2, Hh1, insert_insert_eq, insert_id. }
  destruct (T_new_session w1 pl plk u dp oti self w2) as (la & -> & Hs & Hlp & Hplug & Hcfg);
    [done | rewrite Hh1; heap_lookup | done | rewrite Hh1; heap_lookup | done |].
  assert (w_heap w2 !! pl = Some (OPlugin plk)) as Hpl2.
  { rewrite <- Hlp, <- Hplug. apply (tm_plugin _ _ _ _ (ss_mem _ _ _ _ _ Hs)). }
  assert (w_heap w1 !! pl = Some (OPlugin plk)) as Hpl1 by (rewrite Hh1; heap_lookup).
  cbn [Z.eqb DDS_RETCODE_OK]. wp_step. wp_step.
  eapply (initialize_transformation_wp R pl plk); [done | done | |].
  - intros s w3 Hr Hok3 Hn3 Hh3. cbn [Z.eqb DDS_RETCODE_OK]. wp_step. wp_step.
    set (plug3 := set_pl_transforms s plug).
    assert (session (with_plugin pl (set_pl_transforms s plk) w1) (replug (set_pl_transforms s plk) la)
      empty_seq false w3) as Hs3.
    { rewrite <- Hlp. eapply session_plugin; [exact Hs | by rewrite Hlp, Hplug | by rewrite Hplug | done |].
      by rewrite Hlp. }
    eapply (give_plugin_lock_wp R pl plug3); [done | rewrite Hh3; heap_lookup | done |].
    intros _ w4 Hn4 Hh4. wp_step; left. exists (replug plug3 la), s.
    split; [done|]. split; [|split_and!; done].
    pose proof (session_plugin _ _ _ _ _ plug3 w4 Hs3) as Hs4.
    cbn [replug tl_plugin tl_plug] in Hs4. rewrite Hlp in Hs4.
    eapply session_ext; [apply Hs4; try first [done | by rewrite Hh4]; by apply lookup_insert_eq| |].
    + unfold with_plugin. wsimpl. lia.
    + unfold with_plugin. wsimpl. by rewrite Hh1, !insert_insert_eq.
  - intros w3 _ Hn3 Hh3. cbn [Z.eqb DDS_RETCODE_OK DDS_RETCODE_ERROR]. wp_step.
    eapply (session_delete_wp R w1 la); [done | done | |].
    { pose proof (ss_mem _ _ _ _ _ Hs) as Hm. eapply session_step; [exact Hs | | ].
      - eapply tmem_same; [exact Hm | lia | done].
      - apply (footprint_layout (locked false la)); [done|]. eapply footprint_heap; [done..|].
        intros l _ _. by rewrite Hh3. }
    intros w4 Hn4 Hh4. do 2 wp_step.
    eapply (give_plugin_lock_wp R pl plug); [done | rewrite Hh4, Hh1; heap_lookup | done |].
    intros _ w5 _ Hh5. wp_step; right. split; [done|].
    by rewrite Hh5, Hh4, Hh1, insert_insert_eq, insert_id.
Qed.

Lemma delete_transformation_wp {E} (R : E → W → Prop) w0 pl plug la s loaned l' w Q :
  has_TConfig = true → mutex_works → (∀ x, (answer x QDeleteData).1 = DDS_RETCODE_OK) →
  (∀ x n, (answer x (QSeqSetLength n)).1 ≠ 0%Z) →
  session w0 la s loaned w → w_heap w0 !! pl = Some (OPlugin plug) →
  tl_plugin la = pl → tl_plug la = plug → pl_lock plug = false → seq_ok (pl_transforms plug) →
  remove_first (Ptr (tl_self la)) (registered (pl_transforms plug)) = Some l' →
  (∀ s' w', registered s' = l' → seq_ok s' →
     w_heap w' = <[pl := OPlugin (set_pl_transforms s' plug)]> (w_heap w0) → Q () w') →
  wp (TPlugin_delete_transformation (Ptr pl) (Ptr (tl_self la))) Q R w.
Proof.
  intros Htc Hmx Hdel Hset Hs Hpl <- <- Hlk Hok Hrm HQ. unfold TPlugin_delete_transformation.
  set (pl := tl_plugin la) in *. set (plug := tl_plug la) in *.
  set (plk := set_pl_lock use_mutex plug).
  assert (w_heap w !! pl = Some (OPlugin plug)) as Hplw by apply (tm_plugin _ _ _ _ (ss_mem _ _ _ _ _ Hs)).
  wp_step. eapply take_plugin_lock_wp; [done | done | done |]. intros w1 Hn1 Hh1.
  cbn [Z.eqb DDS_RETCODE_OK negb]. fold plk in Hh1.
  pose proof (session_plugin _ _ _ _ _ plk w1 Hs Hpl eq_refl Hn1 Hh1) as Hs1. fold pl in Hs1.
  wp_step. eapply (finalize_transformation_wp R pl plk); [rewrite Hh1; heap_lookup | done | | |].
  - intros s' w2 l2 Hl2 Hr Hok2 Hn2 Hh2. cbn [plk set_pl_lock pl_transforms] in Hl2.
    rewrite Hrm in Hl2. injection Hl2 as <-.
    assert (w_heap (with_plugin pl plk w0) !! pl = Some (OPlugin plk)) as Hpl1
      by apply lookup_insert_eq.
    pose proof (session_plugin _ _ _ _ _ (set_pl_transforms s' plk) w2 Hs1 Hpl1 eq_refl Hn2 Hh2) as Hs2.
    cbn [Z.eqb DDS_RETCODE_OK]. wp_step.
    eapply (session_delete_wp R _ (replug (set_pl_transforms s' plk) (replug plk la)));
      [done | done | exact Hs2 |].
    intros w3 Hn3 Hh3. cbn [replug tl_plugin] in Hh3. fold pl in Hh3. wp_step.
    eapply (give_plugin_lock_wp R pl (set_pl_transforms s' plug)); [done | | done |].
    { rewrite Hh3. apply lookup_insert_eq. }
    intros _ w4 _ Hh4. wp_step; eapply HQ; [exact Hr | done |].
    rewrite Hh4, Hh3. unfold with_plugin. wsimpl. by rewrite !insert_insert_eq.
  - intros w2 Hl2. cbn [plk set_pl_lock pl_transforms] in Hl2. by rewrite Hrm in Hl2.
  - intros s' w2 l2 (x & n & Hx). by destruct (Hset x n).
Qed.

Lemma remove_last_new (t : ptr) l : t ∉ l → remove_first t (l ++ [t]) = Some l.
Proof.
  induction l as [|q l IH]; cbn; intros Hni.
  - by rewrite bool_decide_true.
  - apply not_elem_of_cons in Hni as [Hq Hni]. rewrite bool_decide_false by congruence.
    by rewrite IH.
Qed.

(** C5: the transformations of a plugin under its mutex.  A transformation
    created through the plugin is registered; it can be used for any batches of
    samples; and deleting it through the plugin removes it from the registry,
    frees everything it owned and leaves the mutex free: of the whole memory
    only the buffer of the registry may differ, and not the transformations in
    it. *)
Theorem plugin_session `{!SeqLaws SA} w pl plug iti oti ps out batches :
  has_TConfig = true → cfg_output_type (TConfig_parsed ps TConfig_blank) = Some out →
  mutex_works → (∀ x, (answer x QDeleteData).1 = DDS_RETCODE_OK) →
  (∀ x n, (answer x (QSeqSetLength n)).1 ≠ 0%Z) →
  plugin_ready pl plug w → Forall (batch_given w) batches →
  wp (t ← TPlugin_create_transformation (E := Empty_set) (Ptr pl) iti oti ps;
      if decide (t = Null) then mret ()
      else use_transformation t batches;; TPlugin_delete_transformation (Ptr pl) t)
    (λ _ w', ∃ s', registered s' = registered (pl_transforms plug)
       ∧ w_heap w' = <[pl := OPlugin (set_pl_transforms s' plug)]> (w_heap w)) no_jump w.
Proof.
  intros Htc Hout Hmx Hdel Hset Hready Hb.
  pose proof Hready as (Hwf & Hpl & Hlk & Hok & Hreg & _).
  assert (w_heap w = <[pl := OPlugin (set_pl_transforms (pl_transforms plug) plug)]> (w_heap w)) as Hid
    by (rewrite insert_id; [done | by destruct plug]).
  wp_step. eapply wp_mono; [by eapply (create_transformation_wp no_jump pl plug)| |done].
  intros t w1 [(la & s & -> & Hs & Hlp & Hplug & _ & Hok' & Hr)|[-> Hh1]].
  2: { rewrite decide_True by done. wp_step; exists (pl_transforms plug). by rewrite Hh1. }
  rewrite decide_False by done. wp_step.
  eapply wp_mono; [apply (use_transformation_wp no_jump _ la batches empty_seq false _ (proj2 Hmx) Hs)| |done].
  { eapply Forall_impl; [exact Hb|]. intros b [Hne [args Hin]]. split; [done|]. exists args.
    eapply Forall2_impl; [exact Hin|]. intros pi vd [(iq & Hq & Hi) Hd].
    split.
    - exists iq. split; [done|]. unfold with_plugin. wsimpl. rewrite lookup_insert_ne; [done | congruence].
    - destruct vd.2 as [d|]; [|done]. destruct Hd as (ip & ? & Hip & ?). exists ip. split; [done|].
      split; [|done]. unfold with_plugin. wsimpl. rewrite lookup_insert_ne; [done | congruence]. }
  intros _ w2 (s2 & ld & Hs2).
  eapply (delete_transformation_wp no_jump _ pl _ la); try done.
  - apply lookup_insert_eq.
  - cbn [set_pl_transforms pl_transforms]. rewrite Hr. apply remove_last_new. intros Hin.
    apply Hreg in Hin. pose proof (ss_self _ _ _ _ _ Hs) as Hge. unfold with_plugin in Hge. wsimpl. lia.
  - intros s' w3 Hr3 _ Hh3. exists s'. split; [done|]. rewrite Hh3. unfold with_plugin. wsimpl.
    by rewrite insert_insert_eq.
Qed.

(** The transform callback.  It works under the mutex and gives it back:
    the transformation is ready for the next call, on loan or not, and each
    valid sample has been converted as in the base transformation. *)
Theorem T_transform_spec `{!SeqLaws SA} la s loaned w batch args :
  unlock_works → tmem (locked false la) s loaned w → batch ≠ [] →
  Forall2 (λ pi vd, input_ok s w pi vd.1 vd.2) batch args →
  wp (T_transform (E := Empty_set) (Ptr (tl_self la)) batch)
    (λ r w', match r with
       | Some (samples, infos, count) =>
           loaned = false ∧ infos = batch.*2 ∧ count = valid_count args
           ∧ ∃ s1 s', grown (length batch) s s1 ∧ tmem (locked false la) s' true w'
             ∧ samples = sq_buffer s' ∧ count ≤ sq_length s'
             ∧ slots_converted la 0 args s1 s' w' ∧ footprint la s s' w w'
       | None => ∃ s', tmem (locked false la) s' loaned w' ∧ footprint la s s' w w'
       end) no_jump w.
Proof. apply T_transform_wp. Qed.

(** The update callback takes the mutex a second time where it should
    give it back: compiled with mutexes, it never returns. *)
Theorem T_update_deadlocks self t ps w :
  use_mutex = true → w_heap w !! self = Some (OTransformation t) → tf_lock t = false →
  (∀ x, (answer x QMutexLock).1 = 0%Z) →
  T_update (E := Empty_set) (Ptr self) ps w = Hang.
Proof.
  intros Hmx Hself Hlk Hlock. unfold T_update. rewrite Hmx.
  unfold take_lock, load_transformation, load, RTI_TSFM_Mutex_take, update_transformation,
    load_transformation, store, call, RTI_TSFM_Transformation_update, mbind, M_bind, mret, M_ret, hang.
  rewrite Hself. cbn. rewrite Hlock, Hlk. cbn. rewrite Hself. cbn. rewrite Hself. cbn.
  rewrite lookup_insert_eq. cbn. rewrite Hlock. by cbn.
Qed.


(** Without a configuration type of the user's, nothing writes the
    configuration member of the parent before its initialization branches on
    it: the constructor reads memory that malloc returned. *)
Theorem T_new_uninitialized plugin iti oti ps w :
  has_TConfig = false → has_TState = false →
  (∀ x, (answer x (QMalloc "T")).1 ≠ 0%Z) → (∀ x, (answer x QMutexInit).1 = 0%Z) →
  (∀ x, (answer x QSeqInitialize).1 ≠ 0%Z) →
  T_new (TI := base_initialize) (E := Empty_set) plugin iti oti ps w = Fault UninitRead.
Proof.
  intros Htc Hts Hmalloc Hmx Hseq. unfold T_new, T_new_state, T_new_config. rewrite Htc, Hts.
  unfold T_initialize, base_initialize, new, labelled, RTI_TSFM_Transformation_initialize, RTI_TSFM_Mutex_initialize, labelled,
    update_transformation, load_transformation, load, store, alloc, call, is_null, when, goto,
    mbind, M_bind, mret, M_ret, fail, set_heap; cbn.
  rewrite (proj2 (Z.eqb_neq _ _) (Hmalloc _)). cbn. rewrite lookup_insert_eq. cbn.
  rewrite lookup_insert_eq. cbn. destruct use_mutex; cbn.
  - rewrite Hmx. cbn. rewrite !lookup_insert_eq. cbn. rewrite !lookup_insert_eq. cbn.
    rewrite (proj2 (Z.eqb_neq _ _) (Hseq _)). cbn. rewrite !lookup_insert_eq. by cbn.
  - rewrite (proj2 (Z.eqb_neq _ _) (Hseq _)). cbn. rewrite !lookup_insert_eq. by cbn.
Qed.


(** ** The life of a plugin *)

(** When the initialization of a static plugin fails, the user plugin is
    freed twice: by the finalizer that the initialization calls, and again by
    the label of the constructor. *)
Theorem TPlugin_create_double_free ps w :
  T_static = true → has_TPluginConfig = false → has_TPluginState = false → use_mutex = false →
  (∀ x what, (answer x (QMalloc what)).1 ≠ 0%Z) → (∀ x, (answer x QSeqInitialize).1 = 0%Z) →
  TPlugin_create (E := Empty_set) ps w = Fault UseAfterFree.
Proof.
  intros Hst Htc Hts Hmx Hmalloc Hseq.
  assert (TPlugin_new (E := Empty_set) ps w = Fault UseAfterFree) as Hnew.
  { unfold TPlugin_new, TPlugin_new_members, TPlugin_new_parent. rewrite Hst, Htc, Hts.
    erewrite bind_Ok; [|by apply new_Ok]. set (w1 := World _ _ _ _).
    erewrite bind_Ok; [|done].
    apply (labelled_jump _ _ (λ e w', ∃ u, e = Ptr u ∧ w_heap w' !! u = None)).
    - unfold RTI_TSFM_UserTypePlugin_create_static, RTI_TSFM_TransformationPlugin_initialize_static,
        initialize_static_error, RTI_TSFM_TransformationPlugin_finalize,
        RTI_TSFM_UserTypePlugin_delete_default, update_plugin, set_pl_transforms, set_pl_config,
        set_pl_user_plugin. rewrite Hmx.
      assert (w_heap w1 !! w_next w = Some (OPlugin malloc_TPlugin)) as Hw1 by apply lookup_insert_eq.
      assert (w_next w1 = S (w_next w)) as Hn1 by done. clearbody w1.
      t_run.
      2: { exfalso. match goal with H : answer ?x QSeqInitialize = _ |- _ => specialize (Hseq x); by rewrite H in Hseq end. }
      rewrite bool_decide_false by (cbn; lia).
      t_run.
      all: eexists; (split; [reflexivity|]); wsimpl; by heap_lookup.
    - intros e w' (u & -> & Hu). unfold TPlugin_new_error. rewrite Hst, Htc, Hts.
      unfold RTI_TSFM_UserTypePlugin_delete_default, load_user_plugin, load, mbind, M_bind, mret, M_ret.
      cbn. by rewrite Hu. }
  unfold TPlugin_create, mbind, M_bind. by rewrite Hnew.
Qed.

(** The memory with a new static plugin: its struct, the parsed configuration
    of its parent, its user plugin, and the members of the user's types. *)
Record plugin_made w (ps : properties) (self : nat) w' : Prop := {
  pm_wf : heap_wf w';
  pm_heap : ∃ u c lk tc ts cfg,
    w_heap w' = <[self := OPlugin (TransformationPlugin empty_seq (Ptr c) (Ptr u) lk true
        (TFields tc ts))]>
      (<[c := OPConfig (parsed_plugin_config ps)]>
      (<[u := OUserPlugin (UserTypePlugin true true true)]>
      (put_ptr (if has_TPluginConfig then tc else Null) (OPConfig cfg)
      (put_ptr (if has_TPluginState then ts else Null) OTState (w_heap w)))))
    ∧ w_next w ≤ self ∧ self < u ∧ u < c
    ∧ (has_TPluginState = true → ∃ s, ts = Ptr s ∧ self < s ∧ s < u ∧ tc ≠ Ptr s)
    ∧ (has_TPluginConfig = true → ∃ k, tc = Ptr k ∧ self < k ∧ k < u)
}.

(** Where the constructor succeeds. *)
Lemma TPlugin_new_body_wp self ps w w0 :
  T_static = true → heap_wf w → self = w_next w → w_next w0 = S self →
  w_heap w0 = <[self := OPlugin (set_tp_config (if has_TPluginConfig then Null else Wild) malloc_TPlugin)]>
    (w_heap w) →
  wp (TPlugin_new_members (Ptr self) ps;;
      TPlugin_new_parent (Ptr self) ps;;
      update_plugin (Ptr self) (set_pl_vtable true);;
      mret (DDS_RETCODE_OK, Ptr self))
    (λ r w', r = (DDS_RETCODE_OK, Ptr self) ∧ plugin_made w ps self w') (λ _ _, True) w0.
Proof.
  intros Hst Hwf -> Hn0 Hh0. unfold TPlugin_new_members, TPlugin_new_parent, TPluginState_new,
    TPluginConfig_new, TPluginConfig_parse, RTI_TSFM_UserTypePlugin_create_static.
  unfold update_plugin, set_tp_state, set_tp_config, set_pl_config in *. rewrite Hst.
  destruct w0 as [n0 h0 x0 t0]; cbn [w_next w_heap] in *; subst n0 h0.
  destruct has_TPluginState eqn:Hts, has_TPluginConfig eqn:Htc; t_run; try done.
  all: (eapply (wp_mono _ _ _ (λ _ _, True)); [eapply initialize_static_wp; [heap_wf_tac | heap_lookup | heap_lookup | done]
        | | done]).
  all: intros rc w1 (Hwf1 & Hn1 & [(-> & c & lk & -> & Hh1)|(-> & s & lk & _)]); [|by t_run].
  all: cbn [Z.eqb DDS_RETCODE_OK negb]; wp_step; wp_step; wp_step;
    (eapply wp_load_plugin; [rewrite Hh1; heap_lookup|]); (eapply wp_store; [rewrite Hh1; heap_lookup|]);
    wp_step; split; [done|]; (split; [intros k Hk; wsimpl; pose proof (Hwf1 k Hk) as Hk1;
      rewrite lookup_insert_ne; [done | intros <-; rewrite Hh1 in Hk1; by rewrite lookup_insert_eq in Hk1] |]);
    wsimpl; cbn [pl_fields] in Hh1.
  - exists (S (S (S (w_next w)))), (S (S (S (S (w_next w))))), lk, (Ptr (S (S (w_next w)))), (Ptr (S (w_next w))), (TPluginConfig_parsed ps TPluginConfig_blank).
    rewrite Hh1, Hts, Htc. cbn [put_ptr]. unfold set_pl_vtable.
    split; [heap_eq|]. split; [lia|]. split; [lia|]. split; [lia|]. split; intros ?; try done.
    + exists (S (w_next w)). split_and!; try done; try lia; intros [=]; lia.
    + exists (S (S (w_next w))). split_and!; try done; lia.
  - exists (S (S (w_next w))), (S (S (S (w_next w)))), lk, Wild, (Ptr (S (w_next w))), (TPluginConfig_parsed ps TPluginConfig_blank).
    rewrite Hh1, Hts, Htc. cbn [put_ptr]. unfold set_pl_vtable.
    split; [heap_eq|]. split; [lia|]. split; [lia|]. split; [lia|]. split; intros ?; try done.
    exists (S (w_next w)). split_and!; try done; try lia.
  - exists (S (S (w_next w))), (S (S (S (w_next w)))), lk, (Ptr (S (w_next w))), Wild, (TPluginConfig_parsed ps TPluginConfig_blank).
    rewrite Hh1, Hts, Htc. cbn [put_ptr]. unfold set_pl_vtable.
    split; [heap_eq|]. split; [lia|]. split; [lia|]. split; [lia|]. split; intros ?; try done.
    exists (S (w_next w)). split_and!; try done; lia.
  - exists (S (w_next w)), (S (S (w_next w))), lk, Wild, Wild, (TPluginConfig_parsed ps TPluginConfig_blank).
    rewrite Hh1, Hts, Htc. cbn [put_ptr]. unfold set_pl_vtable.
    split; [heap_eq|]. split; [lia|]. split; [lia|]. split; [lia|]. split; intros ?; try done.
Qed.

(** The label of the constructor always reports an error. *)
Lemma TPlugin_new_error_rc {E} (self user_plugin : ptr) w r w' :
  TPlugin_new_error (E := E) self user_plugin w = Ok r w' → r.1 = DDS_RETCODE_ERROR.
Proof.
  unfold TPlugin_new_error. intros H.
  repeat (apply bind_inv in H as (? & ? & _ & H)). by injection H as <- _.
Qed.

Lemma TPlugin_new_made ps p w w' :
  T_static = true → heap_wf w →
  TPlugin_new (E := Empty_set) ps w = Ok (DDS_RETCODE_OK, p) w' →
  ∃ self, p = Ptr self ∧ plugin_made w ps self w'.
Proof.
  intros Hst Hwf Hnew. unfold TPlugin_new in Hnew.
  apply bind_inv in Hnew as (p1 & w1 & Hp1 & Hnew).
  assert (p1 = Null ∨ p1 = Ptr (w_next w) ∧ w_next w1 = S (w_next w)
            ∧ w_heap w1 = <[w_next w := OPlugin malloc_TPlugin]> (w_heap w)) as [->|(-> & Hn1 & Hh1)].
  { unfold new, mbind, M_bind, call in Hp1. destruct (_ =? 0)%Z; injection Hp1 as <- <-; auto. }
  { cbn in Hnew. discriminate Hnew. }
  apply bind_inv in Hnew as (b & w2 & Hb & Hnew). injection Hb as <- <-.
  apply bind_inv in Hnew as ([] & w3 & Hw3 & Hnew).
  assert (w_next w3 = S (w_next w) ∧ w_heap w3 = <[w_next w := OPlugin
    (set_tp_config (if has_TPluginConfig then Null else Wild) malloc_TPlugin)]> (w_heap w)) as [Hn3 Hh3].
  { destruct has_TPluginConfig.
    - unfold update_plugin, load_plugin, load, store, mbind, M_bind, mret, M_ret in Hw3.
      rewrite Hh1, lookup_insert_eq in Hw3. cbn in Hw3. rewrite Hh1, lookup_insert_eq in Hw3.
      injection Hw3 as <-. split; [done|]. wsimpl. by rewrite insert_insert_eq.
    - injection Hw3 as <-. split; [done|]. by rewrite Hh1. }
  destruct (labelled_inv _ _ _ _ _ _ _
    (TPlugin_new_body_wp (w_next w) ps w w3 Hst Hwf eq_refl Hn3 Hh3) Hnew) as [[[= ->] Hmade]|He].
  - by eexists.
  - destruct He as (e & w4 & _ & He). apply TPlugin_new_error_rc in He. discriminate He.
Qed.

(** Deleting a static plugin that was created gives back its struct, its
    user plugin and the members of the user's types; but when the template has
    a configuration type, the configuration the parent parsed for itself stays
    allocated, for the destructor overwrites the only pointer to it. *)
Theorem TPlugin_delete_created ps p w w' :
  T_static = true → heap_wf w →
  TPlugin_new (E := Empty_set) ps w = Ok (DDS_RETCODE_OK, p) w' →
  wp (TPlugin_delete (E := Empty_set) p)
    (λ _ w'', if has_TPluginConfig
       then ∃ k, w_heap w !! k = None
              ∧ w_heap w'' = <[k := OPConfig (parsed_plugin_config ps)]> (w_heap w)
       else w_heap w'' = w_heap w) no_jump w'.
Proof.
  intros Hst Hwf Hnew. destruct (TPlugin_new_made ps p w w' Hst Hwf Hnew) as (self & -> & [Hwf' Hmade]).
  destruct Hmade as (u & c & lk & tc & ts & cfg & Hh & Hge & Hsu & Huc & Hts & Htc).
  unfold TPlugin_delete, TPluginState_delete, TPluginConfig_delete, load_state, update_plugin,
    set_tp_state, set_tp_config, set_pl_config.
  destruct w' as [n' h' x' t']; wsimpl; subst h'.
  destruct has_TPluginState, has_TPluginConfig.
  all: try (destruct Hts as (s & -> & ? & ? & ?); [done|]); try (destruct Htc as (k & -> & ? & ?); [done|]);
    cbn [put_ptr].
  all: try assert (s ≠ k) by congruence.
  all: t_run.
  all: eapply plugin_finalize_wp; [heap_lookup | split; cbn; [heap_lookup | try done; eexists; heap_lookup] | cbn; lia |].
  all: intros s' w2 _ Hn2 Hh2; cbn [delete_ptr pl_user_plugin pl_config pl_lock pl_vtable pl_fields] in Hh2;
    (eapply wp_free; [rewrite Hh2; heap_lookup|]); wsimpl; rewrite Hh2.
  all: try (exists c; split; [apply Hwf; lia|]).
  all: heap_eq.
Qed.

End theorems.
