(* ===== verification/DynHelpers.v ===== *)
(** Helpers on sequences of bytes, type codes and DynamicData
    (common/dds_specific/srcC: SequenceHelpers.c, DynamicDataHelpers.c).  The
    octet and the char functions of the source are the same text on two element
    types: one definition with a [seq_kind]. *)
From Stdlib Require Import ZArith Lia Ascii.
From stdpp Require Import base strings list option.
From S2P Require Import Prelude.

#[local] Open Scope string_scope.
#[local] Open Scope list_scope.
#[local] Open Scope Z_scope.

(** DDS_OctetSeq and DDS_CharSeq. *)
Inductive seq_kind := OctetSeq | CharSeq.

(** A DDS sequence of bytes: its elements (their number is the length), its
    maximum, and whether it holds a buffer on loan. *)
Record dds_seq := DdsSeq { ds_elements : list Z; ds_maximum : Z; ds_loaned : bool }.

(** DDS_SEQUENCE_INITIALIZER, and a sequence that was unloaned. *)
Definition fresh_seq : dds_seq := DdsSeq [] 0 false.

Definition ds_length (s : dds_seq) : Z := Z.of_nat (length (ds_elements s)).

(** The operations of DDS on these sequences; [None] is DDS_BOOLEAN_FALSE (or
    NULL).  [loan_contiguous] gets the memory at the buffer's address. *)
Class SeqLib := {
  set_length : seq_kind → dds_seq → Z → option dds_seq;
  loan_contiguous : seq_kind → dds_seq → list Z → Z → Z → option dds_seq;
  unloan : seq_kind → dds_seq → option dds_seq;
  get_contiguous_buffer : seq_kind → dds_seq → option (list Z)
}.

(** What DDS documents of them. *)
Class SeqLibLaws (SL : SeqLib) := {
  set_length_spec : ∀ k s n s', 0 <= n → set_length k s n = Some s' →
    ds_length s' = n ∧ n <= ds_maximum s'
    ∧ ∀ i, (i < length (ds_elements s))%nat → Z.of_nat i < n →
        ds_elements s' !! i = ds_elements s !! i;
  loan_fresh : ∀ k buffer len max, 0 <= len <= max → len <= Z.of_nat (length buffer) →
    loan_contiguous k fresh_seq buffer len max
      = Some (DdsSeq (take (Z.to_nat len) buffer) max true);
  loan_too_long : ∀ k s buffer len max, max < len → loan_contiguous k s buffer len max = None;
  loan_busy : ∀ k s buffer len max, ds_loaned s = true → loan_contiguous k s buffer len max = None;
  unloan_loaned : ∀ k s, ds_loaned s = true → unloan k s = Some fresh_seq;
  buffer_elements : ∀ k s b, get_contiguous_buffer k s = Some b → b = ds_elements s;
  buffer_nonempty : ∀ k s, ds_elements s ≠ [] → is_Some (get_contiguous_buffer k s)
}.

(** DynamicData: reading a member into a sequence, writing it from one. *)
Class DynData (DD : Type) := {
  get_seq : seq_kind → DD → string → dds_seq → Z * dds_seq;
  set_seq : seq_kind → DD → string → dds_seq → Z * DD
}.

Section sequences.
Context {DD : Type} {SL : SeqLib} {DY : DynData DD}.

(** What the helpers work on: the sample and the intermediate sequence. *)
Record hstate := HState { h_data : DD; h_seq : dds_seq }.

Definition get_h {E} : M hstate E hstate := λ h, Ok h h.
Definition put_seq {E} (s : dds_seq) : M hstate E () := λ h, Ok () (HState (h_data h) s).
Definition put_data {E} (d : DD) : M hstate E () := λ h, Ok () (HState d (h_seq h)).

(** DDS_OctetSeq_assert_nul_terminator and DDS_CharSeq_assert_nul_terminator *)
Definition assert_nul_terminator {E} (k : seq_kind) : M hstate E bool :=
  h ← get_h;
  let self := h_seq h in
  let len := ds_length self in
  if len =? 0 then mret false
  else
    match ds_elements self !! Z.to_nat (len - 1) with
    | None => fail OutOfBounds
    | Some b =>
        if b =? 0 then mret true
        else
          match set_length k self (len + 1) with
          | None => mret false
          | Some self' =>
              match ds_elements self' !! Z.to_nat len with
              | None => fail OutOfBounds
              | Some _ =>
                  put_seq (DdsSeq (<[Z.to_nat len := 0]> (ds_elements self')) (ds_maximum self')
                             (ds_loaned self'));;
                  mret true
              end
          end
    end.

Definition DDS_OctetSeq_assert_nul_terminator {E} : M hstate E bool := assert_nul_terminator OctetSeq.
Definition DDS_CharSeq_assert_nul_terminator {E} : M hstate E bool := assert_nul_terminator CharSeq.

(** The return code and *contiguous_buffer; [want_len] says that the pointer
    contiguous_buffer_len is not NULL, and then *contiguous_buffer_len is the
    third result. *)
Definition get_seq_contiguous_buffer {E} (k : seq_kind) (member : string) (want_len : bool)
    : M hstate E (Z * option (list Z) * option Z) :=
  labelled
    (h ← get_h;
     let r := get_seq k (h_data h) member (h_seq h) in
     put_seq r.2;;
     when (negb (r.1 =? DDS_RETCODE_OK)) (goto (r.1, None));;
     h ← get_h;
     len ← (if want_len then mret (Some (ds_length (h_seq h)))
            else
              ok ← (match k with
                    | OctetSeq => DDS_OctetSeq_assert_nul_terminator
                    | CharSeq => DDS_CharSeq_assert_nul_terminator
                    end);
              when (negb ok) (goto (DDS_RETCODE_ERROR, None));;
              mret None);
     h ← get_h;
     let buffer := get_contiguous_buffer k (h_seq h) in
     when (bool_decide (buffer = None)) (goto (DDS_RETCODE_ERROR, len));;
     mret (DDS_RETCODE_OK, buffer, len))
    (λ e, mret (e.1, None, e.2)).

Definition RTI_COMMON_DynamicData_get_octet_seq_contiguous_buffer {E} (member : string) (want_len : bool)
    : M hstate E (Z * option (list Z) * option Z) := get_seq_contiguous_buffer OctetSeq member want_len.
Definition RTI_COMMON_DynamicData_get_char_seq_contiguous_buffer {E} (member : string) (want_len : bool)
    : M hstate E (Z * option (list Z) * option Z) := get_seq_contiguous_buffer CharSeq member want_len.

(** strlen on the memory at an address: the position of the first NUL. *)
Fixpoint strlen (memory : list Z) : option nat :=
  match memory with
  | [] => None
  | b :: memory' => if b =? 0 then Some 0%nat else S <$> strlen memory'
  end.

(** The size of the data to set; a buffer_size of 0 asks for the string's. *)
Definition current_size {E} (buffer : list Z) (max_size buffer_size : Z) : M hstate E Z :=
  if 0 <? buffer_size then mret (s32 buffer_size)
  else
    match strlen buffer with
    | None => fail OutOfBounds
    | Some n =>
        let size := s32 (s32 (Z.of_nat n) + 1) in
        mret (if u32 (size - 1) =? max_size then size - 1 else size)
    end.

(** RTI_COMMON_DynamicData_set_octet_seq_from_string and its char variant: the
    buffer is lent to the sequence, and taken back on success. *)
Definition set_seq_from_string {E} (k : seq_kind) (member : string) (buffer : list Z)
    (max_size buffer_size : Z) : M hstate E Z :=
  size ← current_size buffer max_size buffer_size;
  labelled
    (h ← get_h;
     match loan_contiguous k (h_seq h) buffer size (s32 max_size) with
     | None => goto DDS_RETCODE_ERROR
     | Some seq =>
         put_seq seq;;
         let r := set_seq k (h_data h) member seq in
         put_data r.2;;
         when (negb (r.1 =? DDS_RETCODE_OK)) (goto r.1);;
         match unloan k seq with
         | None => goto DDS_RETCODE_ERROR
         | Some seq => put_seq seq;; mret DDS_RETCODE_OK
         end
     end)
    mret.

Definition RTI_COMMON_DynamicData_set_octet_seq_from_string {E} (member : string) (buffer : list Z)
    (max_size buffer_size : Z) : M hstate E Z := set_seq_from_string OctetSeq member buffer max_size buffer_size.
Definition RTI_COMMON_DynamicData_set_char_seq_from_string {E} (member : string) (buffer : list Z)
    (max_size buffer_size : Z) : M hstate E Z := set_seq_from_string CharSeq member buffer max_size buffer_size.
End sequences.
Arguments hstate : clear implicits.
Arguments HState {DD} _ _.

(** ** Type codes *)

(** DDS_TypeCode: the id of a member and an exception flag; the type of the
    member with an id, NULL or not, and an exception flag. *)
Class TypeCodeLib (TC : Type) := {
  find_member_by_name : TC → string → Z * bool;
  member_type : TC → Z → option TC * bool
}.

(** RTIOsapiUtility_strToken with the delimiter ".": the next token and what
    remains, [None] when there is none. *)
Class StrToken := str_token : string → option (string * string).

Definition TYPE_CODE_LENGTH : Z := 256.

Section type_codes.
Context {TC : Type} {TL : TypeCodeLib TC} {ST : StrToken}.

(** strchr(s, '.') != NULL *)
Fixpoint has_dot (s : string) : bool :=
  match s with
  | EmptyString => false
  | String c s' => if Ascii.eqb c "."%char then true else has_dot s'
  end.

(** A type of a member: with an exception, the result is NULL where the code
    says so and what DDS returned where it does not. *)
Definition direct_member_type (self : TC) (name : string) : option TC :=
  let f := find_member_by_name self name in
  if f.2 then None
  else (member_type self f.1).1.

(** The loop over the tokens.  [fuel] bounds the number of iterations. *)
Fixpoint nested_member_type (fuel : nat) (self : TC) (token : option (string * string))
    : option (option TC) :=
  match token with
  | None => Some (Some self)
  | Some (name, remaining) =>
      match fuel with
      | O => None
      | S fuel =>
          let f := find_member_by_name self name in
          if f.2 then Some None
          else
            let m := member_type self f.1 in
            if m.2 then Some None
            else
              match m.1 with
              (* NULL: the result, or an exception for the next token *)
              | None => Some None
              | Some tc => nested_member_type fuel tc (str_token remaining)
              end
      end
  end.

(** [dup_ok]: whether DDS_String_dup succeeds, which is called when the name
    does not fit the local buffer.  [None]: out of fuel. *)
Definition RTI_COMMON_TypeCode_get_member_type (fuel : nat) (dup_ok : bool) (self : TC)
    (member_name : string) : option (option TC) :=
  if negb (has_dot member_name) then Some (direct_member_type self member_name)
  else if (TYPE_CODE_LENGTH - 1 <? Z.of_nat (String.length member_name)) && negb dup_ok
  then Some None
  else nested_member_type fuel self (str_token member_name).
End type_codes.

(** * Specifications *)

(** What strtok_r does, for one delimiter. *)
Class StrTokenLaws (ST : StrToken) := {
  tok_end : str_token "" = None;
  tok_last : ∀ name, name ≠ "" → has_dot name = false → str_token name = Some (name, "");
  tok_more : ∀ name rest, name ≠ "" → has_dot name = false →
    str_token (name ++ String "." rest)%string = Some (name, rest);
  tok_shrinks : ∀ s name rest, str_token s = Some (name, rest) →
    (String.length rest < String.length s)%nat
}.

Section type_code_theorems.
Context {TC : Type} {TL : TypeCodeLib TC} {ST : StrToken} {SL : StrTokenLaws ST}.

(** An exception comes with NULL. *)
Definition null_on_exception : Prop :=
  ∀ (tc : TC) id, (member_type tc id).2 = true → (member_type tc id).1 = None.

(** The reference: one member after the other. *)
Definition member_of (tc : TC) (name : string) : option TC :=
  let f := find_member_by_name tc name in
  if f.2 then None else let m := member_type tc f.1 in if m.2 then None else m.1.

Fixpoint path_type (tc : TC) (names : list string) : option TC :=
  match names with
  | [] => Some tc
  | name :: names' => tc' ← member_of tc name; path_type tc' names'
  end.

(** The name of a nested member. *)
Fixpoint dotted (names : list string) : string :=
  match names with
  | [] => ""
  | [name] => name
  | name :: names' => (name ++ String "." (dotted names'))%string
  end.

Definition plain_name (name : string) : Prop := name ≠ "" ∧ has_dot name = false.

Lemma has_dot_app s t : has_dot (s ++ t)%string = has_dot s || has_dot t.
Proof.
  induction s as [|c s IH]; [done|].
  change (has_dot (String c (s ++ t)%string) = has_dot (String c s) || has_dot t).
  cbn [has_dot]. by case_match.
Qed.

Lemma length_string_app s t : String.length (s ++ t)%string = (String.length s + String.length t)%nat.
Proof.
  induction s as [|c s IH]; [done|].
  change (S (String.length (s ++ t)%string) = S (String.length s + String.length t)%nat).
  by rewrite IH.
Qed.

Lemma dotted_length names :
  Forall plain_name names → (length names ≤ String.length (dotted names))%nat.
Proof.
  induction 1 as [|name names [Hne _] Hall IH]; cbn [length dotted]; [lia|].
  assert (0 < String.length name)%nat by (destruct name; [done | cbn; lia]).
  destruct names as [|n names]; [cbn; lia|]. rewrite length_string_app. cbn [String.length length] in *. lia.
Qed.

(** The loop over the tokens of a dotted name is the walk along the path. *)
Lemma nested_path names fuel tc :
  Forall plain_name names → (length names ≤ fuel)%nat →
  nested_member_type fuel tc (str_token (dotted names)) = Some (path_type tc names).
Proof.
  intros Hall. revert fuel tc. induction Hall as [|name names [Hne Hnd] Hall IH]; intros fuel tc Hf; cbn [dotted].
  { rewrite tok_end. by destruct fuel. }
  cbn [length] in Hf. destruct fuel as [|fuel]; [lia|].
  assert (str_token (match names with [] => name | _ => (name ++ String "." (dotted names))%string end)
          = Some (name, dotted names)) as ->.
  { destruct names. { by apply tok_last. } by apply tok_more. }
  cbn [nested_member_type path_type]. unfold member_of.
  destruct (find_member_by_name tc name) as [id []]; cbn [fst snd]; [done|].
  destruct (member_type tc id) as [[tc'|] []]; cbn; try done. apply IH. lia.
Qed.

(** C29: the type of a nested member.  For a name made of member names
    separated by dots, of any length, the result is the type that the walk from
    member to member finds, and NULL exactly where the walk fails or where a
    name that does not fit the local buffer cannot be duplicated. *)
Theorem get_member_type_path names dup_ok fuel (tc : TC) :
  null_on_exception → names ≠ [] → Forall plain_name names →
  (String.length (dotted names) ≤ fuel)%nat →
  RTI_COMMON_TypeCode_get_member_type fuel dup_ok tc (dotted names) =
    Some (if (1 <? Z.of_nat (length names)) && (TYPE_CODE_LENGTH - 1 <? Z.of_nat (String.length (dotted names)))
             && negb dup_ok
          then None else path_type tc names).
Proof.
  intros Hnull Hne Hall Hf. unfold RTI_COMMON_TypeCode_get_member_type.
  pose proof (dotted_length names Hall) as Hlen.
  destruct names as [|name [|name2 names]]; [done| |].
  - inversion Hall as [|? ? [Hn Hd] _]; subst. cbn [dotted length Z.of_nat] in *. rewrite Hd. cbn.
    unfold direct_member_type, member_of. destruct (find_member_by_name tc name) as [id []]; cbn; [done|].
    specialize (Hnull tc id). destruct (member_type tc id) as [[tc'|] []]; cbn in *; try done.
    by rewrite Hnull.
  - assert (has_dot (dotted (name :: name2 :: names)) = true) as Hdot.
    { cbn [dotted]. rewrite has_dot_app. cbn. apply orb_true_r. }
    rewrite Hdot. cbn [negb].
    assert (1 <? Z.of_nat (length (name :: name2 :: names)) = true) as ->
      by (apply Z.ltb_lt; cbn [length]; lia).
    cbn [andb]. case_match; [done|]. apply nested_path; [done | lia].
Qed.

(** The walk over the tokens of any string ends: as many iterations as
    the string has characters are enough. *)
Theorem get_member_type_terminates fuel dup_ok (tc : TC) (name : string) :
  (String.length name ≤ fuel)%nat →
  RTI_COMMON_TypeCode_get_member_type fuel dup_ok tc name ≠ None.
Proof.
  intros Hf. unfold RTI_COMMON_TypeCode_get_member_type. do 2 (case_match; [done|]). clear H H0.
  assert (∀ s fuel (tc : TC), (String.length s ≤ fuel)%nat →
    nested_member_type fuel tc (str_token s) ≠ None) as Hloop; [|by apply Hloop].
  clear name dup_ok tc Hf fuel. intros s fuel. revert s. induction fuel as [|fuel IH]; intros s tc Hf;
    (destruct (str_token s) as [[t r]|] eqn:Ht; [|done]); cbn [nested_member_type];
    apply tok_shrinks in Ht.
  - lia.
  - case_match; [done|]. case_match; [done|]. case_match; [|done]. apply IH. lia.
Qed.
End type_code_theorems.

(** ** Sequences *)
Section sequence_theorems.
Context {DD : Type} {SL : SeqLib} {DY : DynData DD} {LA : SeqLibLaws SL}.
Implicit Types (d : DD) (s : dds_seq).

Definition nul_terminated (l : list Z) : Prop := ∃ l', l = l' ++ [0].

Lemma last_lookup_ds s l b :
  ds_elements s = l ++ [b] → ds_elements s !! Z.to_nat (ds_length s - 1) = Some b.
Proof.
  intros Hl. unfold ds_length. rewrite Hl, length_app. apply list_lookup_middle. cbn. lia.
Qed.

Lemma assert_nul_terminator_lemma {E} k d s :
  match assert_nul_terminator (E := E) k (HState d s) with
  | Ok true (HState d' s') =>
      d' = d ∧ nul_terminated (ds_elements s')
      ∧ (s' = s ∨ ds_elements s' = ds_elements s ++ [0])
  | Ok false h' => h' = HState d s
      ∧ (ds_elements s = [] ∨ set_length k s (ds_length s + 1) = None)
  | _ => False
  end.
Proof.
  unfold assert_nul_terminator, get_h, put_seq, mbind, M_bind, mret, M_ret. cbn [h_seq h_data].
  destruct (Z.eqb_spec (ds_length s) 0) as [H0|H0].
  { split; [done|]. left. destruct s as [[|x l] m b]; [done|]. unfold ds_length in H0. cbn in H0. lia. }
  assert (ds_elements s ≠ []) as Hne by (intros Hnil; apply H0; unfold ds_length; by rewrite Hnil).
  destruct (exists_last Hne) as (l & b & Hl). rewrite (last_lookup_ds s l b Hl).
  destruct (Z.eqb_spec b 0) as [->|Hb].
  { split; [done|]. split; [by exists l | by left]. }
  destruct (set_length k s (ds_length s + 1)) as [s'|] eqn:Hset; [|split; [done | by right]].
  assert (0 <= ds_length s) as Hge by (unfold ds_length; lia).
  destruct (set_length_spec k s (ds_length s + 1) s') as (Hlen & _ & Hold); [lia | done |].
  unfold ds_length in Hlen, Hge |- *.
  assert (length (ds_elements s') = S (length (ds_elements s))) as Hlen' by lia.
  rewrite Nat2Z.id. destruct (lookup_lt_is_Some_2 (ds_elements s') (length (ds_elements s))) as [x Hx]; [lia|].
  rewrite Hx. cbn. assert (<[length (ds_elements s):=0]> (ds_elements s') = ds_elements s ++ [0]) as ->.
  { apply list_eq. intros i. destruct (decide (i = length (ds_elements s))) as [->|Hi].
    - rewrite list_lookup_insert_eq by lia. by rewrite list_lookup_middle.
    - rewrite list_lookup_insert_ne by done. destruct (decide (i < length (ds_elements s))%nat).
      + rewrite lookup_app_l by done. unfold ds_length in Hold. apply Hold; lia.
      + rewrite !lookup_ge_None_2; [done | rewrite length_app; cbn; lia | lia]. }
  split; [done|]. rewrite Hl. split; [|by right]. eexists. reflexivity.
Qed.

(** Asserting the terminator: an empty sequence is refused; a terminated
    one stays as it is; any other one gets a NUL appended, its contents before
    it unchanged, or is left alone when it cannot grow. *)
Theorem assert_nul_terminator_spec {E} k d s :
  match assert_nul_terminator (E := E) k (HState d s) with
  | Ok true (HState d' s') =>
      d' = d ∧ nul_terminated (ds_elements s')
      ∧ (s' = s ∨ ds_elements s' = ds_elements s ++ [0])
  | Ok false h' => h' = HState d s
      ∧ (ds_elements s = [] ∨ set_length k s (ds_length s + 1) = None)
  | _ => False
  end.
Proof. apply assert_nul_terminator_lemma. Qed.
(** A C string in memory. *)
Lemma strlen_string str rest : Forall (λ b, b ≠ 0) str → strlen (str ++ 0 :: rest) = Some (length str).
Proof.
  induction 1 as [|b str Hb _ IH]; [done|]. cbn. rewrite (proj2 (Z.eqb_neq b 0) Hb). by rewrite IH.
Qed.

Lemma u32_s32_small z : 0 <= z < 2 ^ 31 → u32 z = z ∧ s32 z = z.
Proof. intros Hz. unfold u32, s32. rewrite !Z.mod_small by lia. lia. Qed.

(** The set, the loan and its return, once the size is known. *)
Definition lend_result {E} (k : seq_kind) d (member : string) (content : list Z) (max : Z)
    : outcome (hstate DD) E Z :=
  let r := set_seq k d member (DdsSeq content max true) in
  if r.1 =? DDS_RETCODE_OK then Ok DDS_RETCODE_OK (HState r.2 fresh_seq)
  else Ok r.1 (HState r.2 (DdsSeq content max true)).

Lemma set_seq_lends {E} k d member buffer max n size :
  current_size (E := E) buffer max n (HState d fresh_seq) = Ok size (HState d fresh_seq) →
  0 <= max < 2 ^ 31 → 0 <= size →
  (size <= max → size <= Z.of_nat (length buffer)) →
  set_seq_from_string k member buffer max n (HState d fresh_seq) =
    if max <? size then Ok DDS_RETCODE_ERROR (HState d fresh_seq)
    else lend_result (E := E) k d member (take (Z.to_nat size) buffer) max.
Proof.
  intros Hsize Hmax Hpos Hfit. unfold set_seq_from_string. rewrite (bind_Ok _ _ _ _ _ Hsize).
  destruct (u32_s32_small max Hmax) as [_ ->].
  unfold labelled, get_h, put_seq, put_data, when, goto, mbind, M_bind, mret, M_ret, lend_result.
  cbn [h_seq h_data]. destruct (Z.ltb_spec max size) as [Hlt|Hle].
  - by rewrite loan_too_long.
  - rewrite loan_fresh by (try lia; apply Hfit; lia).
    set (r := set_seq k d member _). destruct (r.1 =? DDS_RETCODE_OK) eqn:Hr; cbn; [|done].
    by rewrite unloan_loaned.
Qed.

(** C31: setting a member from a C string.  The member gets the string with
    its terminator, or without it where only that fits; a string that is longer
    than the maximum is refused.  The intermediate sequence is as before. *)
Theorem set_seq_from_string_spec {E} k d member str rest max :
  Forall (λ b, b ≠ 0) str → Z.of_nat (length str) < 2 ^ 31 - 1 → 0 <= max < 2 ^ 31 →
  set_seq_from_string (E := E) k member (str ++ 0 :: rest) max 0 (HState d fresh_seq) =
    if max <? Z.of_nat (length str) then Ok DDS_RETCODE_ERROR (HState d fresh_seq)
    else lend_result k d member
           (if Z.of_nat (length str) =? max then str else str ++ [0]) max.
Proof.
  intros Hstr Hlen Hmax.
  set (n := Z.of_nat (length str)) in *. assert (0 <= n) by (unfold n; lia).
  erewrite (set_seq_lends k d member (str ++ 0 :: rest) max 0 (if n =? max then n else n + 1));
    [| |done| |].
  2: { unfold current_size. cbn [Z.ltb Z.compare]. rewrite strlen_string by done. fold n.
       destruct (u32_s32_small n) as [_ ->]; [lia|].
       assert (s32 (n + 1) = n + 1) as -> by (unfold s32; rewrite Z.mod_small; lia).
       replace (n + 1 - 1) with n by lia. by destruct (u32_s32_small n) as [-> _]; [lia|]. }
  2, 3: rewrite ?length_app; cbn [length]; destruct (Z.eqb_spec n max); fold n; lia.
  destruct (Z.eqb_spec n max) as [Heq|Hne].
  - rewrite <- Heq. rewrite Z.ltb_irrefl. unfold n. by rewrite Nat2Z.id, take_app_length.
  - destruct (Z.ltb_spec max n), (Z.ltb_spec max (n + 1)); try lia; [done|].
    replace (Z.to_nat (n + 1)) with (length (str ++ [0])) by (rewrite length_app; cbn; unfold n; lia).
    assert (str ++ 0 :: rest = (str ++ [0]) ++ rest) as -> by by rewrite <- app_assoc.
    by rewrite take_app_length.
Qed.

(** Setting a member from a buffer of a given size: exactly those bytes, NULs
    included. *)
Lemma set_seq_from_bytes {E} k d member bytes rest max :
  bytes ≠ [] → Z.of_nat (length bytes) <= max < 2 ^ 31 →
  set_seq_from_string (E := E) k member (bytes ++ rest) max (Z.of_nat (length bytes)) (HState d fresh_seq) =
    lend_result k d member bytes max.
Proof.
  intros Hne Hmax. assert (0 < Z.of_nat (length bytes)) as Hpos by (destruct bytes; [done | cbn; lia]).
  rewrite (set_seq_lends k d member (bytes ++ rest) max _ (Z.of_nat (length bytes))); [| | lia | lia |].
  - rewrite (proj2 (Z.ltb_ge _ _)) by lia. by rewrite Nat2Z.id, take_app_length.
  - unfold current_size. rewrite (proj2 (Z.ltb_lt _ _) Hpos).
    by destruct (u32_s32_small (Z.of_nat (length bytes))) as [_ ->]; [lia|].
  - rewrite length_app. lia.
Qed.

(** A set that DDS refuses leaves the buffer on loan to the sequence:
    whatever is set with that sequence afterwards is refused too, and the sample
    never changes again. *)
Theorem failed_set_blocks k d member bytes rest max h rc member2 buffer2 max2 n2 :
  bytes ≠ [] → Z.of_nat (length bytes) <= max < 2 ^ 31 →
  set_seq_from_string (E := Empty_set) k member (bytes ++ rest) max (Z.of_nat (length bytes))
    (HState d fresh_seq) = Ok rc h →
  rc ≠ DDS_RETCODE_OK → 0 < n2 →
  set_seq_from_string (E := Empty_set) k member2 buffer2 max2 n2 h = Ok DDS_RETCODE_ERROR h.
Proof.
  intros Hne Hmax Hset Hrc Hn2.
  assert (ds_loaned (h_seq h) = true) as Hl.
  { assert (0 < Z.of_nat (length bytes)) as Hpos by (destruct bytes; [done | cbn; lia]).
    rewrite (set_seq_lends k d member (bytes ++ rest) max _ (Z.of_nat (length bytes))) in Hset; [| | lia | lia |].
    - rewrite (proj2 (Z.ltb_ge _ _)) in Hset by lia. unfold lend_result in Hset.
      case_match; injection Hset as <- <-; done.
    - unfold current_size. rewrite (proj2 (Z.ltb_lt _ _) Hpos).
      by destruct (u32_s32_small (Z.of_nat (length bytes))) as [_ ->]; [lia|].
    - rewrite length_app. lia. }
  unfold set_seq_from_string, current_size. rewrite (proj2 (Z.ltb_lt _ _) Hn2).
  unfold labelled, get_h, mbind, M_bind, mret, M_ret, goto. by rewrite loan_busy.
Qed.

Lemma get_seq_contiguous_buffer_lemma {E} k member want_len h :
  match get_seq_contiguous_buffer (E := E) k member want_len h with
  | Ok (rc, buffer, len) h' =>
      let r := get_seq k (h_data h) member (h_seq h) in
      h_data h' = h_data h
      ∧ (rc = DDS_RETCODE_OK →
           r.1 = DDS_RETCODE_OK ∧ ∃ b, buffer = Some b ∧
             if want_len then b = ds_elements r.2 ∧ len = Some (Z.of_nat (length b))
             else nul_terminated b ∧ (b = ds_elements r.2 ∨ b = ds_elements r.2 ++ [0]))
      ∧ (rc ≠ DDS_RETCODE_OK → buffer = None)
  | _ => False
  end.
Proof.
  unfold get_seq_contiguous_buffer, DDS_OctetSeq_assert_nul_terminator, DDS_CharSeq_assert_nul_terminator.
  unfold labelled, get_h, put_seq, when, goto, mbind, M_bind, mret, M_ret.
  set (r := get_seq k (h_data h) member (h_seq h)).
  destruct (Z.eqb_spec r.1 DDS_RETCODE_OK) as [Hr|Hr]; cbn [negb].
  2: { cbn. split; [done|]. split; [done | done]. }
  destruct want_len.
  - cbn [h_seq h_data]. destruct (get_contiguous_buffer k r.2) as [b|] eqn:Hb; cbn.
    + split; [done|]. split; [|done]. intros _. split; [done|]. exists b. split; [done|].
      apply buffer_elements in Hb as ->. done.
    + split; [done|]. split; done.
  - assert (∀ E', match k with
                  | OctetSeq => assert_nul_terminator (DD := DD) (E := E') OctetSeq
                  | CharSeq => assert_nul_terminator CharSeq
                  end = assert_nul_terminator k) as Hk
      by (intros; by destruct k).
    rewrite Hk. pose proof (assert_nul_terminator_lemma (E := Z * option Z) k (h_data h) r.2) as Hnul.
    destruct (assert_nul_terminator k _) as [[] [d' s']|? ?| |]; try done.
    + destruct Hnul as (-> & Hterm & Hs'). cbn.
      destruct (get_contiguous_buffer k s') as [b|] eqn:Hb; cbn.
      * split; [done|]. split; [|done]. intros _. split; [done|]. exists b. split; [done|].
        apply buffer_elements in Hb as ->. split; [done|]. destruct Hs' as [->|Hs']; [by left | by right].
      * split; [done|]. split; done.
    + destruct Hnul as ([= -> ->] & _). cbn. split; [done|]. split; done.
Qed.

(** Reading a member as a buffer.  With a length, the buffer and the
    length are those of the member; without one the buffer is a C string: the
    contents of the member, with a NUL appended when they do not end in one. *)
Theorem get_seq_contiguous_buffer_spec {E} k member want_len h :
  match get_seq_contiguous_buffer (E := E) k member want_len h with
  | Ok (rc, buffer, len) h' =>
      let r := get_seq k (h_data h) member (h_seq h) in
      h_data h' = h_data h
      ∧ (rc = DDS_RETCODE_OK →
           r.1 = DDS_RETCODE_OK ∧ ∃ b, buffer = Some b ∧
             if want_len then b = ds_elements r.2 ∧ len = Some (Z.of_nat (length b))
             else nul_terminated b ∧ (b = ds_elements r.2 ∨ b = ds_elements r.2 ++ [0]))
      ∧ (rc ≠ DDS_RETCODE_OK → buffer = None)
  | _ => False
  end.
Proof. apply get_seq_contiguous_buffer_lemma. Qed.

(** The helpers always return; the one that sets a member when its buffer is a
    C string or a size is given. *)
Lemma set_seq_returns {E} k member buffer max n h :
  strlen buffer ≠ None → ∃ rc h', set_seq_from_string (E := E) k member buffer max n h = Ok rc h'.
Proof.
  intros Hnul. unfold set_seq_from_string, mbind, M_bind.
  assert (∃ size, current_size (E := E) buffer max n h = Ok size h) as [size ->].
  { unfold current_size. destruct (0 <? n); [by eexists|].
    destruct (strlen buffer); [by eexists | done]. }
  unfold labelled, get_h, put_seq, put_data, when, goto, mret, M_ret, M_bind.
  destruct (loan_contiguous _ _ _ _ _) as [s|]; [|by eexists _, _].
  destruct (negb _); [by eexists _, _|]. destruct (unloan k s); by eexists _, _.
Qed.

End sequence_theorems.
