(* ===== verification/DynDataUtils.v ===== *)
(** Utilities on DynamicData (common/protobuf2dds/srcCxx/DynamicDataUtils.cpp):
    aliases of types, the kinds of members, and the setters that narrow a value
    to the type of its member. *)
From Stdlib Require Import ZArith Lia.
From stdpp Require Import base strings list option.
From S2P Require Import Prelude DynHelpers.

#[local] Open Scope list_scope.
#[local] Open Scope Z_scope.

Inductive DDS_TCKind :=
  | DDS_TK_NULL | DDS_TK_SHORT | DDS_TK_LONG | DDS_TK_USHORT | DDS_TK_ULONG | DDS_TK_FLOAT
  | DDS_TK_DOUBLE | DDS_TK_BOOLEAN | DDS_TK_CHAR | DDS_TK_OCTET | DDS_TK_STRUCT | DDS_TK_UNION
  | DDS_TK_ENUM | DDS_TK_STRING | DDS_TK_SEQUENCE | DDS_TK_ARRAY | DDS_TK_ALIAS | DDS_TK_LONGLONG
  | DDS_TK_ULONGLONG | DDS_TK_LONGDOUBLE | DDS_TK_WCHAR | DDS_TK_WSTRING | DDS_TK_VALUE
  | DDS_TK_SPARSE.

#[export] Instance DDS_TCKind_eq_dec : EqDecision DDS_TCKind.
Proof. solve_decision. Defined.

(** DDS_TypeCode; [None] is an exception (or a null content type). *)
Class TypeCodes (TC : Type) := {
  TypeCode_kind : TC → option DDS_TCKind;
  TypeCode_content_type : TC → option TC
}.

(** The types of DDS that hold a number.  A float is its bit pattern, a boolean
    0 or 1. *)
Inductive scalar :=
  | Short | Long | LongLong | UShort | ULong | ULongLong | Float | Double | Boolean | Char | Octet.

Definition scalar_min (g : scalar) : Z :=
  match g with
  | Short => - 2 ^ 15 | Long => - 2 ^ 31 | LongLong => - 2 ^ 63 | Char => - 2 ^ 7
  | _ => 0
  end.
Definition scalar_max (g : scalar) : Z :=
  match g with
  | Short => 2 ^ 15 - 1 | Long => 2 ^ 31 - 1 | LongLong => 2 ^ 63 - 1 | UShort => 2 ^ 16 - 1
  | ULong | Float => 2 ^ 32 - 1 | ULongLong | Double => 2 ^ 64 - 1 | Boolean => 1
  | Char => 2 ^ 7 - 1 | Octet => 2 ^ 8 - 1
  end.

(** A static_cast to the type. *)
Definition cast (g : scalar) (v : Z) : Z :=
  (v - scalar_min g) mod (scalar_max g - scalar_min g + 1) + scalar_min g.

(** struct DDS_DynamicDataMemberInfo, as far as the code reads it. *)
Record member_info := MemberInfo {
  mi_name : string; mi_id : Z; mi_element_count : Z; mi_element_kind : DDS_TCKind
}.

(** DDS_DynamicData by member id: return codes, values, and the object after a
    set. *)
Class DynScalars (D : Type) := {
  get_scalar : scalar → D → Z → Z * Z;
  set_scalar : scalar → D → Z → Z → Z * D;
  set_byte_array : seq_kind → D → Z → Z → list Z → Z * D
}.

Class DynMembers (D TC : Type) := {
  info_by_name : D → string → Z * member_info;
  type_by_id : D → Z → Z * TC
}.

Section operations.
Context {D TC : Type} {TT : TypeCodes TC} {DS : DynScalars D} {DM : DynMembers D TC}.

(** The result and the two reference parameters afterwards; [None]: out of
    fuel. *)
Fixpoint resolve_type_code (fuel : nat) (type_code : TC) (type_code_kind : DDS_TCKind)
    : option (bool * TC * DDS_TCKind) :=
  match TypeCode_kind type_code with
  | None => Some (false, type_code, type_code_kind)
  | Some DDS_TK_ALIAS =>
      match TypeCode_content_type type_code with
      | None => Some (false, type_code, type_code_kind)
      | Some content_tc =>
          match fuel with
          | O => None
          | S fuel =>
              r ← resolve_type_code fuel content_tc DDS_TK_ALIAS;
              Some (if (r.1.1 : bool) then r else (false, r.1.2, type_code_kind))
          end
      end
  | Some tc_kind => Some (true, type_code, tc_kind)
  end.

(** The result; with it the information, the type and its kind. *)
Definition get_member_info (fuel : nat) (data : D) (member_name : string)
    : option (bool * option (member_info * TC * DDS_TCKind)) :=
  let i := info_by_name data member_name in
  if negb (i.1 =? DDS_RETCODE_OK) then Some (false, None)
  else
    let t := type_by_id data (mi_id i.2) in
    if negb (t.1 =? DDS_RETCODE_OK) then Some (false, None)
    else
      r ← resolve_type_code fuel t.2 DDS_TK_NULL;
      Some (r.1.1, if (r.1.1 : bool) then Some (i.2, r.1.2, r.2) else None).

(** A setter of DDS: whether it succeeded, and the data. *)
Definition ok_of (r : Z * D) : bool * D := (r.1 =? DDS_RETCODE_OK, r.2).

Definition set_fuzzy_long (data : D) (member_id : Z) (member_kind : DDS_TCKind) (value : Z) : bool * D :=
  match member_kind with
  | DDS_TK_SHORT =>
      if (value <? scalar_min Short) || (scalar_max Short <? value) then (false, data)
      else ok_of (set_scalar Short data member_id (cast Short value))
  | DDS_TK_CHAR =>
      if (value <? scalar_min Char) || (scalar_max Char <? value) then (false, data)
      else ok_of (set_scalar Char data member_id (cast Char value))
  | _ => ok_of (set_scalar Long data member_id value)
  end.

Definition set_fuzzy_ulong (data : D) (member_id : Z) (member_kind : DDS_TCKind) (value : Z) : bool * D :=
  match member_kind with
  | DDS_TK_USHORT =>
      if scalar_max UShort <? value then (false, data)
      else ok_of (set_scalar UShort data member_id (cast UShort value))
  | DDS_TK_OCTET =>
      if scalar_max Octet <? value then (false, data)
      else ok_of (set_scalar Octet data member_id (cast Octet value))
  | _ => ok_of (set_scalar ULong data member_id value)
  end.

Definition set_fuzzy_bytes (fuel : nat) (data : D) (member_id : Z) (member_tc : TC) (value : list Z)
    (value_len : Z) : option (bool * D) :=
  match TypeCode_content_type member_tc with
  | None => Some (false, data)
  | Some el_tc =>
      r ← resolve_type_code fuel el_tc DDS_TK_NULL;
      if negb r.1.1 then Some (false, data)
      else
        Some (ok_of (set_byte_array (match r.2 with DDS_TK_CHAR => CharSeq | _ => OctetSeq end)
                       data member_id value_len value))
  end.
End operations.

(** * Specifications *)
Section theorems.
Context {D TC : Type} {TT : TypeCodes TC} {DS : DynScalars D}.

(** A chain of aliases ends: the content of an alias is a simpler type. *)
Class AliasLaw := {
  alias_depth : TC → nat;
  alias_content : ∀ tc c, TypeCode_kind tc = Some DDS_TK_ALIAS → TypeCode_content_type tc = Some c →
    (alias_depth c < alias_depth tc)%nat
}.

(** The type behind the aliases. *)
Inductive resolves : TC → TC → DDS_TCKind → Prop :=
  | resolves_here tc k : TypeCode_kind tc = Some k → k ≠ DDS_TK_ALIAS → resolves tc tc k
  | resolves_alias tc c t k : TypeCode_kind tc = Some DDS_TK_ALIAS → TypeCode_content_type tc = Some c →
      resolves c t k → resolves tc t k.

Lemma resolve_type_code_lemma {AL : AliasLaw} fuel tc out :
  (alias_depth tc ≤ fuel)%nat →
  ∃ b t k, resolve_type_code fuel tc out = Some (b, t, k)
    ∧ if (b : bool) then resolves tc t k else k = out ∧ ∀ t' k', ¬ resolves tc t' k'.
Proof.
  revert tc out. induction fuel as [|fuel IH]; intros tc out Hf; cbn [resolve_type_code];
    destruct (TypeCode_kind tc) as [kind|] eqn:Hk.
  2, 4: eexists _, _, _; split; [done|]; split; [done|]; intros t' k' Hr; inversion Hr; congruence.
  all: destruct (decide (kind = DDS_TK_ALIAS)) as [->|Hna];
    [|by exists true, tc, kind; split; [by destruct kind | by apply resolves_here]].
  all: destruct (TypeCode_content_type tc) as [c|] eqn:Hc;
    [|by eexists _, _, _; split; [done|]; split; [done|]; intros t' k' Hr; inversion Hr; congruence].
  all: pose proof (alias_content tc c Hk Hc).
  { lia. }
  destruct (IH c DDS_TK_ALIAS) as (b & t & k & Hr & Hb); [lia|]. rewrite Hr. cbn.
  destruct b; eexists _, _, _; (split; [reflexivity|]); cbn.
  - by eapply resolves_alias.
  - destruct Hb as [_ Hno]. split; [done|]. intros t' k' Hres. inversion Hres as [|? c' ? ? ? Hc' Hres']; subst.
    { congruence. }
    rewrite Hc in Hc'. injection Hc' as ->. by eapply Hno.
Qed.

(** C38: the resolution of aliases ends, and it finds the first type of the
    chain that is not an alias; when there is none it fails and leaves the kind
    it was given. *)
Theorem resolve_type_code_spec {AL : AliasLaw} fuel tc out :
  (alias_depth tc ≤ fuel)%nat →
  ∃ b t k, resolve_type_code fuel tc out = Some (b, t, k)
    ∧ if (b : bool) then resolves tc t k else k = out ∧ ∀ t' k', ¬ resolves tc t' k'.
Proof. apply resolve_type_code_lemma. Qed.

(** The type of the member a value is narrowed to. *)
Definition signed_target (k : DDS_TCKind) : scalar :=
  match k with DDS_TK_SHORT => Short | DDS_TK_CHAR => Char | _ => Long end.
Definition unsigned_target (k : DDS_TCKind) : scalar :=
  match k with DDS_TK_USHORT => UShort | DDS_TK_OCTET => Octet | _ => ULong end.

Definition fits (g : scalar) (v : Z) : Prop := scalar_min g <= v <= scalar_max g.
#[export] Instance fits_dec g v : Decision (fits g v).
Proof. unfold fits. apply _. Defined.

Lemma cast_fits g v : fits g v → cast g v = v.
Proof. intros [H1 H2]. unfold cast. rewrite Z.mod_small by lia. lia. Qed.

Lemma set_fuzzy_long_lemma (data : D) member_id k v :
  is_s32 v →
  set_fuzzy_long data member_id k v =
    if decide (fits (signed_target k) v)
    then ok_of (set_scalar (signed_target k) data member_id v)
    else (false, data).
Proof.
  intros Hv. unfold set_fuzzy_long, signed_target.
  destruct k; cbn [signed_target]; try (rewrite decide_True; [done|]; unfold fits, is_s32 in *; cbn in *; lia);
    case_decide as Hf; unfold fits in Hf.
  all: repeat match goal with
       | |- context [?a <? ?b] => destruct (Z.ltb_spec a b)
       end; cbn [orb]; try lia; try done; by rewrite cast_fits.
Qed.

Lemma set_fuzzy_ulong_lemma (data : D) member_id k v :
  is_u32 v →
  set_fuzzy_ulong data member_id k v =
    if decide (fits (unsigned_target k) v)
    then ok_of (set_scalar (unsigned_target k) data member_id v)
    else (false, data).
Proof.
  intros Hv. unfold set_fuzzy_ulong, unsigned_target.
  destruct k; cbn [unsigned_target]; try (rewrite decide_True; [done|]; unfold fits, is_u32 in *; cbn in *; lia);
    case_decide as Hf; unfold fits, is_u32 in *.
  all: match goal with
       | |- context [?a <? ?b] => destruct (Z.ltb_spec a b)
       end; cbn in *; try lia; try done; by rewrite cast_fits.
Qed.

(** Narrowing.  A number is stored in a member of a narrower type only if
    it fits, and then unchanged; otherwise the setter fails and leaves the data.
    Both for the signed and for the unsigned numbers. *)
Theorem set_fuzzy_spec (data : D) member_id k v :
  (is_s32 v →
     set_fuzzy_long data member_id k v =
       if decide (fits (signed_target k) v)
       then ok_of (set_scalar (signed_target k) data member_id v)
       else (false, data))
  ∧ (is_u32 v →
     set_fuzzy_ulong data member_id k v =
       if decide (fits (unsigned_target k) v)
       then ok_of (set_scalar (unsigned_target k) data member_id v)
       else (false, data)).
Proof. split; [apply set_fuzzy_long_lemma | apply set_fuzzy_ulong_lemma]. Qed.
End theorems.
