(* ===== verification/MessageConversion.v ===== *)
(** The conversions between samples and messages (common/protobuf2dds/srcCxx:
    DdsToProtobuf.cpp, ProtobufToDds.cpp, ProtobufConverterUtils.hpp), member by
    member and field by field, through the interfaces of DynamicData and of the
    reflection of Protobuf, which are parameters. *)
From Stdlib Require Import ZArith Lia.
From stdpp Require Import base gmap strings list option fin_maps.
From S2P Require Import Prelude Utils DynHelpers DynDataUtils.

#[local] Open Scope string_scope.
#[local] Open Scope list_scope.
#[local] Open Scope Z_scope.

Definition DDS_RETCODE_PRECONDITION_NOT_MET : Z := 4.

(** FieldDescriptor::Type *)
Inductive field_type :=
  | TYPE_DOUBLE | TYPE_FLOAT | TYPE_INT64 | TYPE_UINT64 | TYPE_INT32 | TYPE_FIXED64 | TYPE_FIXED32
  | TYPE_BOOL | TYPE_STRING | TYPE_GROUP | TYPE_MESSAGE | TYPE_BYTES | TYPE_UINT32 | TYPE_ENUM
  | TYPE_SFIXED32 | TYPE_SFIXED64 | TYPE_SINT32 | TYPE_SINT64.

#[export] Instance field_type_eq_dec : EqDecision field_type.
Proof. solve_decision. Defined.

(** The families of the accessors of Reflection for numbers: SetInt32,
    AddInt32, GetInt32, GetRepeatedInt32, and so on.  A float is its bit
    pattern. *)
Inductive accessor := Int32 | Int64 | UInt32 | UInt64 | AFloat | ADouble | Bool | EnumValue.

(** Messages and the fields of their descriptors.  The Set and Add functions
    give the message afterwards.  A sub-message that was asked for with Mutable
    or Add is written back with [put_mutable] and [put_added]. *)
Class Reflection (MSG FD : Type) := {
  has_descriptor : MSG → bool;
  has_reflection : MSG → bool;
  FindFieldByName : MSG → string → option FD;
  ListFields : MSG → list FD;
  HasField : MSG → FD → bool;
  FieldSize : MSG → FD → nat;
  field_name : FD → string;
  type : FD → field_type;
  is_repeated : FD → bool;
  is_map : FD → bool;
  set_number : accessor → MSG → FD → Z → MSG;
  add_number : accessor → MSG → FD → Z → MSG;
  get_number : accessor → MSG → FD → Z;
  get_repeated_number : accessor → MSG → FD → nat → Z;
  SetString : MSG → FD → list Z → MSG;
  AddString : MSG → FD → list Z → MSG;
  GetString : MSG → FD → list Z;
  GetRepeatedString : MSG → FD → nat → list Z;
  (* whether GetEnum and GetRepeatedEnum give a descriptor *)
  enum_known : MSG → FD → option nat → bool;
  MutableMessage : MSG → FD → option MSG;
  AddMessage : MSG → FD → option MSG;
  put_mutable : MSG → FD → MSG → MSG;
  put_added : MSG → FD → MSG → MSG;
  GetMessage : MSG → FD → MSG;
  GetRepeatedMessage : MSG → FD → nat → MSG
}.

(** DynamicData objects: their type, members by index, strings and octets, new
    objects, and the binding of a member to an object.  [get_string] is given
    the room of the buffer and returns what it wrote and the length. *)
Class DynObjects (D TC : Type) := {
  get_type : D → option TC;
  TypeCode_name : TC → option string;
  get_type_kind : D → DDS_TCKind;
  get_member_count : D → nat;
  info_by_index : D → nat → Z * member_info;
  member_exists : D → Z → bool;
  get_string : D → Z → Z → Z * list Z * Z;
  set_string : D → Z → list Z → Z * D;
  get_octets : D → Z → Z → Z * list Z;
  DynamicData_new : TC → option D;
  bind_complex_member : D → D → Z → option (D * D);
  unbind_complex_member : D → D → option (D * D)
}.

(** struct ProtobufConverterState, with the objects of its cache; the sample
    that is converted is an object too. *)
Record conv_state (D TC : Type) := ConvState {
  cs_str_buffer : list Z;
  cs_cache : list (TC * nat);
  cs_objects : gmap nat D;
  cs_next : nat
}.
Arguments ConvState {D TC} _ _ _ _.
Arguments cs_str_buffer {D TC} _.
Arguments cs_cache {D TC} _.
Arguments cs_objects {D TC} _.
Arguments cs_next {D TC} _.

Section operations.
Context {D TC MSG FD : Type} `{!EqDecision TC} {TT : TypeCodes TC} {DS : DynScalars D}
  {DM : DynMembers D TC} {DO : DynObjects D TC} {RF : Reflection MSG FD} {SL : SeqLib}.
#[local] Abbreviation W := (conv_state D TC).

(** Bounds the chains of aliases that are looked at. *)
Context (alias_fuel : nat).

Definition get_obj {E} (p : nat) : M W E D := λ w,
  match cs_objects w !! p with Some d => Ok d w | None => Fault UseAfterFree end.
Definition put_obj {E} (p : nat) (d : D) : M W E () := λ w,
  Ok () (ConvState (cs_str_buffer w) (cs_cache w) (<[p := d]> (cs_objects w)) (cs_next w)).
Definition get_buffer {E} : M W E (list Z) := λ w, Ok (cs_str_buffer w) w.
Definition put_buffer {E} (b : list Z) : M W E () := λ w,
  Ok () (ConvState b (cs_cache w) (cs_objects w) (cs_next w)).
Definition get_cache {E} : M W E (list (TC * nat)) := λ w, Ok (cs_cache w) w.

Definition or_hang {E A} (r : option A) : M W E A :=
  match r with Some a => mret a | None => hang end.

(** std::map::find *)
Fixpoint cache_find (tc : TC) (cache : list (TC * nat)) : option nat :=
  match cache with
  | [] => None
  | (tc', p) :: cache' => if decide (tc = tc') then Some p else cache_find tc cache'
  end.

(** A new object, which goes into the cache. *)
Definition cache_obj {E} (tc : TC) (d : D) : M W E nat := λ w,
  Ok (cs_next w)
     (ConvState (cs_str_buffer w) ((tc, cs_next w) :: cs_cache w)
        (<[cs_next w := d]> (cs_objects w)) (S (cs_next w))).

Definition get_cached_dds_data {E} (ddsTc : TC) : M W E (option nat) :=
  cache ← get_cache;
  match cache_find ddsTc cache with
  | Some p => mret (Some p)
  | None =>
      match DynamicData_new (D := D) ddsTc with
      | None => mret None
      | Some d => p ← cache_obj ddsTc d; mret (Some p)
      end
  end.

(** The action of the scopes that bind: unbind; a failure is logged only. *)
Definition unbind_member {E} (parent member : nat) : M W E () :=
  dp ← get_obj parent;
  dm ← get_obj member;
  match unbind_complex_member dp dm with
  | None => mret ()
  | Some (dp, dm) => put_obj parent dp;; put_obj member dm
  end.

(** bind, the rest of the scope, and unbind when the scope ends; [None] when
    the bind fails. *)
Definition with_bound {E A} (parent member : nat) (id : Z) (body : M W E A) : M W E (option A) :=
  dp ← get_obj parent;
  dm ← get_obj member;
  match bind_complex_member dp dm id with
  | None => mret None
  | Some (dp, dm) =>
      put_obj parent dp;;
      put_obj member dm;;
      let ddsMemberDataUnbindAction := make_scope_exit (unbind_member parent member) in
      r ← body;
      exit_scope ddsMemberDataUnbindAction;;
      mret (Some r)
  end.

(** ** DdsToProtobuf.cpp *)

Definition RTI_TSFM_STR_BUFFER_INITIAL_SIZE : nat := 128.

(** The scalar kinds (lines 113-352 and 590-865): the getter of DDS and the
    accessor of Protobuf. *)
Definition scalar_case (k : DDS_TCKind) : option (scalar * accessor) :=
  match k with
  | DDS_TK_ENUM => Some (Long, EnumValue)
  | DDS_TK_SHORT => Some (Short, Int32)
  | DDS_TK_LONG => Some (Long, Int32)
  | DDS_TK_LONGLONG => Some (LongLong, Int64)
  | DDS_TK_USHORT => Some (UShort, UInt32)
  | DDS_TK_ULONG => Some (ULong, UInt32)
  | DDS_TK_ULONGLONG => Some (ULongLong, UInt64)
  | DDS_TK_FLOAT => Some (Float, AFloat)
  | DDS_TK_DOUBLE => Some (Double, ADouble)
  | DDS_TK_BOOLEAN => Some (Boolean, Bool)
  | DDS_TK_CHAR => Some (Char, Int32)
  | DDS_TK_OCTET => Some (Octet, UInt32)
  | _ => None
  end.

(** The result of a conversion: success, and the message afterwards. *)
Definition singular_scalar_to_pb (g : scalar) (a : accessor) (d : D) (id : Z) (m : MSG) (fd : FD)
    : bool * MSG :=
  let r := get_scalar g d id in
  if negb (r.1 =? DDS_RETCODE_OK) then (false, m) else (true, set_number a m fd r.2).

(** The loop over the elements; [ids] are the ids i + 1. *)
Fixpoint repeated_scalar_to_pb (g : scalar) (a : accessor) (d : D) (ids : list Z) (m : MSG) (fd : FD)
    : bool * MSG :=
  match ids with
  | [] => (true, m)
  | id :: ids' =>
      let r := get_scalar g d id in
      if negb (r.1 =? DDS_RETCODE_OK) then (false, m)
      else repeated_scalar_to_pb g a d ids' (add_number a m fd r.2) fd
  end.

(** std::string::resize *)
Definition resize (n : nat) (b : list Z) : list Z := take n b ++ replicate (n - length b) 0.

(** What DDS writes into a buffer; outside of it is a fault. *)
Definition write_into {E} (bytes : list Z) (b : list Z) : M W E (list Z) :=
  if (length bytes <=? length b)%nat then mret (bytes ++ drop (length bytes) b) else fail OutOfBounds.

(** DDS_DynamicData_get_string into str_buffer: the return code and the length
    afterwards. *)
Definition get_string_buffer {E} (d : D) (id len : Z) : M W E (Z * Z) :=
  let '(rc, bytes, len) := get_string d id len in
  b ← get_buffer;
  b ← write_into bytes b;
  put_buffer b;;
  mret (rc, len).

(** std::string(data, n) of the buffer, which ends with a NUL of its own;
    reading past that is a fault. *)
Definition copy_out {E} (n : Z) : M W E (list Z) :=
  b ← get_buffer;
  if n <=? Z.of_nat (length b) + 1 then mret (take (Z.to_nat n) (b ++ [0])) else fail OutOfBounds.

(** Lines 370-402: [None] when DDS fails; otherwise the string and the length
    afterwards.  The length of an empty answer would wrap around. *)
Definition read_string {E} (d : D) (id ddsValueLen : Z) : M W E (option (list Z * Z)) :=
  r ← get_string_buffer d id ddsValueLen;
  r ← (if r.1 =? DDS_RETCODE_PRECONDITION_NOT_MET
       then
         b ← get_buffer;
         put_buffer (resize (Z.to_nat r.2) b);;
         get_string_buffer d id r.2
       else mret r);
  if negb (r.1 =? DDS_RETCODE_OK) then mret None
  else
    s ← copy_out (u32 (r.2 - 1));
    mret (Some (s, r.2)).

(** The size of the buffer in 32 bits; the buffer is allocated when that is 0. *)
Definition initial_len {E} : M W E Z :=
  b ← get_buffer;
  let ddsValueLen := u32 (Z.of_nat (length b)) in
  if ddsValueLen =? 0 then
    put_buffer (resize RTI_TSFM_STR_BUFFER_INITIAL_SIZE b);;
    b ← get_buffer;
    mret (u32 (Z.of_nat (length b)))
  else mret ddsValueLen.

Definition singular_string_to_pb {E} (d : D) (id : Z) (m : MSG) (fd : FD) : M W E (bool * MSG) :=
  len ← initial_len;
  s ← read_string d id len;
  mret (match s with None => (false, m) | Some s => (true, SetString m fd s.1) end).

(** The variable ddsValueLen outlives the iterations. *)
Fixpoint repeated_string_to_pb {E} (d : D) (ids : list Z) (len : Z) (m : MSG) (fd : FD)
    : M W E (bool * MSG) :=
  match ids with
  | [] => mret (true, m)
  | id :: ids' =>
      s ← read_string d id len;
      match s with
      | None => mret (false, m)
      | Some (s, len) => repeated_string_to_pb d ids' len (AddString m fd s) fd
      end
  end.

(** str_buffer as the buffer of an octet sequence: the contents of the buffer
    after the get, [None] when DDS fails, and the sequence, which is still
    loaned. *)
Definition read_octets {E} (d : D) (id count : Z) (bytesSeq : dds_seq)
    : M W E (option (list Z) * dds_seq) :=
  b ← get_buffer;
  put_buffer (resize (Z.to_nat count) b);;
  b ← get_buffer;
  match loan_contiguous OctetSeq bytesSeq b 0 count with
  | None => mret (None, bytesSeq)
  | Some bytesSeq =>
      let r := get_octets d id count in
      if negb (r.1 =? DDS_RETCODE_OK) then mret (None, bytesSeq)
      else
        b ← write_into r.2 b;
        put_buffer b;;
        mret (Some b, DdsSeq r.2 (ds_maximum bytesSeq) (ds_loaned bytesSeq))
  end.

(** The sequence is local and never unloaned. *)
Definition singular_bytes_to_pb {E} (d : D) (info : member_info) (m : MSG) (fd : FD)
    : M W E (bool * MSG) :=
  s ← read_octets d (mi_id info) (mi_element_count info) fresh_seq;
  mret (match s.1 with None => (false, m) | Some s => (true, SetString m fd s) end).

(** Elements that are sequences of octets; [ixs] are the indices.  The one
    sequence is unloaned after each element; a failure of that is logged
    only. *)
Fixpoint repeated_bytes_to_pb {E} (d : D) (ixs : list nat) (bytesSeq : dds_seq) (m : MSG) (fd : FD)
    : M W E (bool * MSG) :=
  match ixs with
  | [] => mret (true, m)
  | i :: ixs' =>
      let info := info_by_index d i in
      if negb (info.1 =? DDS_RETCODE_OK) then mret (false, m)
      else
        s ← read_octets d (Z.of_nat i + 1) (mi_element_count info.2) bytesSeq;
        match s.1 with
        | None => mret (false, m)
        | Some bytes =>
            repeated_bytes_to_pb d ixs' (default s.2 (unloan OctetSeq s.2)) (AddString m fd bytes) fd
        end
  end.

(** The conversion of a nested object into a nested message. *)
Context {E : Type}.
#[local] Abbreviation to_pb := (MSG → nat → M W E (bool * MSG)).

(** Lines 53-112. *)
Definition singular_struct_to_pb (rec : to_pb) (ddsData : nat) (info : member_info) (ddsMemberTc : TC)
    (m : MSG) (fd : FD) : M W E (bool * MSG) :=
  c ← get_cached_dds_data ddsMemberTc;
  match c with
  | None => mret (false, m)
  | Some ddsMemberData =>
      r ← with_bound ddsData ddsMemberData (mi_id info)
            (match MutableMessage m fd with
             | None => mret (false, m)
             | Some sub => r ← rec sub ddsMemberData; mret (r.1, put_mutable m fd r.2)
             end);
      mret (default (false, m) r)
  end.

Definition dds_singular_member_to_pb (rec : to_pb) (ddsData : nat) (info : member_info)
    (ddsMemberTc : TC) (ddsMemberTcKind : DDS_TCKind) (m : MSG) (fd : FD) : M W E (bool * MSG) :=
  match ddsMemberTcKind with
  | DDS_TK_STRUCT | DDS_TK_VALUE => singular_struct_to_pb rec ddsData info ddsMemberTc m fd
  | DDS_TK_STRING => d ← get_obj ddsData; singular_string_to_pb d (mi_id info) m fd
  | DDS_TK_SEQUENCE => d ← get_obj ddsData; singular_bytes_to_pb d info m fd
  | k =>
      match scalar_case k with
      | Some (g, a) => d ← get_obj ddsData; mret (singular_scalar_to_pb g a d (mi_id info) m fd)
      | None => mret (false, m)
      end
  end.

(** The loop of lines 538-586. *)
Fixpoint repeated_struct_to_pb (rec : to_pb) (ddsMemberData elData : nat) (ids : list Z) (m : MSG)
    (fd : FD) : M W E (bool * MSG) :=
  match ids with
  | [] => mret (true, m)
  | id :: ids' =>
      r ← with_bound ddsMemberData elData id
            (match AddMessage m fd with
             | None => mret (false, m)
             | Some sub => r ← rec sub elData; mret (r.1, put_added m fd r.2)
             end);
      match r with
      | Some (true, m) => repeated_struct_to_pb rec ddsMemberData elData ids' m fd
      | Some (false, m) => mret (false, m)
      | None => mret (false, m)
      end
  end.

(** The ids of the elements of a collection. *)
Definition element_ids (count : Z) : list Z := (λ i, Z.of_nat i + 1) <$> seq 0 (Z.to_nat count).

(** The cases of the switch for elements that are numbers, and for strings. *)
Definition collection_scalars_to_pb (g : scalar) (a : accessor) (ddsMemberData : nat) (count : Z)
    (m : MSG) (fd : FD) : M W E (bool * MSG) :=
  d ← get_obj ddsMemberData;
  mret (repeated_scalar_to_pb g a d (element_ids count) m fd).

Definition collection_strings_to_pb (ddsMemberData : nat) (count : Z) (m : MSG) (fd : FD)
    : M W E (bool * MSG) :=
  len ← initial_len;
  d ← get_obj ddsMemberData;
  repeated_string_to_pb d (element_ids count) len m fd.

(** The switch over the kind of the elements. *)
Definition collection_elements_to_pb (rec : to_pb) (ddsMemberData : nat) (count : Z) (elTc : TC)
    (elTcKind : DDS_TCKind) (m : MSG) (fd : FD) : M W E (bool * MSG) :=
  match elTcKind with
  | DDS_TK_STRUCT | DDS_TK_VALUE =>
      c ← get_cached_dds_data elTc;
      match c with
      | None => mret (false, m)
      | Some elData => repeated_struct_to_pb rec ddsMemberData elData (element_ids count) m fd
      end
  | DDS_TK_STRING => collection_strings_to_pb ddsMemberData count m fd
  | DDS_TK_SEQUENCE =>
      d ← get_obj ddsMemberData;
      repeated_bytes_to_pb d (seq 0 (Z.to_nat count)) fresh_seq m fd
  | k =>
      match scalar_case k with
      | Some (g, a) => collection_scalars_to_pb g a ddsMemberData count m fd
      | None => mret (false, m)
      end
  end.

Definition dds_collection_member_to_pb (rec : to_pb) (ddsData : nat) (info : member_info)
    (ddsMemberTc : TC) (m : MSG) (fd : FD) : M W E (bool * MSG) :=
  if mi_element_count info =? 0 then mret (true, m)
  else
    c ← get_cached_dds_data ddsMemberTc;
    match c with
    | None => mret (false, m)
    | Some ddsMemberData =>
        r ← with_bound ddsData ddsMemberData (mi_id info)
              (match TypeCode_content_type ddsMemberTc with
               | None => mret (false, m)
               | Some elTc =>
                   k ← or_hang (resolve_type_code alias_fuel elTc DDS_TK_NULL);
                   if negb k.1.1 then mret (false, m)
                   else
                     collection_elements_to_pb rec ddsMemberData (mi_element_count info) k.1.2 k.2 m fd
               end);
        mret (default (false, m) r)
    end.

(** One iteration of the loop over the members. *)
Definition member_to_pb (rec : to_pb) (ddsData : nat) (i : nat) (m : MSG) : M W E (bool * MSG) :=
  d ← get_obj ddsData;
  let info := info_by_index d i in
  if negb (info.1 =? DDS_RETCODE_OK) then mret (false, m)
  else if negb (member_exists d (mi_id info.2)) then mret (true, m)
  else
    let t := type_by_id d (mi_id info.2) in
    if negb (t.1 =? DDS_RETCODE_OK) then mret (false, m)
    else
      k ← or_hang (resolve_type_code alias_fuel t.2 DDS_TK_NULL);
      if negb k.1.1 then mret (false, m)
      else
        match FindFieldByName m (mi_name info.2) with
        | None => mret (false, m)
        | Some fd =>
            match k.2 with
            | DDS_TK_ARRAY | DDS_TK_SEQUENCE =>
                if bool_decide (type fd = TYPE_BYTES)
                   && bool_decide (mi_element_kind info.2 = DDS_TK_OCTET)
                then dds_singular_member_to_pb rec ddsData info.2 k.1.2 k.2 m fd
                else dds_collection_member_to_pb rec ddsData info.2 k.1.2 m fd
            | DDS_TK_STRUCT | DDS_TK_VALUE | DDS_TK_ENUM | DDS_TK_SHORT | DDS_TK_LONG
            | DDS_TK_LONGLONG | DDS_TK_USHORT | DDS_TK_ULONG | DDS_TK_ULONGLONG | DDS_TK_FLOAT
            | DDS_TK_DOUBLE | DDS_TK_BOOLEAN | DDS_TK_CHAR | DDS_TK_OCTET | DDS_TK_STRING =>
                dds_singular_member_to_pb rec ddsData info.2 k.1.2 k.2 m fd
            | _ => mret (false, m)
            end
        end.

Fixpoint members_to_pb (rec : to_pb) (ddsData : nat) (ixs : list nat) (m : MSG) : M W E (bool * MSG) :=
  match ixs with
  | [] => mret (true, m)
  | i :: ixs' =>
      r ← member_to_pb rec ddsData i m;
      if r.1 : bool then members_to_pb rec ddsData ixs' r.2 else mret r
  end.

Definition dds_to_protobuf_body (rec : to_pb) (pbMessage : MSG) (ddsData : nat) : M W E (bool * MSG) :=
  if negb (has_descriptor pbMessage) then mret (false, pbMessage)
  else if negb (has_reflection pbMessage) then mret (false, pbMessage)
  else
    d ← get_obj ddsData;
    match get_type d with
    | None => mret (false, pbMessage)
    | Some ddsTc =>
        if bool_decide (TypeCode_name (D := D) ddsTc = None) then mret (false, pbMessage)
        else
          let ddsTcKind := get_type_kind d in
          if negb (bool_decide (ddsTcKind = DDS_TK_STRUCT)) && negb (bool_decide (ddsTcKind = DDS_TK_VALUE))
             && negb (bool_decide (ddsTcKind = DDS_TK_ALIAS))
          then mret (false, pbMessage)
          else
            k ← or_hang (resolve_type_code alias_fuel ddsTc ddsTcKind);
            if negb k.1.1 then mret (false, pbMessage)
            else members_to_pb rec ddsData (seq 0 (get_member_count d)) pbMessage
    end.

(** [fuel] bounds the nesting. *)
Fixpoint dds_to_protobuf (fuel : nat) (pbMessage : MSG) (ddsData : nat) : M W E (bool * MSG) :=
  match fuel with
  | O => hang
  | S fuel => dds_to_protobuf_body (dds_to_protobuf fuel) pbMessage ddsData
  end.

(** ** ProtobufToDds.cpp *)

(** The fields that hold a number (both switches): [get] reads them, [known]
    tells whether an enum value has a descriptor; [None] for the other types. *)
Definition number_to_dds (ft : field_type) (get : accessor → Z) (known : bool) (d : D) (id : Z)
    (kind : DDS_TCKind) : option (bool * D) :=
  match ft with
  | TYPE_DOUBLE => Some (ok_of (set_scalar Double d id (get ADouble)))
  | TYPE_FLOAT => Some (ok_of (set_scalar Float d id (get AFloat)))
  | TYPE_INT64 | TYPE_SFIXED64 | TYPE_SINT64 => Some (ok_of (set_scalar LongLong d id (get Int64)))
  | TYPE_UINT64 | TYPE_FIXED64 => Some (ok_of (set_scalar ULongLong d id (get UInt64)))
  | TYPE_INT32 | TYPE_SFIXED32 | TYPE_SINT32 => Some (set_fuzzy_long d id kind (get Int32))
  | TYPE_UINT32 | TYPE_FIXED32 => Some (set_fuzzy_ulong d id kind (get UInt32))
  | TYPE_BOOL => Some (ok_of (set_scalar Boolean d id (get Bool)))
  | TYPE_ENUM =>
      Some (if negb known then (false, d) else ok_of (set_scalar Long d id (get EnumValue)))
  | _ => None
  end.

(** pbValue.c_str(), as DDS reads it. *)
Fixpoint c_str (s : list Z) : list Z :=
  match s with
  | [] => []
  | b :: s' => if b =? 0 then [] else b :: c_str s'
  end.

(** A field that is no message. *)
Definition plain_to_dds (ft : field_type) (get : accessor → Z) (known : bool) (str : list Z) (d : D)
    (id : Z) (tc : TC) (kind : DDS_TCKind) : M W E (bool * D) :=
  match ft with
  | TYPE_STRING => mret (ok_of (set_string d id (c_str str)))
  | TYPE_BYTES =>
      or_hang (set_fuzzy_bytes alias_fuel d id tc str (u32 (Z.of_nat (length str))))
  | _ => mret (default (false, d) (number_to_dds ft get known d id kind))
  end.

#[local] Abbreviation to_dds := (nat → MSG → M W E bool).

Definition pb_singular_field_to_dds (rec : to_dds) (ddsData : nat) (info : member_info)
    (ddsMemberTc : TC) (ddsMemberTcKind : DDS_TCKind) (m : MSG) (fd : FD) : M W E bool :=
  if negb (HasField m fd) then mret true
  else
    match type fd with
    | TYPE_GROUP | TYPE_MESSAGE =>
        let pbSubMessage := GetMessage m fd in
        c ← get_cached_dds_data ddsMemberTc;
        match c with
        | None => mret false
        | Some ddsMemberData =>
            r ← with_bound ddsData ddsMemberData (mi_id info) (rec ddsMemberData pbSubMessage);
            mret (default false r)
        end
    | ft =>
        d ← get_obj ddsData;
        r ← plain_to_dds ft (λ a, get_number a m fd) (enum_known m fd None) (GetString m fd) d
              (mi_id info) ddsMemberTc ddsMemberTcKind;
        put_obj ddsData r.2;;
        mret r.1
    end.

(** The loops over the elements of a repeated field, of messages and of the
    rest; [ixs] are the indices j. *)
Fixpoint repeated_messages_to_dds (rec : to_dds) (ddsMemberData elData : nat) (ixs : list nat) (m : MSG)
    (fd : FD) : M W E bool :=
  match ixs with
  | [] => mret true
  | j :: ixs' =>
      r ← with_bound ddsMemberData elData (Z.of_nat j + 1) (rec elData (GetRepeatedMessage m fd j));
      if default false r then repeated_messages_to_dds rec ddsMemberData elData ixs' m fd
      else mret false
  end.

(** The switch over the type of the field, for the element [j]. *)
Definition repeated_element_to_dds (d : D) (j : nat) (elTc : TC) (elTcKind : DDS_TCKind)
    (m : MSG) (fd : FD) : M W E (bool * D) :=
  plain_to_dds (type fd) (λ a, get_repeated_number a m fd j) (enum_known m fd (Some j))
    (GetRepeatedString m fd j) d (Z.of_nat j + 1) elTc elTcKind.

Fixpoint repeated_plain_to_dds (ddsMemberData : nat) (ixs : list nat) (elTc : TC) (elTcKind : DDS_TCKind)
    (m : MSG) (fd : FD) : M W E bool :=
  match ixs with
  | [] => mret true
  | j :: ixs' =>
      d ← get_obj ddsMemberData;
      r ← repeated_element_to_dds d j elTc elTcKind m fd;
      put_obj ddsMemberData r.2;;
      if r.1 : bool then repeated_plain_to_dds ddsMemberData ixs' elTc elTcKind m fd else mret false
  end.

Definition pb_repeated_field_to_dds (rec : to_dds) (ddsData : nat) (info : member_info)
    (ddsMemberTc : TC) (m : MSG) (fd : FD) : M W E bool :=
  let pbFieldSize := FieldSize m fd in
  if (pbFieldSize =? 0)%nat then mret true
  else
    c ← get_cached_dds_data ddsMemberTc;
    match c with
    | None => mret false
    | Some ddsMemberData =>
        r ← with_bound ddsData ddsMemberData (mi_id info)
              (match TypeCode_content_type ddsMemberTc with
               | None => mret false
               | Some elTc =>
                   k ← or_hang (resolve_type_code alias_fuel elTc DDS_TK_NULL);
                   if negb k.1.1 then mret false
                   else if is_map fd || bool_decide (type fd = TYPE_MESSAGE)
                           || bool_decide (type fd = TYPE_GROUP)
                   then
                     c ← get_cached_dds_data k.1.2;
                     match c with
                     | None => mret false
                     | Some elData =>
                         repeated_messages_to_dds rec ddsMemberData elData (seq 0 pbFieldSize) m fd
                     end
                   else repeated_plain_to_dds ddsMemberData (seq 0 pbFieldSize) k.1.2 k.2 m fd
               end);
        mret (default false r)
    end.

(** One iteration of the loop over the fields. *)
Definition field_to_dds (rec : to_dds) (ddsData : nat) (m : MSG) (fd : FD) : M W E bool :=
  d ← get_obj ddsData;
  g ← or_hang (get_member_info alias_fuel d (field_name fd));
  match g.2 with
  | None => mret false
  | Some (info, tc, kind) =>
      if is_repeated fd || is_map fd
      then pb_repeated_field_to_dds rec ddsData info tc m fd
      else pb_singular_field_to_dds rec ddsData info tc kind m fd
  end.

Fixpoint fields_to_dds (rec : to_dds) (ddsData : nat) (m : MSG) (fds : list FD) : M W E bool :=
  match fds with
  | [] => mret true
  | fd :: fds' =>
      ok ← field_to_dds rec ddsData m fd;
      if ok : bool then fields_to_dds rec ddsData m fds' else mret false
  end.

Definition protobuf_to_dds_body (rec : to_dds) (ddsData : nat) (pbMessage : MSG) : M W E bool :=
  if negb (has_descriptor pbMessage) then mret false
  else if negb (has_reflection pbMessage) then mret false
  else fields_to_dds rec ddsData pbMessage (ListFields pbMessage).

Fixpoint protobuf_to_dds (fuel : nat) (ddsData : nat) (pbMessage : MSG) : M W E bool :=
  match fuel with
  | O => hang
  | S fuel => protobuf_to_dds_body (protobuf_to_dds fuel) ddsData pbMessage
  end.
End operations.

(** * Specifications *)

Section number_theorems.
Context {D TC MSG FD : Type} {DS : DynScalars D} {RF : Reflection MSG FD}.

(** The accessors that Protobuf accepts for a type. *)
Definition accessor_of (ft : field_type) : option accessor :=
  match ft with
  | TYPE_DOUBLE => Some ADouble
  | TYPE_FLOAT => Some AFloat
  | TYPE_INT64 | TYPE_SFIXED64 | TYPE_SINT64 => Some Int64
  | TYPE_UINT64 | TYPE_FIXED64 => Some UInt64
  | TYPE_INT32 | TYPE_SFIXED32 | TYPE_SINT32 => Some Int32
  | TYPE_UINT32 | TYPE_FIXED32 => Some UInt32
  | TYPE_BOOL => Some Bool
  | TYPE_ENUM => Some EnumValue
  | _ => None
  end.

(** What Protobuf and DDS document: a number is read as it was set or added;
    a value has the range of its type. *)
Class NumberLaws := {
  get_set : ∀ a m fd v, accessor_of (type fd) = Some a → get_number a (set_number a m fd v) fd = v;
  size_add : ∀ a m fd v, FieldSize (add_number a m fd v) fd = S (FieldSize m fd);
  get_added : ∀ a m fd v, accessor_of (type fd) = Some a →
    get_repeated_number a (add_number a m fd v) fd (FieldSize m fd) = v;
  get_before : ∀ a m fd v i, accessor_of (type fd) = Some a → (i < FieldSize m fd)%nat →
    get_repeated_number a (add_number a m fd v) fd i = get_repeated_number a m fd i;
  scalar_range : ∀ g (d : D) id v, get_scalar g d id = (DDS_RETCODE_OK, v) → fits g v
}.

(** A number that came from a member of some kind goes back into one: exactly,
    with the setter of that kind. *)
Lemma number_back k g a ft get (d : D) id v :
  scalar_case k = Some (g, a) → accessor_of ft = Some a → fits g v → get a = v →
  number_to_dds ft get true d id k = Some (ok_of (set_scalar g d id v)).
Proof.
  intros Hk Ha Hv Hget. unfold number_to_dds.
  destruct k; cbn in Hk; try done; injection Hk as <- <-; destruct ft; cbn in Ha; try done; rewrite Hget;
    try done; f_equal; first [rewrite set_fuzzy_long_lemma | rewrite set_fuzzy_ulong_lemma];
    try (by rewrite decide_True); unfold fits, is_s32, is_u32 in *; cbn in *; lia.
Qed.

(** A number survives the way from a sample to a message and back.  For
    every kind of member and every type of field of its family, the value that
    was read from the member is written, unchanged and with the setter of the
    same type, into the other sample. *)
Theorem scalar_roundtrip {NL : NumberLaws} k g a (d : D) id m fd m' d2 id2 :
  scalar_case k = Some (g, a) → accessor_of (type fd) = Some a →
  singular_scalar_to_pb g a d id m fd = (true, m') →
  ∃ v, get_scalar g d id = (DDS_RETCODE_OK, v)
    ∧ number_to_dds (type fd) (λ a, get_number a m' fd) true d2 id2 k
        = Some (ok_of (set_scalar g d2 id2 v)).
Proof.
  intros Hk Ha. unfold singular_scalar_to_pb. destruct (get_scalar g d id) as [rc v] eqn:Hget. cbn.
  destruct (Z.eqb_spec rc DDS_RETCODE_OK) as [->|]; cbn; [|done]. intros [= <-]. exists v. split; [done|].
  eapply number_back; [done | done | by eapply scalar_range | by apply get_set].
Qed.

(** The elements of a collection of numbers are appended to the field in
    their order, behind those that were there. *)
Theorem repeated_scalar_spec {NL : NumberLaws} g a (d : D) ids m fd m' :
  accessor_of (type fd) = Some a →
  repeated_scalar_to_pb g a d ids m fd = (true, m') →
  FieldSize m' fd = (FieldSize m fd + length ids)%nat
  ∧ (∀ i, (i < FieldSize m fd)%nat → get_repeated_number a m' fd i = get_repeated_number a m fd i)
  ∧ (∀ i id, ids !! i = Some id →
       get_scalar g d id = (DDS_RETCODE_OK, get_repeated_number a m' fd (FieldSize m fd + i))).
Proof.
  intros Ha. revert m. induction ids as [|id ids IH]; intros m; cbn [repeated_scalar_to_pb].
  { intros [= <-]. cbn. split; [lia|]. by split. }
  destruct (get_scalar g d id) as [rc v] eqn:Hget. cbn.
  destruct (Z.eqb_spec rc DDS_RETCODE_OK) as [->|]; cbn; [|done]. intros Hrun.
  destruct (IH _ Hrun) as (Hsize & Hold & Hnew). rewrite size_add in Hsize, Hold, Hnew.
  split; [lia|]. split.
  - intros i Hi. rewrite Hold by lia. by apply get_before.
  - intros [|i] id' Hi; cbn in Hi.
    + injection Hi as <-. rewrite Nat.add_0_r, Hold by lia. by rewrite get_added.
    + replace (FieldSize m fd + S i)%nat with (S (FieldSize m fd) + i)%nat by lia. by apply Hnew.
Qed.
End number_theorems.


Section string_theorems.
Context {D TC MSG FD : Type} {DO : DynObjects D TC} {RF : Reflection MSG FD}.
#[local] Abbreviation W := (conv_state D TC).

(** What DDS documents of get_string: the string and its NUL, or, without the
    room for them, the room they need.  The bound of a string is a DDS_Long. *)
Class StringLaw := {
  string_value : D → Z → option (list Z);
  string_bound : ∀ d id s, string_value d id = Some s → Z.of_nat (length s) < 2 ^ 31;
  get_string_value : ∀ d id room s, string_value d id = Some s →
    get_string d id room =
      if Z.of_nat (length s) + 1 <=? room then (DDS_RETCODE_OK, s ++ [0], Z.of_nat (length s) + 1)
      else (DDS_RETCODE_PRECONDITION_NOT_MET, [], Z.of_nat (length s) + 1)
}.

Definition with_buffer (b : list Z) (w : W) : W :=
  ConvState b (cs_cache w) (cs_objects w) (cs_next w).

Lemma length_resize n (b : list Z) : length (resize n b) = n.
Proof. unfold resize. rewrite length_app, length_take, length_replicate. lia. Qed.

(** Reading a string with some of the room of the buffer. *)
Lemma read_string_spec {SW : StringLaw} {E} d id s len (w : W) :
  string_value d id = Some s → len <= Z.of_nat (length (cs_str_buffer w)) →
  ∃ b, read_string (E := E) d id len w = Ok (Some (s, Z.of_nat (length s) + 1)) (with_buffer b w)
    ∧ length b = (if Z.of_nat (length s) + 1 <=? len then length (cs_str_buffer w) else S (length s)).
Proof.
  intros Hs Hlen.
  assert (∀ (b : list Z) (w' : W), (S (length s) ≤ length b)%nat → w' = with_buffer b w →
    ∃ b', (b0 ← get_buffer; b0 ← write_into (s ++ [0]) b0; put_buffer b0;;
           mret (DDS_RETCODE_OK, Z.of_nat (length s) + 1)) w'
            = @Ok W E _ (DDS_RETCODE_OK, Z.of_nat (length s) + 1) (with_buffer b' w)
      ∧ length b' = length b ∧ take (length s) b' = s) as Hwrite.
  { intros b w' Hb ->. exists ((s ++ [0]) ++ drop (length (s ++ [0])) b).
    unfold get_buffer, write_into, put_buffer, mbind, M_bind. cbn [cs_str_buffer with_buffer].
    assert (length (s ++ [0]) = S (length s)) as Hl by (rewrite length_app; cbn; lia).
    rewrite Hl, (proj2 (Nat.leb_le _ _) Hb). split; [done|].
    split; [rewrite length_app, length_drop; lia|]. by rewrite <- app_assoc, take_app_length. }
  assert (∀ b, take (length s) b = s → (length s ≤ length b)%nat →
    copy_out (E := E) (u32 (Z.of_nat (length s) + 1 - 1)) (with_buffer b w) = Ok s (with_buffer b w)) as Hcopy.
  { intros b Htake Hb. pose proof (string_bound d id s Hs).
    unfold copy_out, get_buffer, mbind, M_bind, mret, M_ret. cbn [cs_str_buffer with_buffer].
    replace (u32 (Z.of_nat (length s) + 1 - 1)) with (Z.of_nat (length s)) by (unfold u32; rewrite Z.mod_small; lia).
    rewrite (proj2 (Z.leb_le _ _)) by lia. by rewrite Nat2Z.id, take_app_le, Htake by lia. }
  unfold read_string, get_string_buffer. rewrite (get_string_value d id len s Hs).
  destruct (Z.leb_spec (Z.of_nat (length s) + 1) len) as [Hfit|Hno].
  - destruct (Hwrite (cs_str_buffer w) w) as (b' & Hrun & Hlb & Htake); [lia | by destruct w |].
    exists b'. rewrite (bind_Ok _ _ _ _ _ Hrun). split; [|done].
    cbn [fst snd]. change (DDS_RETCODE_OK =? DDS_RETCODE_PRECONDITION_NOT_MET) with false. cbn iota.
    erewrite bind_Ok by reflexivity. cbn [fst snd]. rewrite Z.eqb_refl. cbn [negb].
    by rewrite (bind_Ok _ _ _ _ _ (Hcopy b' Htake ltac:(lia))).
  - destruct (Hwrite (resize (Z.to_nat (Z.of_nat (length s) + 1)) (cs_str_buffer w))
                (with_buffer (resize (Z.to_nat (Z.of_nat (length s) + 1)) (cs_str_buffer w)) w))
      as (b' & Hrun & Hlb & Htake); [rewrite length_resize; lia | done |].
    rewrite length_resize in Hlb. exists b'. split; [|lia].
    erewrite bind_Ok.
    2: { unfold get_buffer, write_into, put_buffer, mbind, M_bind, mret, M_ret. cbn [length Nat.leb app drop].
         reflexivity. }
    cbn [fst snd]. rewrite Z.eqb_refl.
    erewrite bind_Ok.
    2: { unfold get_buffer at 1. unfold put_buffer at 1. unfold mbind at 1 2, M_bind at 1 2.
         cbn [cs_str_buffer cs_cache cs_objects cs_next].
         rewrite (get_string_value d id _ s Hs), Z.leb_refl. exact Hrun. }
    cbn [fst snd]. rewrite Z.eqb_refl. cbn [negb].
    by rewrite (bind_Ok _ _ _ _ _ (Hcopy b' Htake ltac:(lia))).
Qed.

Lemma repeated_string_lemma {SW : StringLaw} {E} d ids strs len m fd (w : W) :
  Forall2 (λ id s, string_value d id = Some s) ids strs →
  len <= Z.of_nat (length (cs_str_buffer w)) →
  ∃ b, repeated_string_to_pb (E := E) d ids len m fd w
         = Ok (true, foldl (λ m s, AddString m fd s) m strs) (with_buffer b w).
Proof.
  intros Hall. revert len m w. induction Hall as [|id s ids strs Hs Hall IH]; intros len m w Hlen.
  { exists (cs_str_buffer w). by destruct w. }
  cbn [repeated_string_to_pb foldl].
  destruct (read_string_spec (E := E) d id s len w Hs Hlen) as (b & Hrun & Hb).
  rewrite (bind_Ok _ _ _ _ _ Hrun).
  destruct (IH (Z.of_nat (length s) + 1) (AddString m fd s) (with_buffer b w)) as [b' Hrest].
  { cbn. rewrite Hb. destruct (Z.leb_spec (Z.of_nat (length s) + 1) len); lia. }
  exists b'. by rewrite Hrest.
Qed.

(** The room that is offered first lies in the buffer, and is all of a buffer
    of less than 4 GB. *)
Lemma initial_len_spec {E} (w : W) :
  ∃ b len, initial_len (E := E) w = Ok len (with_buffer b w) ∧ len <= Z.of_nat (length b)
    ∧ (0 < Z.of_nat (length (cs_str_buffer w)) < 2 ^ 32 →
         b = cs_str_buffer w ∧ len = Z.of_nat (length b)).
Proof.
  unfold initial_len, get_buffer, put_buffer, mbind, M_bind, mret, M_ret.
  destruct (Z.eqb_spec (u32 (Z.of_nat (length (cs_str_buffer w)))) 0) as [H0|H0].
  - do 2 eexists. split; [reflexivity|]. cbn [cs_str_buffer]. rewrite length_resize. split; [unfold u32; apply Z.mod_le; lia|].
    intros Hb. unfold u32 in H0. rewrite Z.mod_small in H0; lia.
  - exists (cs_str_buffer w). eexists. split; [by destruct w|]. unfold u32 in *.
    split; [apply Z.mod_le; lia|]. intros Hb. by rewrite Z.mod_small by lia.
Qed.

(** C15: String members.  Whatever the size of the buffer, a string is copied
    into the message whole and without its NUL, and the elements of a
    collection of strings are added in their order. *)
Theorem string_to_pb_spec {SW : StringLaw} {E} d id s ids strs m fd (w : W) :
  string_value d id = Some s → Forall2 (λ id s, string_value d id = Some s) ids strs →
  (∃ b, singular_string_to_pb (E := E) d id m fd w = Ok (true, SetString m fd s) (with_buffer b w))
  ∧ (∃ b, (len ← initial_len; repeated_string_to_pb (E := E) d ids len m fd) w
            = Ok (true, foldl (λ m s, AddString m fd s) m strs) (with_buffer b w)).
Proof.
  intros Hs Hall. destruct (initial_len_spec (E := E) w) as (b & len & Hlen & Hle & _). split.
  - unfold singular_string_to_pb. rewrite (bind_Ok _ _ _ _ _ Hlen).
    destruct (read_string_spec (E := E) d id s len (with_buffer b w) Hs) as (b' & Hrun & _);
      [done|]. rewrite (bind_Ok _ _ _ _ _ Hrun). by exists b'.
  - rewrite (bind_Ok _ _ _ _ _ Hlen).
    destruct (repeated_string_lemma (E := E) d ids strs len m fd (with_buffer b w) Hall)
      as [b' Hrun]; [done|]. by exists b'.
Qed.

(** The buffer does shrink.  In a collection of strings the room that is
    offered to DDS is the length of the previous string: a longer one is
    refused first, although the buffer has room for it, and then the buffer is
    cut down to its length. *)
Theorem string_buffer_shrinks {SW : StringLaw} {E} d id1 id2 s1 s2 m fd (w : W) :
  string_value d id1 = Some s1 → string_value d id2 = Some s2 →
  (length s1 < length s2)%nat → (S (length s2) < length (cs_str_buffer w))%nat →
  Z.of_nat (length (cs_str_buffer w)) < 2 ^ 32 →
  ∃ b m', (len ← initial_len; repeated_string_to_pb (E := E) d [id1; id2] len m fd) w
            = Ok (true, m') (with_buffer b w)
    ∧ length b = S (length s2) ∧ (length b < length (cs_str_buffer w))%nat.
Proof.
  intros Hs1 Hs2 Hlt Hbuf Hsize. destruct (initial_len_spec (E := E) w) as (b & len & Hlen & _ & Hb).
  destruct Hb as [-> ->]; [lia|]. set (b := cs_str_buffer w) in *.
  destruct (read_string_spec (E := E) d id1 s1 (Z.of_nat (length b)) (with_buffer b w) Hs1)
    as (b1 & Hrun1 & Hb1); [done|].
  destruct (read_string_spec (E := E) d id2 s2 (Z.of_nat (length s1) + 1) (with_buffer b1 w) Hs2)
    as (b2 & Hrun2 & Hb2).
  { cbn in *. rewrite Hb1. destruct (Z.leb_spec (Z.of_nat (length s1) + 1) (Z.of_nat (length b))); lia. }
  exists b2, (AddString (AddString m fd s1) fd s2).
  rewrite (bind_Ok _ _ _ _ _ Hlen). cbn [repeated_string_to_pb].
  rewrite (bind_Ok _ _ _ _ _ Hrun1), (bind_Ok _ _ _ _ _ Hrun2). split; [done|].
  rewrite (proj2 (Z.leb_gt _ _)) in Hb2 by lia. lia.
Qed.

End string_theorems.

