(* ===== verification/ConversionSessions.v ===== *)
(** What every conversion between samples and messages keeps, whatever its
    result: it returns, and every object is as bound as it was before. *)
From Stdlib Require Import ZArith Lia.
From stdpp Require Import base gmap strings list option fin_maps.
From S2P Require Import Prelude Utils DynHelpers DynDataUtils MessageConversion.

#[local] Open Scope string_scope.
#[local] Open Scope list_scope.
#[local] Open Scope Z_scope.

(** How deep a type nests, and what the DDS library knows of the bindings of an
    object: whether it is bound to a member of another one, whether a member of
    it is bound, and whether one object is bound to a member of another. *)
Class Bindings (D TC : Type) := {
  nesting : TC → nat;
  is_bound : D → bool;
  has_bound_member : D → bool;
  bound_pair : D → D → Prop
}.

Section bindings.
Context {D TC : Type} {TT : TypeCodes TC} {DS : DynScalars D} {DM : DynMembers D TC}
  {DO : DynObjects D TC} {BD : Bindings D TC}.

(** An object that changed its contents only. *)
Record same_bindings (d d' : D) : Prop := {
  same_type : get_type d' = get_type d;
  same_is_bound : is_bound d' = is_bound d;
  same_has_bound : has_bound_member d' = has_bound_member d;
  same_pairs : ∀ dp, bound_pair dp d → bound_pair dp d'
}.

Definition free_object (d : D) : Prop := is_bound d = false ∧ has_bound_member d = false.

(** What DDS documents: types are finite; setters keep the bindings; an object
    can be bound to one member only, and only one member of an object can be
    bound at a time; what was bound can be unbound; nothing is written behind
    the end of a buffer. *)
Class BindingLaws := {
  nesting_content : ∀ tc c, TypeCode_content_type tc = Some c → (nesting c < nesting tc)%nat;
  nesting_member : ∀ d id t, type_by_id d id = (DDS_RETCODE_OK, t) →
    ∃ tc, get_type d = Some tc ∧ (nesting t < nesting tc)%nat;
  new_object : ∀ tc d, DynamicData_new tc = Some d → get_type d = Some tc ∧ free_object d;
  pair_bound : ∀ dp dm, bound_pair dp dm → is_bound dm = true;
  set_scalar_same : ∀ g d id v, same_bindings d (set_scalar g d id v).2;
  set_byte_array_same : ∀ k d id n v, same_bindings d (set_byte_array k d id n v).2;
  set_string_same : ∀ d id s, same_bindings d (set_string d id s).2;
  bind_law : ∀ dp dm id dp' dm', bind_complex_member dp dm id = Some (dp', dm') →
    (is_bound dm = false ∧ has_bound_member dp = false)
    ∧ (get_type dp' = get_type dp ∧ is_bound dp' = is_bound dp ∧ ∀ x, bound_pair x dp → bound_pair x dp')
    ∧ (get_type dm' = get_type dm ∧ has_bound_member dm' = has_bound_member dm)
    ∧ bound_pair dp' dm';
  unbind_law : ∀ dp dm, bound_pair dp dm → ∃ dp' dm', unbind_complex_member dp dm = Some (dp', dm')
    ∧ (get_type dp' = get_type dp ∧ is_bound dp' = is_bound dp ∧ has_bound_member dp' = false
       ∧ ∀ x, bound_pair x dp → bound_pair x dp')
    ∧ (get_type dm' = get_type dm ∧ is_bound dm' = false ∧ has_bound_member dm' = has_bound_member dm);
  get_string_room : ∀ d id room rc bytes len, 0 <= room → get_string d id room = (rc, bytes, len) →
    Z.of_nat (length bytes) <= room ∧ is_u32 len ∧ (rc = DDS_RETCODE_OK → 1 <= len <= room);
  get_octets_room : ∀ d id n, (length (get_octets d id n).2 ≤ Z.to_nat n)%nat
}.
End bindings.
Arguments BindingLaws D TC {TT DS DM DO BD}.

Section sessions.
Context {D TC MSG FD : Type} `{!EqDecision TC} {TT : TypeCodes TC} {DS : DynScalars D}
  {DM : DynMembers D TC} {DO : DynObjects D TC} {RF : Reflection MSG FD} {SL : SeqLib}
  {BD : Bindings D TC} {BL : BindingLaws D TC}.
#[local] Abbreviation W := (conv_state D TC).
Context {E : Type} (alias_fuel : nat).
Implicit Types (w : W) (d : D) (p q : nat).

Definition depth (d : D) : nat := match get_type d with Some tc => nesting tc | None => 0 end.

(** The cache gives existing objects of the right type; addresses are fresh. *)
Record well (w : W) : Prop := {
  well_cache : ∀ tc p, cache_find tc (cs_cache w) = Some p →
    ∃ d, cs_objects w !! p = Some d ∧ get_type d = Some tc;
  well_fresh : ∀ p, (cs_next w ≤ p)%nat → cs_objects w !! p = None
}.

(** What a conversion of the object [p], whose type nests [n] deep, may change:
    its contents, and that of objects of less depth; new objects are free, and
    only they are added to the cache. *)
Record keeps_bindings (n p : nat) (w w' : W) : Prop := {
  kept_object : ∀ q d, cs_objects w !! q = Some d →
    ∃ d', cs_objects w' !! q = Some d' ∧ same_bindings d d' ∧ (q ≠ p → (n ≤ depth d)%nat → d' = d);
  kept_new : ∀ q d', cs_objects w !! q = None → cs_objects w' !! q = Some d' → free_object d';
  kept_cache : ∀ tc q, cache_find tc (cs_cache w') = Some q →
    cache_find tc (cs_cache w) = Some q ∨ cs_objects w !! q = None
}.

#[export] Instance same_bindings_preorder : PreOrder (@same_bindings D TC DO BD).
Proof.
  split; [done|]. intros d1 d2 d3 [] []. constructor; try congruence. naive_solver.
Qed.

Lemma same_depth d d' : same_bindings d d' → depth d' = depth d.
Proof. intros []. unfold depth. by rewrite same_type0. Qed.

Lemma same_free d d' : same_bindings d d' → free_object d → free_object d'.
Proof. intros [] []. split; congruence. Qed.

#[export] Instance keeps_bindings_preorder n p : PreOrder (keeps_bindings n p).
Proof.
  split.
  - intros w. constructor; [|congruence | auto]. intros q d Hd. by exists d.
  - intros w1 w2 w3 [Hobj1 Hnew1 Hc1] [Hobj2 Hnew2 Hc2]. constructor.
    + intros q d Hd. destruct (Hobj1 q d Hd) as (d2 & Hd2 & Hs2 & Hu2).
      destruct (Hobj2 q d2 Hd2) as (d3 & Hd3 & Hs3 & Hu3). exists d3. split; [done|]. split; [by etrans|].
      intros Hq Hn. rewrite Hu3; [by apply Hu2 | done | by rewrite (same_depth _ _ Hs2)].
    + intros q d3 Hnone Hd3. destruct (cs_objects w2 !! q) as [d2|] eqn:Hd2; [|by eapply Hnew2].
      destruct (Hobj2 q d2 Hd2) as (d3' & Hd3' & Hs & _). rewrite Hd3 in Hd3'. injection Hd3' as <-.
      eapply same_free; [done | by eapply Hnew1].
    + intros tc q [Hq|Hq]%Hc2; [by apply Hc1|]. right. destruct (cs_objects w1 !! q) as [d|] eqn:Hd; [|done].
      destruct (Hobj1 q d Hd) as (d' & Hd' & _). congruence.
Qed.

(** The effect of a computation on the objects. *)
Definition keeps {A} (n p : nat) (m : M W E A) (w : W) : Prop :=
  wp m (λ _ w', well w' ∧ keeps_bindings n p w w') no_jump w.

Lemma keeps_ret {A} n p (a : A) w : well w → keeps n p (mret a) w.
Proof. intros Hw. by split. Qed.

Lemma keeps_bind {A B} n p (m : M W E A) (k : A → M W E B) w (Q : A → W → Prop) :
  wp m (λ a w', Q a w' ∧ well w' ∧ keeps_bindings n p w w') no_jump w →
  (∀ a w', Q a w' → well w' → keeps_bindings n p w w' → keeps n p (k a) w') →
  keeps n p (m ≫= k) w.
Proof.
  intros Hm Hk. apply wp_bind. eapply wp_mono; [exact Hm | | done]. intros a w' (HQ & Hw' & Hkeep).
  eapply wp_mono; [by apply Hk | | done]. intros b w'' [Hw'' Hkeep']. split; [done|]. by etrans.
Qed.

(** The object itself is still there, and as deep as before. *)
Lemma keeps_bindings_self n p q w w' d :
  keeps_bindings n p w w' → cs_objects w !! q = Some d →
  ∃ d', cs_objects w' !! q = Some d' ∧ same_bindings d d'.
Proof. intros [H _ _] Hd. destruct (H q d Hd) as (d' & ? & ? & _). by exists d'. Qed.

(** ** The buffer *)

Lemma wp_get_obj {A} (k : D → M W E A) p d Q J w :
  cs_objects w !! p = Some d → wp (k d) Q J w → wp (d ← get_obj p; k d) Q J w.
Proof. intros Hd Hk. apply wp_bind. unfold wp at 1, get_obj. by rewrite Hd. Qed.

Lemma well_with_buffer b w : well w → well (with_buffer b w).
Proof. by intros []. Qed.

Lemma keeps_with_buffer n p b w : keeps_bindings n p w (with_buffer b w).
Proof. constructor; [|cbn; congruence | cbn; auto]. intros q d Hd. by exists d. Qed.

(** A computation that changes the buffer only. *)
Definition buffer_only {A} (m : M W E A) (P : A → list Z → Prop) (w : W) : Prop :=
  wp m (λ a w', ∃ b, w' = with_buffer b w ∧ P a b) no_jump w.

Lemma buffer_only_bind {A B} (m : M W E A) (k : A → M W E B) P P' w :
  buffer_only m P w → (∀ a b, P a b → buffer_only (k a) P' (with_buffer b w)) →
  buffer_only (m ≫= k) P' w.
Proof.
  intros Hm Hk. apply wp_bind. eapply wp_mono; [exact Hm | | done]. intros a w' (b & -> & HP).
  eapply wp_mono; [by apply Hk | | done]. intros c w'' (b' & -> & HP'). by exists b'.
Qed.

Lemma buffer_only_ret {A} (a : A) (P : A → list Z → Prop) w :
  P a (cs_str_buffer w) → buffer_only (mret a) P w.
Proof. intros HP. exists (cs_str_buffer w). by destruct w. Qed.

Lemma keeps_buffer_only {A} n p (m : M W E A) P w : well w → buffer_only m P w → keeps n p m w.
Proof.
  intros Hw Hm. eapply wp_mono; [exact Hm | | done]. intros a w' (b & -> & _).
  split; [by apply well_with_buffer | apply keeps_with_buffer].
Qed.

Lemma get_buffer_only w : buffer_only get_buffer (λ b b', b = cs_str_buffer w ∧ b' = b) w.
Proof. exists (cs_str_buffer w). by destruct w. Qed.

Lemma put_buffer_only b w : buffer_only (put_buffer b) (λ _ b', b' = b) w.
Proof. by exists b. Qed.

Lemma write_into_only bytes b w :
  (length bytes ≤ length b)%nat →
  buffer_only (write_into bytes b) (λ b' b'', b'' = cs_str_buffer w ∧ length b' = length b) w.
Proof.
  intros Hl. unfold write_into. rewrite (proj2 (Nat.leb_le _ _) Hl). apply buffer_only_ret.
  split; [done|]. rewrite length_app, length_drop. lia.
Qed.

(** DDS writes a string into the room it was given. *)
Lemma get_string_buffer_only d id len w :
  0 <= len <= Z.of_nat (length (cs_str_buffer w)) →
  buffer_only (get_string_buffer d id len)
    (λ r b, length b = length (cs_str_buffer w) ∧ is_u32 r.2
       ∧ (r.1 = DDS_RETCODE_OK → 1 <= r.2 <= Z.of_nat (length b))) w.
Proof.
  intros Hlen. unfold get_string_buffer. destruct (get_string d id len) as [[rc bytes] len'] eqn:Hget.
  destruct (get_string_room d id len rc bytes len' ltac:(lia) Hget) as (Hroom & Hu & Hok).
  eapply buffer_only_bind; [apply get_buffer_only|]. intros b ? [-> ->].
  eapply buffer_only_bind; [apply write_into_only; lia|]. intros b' ? [-> Hb'].
  eapply buffer_only_bind; [apply put_buffer_only|]. intros [] ? ->.
  apply buffer_only_ret. cbn [cs_str_buffer with_buffer fst snd]. split; [done|]. split; [done|].
  intros H. specialize (Hok H). lia.
Qed.

Lemma copy_out_only n w :
  n <= Z.of_nat (length (cs_str_buffer w)) + 1 → buffer_only (copy_out n) (λ _ b, b = cs_str_buffer w) w.
Proof.
  intros Hn. unfold copy_out. eapply buffer_only_bind; [apply get_buffer_only|]. intros b ? [-> ->].
  rewrite (proj2 (Z.leb_le _ _) Hn). by apply buffer_only_ret.
Qed.

Definition len_in_buffer (r : option (list Z * Z)) (b : list Z) : Prop :=
  match r with Some (_, len) => 0 <= len <= Z.of_nat (length b) | None => True end.

Lemma read_string_only d id len w :
  0 <= len <= Z.of_nat (length (cs_str_buffer w)) →
  buffer_only (read_string d id len) len_in_buffer w.
Proof.
  intros Hlen. unfold read_string.
  eapply buffer_only_bind; [by apply get_string_buffer_only|]. intros r b1 (Hb1 & Hu & Hok).
  eapply buffer_only_bind with (P := λ r b, is_u32 r.2 ∧ (r.1 = DDS_RETCODE_OK → 1 <= r.2 <= Z.of_nat (length b))).
  - destruct (r.1 =? DDS_RETCODE_PRECONDITION_NOT_MET).
    + eapply buffer_only_bind; [apply get_buffer_only|]. intros b ? [-> ->].
      eapply buffer_only_bind; [apply put_buffer_only|]. intros [] ? ->. unfold is_u32 in Hu.
      eapply wp_mono; [apply get_string_buffer_only; cbn; rewrite length_resize; lia | | done].
      intros r' w' (b & -> & _ & ?). by exists b.
    + apply buffer_only_ret. cbn. by split.
  - intros r' b (Hu' & Hok'). destruct (Z.eqb_spec r'.1 DDS_RETCODE_OK) as [Hrc|]; cbn [negb];
      [|by apply buffer_only_ret]. specialize (Hok' Hrc).
    eapply buffer_only_bind; [apply copy_out_only|].
    { unfold is_u32, u32 in *. rewrite Z.mod_small by lia. cbn. lia. }
    intros s ? ->. apply buffer_only_ret. cbn. lia.
Qed.

Lemma initial_len_only w :
  buffer_only initial_len (λ len b, 0 <= len <= Z.of_nat (length b)) w.
Proof.
  destruct (initial_len_spec (E := E) w) as (b & len & Hrun & Hle & _). unfold buffer_only, wp.
  rewrite Hrun. exists b. split; [done|]. split; [|done]. clear Hle.
  unfold initial_len, get_buffer, put_buffer, mbind, M_bind, mret, M_ret in Hrun.
  assert (∀ z, 0 <= u32 z) by (intros; unfold u32; apply Z.mod_pos_bound; lia).
  case_match; by simplify_eq.
Qed.

Lemma repeated_string_only d ids len m fd w :
  0 <= len <= Z.of_nat (length (cs_str_buffer w)) →
  buffer_only (repeated_string_to_pb (MSG := MSG) d ids len m fd) (λ _ _, True) w.
Proof.
  revert len m w. induction ids as [|id ids IH]; intros len m w Hlen; cbn [repeated_string_to_pb].
  { by apply buffer_only_ret. }
  eapply buffer_only_bind; [by apply read_string_only|]. intros [[s len']|] b Hb; [|by apply buffer_only_ret].
  by apply IH.
Qed.

Lemma read_octets_only d id count s w : buffer_only (read_octets d id count s) (λ _ _, True) w.
Proof.
  unfold read_octets. eapply buffer_only_bind; [apply get_buffer_only|]. intros b ? [-> ->].
  eapply buffer_only_bind; [apply put_buffer_only|]. intros [] ? ->.
  eapply buffer_only_bind; [apply get_buffer_only|]. cbn. intros b ? [-> ->].
  destruct (loan_contiguous _ _ _ _ _) as [s'|]; [|by apply buffer_only_ret].
  destruct (negb _); [by apply buffer_only_ret|].
  eapply buffer_only_bind; [apply write_into_only|].
  { rewrite length_resize. apply get_octets_room. }
  intros b' ? _. eapply buffer_only_bind; [apply put_buffer_only|]. intros [] ? ->. by apply buffer_only_ret.
Qed.

Lemma repeated_bytes_only d ixs s m fd w :
  buffer_only (repeated_bytes_to_pb (MSG := MSG) d ixs s m fd) (λ _ _, True) w.
Proof.
  revert s m w. induction ixs as [|i ixs IH]; intros s m w; cbn [repeated_bytes_to_pb].
  { by apply buffer_only_ret. }
  destruct (negb _); [by apply buffer_only_ret|].
  eapply buffer_only_bind; [by apply read_octets_only|]. intros r b _.
  destruct r.1; [apply IH | by apply buffer_only_ret].
Qed.


(** ** Objects *)

Definition set_obj p d w : W :=
  ConvState (cs_str_buffer w) (cs_cache w) (<[p := d]> (cs_objects w)) (cs_next w).

Lemma lookup_set_obj p d w q :
  cs_objects (set_obj p d w) !! q = if decide (q = p) then Some d else cs_objects w !! q.
Proof. cbn. case_decide as H; [subst; apply lookup_insert_eq | by apply lookup_insert_ne]. Qed.

Lemma well_set_obj p d d' w :
  well w → cs_objects w !! p = Some d → get_type d' = get_type d → well (set_obj p d' w).
Proof.
  intros [Hc Hf] Hd Ht. constructor.
  - intros tc q (d0 & Hq & Hq')%Hc. rewrite lookup_set_obj. case_decide as Heq; [|by exists d0].
    exists d'. split; [done|]. subst. congruence.
  - intros q Hq. rewrite lookup_set_obj. case_decide as Heq; [|by apply Hf].
    subst. rewrite Hf in Hd by done. done.
Qed.

Lemma put_obj_keeps n p d d' w :
  well w → cs_objects w !! p = Some d → same_bindings d d' → keeps n p (put_obj p d') w.
Proof.
  intros Hw Hd Hs. split; [by eapply (well_set_obj p d); [| | apply Hs]|].
  change (keeps_bindings n p w (set_obj p d' w)). constructor.
  - intros q d0 Hq. rewrite lookup_set_obj. case_decide as Heq; [|by exists d0].
    exists d'. subst. by simplify_eq.
  - intros q d0 Hnone. rewrite lookup_set_obj. case_decide; congruence.
  - auto.
Qed.

Lemma get_cached_keeps n p tc w :
  well w →
  wp (get_cached_dds_data tc) (λ c w', (∀ q, c = Some q → ∃ d, cs_objects w' !! q = Some d ∧ get_type d = Some tc)
      ∧ well w' ∧ keeps_bindings n p w w') (no_jump (E := E)) w.
Proof.
  intros Hw. unfold get_cached_dds_data, wp, mbind, M_bind, get_cache.
  destruct (cache_find tc (cs_cache w)) as [c|] eqn:Hc.
  { split; [|done]. intros q [= <-]. by eapply well_cache. }
  destruct (DynamicData_new tc) as [d|] eqn:Hnew; [|by split].
  destruct (new_object _ _ Hnew) as [Htype Hfree]. cbn.
  assert (cs_objects w !! cs_next w = None) as Hnext by by apply well_fresh.
  split; [intros q [= <-]; exists d; by rewrite lookup_insert_eq|]. split.
  - constructor; cbn.
    + intros tc' q. destruct (decide (tc' = tc)) as [->|Hne].
      * intros [= <-]. exists d. by rewrite lookup_insert_eq.
      * intros (d' & Hd' & Ht)%(well_cache _ Hw). exists d'. rewrite lookup_insert_ne; [done | congruence].
    + intros q Hq. rewrite lookup_insert_ne by lia. apply (well_fresh _ Hw). lia.
  - constructor; cbn.
    + intros q d' Hq. exists d'. rewrite lookup_insert_ne; [done | congruence].
    + intros q d' Hnone. destruct (decide (q = cs_next w)) as [->|]; [|rewrite lookup_insert_ne by done; congruence].
      rewrite lookup_insert_eq. by intros [= <-].
    + intros tc' q. destruct (decide (tc' = tc)); [intros [= <-]; by right | by left].
Qed.


(** *** Scopes that bind an object [q] to a member of [p] *)

Definition set_pair p dp q dm w : W := set_obj q dm (set_obj p dp w).

Lemma lookup_set_pair p dp q dm w r :
  cs_objects (set_pair p dp q dm w) !! r
  = if decide (r = q) then Some dm else if decide (r = p) then Some dp else cs_objects w !! r.
Proof. unfold set_pair. by rewrite !lookup_set_obj. Qed.

Lemma well_set_pair p dp dp' q dm dm' w :
  well w → cs_objects w !! p = Some dp → cs_objects w !! q = Some dm → p ≠ q →
  get_type dp' = get_type dp → get_type dm' = get_type dm → well (set_pair p dp' q dm' w).
Proof.
  intros Hw Hp Hq Hne Htp Htq. eapply well_set_obj; [by eapply well_set_obj | | exact Htq].
  rewrite lookup_set_obj. by rewrite decide_False.
Qed.

Lemma wp_with_bound {A} p q id (body : M W E A) w dp dm (Q : option A → W → Prop) :
  cs_objects w !! p = Some dp → cs_objects w !! q = Some dm →
  (bind_complex_member dp dm id = None → Q None w) →
  (∀ dp1 dm1, bind_complex_member dp dm id = Some (dp1, dm1) →
     wp body (λ a w2, ∃ dp2 dm2 dp3 dm3, cs_objects w2 !! p = Some dp2 ∧ cs_objects w2 !! q = Some dm2
         ∧ unbind_complex_member dp2 dm2 = Some (dp3, dm3) ∧ Q (Some a) (set_pair p dp3 q dm3 w2))
       no_jump (set_pair p dp1 q dm1 w)) →
  wp (with_bound p q id body) Q no_jump w.
Proof.
  intros Hp Hq Hnone Hsome. unfold with_bound.
  eapply wp_get_obj; [exact Hp|]. eapply wp_get_obj; [exact Hq|].
  destruct (bind_complex_member dp dm id) as [[dp1 dm1]|]; [|by apply Hnone].
  apply wp_bind. change (wp (put_obj q dm1;; (r ← body; exit_scope (make_scope_exit (unbind_member p q));; mret (Some r)))
    Q no_jump (set_obj p dp1 w)).
  apply wp_bind. change (wp (r ← body; unbind_member p q;; mret (Some r)) Q no_jump (set_pair p dp1 q dm1 w)).
  apply wp_bind. eapply wp_mono; [by apply Hsome | | done].
  intros a w2 (dp2 & dm2 & dp3 & dm3 & Hp2 & Hq2 & Hunbind & HQ). apply wp_bind. unfold unbind_member.
  eapply wp_get_obj; [exact Hp2|]. eapply wp_get_obj; [exact Hq2|]. rewrite Hunbind. exact HQ.
Qed.

(** Where the body of the scope keeps the bindings, the scope does. *)
Lemma scope_keeps p q dp dm id dp1 dm1 w w2 :
  cs_objects w !! p = Some dp → cs_objects w !! q = Some dm → (depth dm < depth dp)%nat →
  bind_complex_member dp dm id = Some (dp1, dm1) →
  well w2 → keeps_bindings (depth dm) q (set_pair p dp1 q dm1 w) w2 →
  ∃ dm2 dp3 dm3, cs_objects w2 !! p = Some dp1 ∧ cs_objects w2 !! q = Some dm2 ∧ same_bindings dm1 dm2
    ∧ unbind_complex_member dp1 dm2 = Some (dp3, dm3)
    ∧ well (set_pair p dp3 q dm3 w2) ∧ keeps_bindings (depth dp) p w (set_pair p dp3 q dm3 w2).
Proof.
  intros Hp Hq Hlt Hbind Hw2 [Hobj Hnew Hcache].
  destruct (bind_law _ _ _ _ _ Hbind) as ((Hm0 & Hp0) & (Hpt & Hpb & Hpp) & (Hmt & Hmh) & Hpair).
  assert (p ≠ q) as Hne by (intros ->; rewrite Hp in Hq; simplify_eq; lia).
  destruct (Hobj p dp1) as (dp2 & Hp2 & _ & Hp2'); [by rewrite lookup_set_pair, decide_False, decide_True|].
  rewrite (Hp2' Hne) in Hp2 by (unfold depth in *; rewrite Hpt; lia). clear dp2 Hp2'.
  destruct (Hobj q dm1) as (dm2 & Hq2 & Hs2 & _); [by rewrite lookup_set_pair, decide_True|].
  destruct (unbind_law dp1 dm2 (same_pairs _ _ Hs2 _ Hpair))
    as (dp3 & dm3 & Hunbind & (Hpt3 & Hpb3 & Hph3 & Hpp3) & (Hmt3 & Hmb3 & Hmh3)).
  exists dm2, dp3, dm3. do 4 (split; [done|]). split; [by eapply well_set_pair|].
  destruct Hs2 as [Hs2t Hs2b Hs2h _]. constructor.
  - intros r d Hr. rewrite lookup_set_pair. case_decide as Hrq; [|case_decide as Hrp].
    + subst r. simplify_eq. exists dm3. split; [done|]. split; [|lia]. constructor; try congruence.
      intros x Hx%pair_bound. congruence.
    + subst r. simplify_eq. exists dp3. split; [done|]. split; [|done]. constructor; try congruence. auto.
    + destruct (Hobj r d) as (d' & Hr' & Hs & Hu); [by rewrite lookup_set_pair, !decide_False|].
      exists d'. split; [done|]. split; [done|]. intros _ Hd. apply Hu; [done | lia].
  - intros r d' Hnone. rewrite lookup_set_pair. case_decide as Hrq; [congruence|]. case_decide as Hrp; [congruence|].
    apply Hnew. by rewrite lookup_set_pair, !decide_False.
  - intros tc r [Hr|Hr]%Hcache; [by left|]. right. rewrite lookup_set_pair in Hr. by repeat case_decide.
Qed.

(** The state in which the body starts. *)
Lemma bound_well p q dp dm id dp1 dm1 w :
  well w → cs_objects w !! p = Some dp → cs_objects w !! q = Some dm → (depth dm < depth dp)%nat →
  bind_complex_member dp dm id = Some (dp1, dm1) →
  well (set_pair p dp1 q dm1 w) ∧ cs_objects (set_pair p dp1 q dm1 w) !! q = Some dm1 ∧ get_type dm1 = get_type dm.
Proof.
  intros Hw Hp Hq Hlt Hbind. destruct (bind_law _ _ _ _ _ Hbind) as (_ & (Hpt & _) & (Hmt & _) & _).
  assert (p ≠ q) as Hne by (intros ->; rewrite Hp in Hq; simplify_eq; lia).
  split; [by eapply well_set_pair|]. split; [|done]. by rewrite lookup_set_pair, decide_True.
Qed.

Lemma with_bound_keeps {A} p q id (body : M W E A) w dp dm :
  well w → cs_objects w !! p = Some dp → cs_objects w !! q = Some dm → (depth dm < depth dp)%nat →
  (∀ w1 dm1, well w1 → cs_objects w1 !! q = Some dm1 → get_type dm1 = get_type dm → keeps (depth dm) q body w1) →
  keeps (depth dp) p (with_bound p q id body) w.
Proof.
  intros Hw Hp Hq Hlt Hbody. eapply wp_with_bound; [exact Hp | exact Hq | by split |]. intros dp1 dm1 Hbind.
  destruct (bound_well p q dp dm id dp1 dm1 w) as (Hw1 & Hq1 & Ht1); [done..|].
  eapply wp_mono; [by eapply Hbody | | done]. intros a w2 [Hw2 Hk].
  destruct (scope_keeps p q dp dm id dp1 dm1 w w2) as (dm2 & dp3 & dm3 & ? & ? & _ & ? & ?); [done..|].
  by exists dp1, dm2, dp3, dm3.
Qed.

(** ** Types *)

Definition typed w p (tc : TC) : Prop := ∃ d, cs_objects w !! p = Some d ∧ get_type d = Some tc.

Lemma typed_keeps n p q tc w w' : keeps_bindings n p w w' → typed w q tc → typed w' q tc.
Proof.
  intros Hk (d & Hd & Ht). destruct (keeps_bindings_self _ _ _ _ _ _ Hk Hd) as (d' & Hd' & []).
  exists d'. split; [done | congruence].
Qed.

Lemma depth_typed d tc : get_type d = Some tc → depth d = nesting tc.
Proof. unfold depth. by intros ->. Qed.

#[export] Instance nesting_alias : AliasLaw (TT := TT) :=
  {| alias_depth := nesting; alias_content := λ tc c _, nesting_content tc c |}.

(** Behind the aliases is a type that nests no deeper. *)
Lemma resolves_nesting tc t k : resolves tc t k → (nesting t ≤ nesting tc)%nat.
Proof. induction 1 as [|tc c t k _ Hc _ IH]; [done|]. apply nesting_content in Hc. lia. Qed.

Lemma wp_resolve {A} tc out (k : bool * TC * DDS_TCKind → M W E A) Q J w :
  (nesting tc ≤ alias_fuel)%nat →
  (∀ b t kind, (b = true → (nesting t ≤ nesting tc)%nat) → wp (k (b, t, kind)) Q J w) →
  wp (r ← or_hang (resolve_type_code alias_fuel tc out); k r) Q J w.
Proof.
  intros Hf Hk. destruct (resolve_type_code_lemma (AL := nesting_alias) alias_fuel tc out Hf) as (b & t & kind & -> & Hb).
  apply wp_bind, wp_ret, Hk. intros ->. by apply resolves_nesting in Hb.
Qed.

Lemma get_cached_typed n p tc w :
  well w →
  wp (get_cached_dds_data tc) (λ c w', (∀ q, c = Some q → typed w' q tc)
      ∧ well w' ∧ keeps_bindings n p w w') (no_jump (E := E)) w.
Proof. apply get_cached_keeps. Qed.

Lemma with_bound_typed {A} p q id (body : M W E A) w tp tq :
  well w → typed w p tp → typed w q tq → (nesting tq < nesting tp)%nat →
  (∀ w1, well w1 → typed w1 q tq → keeps (nesting tq) q body w1) →
  keeps (nesting tp) p (with_bound p q id body) w.
Proof.
  intros Hw (dp & Hp & Htp) (dm & Hq & Htq) Hlt Hbody.
  rewrite <- (depth_typed dp tp), <- (depth_typed dm tq) in * by done.
  eapply with_bound_keeps; [done..|]. intros w1 dm1 Hw1 Hq1 Ht1. apply Hbody; [done|].
  exists dm1. split; [done | congruence].
Qed.

Lemma keeps_then {A B} n p (m : M W E A) (k : A → M W E B) w :
  keeps n p m w → (∀ a w', well w' → keeps_bindings n p w w' → keeps n p (k a) w') →
  keeps n p (m ≫= k) w.
Proof.
  intros Hm Hk. eapply keeps_bind with (Q := λ _ _, True); [|naive_solver].
  eapply wp_mono; [exact Hm | naive_solver..].
Qed.

(** An object is looked at. *)
Lemma keeps_get_obj {A} n p q tc (k : D → M W E A) w :
  typed w q tc → (∀ d, cs_objects w !! q = Some d → get_type d = Some tc → keeps n p (k d) w) →
  keeps n p (d ← get_obj q; k d) w.
Proof. intros (d & Hd & Ht) Hk. eapply wp_get_obj; [exact Hd | by apply Hk]. Qed.

(** ** From samples to messages *)
Section to_messages.
Context (rec : MSG → nat → M W E (bool * MSG)) (n : nat).
Hypothesis rec_keeps : ∀ m q t w, well w → typed w q t → (nesting t < n)%nat → keeps (nesting t) q (rec m q) w.

Lemma singular_struct_keeps p tp info t m fd w :
  well w → typed w p tp → (nesting t < nesting tp)%nat → (nesting tp ≤ n)%nat →
  keeps (nesting tp) p (singular_struct_to_pb rec p info t m fd) w.
Proof.
  intros Hw Hp Hlt Hn. unfold singular_struct_to_pb.
  eapply keeps_bind; [by apply get_cached_typed|]. intros [c|] w1 Hc Hw1 Hk1; [|by apply keeps_ret].
  apply keeps_then; [|intros; by apply keeps_ret].
  eapply with_bound_typed; [done | by eapply typed_keeps | by apply Hc | done |].
  intros w2 Hw2 Hq. destruct (MutableMessage m fd); [|by apply keeps_ret].
  apply keeps_then; [|intros; by apply keeps_ret]. apply rec_keeps; [done | done | lia].
Qed.

Lemma dds_singular_member_keeps p tp info t k m fd w :
  well w → typed w p tp → (nesting t < nesting tp)%nat → (nesting tp ≤ n)%nat →
  keeps (nesting tp) p (dds_singular_member_to_pb rec p info t k m fd) w.
Proof.
  intros Hw Hp Hlt Hn.
  assert (keeps (nesting tp) p (d ← get_obj p; singular_string_to_pb d (mi_id info) m fd) w) as Hstring.
  { eapply keeps_get_obj; [done|]. intros d _ _. apply keeps_buffer_only with (P := λ _ _, True); [done|].
    eapply buffer_only_bind; [apply initial_len_only|]. intros len b Hlen.
    eapply buffer_only_bind; [by apply read_string_only|]. intros r b' _. by apply buffer_only_ret. }
  assert (keeps (nesting tp) p (d ← get_obj p; singular_bytes_to_pb d info m fd) w) as Hbytes.
  { eapply keeps_get_obj; [done|]. intros d _ _. apply keeps_buffer_only with (P := λ _ _, True); [done|].
    eapply buffer_only_bind; [apply read_octets_only|]. intros r b _. by apply buffer_only_ret. }
  assert (∀ g a, keeps (nesting tp) p
            (d ← get_obj p; mret (singular_scalar_to_pb g a d (mi_id info) m fd)) w) as Hscalar.
  { intros g a. eapply keeps_get_obj; [done|]. intros. by apply keeps_ret. }
  unfold dds_singular_member_to_pb. destruct k; cbn [scalar_case];
    first [apply Hscalar | by apply keeps_ret | apply Hstring | apply Hbytes
                         | by apply singular_struct_keeps].
Qed.

Lemma repeated_struct_keeps p tp q t ids m fd w :
  well w → typed w p tp → typed w q t → (nesting t < nesting tp)%nat → (nesting tp ≤ n)%nat →
  keeps (nesting tp) p (repeated_struct_to_pb rec p q ids m fd) w.
Proof.
  intros Hw Hp Hq Hlt Hn. revert m w Hw Hp Hq. induction ids as [|id ids IH]; intros m w Hw Hp Hq;
    cbn [repeated_struct_to_pb]; [by apply keeps_ret|].
  apply keeps_then.
  - eapply with_bound_typed; [done.. |]. intros w2 Hw2 Hq2. destruct (AddMessage m fd); [|by apply keeps_ret].
    apply keeps_then; [|intros; by apply keeps_ret]. apply rec_keeps; [done | done | lia].
  - intros [[[] m']|] w' Hw' Hk; try by apply keeps_ret. apply IH; [done | by eapply typed_keeps..].
Qed.

Lemma collection_elements_keeps p tp count t k m fd w :
  well w → typed w p tp → (nesting t < nesting tp)%nat → (nesting tp ≤ n)%nat →
  keeps (nesting tp) p (collection_elements_to_pb rec p count t k m fd) w.
Proof.
  intros Hw Hp Hlt Hn.
  assert (keeps (nesting tp) p (len ← initial_len; d ← get_obj p;
            repeated_string_to_pb d (element_ids count) len m fd) w) as Hstring.
  { eapply keeps_bind.
    - eapply wp_mono; [apply initial_len_only | | done]. intros len w' (b & -> & Hlen).
      split; [instantiate (1 := λ len w', 0 <= len <= Z.of_nat (length (cs_str_buffer w'))); exact Hlen|].
      split; [by apply well_with_buffer | apply keeps_with_buffer].
    - intros len w' Hlen Hw' Hk. eapply keeps_get_obj; [by eapply typed_keeps|]. intros d _ _.
      eapply keeps_buffer_only; [done|]. by apply repeated_string_only. }
  assert (∀ ixs, keeps (nesting tp) p (d ← get_obj p; repeated_bytes_to_pb d ixs fresh_seq m fd) w) as Hbytes.
  { intros ixs. eapply keeps_get_obj; [done|]. intros d _ _. eapply keeps_buffer_only; [done|].
    apply repeated_bytes_only. }
  assert (∀ g a ids, keeps (nesting tp) p
            (d ← get_obj p; mret (repeated_scalar_to_pb g a d ids m fd)) w) as Hscalar.
  { intros g a ids. eapply keeps_get_obj; [done|]. intros. by apply keeps_ret. }
  assert (keeps (nesting tp) p (c ← get_cached_dds_data t;
            match c with
            | None => mret (false, m)
            | Some elData => repeated_struct_to_pb rec p elData (element_ids count) m fd
            end) w) as Hstruct.
  { eapply keeps_bind; [by apply get_cached_typed|]. intros [c|] w1 Hc Hw1 Hk1; [|by apply keeps_ret].
    eapply repeated_struct_keeps; [done | by eapply typed_keeps | by apply Hc | done | done]. }
  unfold collection_elements_to_pb, collection_scalars_to_pb, collection_strings_to_pb. destruct k; cbn [scalar_case];
    first [apply Hscalar | by apply keeps_ret | apply Hstring | apply Hbytes | exact Hstruct].
Qed.

Lemma dds_collection_member_keeps p tp info t m fd w :
  well w → typed w p tp → (nesting t < nesting tp)%nat → (nesting tp ≤ n)%nat → (nesting tp ≤ alias_fuel)%nat →
  keeps (nesting tp) p (dds_collection_member_to_pb alias_fuel rec p info t m fd) w.
Proof.
  intros Hw Hp Hlt Hn Hf. unfold dds_collection_member_to_pb.
  destruct (mi_element_count info =? 0); [by apply keeps_ret|].
  eapply keeps_bind; [by apply get_cached_typed|]. intros [c|] w1 Hc Hw1 Hk1; [|by apply keeps_ret].
  apply keeps_then; [|intros; by apply keeps_ret].
  eapply with_bound_typed; [done | by eapply typed_keeps | by apply Hc | done |].
  intros w2 Hw2 Hq. destruct (TypeCode_content_type t) as [el|] eqn:Hel; [|by apply keeps_ret].
  apply nesting_content in Hel. apply wp_resolve; [lia|]. intros b el' kind Hb.
  destruct b; cbn [negb fst snd]; [|by apply keeps_ret]. specialize (Hb eq_refl).
  apply collection_elements_keeps; [done | done | lia | lia].
Qed.

(** The member of an object, whatever its kind. *)
Lemma member_keeps p tp i m w :
  well w → typed w p tp → (nesting tp ≤ n)%nat → (nesting tp ≤ alias_fuel)%nat →
  keeps (nesting tp) p (member_to_pb alias_fuel rec p i m) w.
Proof.
  intros Hw Hp Hn Hf. unfold member_to_pb. eapply keeps_get_obj; [done|]. intros d Hd Htd.
  destruct (negb _); [by apply keeps_ret|]. destruct (negb _); [by apply keeps_ret|].
  destruct (type_by_id d _) as [rc t] eqn:Ht. cbn [fst snd].
  destruct (Z.eqb_spec rc DDS_RETCODE_OK) as [->|]; cbn [negb]; [|by apply keeps_ret].
  destruct (nesting_member _ _ _ Ht) as (tc & Htc & Hlt). rewrite Htd in Htc. injection Htc as <-.
  apply wp_resolve; [lia|]. intros b t' kind Hb.
  destruct b; cbn [negb fst snd]; [|by apply keeps_ret]. specialize (Hb eq_refl).
  destruct (FindFieldByName m _) as [fd|]; [|by apply keeps_ret].
  destruct kind; try (by apply keeps_ret); try (apply dds_singular_member_keeps; [done | done | lia | lia]).
  all: destruct (_ && _); [apply dds_singular_member_keeps | apply dds_collection_member_keeps]; done || lia.
Qed.

Lemma members_keeps p tp ixs m w :
  well w → typed w p tp → (nesting tp ≤ n)%nat → (nesting tp ≤ alias_fuel)%nat →
  keeps (nesting tp) p (members_to_pb alias_fuel rec p ixs m) w.
Proof.
  intros Hw Hp Hn Hf. revert m w Hw Hp. induction ixs as [|i ixs IH]; intros m w Hw Hp;
    cbn [members_to_pb]; [by apply keeps_ret|].
  apply keeps_then; [by apply member_keeps|]. intros [[] m'] w' Hw' Hk; cbn [fst snd]; [|by apply keeps_ret].
  apply IH; [done | by eapply typed_keeps].
Qed.
End to_messages.

Lemma dds_to_protobuf_keeps fuel p tp m w :
  well w → typed w p tp → (nesting tp < fuel)%nat → (nesting tp ≤ alias_fuel)%nat →
  keeps (nesting tp) p (dds_to_protobuf alias_fuel fuel m p) w.
Proof.
  revert p tp m w. induction fuel as [|fuel IH]; intros p tp m w Hw Hp Hn Hf; [lia|].
  cbn [dds_to_protobuf]. unfold dds_to_protobuf_body.
  destruct (negb _); [by apply keeps_ret|]. destruct (negb _); [by apply keeps_ret|].
  eapply keeps_get_obj; [done|]. intros d Hd Htd. rewrite Htd.
  case_bool_decide; [by apply keeps_ret|]. destruct (_ && _); [by apply keeps_ret|].
  apply wp_resolve; [done|]. intros b t kind _. destruct b; cbn [negb fst snd]; [|by apply keeps_ret].
  apply members_keeps with (n := nesting tp); try done.
  intros m' q t' w' Hw' Hq Hlt. apply IH; [done | done | lia | lia].
Qed.


(** ** From messages to samples *)

Lemma set_fuzzy_same d id kind v :
  same_bindings d (set_fuzzy_long d id kind v).2 ∧ same_bindings d (set_fuzzy_ulong d id kind v).2.
Proof.
  split; [unfold set_fuzzy_long | unfold set_fuzzy_ulong];
    destruct kind; try apply set_scalar_same; case_match; (done || apply set_scalar_same).
Qed.

Lemma number_same ft get known d id kind r :
  number_to_dds ft get known d id kind = Some r → same_bindings d r.2.
Proof.
  destruct ft; cbn; intros [= <-]; try apply set_scalar_same; try apply set_fuzzy_same.
  destruct known; [apply set_scalar_same | done].
Qed.

(** A field that is no message changes the contents of the object only. *)
Lemma plain_same ft get known str d id t kind w :
  (nesting t ≤ alias_fuel)%nat →
  wp (plain_to_dds alias_fuel ft get known str d id t kind)
     (λ r w', w' = w ∧ same_bindings d r.2) (no_jump (E := E)) w.
Proof.
  intros Hf. assert (same_bindings d (default (false, d) (number_to_dds ft get known d id kind)).2) as Hnum.
  { destruct (number_to_dds _ _ _ _ _ _) as [r|] eqn:Hr; [by eapply number_same | done]. }
  unfold plain_to_dds. destruct ft; try done.
  - split; [done|]. apply set_string_same.
  - unfold set_fuzzy_bytes. destruct (TypeCode_content_type t) as [el|] eqn:Hel; [|by split].
    apply nesting_content in Hel.
    destruct (resolve_type_code_lemma (AL := nesting_alias) alias_fuel el DDS_TK_NULL) as (b & t' & k' & Hr & _);
      [cbn; lia|].
    cbn. rewrite Hr. cbn. destruct b; [|by split]. split; [done|]. apply set_byte_array_same.
Qed.

Lemma get_member_info_nesting d name tp :
  get_type d = Some tp → (nesting tp ≤ alias_fuel)%nat →
  ∃ b r, get_member_info alias_fuel d name = Some (b, r)
    ∧ match r with Some (_, t, _) => (nesting t < nesting tp)%nat | None => True end.
Proof.
  intros Htp Hf. unfold get_member_info. destruct (negb _); [by exists false, None|].
  destruct (type_by_id d _) as [rc t] eqn:Ht. cbn [fst snd].
  destruct (Z.eqb_spec rc DDS_RETCODE_OK) as [->|]; cbn [negb]; [|by exists false, None].
  destruct (nesting_member _ _ _ Ht) as (tc & Htc & Hlt). rewrite Htp in Htc. injection Htc as <-.
  assert (nesting t ≤ alias_fuel)%nat as Ha by lia.
  destruct (resolve_type_code_lemma (AL := nesting_alias) alias_fuel t DDS_TK_NULL Ha) as (b & t' & k' & Hr & Hb).
  rewrite Hr. cbn. eexists _, _. split; [done|]. destruct b; [|done].
  apply resolves_nesting in Hb. lia.
Qed.

Section to_samples.
Context (rec : nat → MSG → M W E bool) (n : nat).
Hypothesis rec_keeps : ∀ q m t w, well w → typed w q t → (nesting t < n)%nat → keeps (nesting t) q (rec q m) w.

(** A field is read and stored in the object. *)
Lemma store_plain_keeps {A} p tp ft get known str id t kind (k : bool * D → M W E A) w :
  well w → typed w p tp → (nesting t ≤ alias_fuel)%nat →
  (∀ r w', well w' → typed w' p tp → keeps (nesting tp) p (k r) w') →
  keeps (nesting tp) p
    (d ← get_obj p; r ← plain_to_dds alias_fuel ft get known str d id t kind; put_obj p r.2;; k r) w.
Proof.
  intros Hw Hp Hf Hk. eapply keeps_get_obj; [done|]. intros d Hd Ht.
  eapply keeps_bind with (Q := λ r w', w' = w ∧ same_bindings d r.2).
  { eapply wp_mono; [by apply plain_same | | done]. intros r w' [-> Hs]. done. }
  intros r w' [-> Hs] _ _. apply keeps_then; [by eapply put_obj_keeps|].
  intros [] w' Hw' Hkeep. apply Hk; [done | by eapply typed_keeps].
Qed.

Lemma pb_singular_keeps p tp info t kind m fd w :
  well w → typed w p tp → (nesting t < nesting tp)%nat → (nesting tp ≤ n)%nat → (nesting tp ≤ alias_fuel)%nat →
  keeps (nesting tp) p (pb_singular_field_to_dds alias_fuel rec p info t kind m fd) w.
Proof.
  intros Hw Hp Hlt Hn Hf. unfold pb_singular_field_to_dds. destruct (negb _); [by apply keeps_ret|].
  assert (keeps (nesting tp) p (c ← get_cached_dds_data t;
            match c with
            | None => mret false
            | Some ddsMemberData =>
                r ← with_bound p ddsMemberData (mi_id info) (rec ddsMemberData (GetMessage m fd));
                mret (default false r)
            end) w) as Hmessage.
  { eapply keeps_bind; [by apply get_cached_typed|]. intros [c|] w1 Hc Hw1 Hk1; [|by apply keeps_ret].
    apply keeps_then; [|intros; by apply keeps_ret].
    eapply with_bound_typed; [done | by eapply typed_keeps | by apply Hc | done |].
    intros w2 Hw2 Hq. apply rec_keeps; [done | done | lia]. }
  destruct (type fd); try exact Hmessage;
    (apply store_plain_keeps; [done | done | lia | intros; by apply keeps_ret]).
Qed.

Lemma repeated_messages_keeps p tp q t ixs m fd w :
  well w → typed w p tp → typed w q t → (nesting t < nesting tp)%nat → (nesting tp ≤ n)%nat →
  keeps (nesting tp) p (repeated_messages_to_dds rec p q ixs m fd) w.
Proof.
  intros Hw Hp Hq Hlt Hn. revert w Hw Hp Hq. induction ixs as [|j ixs IH]; intros w Hw Hp Hq;
    cbn [repeated_messages_to_dds]; [by apply keeps_ret|].
  apply keeps_then.
  - eapply with_bound_typed; [done.. |]. intros w2 Hw2 Hq2. apply rec_keeps; [done | done | lia].
  - intros r w' Hw' Hk. destruct (default false r); [|by apply keeps_ret].
    apply IH; [done | by eapply typed_keeps..].
Qed.

Lemma repeated_plain_keeps p tp ixs t kind m fd w :
  well w → typed w p tp → (nesting t ≤ alias_fuel)%nat →
  keeps (nesting tp) p (repeated_plain_to_dds alias_fuel p ixs t kind m fd) w.
Proof.
  intros Hw Hp Hf. revert w Hw Hp. induction ixs as [|j ixs IH]; intros w Hw Hp;
    cbn [repeated_plain_to_dds]; [by apply keeps_ret|]; unfold repeated_element_to_dds.
  apply store_plain_keeps; [done..|]. intros [[] d] w' Hw' Hp'; cbn [fst]; [by apply IH | by apply keeps_ret].
Qed.

Lemma pb_repeated_keeps p tp info t m fd w :
  well w → typed w p tp → (nesting t < nesting tp)%nat → (nesting tp ≤ n)%nat → (nesting tp ≤ alias_fuel)%nat →
  keeps (nesting tp) p (pb_repeated_field_to_dds alias_fuel rec p info t m fd) w.
Proof.
  intros Hw Hp Hlt Hn Hf. unfold pb_repeated_field_to_dds. destruct (_ =? 0)%nat; [by apply keeps_ret|].
  eapply keeps_bind; [by apply get_cached_typed|]. intros [c|] w1 Hc Hw1 Hk1; [|by apply keeps_ret].
  apply keeps_then; [|intros; by apply keeps_ret].
  eapply with_bound_typed; [done | by eapply typed_keeps | by apply Hc | done |].
  intros w2 Hw2 Hq. destruct (TypeCode_content_type t) as [el|] eqn:Hel; [|by apply keeps_ret].
  apply nesting_content in Hel. apply wp_resolve; [lia|]. intros b el' kind Hb.
  destruct b; cbn [negb fst snd]; [|by apply keeps_ret]. specialize (Hb eq_refl).
  destruct (_ || _); [|apply repeated_plain_keeps; [done | done | lia]].
  eapply keeps_bind; [by apply get_cached_typed|]. intros [e|] w3 He Hw3 Hk3; [|by apply keeps_ret].
  eapply repeated_messages_keeps; [done | by eapply typed_keeps | by apply He | lia | lia].
Qed.

Lemma fields_keeps p tp m fds w :
  well w → typed w p tp → (nesting tp ≤ n)%nat → (nesting tp ≤ alias_fuel)%nat →
  keeps (nesting tp) p (fields_to_dds alias_fuel rec p m fds) w.
Proof.
  intros Hw Hp Hn Hf. revert w Hw Hp. induction fds as [|fd fds IH]; intros w Hw Hp;
    cbn [fields_to_dds]; [by apply keeps_ret|].
  apply keeps_then.
  - unfold field_to_dds. eapply keeps_get_obj; [done|]. intros d Hd Htd.
    destruct (get_member_info_nesting d (field_name fd) tp Htd Hf) as (b & r & -> & Hr).
    change (keeps (nesting tp) p
              (match r with
               | None => mret false
               | Some (info, tc, kind) =>
                   if is_repeated fd || is_map fd then pb_repeated_field_to_dds alias_fuel rec p info tc m fd
                   else pb_singular_field_to_dds alias_fuel rec p info tc kind m fd
               end) w).
    destruct r as [[[info t] kind]|]; [|by apply keeps_ret].
    destruct (_ || _); [by apply pb_repeated_keeps | by apply pb_singular_keeps].
  - intros [] w' Hw' Hk; [|by apply keeps_ret]. apply IH; [done | by eapply typed_keeps].
Qed.
End to_samples.

Lemma protobuf_to_dds_keeps fuel p tp m w :
  well w → typed w p tp → (nesting tp < fuel)%nat → (nesting tp ≤ alias_fuel)%nat →
  keeps (nesting tp) p (protobuf_to_dds alias_fuel fuel p m) w.
Proof.
  revert p tp m w. induction fuel as [|fuel IH]; intros p tp m w Hw Hp Hn Hf; [lia|].
  cbn [protobuf_to_dds]. unfold protobuf_to_dds_body.
  destruct (negb _); [by apply keeps_ret|]. destruct (negb _); [by apply keeps_ret|].
  apply fields_keeps with (n := nesting tp); try done.
  intros q m' t' w' Hw' Hq Hlt. apply IH; [done | done | lia | lia].
Qed.



End sessions.
