(* ===== verification/ConversionReference.v ===== *)
(** The conversion of samples into messages as one would write it without a
    cache of objects, without bindings and without a buffer: nested members are
    copied out.  The conversion of MessageConversion computes the same. *)
From Stdlib Require Import ZArith Lia.
From stdpp Require Import base gmap strings list option fin_maps.
From S2P Require Import Prelude Utils DynHelpers DynDataUtils MessageConversion ConversionSessions.

#[local] Open Scope string_scope.
#[local] Open Scope list_scope.
#[local] Open Scope Z_scope.

(** ** The reference *)

(** Copies of complex members, which the DDS library offers besides the
    bindings: out of an object, and into one; whether a member of an object can
    be an object of a type; and which objects cannot be told apart by reading
    them. *)
Class Copies (D TC : Type) := {
  complex_member : D → Z → TC → D;
  set_complex_member : D → Z → D → D;
  can_bind : D → Z → TC → bool;
  reads_same : relation D
}.

Section reference.
Context {D TC MSG FD : Type} {TT : TypeCodes TC} {DS : DynScalars D}
  {DM : DynMembers D TC} {DO : DynObjects D TC} {RF : Reflection MSG FD}
  {SW : StringLaw (DO := DO)} {CP : Copies D TC}.
Context (alias_fuel : nat).
#[local] Abbreviation ref_rec := (MSG → D → bool * MSG).

(** The type behind the aliases. *)
Definition resolved (tc : TC) (out : DDS_TCKind) : option (TC * DDS_TCKind) :=
  match resolve_type_code alias_fuel tc out with Some (true, t, k) => Some (t, k) | _ => None end.

(** Steps until one fails. *)
Fixpoint each {X} (f : X → MSG → bool * MSG) (xs : list X) (m : MSG) : bool * MSG :=
  match xs with
  | [] => (true, m)
  | x :: xs' => let r := f x m in if r.1 then each f xs' r.2 else r
  end.

Definition octets_value (d : D) (id count : Z) : option (list Z) :=
  let r := get_octets d id count in if r.1 =? DDS_RETCODE_OK then Some r.2 else None.

(** A value that was read, or not, goes into the message. *)
Definition put_value {A} (v : option A) (put : A → MSG) (m : MSG) : bool * MSG :=
  match v with Some a => (true, put a) | None => (false, m) end.

Definition ref_struct (rec : ref_rec) (d : D) (id : Z) (tc : TC) (sub : option MSG) (put : MSG → MSG) (m : MSG)
    : bool * MSG :=
  if can_bind d id tc
  then match sub with
       | None => (false, m)
       | Some sub => let r := rec sub (complex_member d id tc) in (r.1, put r.2)
       end
  else (false, m).

Definition ref_singular (rec : ref_rec) (d : D) (info : member_info) (tc : TC) (kind : DDS_TCKind) (m : MSG) (fd : FD)
    : bool * MSG :=
  match kind with
  | DDS_TK_STRUCT | DDS_TK_VALUE =>
      ref_struct rec d (mi_id info) tc (MutableMessage m fd) (put_mutable m fd) m
  | DDS_TK_STRING => put_value (string_value d (mi_id info)) (SetString m fd) m
  | DDS_TK_SEQUENCE => put_value (octets_value d (mi_id info) (mi_element_count info)) (SetString m fd) m
  | k =>
      match scalar_case k with
      | Some (g, a) => singular_scalar_to_pb g a d (mi_id info) m fd
      | None => (false, m)
      end
  end.

(** The elements of a collection, by their ids. *)
Definition ref_elements (rec : ref_rec) (d : D) (count : Z) (tc : TC) (kind : DDS_TCKind) (m : MSG) (fd : FD)
    : bool * MSG :=
  match kind with
  | DDS_TK_STRUCT | DDS_TK_VALUE =>
      each (λ id m, ref_struct rec d id tc (AddMessage m fd) (put_added m fd) m) (element_ids count) m
  | DDS_TK_STRING => each (λ id m, put_value (string_value d id) (AddString m fd) m) (element_ids count) m
  | DDS_TK_SEQUENCE =>
      each (λ i m,
              let info := info_by_index d i in
              if info.1 =? DDS_RETCODE_OK
              then put_value (octets_value d (Z.of_nat i + 1) (mi_element_count info.2)) (AddString m fd) m
              else (false, m))
           (seq 0 (Z.to_nat count)) m
  | k =>
      match scalar_case k with
      | Some (g, a) => each (λ id m, let r := get_scalar g d id in
                                     if r.1 =? DDS_RETCODE_OK then (true, add_number a m fd r.2) else (false, m))
                            (element_ids count) m
      | None => (false, m)
      end
  end.

Definition ref_collection (rec : ref_rec) (d : D) (info : member_info) (tc : TC) (m : MSG) (fd : FD) : bool * MSG :=
  if mi_element_count info =? 0 then (true, m)
  else if can_bind d (mi_id info) tc
  then match el ← TypeCode_content_type tc; resolved el DDS_TK_NULL with
       | Some (el, kind) => ref_elements rec (complex_member d (mi_id info) tc) (mi_element_count info) el kind m fd
       | None => (false, m)
       end
  else (false, m).

Definition ref_member (rec : ref_rec) (d : D) (i : nat) (m : MSG) : bool * MSG :=
  let info := info_by_index d i in
  if negb (info.1 =? DDS_RETCODE_OK) then (false, m)
  else if negb (member_exists d (mi_id info.2)) then (true, m)
  else
    let t := type_by_id d (mi_id info.2) in
    if negb (t.1 =? DDS_RETCODE_OK) then (false, m)
    else
      match resolved t.2 DDS_TK_NULL, FindFieldByName m (mi_name info.2) with
      | Some (tc, kind), Some fd =>
          match kind with
          | DDS_TK_ARRAY | DDS_TK_SEQUENCE =>
              if bool_decide (type fd = TYPE_BYTES) && bool_decide (mi_element_kind info.2 = DDS_TK_OCTET)
              then ref_singular rec d info.2 tc kind m fd
              else ref_collection rec d info.2 tc m fd
          | _ => ref_singular rec d info.2 tc kind m fd
          end
      | _, _ => (false, m)
      end.

Definition ref_body (rec : ref_rec) (m : MSG) (d : D) : bool * MSG :=
  if negb (has_descriptor m) then (false, m)
  else if negb (has_reflection m) then (false, m)
  else
    match get_type d with
    | None => (false, m)
    | Some tc =>
        if bool_decide (TypeCode_name (D := D) tc = None) then (false, m)
        else
          let kind := get_type_kind d in
          if negb (bool_decide (kind = DDS_TK_STRUCT)) && negb (bool_decide (kind = DDS_TK_VALUE))
             && negb (bool_decide (kind = DDS_TK_ALIAS))
          then (false, m)
          else match resolved tc kind with
               | Some _ => each (ref_member rec d) (seq 0 (get_member_count d)) m
               | None => (false, m)
               end
    end.

(** The message that a sample becomes. *)
Fixpoint reference (fuel : nat) (m : MSG) (d : D) : bool * MSG :=
  match fuel with
  | O => (false, m)
  | S fuel => ref_body (reference fuel) m d
  end.
End reference.

(** ** What DDS documents of copies and bindings *)
Section laws.
Context {D TC : Type} {TT : TypeCodes TC} {DS : DynScalars D} {DM : DynMembers D TC} {DO : DynObjects D TC}
  {BD : Bindings D TC} {SW : StringLaw (DO := DO)} {CP : Copies D TC}.

(** A bound object reads like a copy of the member, and unbinding it copies it
    back; a member that is there is not changed when its copy is put back; what
    reads the same has the same members.  A string member that has no value is
    an error, and octets are as many as asked for. *)
Class CopyLaws := {
  reads_equiv :: Equivalence reads_same;
  reads_type :: Proper (reads_same ==> eq) get_type;
  reads_type_kind :: Proper (reads_same ==> eq) get_type_kind;
  reads_count :: Proper (reads_same ==> eq) get_member_count;
  reads_index :: Proper (reads_same ==> eq ==> eq) info_by_index;
  reads_type_by_id :: Proper (reads_same ==> eq ==> eq) type_by_id;
  reads_exists :: Proper (reads_same ==> eq ==> eq) member_exists;
  reads_scalar g :: Proper (reads_same ==> eq ==> eq) (get_scalar g);
  reads_string :: Proper (reads_same ==> eq ==> eq) string_value;
  reads_octets :: Proper (reads_same ==> eq ==> eq ==> eq) get_octets;
  reads_can_bind :: Proper (reads_same ==> eq ==> eq ==> eq) can_bind;
  reads_complex :: Proper (reads_same ==> eq ==> eq ==> reads_same) complex_member;
  reads_set_complex :: Proper (reads_same ==> eq ==> reads_same ==> reads_same) set_complex_member;
  copy_type : ∀ d id tc, get_type (complex_member d id tc) = Some tc;
  copy_elements : ∀ d i info t tc k fuel j, info_by_index d i = (DDS_RETCODE_OK, info) →
    type_by_id d (mi_id info) = (DDS_RETCODE_OK, t) → resolved fuel t DDS_TK_NULL = Some (tc, k) →
    1 <= j <= mi_element_count info → member_exists (complex_member d (mi_id info) tc) j = true;
  set_copy : ∀ d id tc, member_exists d id = true → can_bind d id tc = true →
    reads_same (set_complex_member d id (complex_member d id tc)) d;
  bind_reads : ∀ dp dm id tc, has_bound_member dp = false → is_bound dm = false → get_type dm = Some tc →
    if can_bind dp id tc
    then ∃ dp' dm', bind_complex_member dp dm id = Some (dp', dm') ∧ reads_same dm' (complex_member dp id tc)
    else bind_complex_member dp dm id = None;
  unbind_reads : ∀ dp dm id dp1 dm1 dm2 dp3 dm3, bind_complex_member dp dm id = Some (dp1, dm1) →
    same_bindings dm1 dm2 → unbind_complex_member dp1 dm2 = Some (dp3, dm3) →
    reads_same dp3 (set_complex_member dp id dm2);
  new_succeeds : ∀ tc, is_Some (DynamicData_new (D := D) tc);
  string_none : ∀ d id room, string_value d id = None →
    (get_string d id room).1.1 ≠ DDS_RETCODE_OK
    ∧ (get_string d id room).1.1 ≠ DDS_RETCODE_PRECONDITION_NOT_MET;
  octets_all : ∀ d id n, (get_octets d id n).1 = DDS_RETCODE_OK → length (get_octets d id n).2 = Z.to_nat n;
  element_count_nonneg : ∀ d i, 0 <= mi_element_count (info_by_index d i).2
}.
End laws.
Arguments CopyLaws D TC {TT DS DM DO BD SW CP}.

Section equivalence.
Context {D TC MSG FD : Type} `{!EqDecision TC} {TT : TypeCodes TC} {DS : DynScalars D}
  {DM : DynMembers D TC} {DO : DynObjects D TC} {RF : Reflection MSG FD} {SL : SeqLib}
  {BD : Bindings D TC} {BL : BindingLaws D TC} {SW : StringLaw (DO := DO)} {CP : Copies D TC}
  {CL : CopyLaws D TC} {LA : SeqLibLaws SL}.
#[local] Abbreviation W := (conv_state D TC).
Context {E : Type} (alias_fuel : nat).
Implicit Types (w : W) (d : D) (p q : nat).

(** Two facts about one run. *)
Lemma wp_and {A} (m : M W E A) Q1 Q2 w :
  wp m Q1 no_jump w → wp m Q2 no_jump w → wp m (λ a w', Q1 a w' ∧ Q2 a w') (no_jump (E := E)) w.
Proof. unfold wp. destruct (m w); naive_solver. Qed.

(** The object [p], of type [tc], reads like [d] and has no bound member; the
    objects that nest less deep are free. *)
Record reads_as (tc : TC) p d w : Prop := {
  reads_well : well w;
  reads_object : ∃ d', cs_objects w !! p = Some d' ∧ reads_same d' d ∧ get_type d' = Some tc
    ∧ has_bound_member d' = false;
  reads_free : ∀ q dq, cs_objects w !! q = Some dq → (depth dq < nesting tc)%nat → free_object dq
}.

(** A computation returns [a] and leaves the object so that it reads like [d]. *)
Definition computes {A} (tc : TC) p d (m : M W E A) (a : A) w : Prop :=
  wp m (λ r w', r = a ∧ reads_as tc p d w' ∧ keeps_bindings (nesting tc) p w w') no_jump w.

Lemma computes_ret {A} tc p d (a : A) w : reads_as tc p d w → computes tc p d (mret a) a w.
Proof. intros Hr. split; [done|]. by split. Qed.

Lemma computes_bind {A B} tc p d d' (m : M W E A) (k : A → M W E B) a b w :
  computes tc p d m a w → (∀ w', reads_as tc p d w' → keeps_bindings (nesting tc) p w w' → computes tc p d' (k a) b w') →
  computes tc p d' (m ≫= k) b w.
Proof.
  intros Hm Hk. apply wp_bind. eapply wp_mono; [exact Hm | | done]. intros ? w' (-> & Hr & Hkeep).
  eapply wp_mono; [by apply Hk | | done]. intros ? w'' (-> & Hr' & Hkeep'). split; [done|]. split; [done|]. by etrans.
Qed.

(** What keeps the bindings keeps the lesser objects free. *)
Lemma keeps_free n p w w' k :
  (k ≤ n)%nat → keeps_bindings n p w w' → (∀ q dq, cs_objects w !! q = Some dq → (depth dq < k)%nat → free_object dq) →
  ∀ q dq, cs_objects w' !! q = Some dq → (depth dq < k)%nat → free_object dq.
Proof.
  intros Hk [Hobj Hnew _] Hfree q dq Hq Hd. destruct (cs_objects w !! q) as [d0|] eqn:H0; [|by eapply Hnew].
  destruct (Hobj q d0 H0) as (d0' & Hq' & Hs & _). rewrite Hq in Hq'. injection Hq' as <-.
  eapply same_free; [exact Hs|]. eapply Hfree; [exact H0|]. by rewrite <- (same_depth _ _ Hs).
Qed.

Lemma keeps_reads tc p d w w' :
  reads_as tc p d w → well w' → keeps_bindings (nesting tc) p w w' →
  cs_objects w' !! p = cs_objects w !! p → reads_as tc p d w'.
Proof.
  intros [Hw Hobj Hfree] Hw' Hk Hp. constructor; [done | by rewrite Hp|]. by eapply keeps_free.
Qed.

Lemma reads_typed tc p d w : reads_as tc p d w → typed w p tc.
Proof. intros [_ (d' & ? & _ & ? & _) _]. by exists d'. Qed.

Lemma computes_get_obj {A} tc p d d2 (k : D → M W E A) a w :
  reads_as tc p d w → (∀ d', reads_same d' d → get_type d' = Some tc → computes tc p d2 (k d') a w) →
  computes tc p d2 (d ← get_obj p; k d) a w.
Proof. intros [_ (d' & Hp & Hs & Ht & _) _] Hk. eapply wp_get_obj; [exact Hp | by apply Hk]. Qed.

Lemma computes_buffer {A} tc p d (m : M W E A) a w :
  reads_as tc p d w → buffer_only m (λ r _, r = a) w → computes tc p d m a w.
Proof.
  intros Hr Hm. eapply wp_mono; [exact Hm | | done]. intros r w' (b & -> & ->). split; [done|].
  split; [|apply keeps_with_buffer]. eapply keeps_reads; [done | by apply well_with_buffer, Hr | apply keeps_with_buffer | done].
Qed.

(** ** Strings and octets, exactly *)

Lemma read_string_exact d id len w :
  0 <= len <= Z.of_nat (length (cs_str_buffer w)) →
  buffer_only (E := E) (read_string d id len)
    (λ r b, len_in_buffer r b ∧ fst <$> r = string_value d id) w.
Proof.
  intros Hlen. destruct (string_value d id) as [s|] eqn:Hs.
  - destruct (read_string_spec (E := E) d id s len w Hs) as (b & Hrun & Hb); [lia|].
    unfold buffer_only, wp. rewrite Hrun. exists b. split; [done|]. split; [|done]. cbn.
    destruct (Z.leb_spec (Z.of_nat (length s) + 1) len); lia.
  - destruct (string_none d id len Hs) as [Hno1 Hno2]. unfold read_string, get_string_buffer.
    destruct (get_string d id len) as [[rc bytes] len'] eqn:Hget. cbn in Hno1, Hno2.
    destruct (get_string_room d id len rc bytes len' ltac:(lia) Hget) as (Hroom & _ & _).
    eapply buffer_only_bind with (P := λ r _, r.1 = rc).
    { eapply buffer_only_bind; [apply get_buffer_only|]. intros b ? [-> ->].
      eapply buffer_only_bind; [apply write_into_only; lia|]. intros b' ? [-> Hb'].
      eapply buffer_only_bind; [apply put_buffer_only|]. intros [] ? ->. by apply buffer_only_ret. }
    intros r b Hr. rewrite Hr, (proj2 (Z.eqb_neq _ _) Hno2).
    eapply buffer_only_bind with (P := λ r' _, r'.1 = rc); [by apply buffer_only_ret|].
    intros r' b' Hr'. rewrite Hr', (proj2 (Z.eqb_neq _ _) Hno1). by apply buffer_only_ret.
Qed.

Lemma singular_string_exact d id m fd w :
  buffer_only (E := E) (singular_string_to_pb d id m fd)
    (λ r _, r = put_value (string_value d id) (SetString m fd) m) w.
Proof.
  eapply buffer_only_bind; [apply initial_len_only|]. intros len b Hlen.
  eapply buffer_only_bind; [by apply read_string_exact|]. intros r b' [_ <-]. apply buffer_only_ret. by destruct r.
Qed.

Lemma repeated_string_exact d ids len m fd w :
  0 <= len <= Z.of_nat (length (cs_str_buffer w)) →
  buffer_only (E := E) (repeated_string_to_pb d ids len m fd)
    (λ r _, r = each (λ id m, put_value (string_value d id) (AddString m fd) m) ids m) w.
Proof.
  revert len m w. induction ids as [|id ids IH]; intros len m w Hlen; cbn [repeated_string_to_pb each].
  { by apply buffer_only_ret. }
  eapply buffer_only_bind; [by apply read_string_exact|]. intros [[s len']|] b [Hb <-]; [|by apply buffer_only_ret].
  by apply IH.
Qed.

(** The sequence to read into is as good as new. *)
Lemma read_octets_exact d id count w :
  0 <= count →
  buffer_only (E := E) (read_octets d id count fresh_seq)
    (λ r _, r.1 = octets_value d id count ∧ default r.2 (unloan OctetSeq r.2) = fresh_seq
       ∨ r.1 = None ∧ octets_value d id count = None) w.
Proof.
  intros Hcount. unfold read_octets. eapply buffer_only_bind; [apply get_buffer_only|]. intros b ? [-> ->].
  eapply buffer_only_bind; [apply put_buffer_only|]. intros [] ? ->.
  eapply buffer_only_bind; [apply get_buffer_only|]. cbn. intros b ? [-> ->].
  rewrite (loan_fresh OctetSeq) by lia. unfold octets_value.
  destruct (Z.eqb_spec (get_octets d id count).1 DDS_RETCODE_OK) as [Hrc|Hrc]; cbn [negb].
  2: { apply buffer_only_ret. right. done. }
  pose proof (octets_all _ _ _ Hrc) as Hall.
  set (bytes := (get_octets d id count).2) in *. set (b0 := resize (Z.to_nat count) (cs_str_buffer w)).
  assert (length b0 = length bytes) as Hb0 by (unfold b0; rewrite length_resize; lia).
  eapply buffer_only_bind with (P := λ b' _, b' = bytes).
  { unfold write_into. rewrite (proj2 (Nat.leb_le _ _)) by lia. apply buffer_only_ret.
    rewrite drop_ge by lia. by rewrite app_nil_r. }
  intros b' ? ->. eapply buffer_only_bind; [apply put_buffer_only|]. intros [] ? ->.
  apply buffer_only_ret. left. split; [done|]. cbn. by rewrite unloan_loaned.
Qed.

Lemma singular_bytes_exact d info m fd w :
  0 <= mi_element_count info →
  buffer_only (E := E) (singular_bytes_to_pb d info m fd)
    (λ r _, r = put_value (octets_value d (mi_id info) (mi_element_count info)) (SetString m fd) m) w.
Proof.
  intros Hc. eapply buffer_only_bind; [by apply read_octets_exact|].
  intros r b [[<- _]|[-> ->]]; apply buffer_only_ret; [by destruct r.1 | done].
Qed.

Lemma repeated_bytes_exact d ixs m fd w :
  buffer_only (E := E) (repeated_bytes_to_pb d ixs fresh_seq m fd)
    (λ r _, r = each (λ i m,
              let info := info_by_index d i in
              if info.1 =? DDS_RETCODE_OK
              then put_value (octets_value d (Z.of_nat i + 1) (mi_element_count info.2)) (AddString m fd) m
              else (false, m)) ixs m) w.
Proof.
  revert m w. induction ixs as [|i ixs IH]; intros m w; cbn [repeated_bytes_to_pb each].
  { by apply buffer_only_ret. }
  destruct (_ =? _); cbn [negb]; [|by apply buffer_only_ret].
  eapply buffer_only_bind; [apply read_octets_exact, element_count_nonneg|]. intros [r s] b [[-> Hs]|[-> ->]]; cbn [fst snd] in *.
  - rewrite Hs. destruct (octets_value _ _ _); [apply IH | by apply buffer_only_ret].
  - by apply buffer_only_ret.
Qed.

(** ** Objects *)

Lemma get_cached_computes {A} tp p d d2 tq (k : option nat → M W E A) a w :
  reads_as tp p d w →
  (∀ q w', reads_as tp p d w' → typed w' q tq → keeps_bindings (nesting tp) p w w' → computes tp p d2 (k (Some q)) a w') →
  computes tp p d2 (c ← get_cached_dds_data tq; k c) a w.
Proof.
  intros Hr Hk. apply wp_bind.
  assert (wp (get_cached_dds_data tq) (λ c w', is_Some c ∧ cs_objects w' !! p = cs_objects w !! p)
            (no_jump (E := E)) w) as Hp.
  { unfold get_cached_dds_data, wp, mbind, M_bind, get_cache.
    destruct (cache_find tq (cs_cache w)) as [c|] eqn:Hc; [by split|].
    destruct (new_succeeds (D := D) tq) as [d0 ->]. cbn. split; [done|].
    rewrite lookup_insert_ne; [done|]. intros Heq.
    destruct Hr as [Hw (d' & Hp & _) _]. rewrite <- Heq, (well_fresh _ Hw) in Hp by lia. done. }
  eapply wp_mono; [exact (wp_and _ _ _ _ (get_cached_typed (nesting tp) p tq w (reads_well _ _ _ _ Hr)) Hp) | | done].
  intros c w' [(Hc & Hw' & Hkeep) [[q ->] Hpw]].
  eapply wp_mono; [apply (Hk q w'); [by eapply keeps_reads | by apply Hc | done] | | done].
  intros r w'' (-> & Hr' & Hkeep'). split; [done|]. split; [done|]. by etrans.
Qed.

(** What reads the same reads as well. *)
Lemma reads_as_same tc p d d' w : reads_same d d' → reads_as tc p d w → reads_as tc p d' w.
Proof.
  intros Hs [Hw (d0 & Hp & Hs0 & Ht) Hfree]. constructor; [done | | done].
  exists d0. split; [done|]. split; [by etrans | done].
Qed.

Lemma computes_same {A} tc p d d' (m : M W E A) a w : reads_same d d' → computes tc p d m a w → computes tc p d' m a w.
Proof.
  intros Hs Hm. eapply wp_mono; [exact Hm | | done]. intros r w' (-> & Hr & Hk). split; [done|].
  split; [by eapply reads_as_same | done].
Qed.

(** A scope: the member is copied out, and what becomes of the copy is put back. *)
Lemma with_bound_writes {A} tp p d q tq id (body : M W E A) a d' w :
  reads_as tp p d w → typed w q tq → (nesting tq < nesting tp)%nat →
  (∀ w1, reads_as tq q (complex_member d id tq) w1 → computes tq q d' body a w1) →
  computes tp p (if can_bind d id tq then set_complex_member d id d' else d)
    (with_bound p q id body) (if can_bind d id tq then Some a else None) w.
Proof.
  intros Hr (dm & Hq & Htq) Hlt Hbody. pose proof Hr as [Hw (dp & Hp & Hs & Htp & Hfp) Hfree].
  assert (depth dp = nesting tp) as Hdp by by apply depth_typed.
  assert (depth dm = nesting tq) as Hdm by by apply depth_typed.
  destruct (Hfree q dm Hq) as [Hmb Hmh]; [lia|].
  pose proof (bind_reads dp dm id tq Hfp Hmb Htq) as Hbr.
  assert (can_bind dp id tq = can_bind d id tq) as Hcan by by rewrite Hs. rewrite Hcan in Hbr.
  eapply wp_with_bound; [exact Hp | exact Hq | |].
  { intros Hnone. destruct (can_bind d id tq); [destruct Hbr as (? & ? & Hbind & _); congruence | by split]. }
  intros dp1 dm1 Hbind. destruct (can_bind d id tq) eqn:Hcb; [|congruence].
  destruct Hbr as (dp1' & dm1' & Hbind' & Hsm). rewrite Hbind in Hbind'. injection Hbind' as <- <-. rewrite Hs in Hsm.
  destruct (bound_well p q dp dm id dp1 dm1 w) as (Hw1 & Hq1 & Ht1); [done | done | done | lia | done |].
  destruct (bind_law _ _ _ _ _ Hbind) as (_ & (Hpt & _) & (_ & Hmh1) & _).
  assert (reads_as tq q (complex_member d id tq) (set_pair p dp1 q dm1 w)) as Hr1.
  { constructor; [done | |].
    - exists dm1. do 2 (split; [done|]). split; [by rewrite Ht1 | by rewrite Hmh1].
    - intros r dr. rewrite lookup_set_pair. case_decide; [intros [= <-]; unfold depth; rewrite Ht1, Htq; lia|].
      case_decide; [intros [= <-]; unfold depth; rewrite Hpt, Htp; lia|].
      intros Hr1 Hd1. apply (Hfree r); [done | lia]. }
  eapply wp_mono; [by apply Hbody | | done]. intros ? w2 (-> & [Hw2 (dm2 & Hq2 & Hs2 & _) _] & Hk). rewrite <- Hdm in Hk.
  destruct (scope_keeps p q dp dm id dp1 dm1 w w2) as (dm2' & dp3 & dm3 & Hp2 & Hq2' & Hsb & Hub & Hw3 & Hk3); [done..|lia|done|done|done|].
  rewrite Hq2 in Hq2'. injection Hq2' as <-. exists dp1, dm2, dp3, dm3. do 3 (split; [done|]). split; [done|].
  rewrite Hdp in Hk3. split; [|done].
  destruct (kept_object _ _ _ _ Hk3 p dp Hp) as (dp3' & Hp3 & Hsp & _).
  constructor; [done | | by eapply keeps_free].
  exists dp3'. split; [done|]. split; [|by destruct Hsp; split; congruence].
  assert (p ≠ q) as Hne by (intros ->; rewrite Hp in Hq; simplify_eq; lia).
  rewrite lookup_set_pair, decide_False, decide_True in Hp3 by done. injection Hp3 as <-.
  pose proof (unbind_reads _ _ _ _ _ _ _ _ Hbind Hsb Hub) as Hub'. by rewrite Hub', Hs, Hs2.
Qed.

(** A scope in which a member that is there is read. *)
Lemma with_bound_computes {A} tp p d q tq id (body : M W E A) a w :
  reads_as tp p d w → typed w q tq → (nesting tq < nesting tp)%nat → member_exists d id = true →
  (∀ w1, reads_as tq q (complex_member d id tq) w1 → computes tq q (complex_member d id tq) body a w1) →
  computes tp p d (with_bound p q id body) (if can_bind d id tq then Some a else None) w.
Proof.
  intros Hr Hq Hlt Hex Hbody. eapply computes_same; [|by eapply with_bound_writes].
  destruct (can_bind d id tq) eqn:Hcan; [by apply set_copy | done].
Qed.


(** ** Members *)

Lemma computes_resolve {A} tp p d tc out (k : bool * TC * DDS_TCKind → M W E A) a w :
  (nesting tc ≤ alias_fuel)%nat →
  (∀ t kind, resolved alias_fuel tc out = Some (t, kind) → (nesting t ≤ nesting tc)%nat →
     computes tp p d (k (true, t, kind)) a w) →
  (∀ t kind, resolved alias_fuel tc out = None → computes tp p d (k (false, t, kind)) a w) →
  computes tp p d (r ← or_hang (resolve_type_code alias_fuel tc out); k r) a w.
Proof.
  intros Hf Hok Hno.
  destruct (resolve_type_code_lemma (AL := nesting_alias) alias_fuel tc out Hf) as (b & t & kind & Hr & Hb).
  unfold resolved in *. rewrite Hr in *. apply wp_bind, wp_ret. destruct b; [|by apply Hno].
  apply Hok; [done|]. by apply resolves_nesting in Hb.
Qed.

Section members.
Context (rec : MSG → nat → M W E (bool * MSG)) (ref : MSG → D → bool * MSG) (n : nat).
Hypothesis rec_computes : ∀ m q t d w,
  reads_as t q d w → (nesting t < n)%nat → computes t q d (rec m q) (ref m d) w.

(** The body of a scope: a nested message is made of the bound object. *)
Lemma nested_computes q t d sub (put : MSG → MSG) m w :
  reads_as t q d w → (nesting t < n)%nat →
  computes t q d (match sub with
                  | None => mret (false, m)
                  | Some sub => r ← rec sub q; mret (r.1, put r.2)
                  end)
    (match sub with None => (false, m) | Some sub => let r := ref sub d in (r.1, put r.2) end) w.
Proof.
  intros Hr Hn. destruct sub as [sub|]; [|by apply computes_ret].
  eapply computes_bind; [by apply rec_computes|]. intros w' Hr' _. by apply computes_ret.
Qed.

Lemma singular_struct_computes p tp d info t m fd w :
  reads_as tp p d w → member_exists d (mi_id info) = true → (nesting t < nesting tp)%nat → (nesting tp ≤ n)%nat →
  computes tp p d (singular_struct_to_pb rec p info t m fd)
    (ref_struct ref d (mi_id info) t (MutableMessage m fd) (put_mutable m fd) m) w.
Proof.
  intros Hr Hex Hlt Hn. eapply get_cached_computes; [done|]. intros q w' Hr' Hq _.
  eapply computes_bind.
  - eapply with_bound_computes; [done.. |]. intros w1 Hr1. apply nested_computes; [done | lia].
  - intros w2 Hr2 _. unfold ref_struct. destruct (can_bind _ _ _); by apply computes_ret.
Qed.

Lemma repeated_struct_computes p tp d q t ids m fd w :
  reads_as tp p d w → typed w q t → Forall (λ id, member_exists d id = true) ids →
  (nesting t < nesting tp)%nat → (nesting tp ≤ n)%nat →
  computes tp p d (repeated_struct_to_pb rec p q ids m fd)
    (each (λ id m, ref_struct ref d id t (AddMessage m fd) (put_added m fd) m) ids m) w.
Proof.
  intros Hr Hq Hex Hlt Hn. revert m w Hr Hq.
  induction Hex as [|id ids Hid Hex IH]; intros m w Hr Hq; cbn [repeated_struct_to_pb each];
    [by apply computes_ret|].
  eapply computes_bind.
  - eapply with_bound_computes; [done.. |]. intros w1 Hr1. apply nested_computes; [done | lia].
  - intros w2 Hr2 Hk. remember (ref_struct ref d id t (AddMessage m fd) (put_added m fd) m) as r eqn:Heq.
    unfold ref_struct in Heq. destruct (can_bind d id t); subst r; [|by apply computes_ret].
    destruct (match AddMessage m fd with Some _ => _ | None => _ end) as [[] m']; cbn [fst snd];
      [|by apply computes_ret]. apply IH; [done | by eapply typed_keeps].
Qed.

Lemma repeated_scalar_each g a d ids m fd :
  repeated_scalar_to_pb g a d ids m fd
  = each (λ id m, let r := get_scalar g d id in
                  if r.1 =? DDS_RETCODE_OK then (true, add_number a m fd r.2) else (false, m)) ids m.
Proof.
  revert m. induction ids as [|id ids IH]; intros m; [done|]. cbn [repeated_scalar_to_pb each].
  destruct (_ =? _); cbn [negb fst snd]; [apply IH | done].
Qed.

Lemma each_ext {X} (f g : X → MSG → bool * MSG) xs m : (∀ x m, f x m = g x m) → each f xs m = each g xs m.
Proof.
  intros Hfg. revert m. induction xs as [|x xs IH]; intros m; [done|]. cbn. rewrite Hfg. destruct (g x m) as [[] m']; cbn; [apply IH | done].
Qed.
End members.


(** Members that are no structures, read from an object that reads the same. *)
Lemma get_scalar_reads g d d' id : reads_same d' d → get_scalar g d' id = get_scalar g d id.
Proof. intros Hs. by rewrite Hs. Qed.
Lemma string_reads d d' id : reads_same d' d → string_value d' id = string_value d id.
Proof. intros Hs. by rewrite Hs. Qed.
Lemma info_reads d d' i : reads_same d' d → info_by_index d' i = info_by_index d i.
Proof. intros Hs. by rewrite Hs. Qed.
Lemma octets_reads d d' id n : reads_same d' d → octets_value d' id n = octets_value d id n.
Proof.
  intros Hs. assert (get_octets d' id n = get_octets d id n) as Heq by by rewrite Hs.
  unfold octets_value. by rewrite Heq.
Qed.

Lemma exists_reads d d' id : reads_same d' d → member_exists d' id = member_exists d id.
Proof. intros Hs. by rewrite Hs. Qed.
Lemma type_reads d d' id : reads_same d' d → type_by_id d' id = type_by_id d id.
Proof. intros Hs. by rewrite Hs. Qed.
Lemma kind_reads d d' : reads_same d' d → get_type_kind d' = get_type_kind d.
Proof. intros Hs. by rewrite Hs. Qed.
Lemma count_reads d d' : reads_same d' d → get_member_count d' = get_member_count d.
Proof. intros Hs. by rewrite Hs. Qed.

Lemma buffer_only_eq {A} (m : M W E A) a a' w :
  buffer_only m (λ r _, r = a) w → a = a' → buffer_only m (λ r _, r = a') w.
Proof. by intros H ->. Qed.

Section members_done.
Context (rec : MSG → nat → M W E (bool * MSG)) (ref : MSG → D → bool * MSG) (n : nat).
Hypothesis rec_computes : ∀ m q t d w,
  reads_as t q d w → (nesting t < n)%nat → computes t q d (rec m q) (ref m d) w.

Lemma singular_computes p tp d info t kind m fd w :
  reads_as tp p d w → member_exists d (mi_id info) = true → 0 <= mi_element_count info →
  (nesting t < nesting tp)%nat → (nesting tp ≤ n)%nat →
  computes tp p d (dds_singular_member_to_pb rec p info t kind m fd) (ref_singular ref d info t kind m fd) w.
Proof.
  intros Hr Hex Hcount Hlt Hn.
  assert (computes tp p d (d ← get_obj p; singular_string_to_pb d (mi_id info) m fd)
            (put_value (string_value d (mi_id info)) (SetString m fd) m) w) as Hstring.
  { eapply computes_get_obj; [done|]. intros d' Hs _. apply computes_buffer; [done|].
    rewrite <- (string_reads _ _ _ Hs). apply singular_string_exact. }
  assert (computes tp p d (d ← get_obj p; singular_bytes_to_pb d info m fd)
            (put_value (octets_value d (mi_id info) (mi_element_count info)) (SetString m fd) m) w) as Hbytes.
  { eapply computes_get_obj; [done|]. intros d' Hs _. apply computes_buffer; [done|].
    rewrite <- (octets_reads _ _ _ _ Hs). by apply singular_bytes_exact. }
  assert (∀ g a, computes tp p d (d ← get_obj p; mret (singular_scalar_to_pb g a d (mi_id info) m fd))
            (singular_scalar_to_pb g a d (mi_id info) m fd) w) as Hscalar.
  { intros g a. eapply computes_get_obj; [done|]. intros d' Hs _.
    unfold singular_scalar_to_pb. rewrite (get_scalar_reads _ _ _ _ Hs). by apply computes_ret. }
  unfold dds_singular_member_to_pb, ref_singular. destruct kind; cbn [scalar_case];
    first [apply Hscalar | by apply computes_ret | exact Hstring | exact Hbytes
          | by eapply singular_struct_computes].
Qed.

Lemma elements_computes p tp d count t kind m fd w :
  reads_as tp p d w → (∀ j, 1 <= j <= count → member_exists d j = true) →
  (nesting t < nesting tp)%nat → (nesting tp ≤ n)%nat →
  computes tp p d (collection_elements_to_pb rec p count t kind m fd) (ref_elements ref d count t kind m fd) w.
Proof.
  intros Hr Hex Hlt Hn.
  assert (computes tp p d (len ← initial_len; d ← get_obj p; repeated_string_to_pb d (element_ids count) len m fd)
            (each (λ id m, put_value (string_value d id) (AddString m fd) m) (element_ids count) m) w) as Hstring.
  { apply wp_bind. eapply wp_mono; [apply initial_len_only | | done]. intros len w' (b & -> & Hlen).
    assert (reads_as tp p d (with_buffer b w)) as Hr'.
    { eapply keeps_reads; [done | by apply well_with_buffer, Hr | apply keeps_with_buffer | done]. }
    eapply wp_mono; [eapply computes_get_obj; [exact Hr'|] | | done].
    - intros d' Hs _. apply computes_buffer; [done|].
      eapply buffer_only_eq; [by apply repeated_string_exact|]. apply each_ext.
      intros id m'. by rewrite (string_reads _ _ _ Hs).
    - intros r w' (-> & Hr2 & Hk). split; [done|]. split; [done|]. etrans; [apply keeps_with_buffer | exact Hk]. }
  assert (computes tp p d (d ← get_obj p; repeated_bytes_to_pb d (seq 0 (Z.to_nat count)) fresh_seq m fd)
            (ref_elements ref d count t DDS_TK_SEQUENCE m fd) w) as Hbytes.
  { eapply computes_get_obj; [done|]. intros d' Hs _. apply computes_buffer; [done|]. 
    eapply buffer_only_eq; [by apply repeated_bytes_exact|]. apply each_ext. intros i m'. cbn beta zeta.
    by rewrite (info_reads _ _ _ Hs), (octets_reads _ _ _ _ Hs). }
  assert (∀ g a, computes tp p d (d ← get_obj p; mret (repeated_scalar_to_pb g a d (element_ids count) m fd))
            (each (λ id m, let r := get_scalar g d id in
                           if r.1 =? DDS_RETCODE_OK then (true, add_number a m fd r.2) else (false, m))
               (element_ids count) m) w) as Hscalar.
  { intros g a. eapply computes_get_obj; [done|]. intros d' Hs _. rewrite repeated_scalar_each.
    erewrite each_ext; [by apply computes_ret|]. intros id m'. cbn beta zeta. by rewrite (get_scalar_reads _ _ _ _ Hs). }
  assert (computes tp p d (c ← get_cached_dds_data t;
            match c with
            | None => mret (false, m)
            | Some elData => repeated_struct_to_pb rec p elData (element_ids count) m fd
            end) (ref_elements ref d count t DDS_TK_STRUCT m fd) w) as Hstruct.
  { eapply get_cached_computes; [done|]. intros q w' Hr' Hq _. eapply repeated_struct_computes; [done.. | | done | done].
    unfold element_ids. apply Forall_fmap, Forall_forall. intros i Hi%elem_of_seq. apply Hex. lia. }
  unfold collection_elements_to_pb, collection_scalars_to_pb, collection_strings_to_pb, ref_elements. destruct kind; cbn [scalar_case];
    first [apply Hscalar | by apply computes_ret | exact Hstring | exact Hbytes | exact Hstruct].
Qed.

Lemma collection_computes p tp d i info t0 t k m fd w :
  reads_as tp p d w → info_by_index d i = (DDS_RETCODE_OK, info) →
  type_by_id d (mi_id info) = (DDS_RETCODE_OK, t0) → resolved alias_fuel t0 DDS_TK_NULL = Some (t, k) → member_exists d (mi_id info) = true →
  (nesting t < nesting tp)%nat → (nesting tp ≤ n)%nat → (nesting tp ≤ alias_fuel)%nat →
  computes tp p d (dds_collection_member_to_pb alias_fuel rec p info t m fd)
    (ref_collection alias_fuel ref d info t m fd) w.
Proof.
  intros Hr Hi Ht0 Hres Hex Hlt Hn Hf. unfold dds_collection_member_to_pb, ref_collection.
  destruct (mi_element_count info =? 0); [by apply computes_ret|].
  eapply get_cached_computes; [done|]. intros q w' Hr' Hq _. eapply computes_bind.
  - eapply with_bound_computes; [done.. |]. intros w1 Hr1.
    instantiate (1 := match el ← TypeCode_content_type t; resolved alias_fuel el DDS_TK_NULL with
                      | Some (el, kind) =>
                          ref_elements ref (complex_member d (mi_id info) t) (mi_element_count info) el kind m fd
                      | None => (false, m)
                      end).
    destruct (TypeCode_content_type t) as [el|] eqn:Hel; cbn [mbind option_bind]; [|by apply computes_ret].
    apply nesting_content in Hel. apply computes_resolve; [lia | |].
    + intros el' kind -> Hle. cbn [negb fst snd]. apply elements_computes; [done | | lia | lia].
      intros j Hj. by eapply copy_elements.
    + intros el' kind ->. by apply computes_ret.
  - intros w2 Hr2 _. destruct (can_bind _ _ _); by apply computes_ret.
Qed.

Lemma member_computes p tp d i m w :
  reads_as tp p d w → (nesting tp ≤ n)%nat → (nesting tp ≤ alias_fuel)%nat →
  computes tp p d (member_to_pb alias_fuel rec p i m) (ref_member alias_fuel ref d i m) w.
Proof.
  intros Hr Hn Hf. unfold member_to_pb, ref_member. eapply computes_get_obj; [done|]. intros d' Hs Htd. cbn zeta.
  pose proof (element_count_nonneg d i) as Hcount.
  rewrite !(info_reads _ _ _ Hs), !(exists_reads _ _ _ Hs), !(type_reads _ _ _ Hs).
  destruct (info_by_index d i) as [rc info] eqn:Hi. cbn [fst snd] in *.
  destruct (Z.eqb_spec rc DDS_RETCODE_OK) as [->|]; cbn [negb]; [|by apply computes_ret].
  destruct (member_exists d (mi_id info)) eqn:Hex; cbn [negb]; [|by apply computes_ret].
  rewrite <- (type_reads _ _ _ Hs). destruct (type_by_id d' (mi_id info)) as [rc t] eqn:Ht. cbn [fst snd].
  destruct (Z.eqb_spec rc DDS_RETCODE_OK) as [->|]; cbn [negb]; [|by apply computes_ret].
  destruct (nesting_member _ _ _ Ht) as (tc & Htc & Hlt). rewrite Htd in Htc. injection Htc as <-.
  rewrite (type_reads _ _ _ Hs) in Ht. apply computes_resolve; [lia | |].
  - intros t' kind Hres Hle. rewrite Hres. cbn [negb fst snd]. destruct (FindFieldByName m _) as [fd|]; [|by apply computes_ret].
    destruct kind; try (by apply computes_ret); try (apply singular_computes; done || lia).
    all: destruct (_ && _); [apply singular_computes | eapply collection_computes]; done || lia.
  - intros t' kind ->. by apply computes_ret.
Qed.

Lemma members_computes p tp d ixs m w :
  reads_as tp p d w → (nesting tp ≤ n)%nat → (nesting tp ≤ alias_fuel)%nat →
  computes tp p d (members_to_pb alias_fuel rec p ixs m) (each (ref_member alias_fuel ref d) ixs m) w.
Proof.
  intros Hr Hn Hf. revert m w Hr. induction ixs as [|i ixs IH]; intros m w Hr;
    cbn [members_to_pb each]; [by apply computes_ret|].
  eapply computes_bind; [by apply member_computes|]. intros w' Hr' _.
  destruct (ref_member alias_fuel ref d i m) as [[] m']; cbn [fst snd]; [by apply IH | by apply computes_ret].
Qed.
End members_done.

Lemma dds_to_protobuf_computes fuel p tp d m w :
  reads_as tp p d w → (nesting tp < fuel)%nat → (nesting tp ≤ alias_fuel)%nat →
  computes tp p d (dds_to_protobuf alias_fuel fuel m p) (reference alias_fuel fuel m d) w.
Proof.
  revert p tp d m w. induction fuel as [|fuel IH]; intros p tp d m w Hr Hn Hf; [lia|].
  cbn [dds_to_protobuf reference]. unfold dds_to_protobuf_body, ref_body.
  destruct (negb _); [by apply computes_ret|]. destruct (negb _); [by apply computes_ret|].
  eapply computes_get_obj; [done|]. intros d' Hs Htd.
  assert (get_type d = Some tp) as Htd0 by by rewrite <- Hs. rewrite Htd, Htd0, !(kind_reads _ _ Hs), (count_reads _ _ Hs).
  case_bool_decide; [by apply computes_ret|]. cbn zeta. destruct (_ && _); [by apply computes_ret|].
  apply computes_resolve; [done | |].
  - intros t kind -> _. cbn [negb fst snd]. apply members_computes with (n := nesting tp); try done.
    intros m' q t' d0 w' Hr' Hlt. apply IH; [done | lia | lia].
  - intros t kind ->. by apply computes_ret.
Qed.


(** C13: the conversion of a sample is what one would write without a cache of
    objects, without bindings and without a buffer.  For a sample that reads
    like [d], it returns the message of [reference d], which depends on nothing
    but the message, the sample and the two bounds: not on the cache, the buffer
    or what was converted before.  Afterwards the sample reads like [d] still, and
    all objects are as bound as before. *)
Theorem reference_spec fuel p tp d m w :
  reads_as tp p d w → (nesting tp < fuel)%nat → (nesting tp ≤ alias_fuel)%nat →
  ∃ w', dds_to_protobuf alias_fuel fuel m p w = Ok (E := E) (reference alias_fuel fuel m d) w'
    ∧ reads_as tp p d w' ∧ keeps_bindings (nesting tp) p w w'.
Proof.
  intros Hr Hn Hf.
  destruct (wp_returns _ _ _ (dds_to_protobuf_computes fuel p tp d m w Hr Hn Hf)) as (r & w' & Hrun & -> & H).
  by exists w'.
Qed.

End equivalence.

