(* ===== verification/SampleReference.v ===== *)
(** The conversion of messages into samples as one would write it without a
    cache of objects and without bindings: a nested member is copied out,
    written, and put back.  The conversion of MessageConversion computes the
    same; put together with ConversionReference, a message that is made from a
    sample and read into another one depends on the two samples alone. *)
From Stdlib Require Import ZArith Lia.
From stdpp Require Import base gmap strings list option fin_maps.
From S2P Require Import Prelude Utils DynHelpers DynDataUtils MessageConversion ConversionSessions ConversionReference.

#[local] Open Scope string_scope.
#[local] Open Scope list_scope.
#[local] Open Scope Z_scope.

(** ** The reference *)
Section reference.
Context {D TC MSG FD : Type} {TT : TypeCodes TC} {DS : DynScalars D}
  {DM : DynMembers D TC} {DO : DynObjects D TC} {RF : Reflection MSG FD} {CP : Copies D TC}.
Context (alias_fuel : nat).
#[local] Abbreviation ref_rec := (D → MSG → bool * D).

(** A field that is no message. *)
Definition ref_plain (ft : field_type) (get : accessor → Z) (known : bool) (str : list Z) (d : D) (id : Z)
    (tc : TC) (kind : DDS_TCKind) : bool * D :=
  match ft with
  | TYPE_STRING => ok_of (set_string d id (c_str str))
  | TYPE_BYTES =>
      default (false, d) (set_fuzzy_bytes alias_fuel d id tc str (u32 (Z.of_nat (length str))))
  | _ => default (false, d) (number_to_dds ft get known d id kind)
  end.

(** A member is written as a copy of its own. *)
Definition ref_nested (d : D) (id : Z) (tc : TC) (write : D → bool * D) : bool * D :=
  if can_bind d id tc
  then let r := write (complex_member d id tc) in (r.1, set_complex_member d id r.2)
  else (false, d).

Definition ref_singular_field (rec : ref_rec) (d : D) (info : member_info) (tc : TC) (kind : DDS_TCKind)
    (m : MSG) (fd : FD) : bool * D :=
  if negb (HasField m fd) then (true, d)
  else
    match type fd with
    | TYPE_GROUP | TYPE_MESSAGE => ref_nested d (mi_id info) tc (λ dm, rec dm (GetMessage m fd))
    | ft => ref_plain ft (λ a, get_number a m fd) (enum_known m fd None) (GetString m fd) d (mi_id info) tc kind
    end.

(** The element of a repeated field. *)
Definition ref_element (rec : ref_rec) (tc : TC) (kind : DDS_TCKind) (m : MSG) (fd : FD) (j : nat) (d : D)
    : bool * D :=
  if is_map fd || bool_decide (type fd = TYPE_MESSAGE) || bool_decide (type fd = TYPE_GROUP)
  then ref_nested d (Z.of_nat j + 1) tc (λ de, rec de (GetRepeatedMessage m fd j))
  else ref_plain (type fd) (λ a, get_repeated_number a m fd j) (enum_known m fd (Some j))
         (GetRepeatedString m fd j) d (Z.of_nat j + 1) tc kind.

Definition ref_repeated_field (rec : ref_rec) (d : D) (info : member_info) (tc : TC) (m : MSG) (fd : FD)
    : bool * D :=
  if (FieldSize m fd =? 0)%nat then (true, d)
  else
    ref_nested d (mi_id info) tc (λ dm,
      match el ← TypeCode_content_type tc; resolved alias_fuel el DDS_TK_NULL with
      | Some (el, kind) => each (ref_element rec el kind m fd) (seq 0 (FieldSize m fd)) dm
      | None => (false, dm)
      end).

Definition ref_field (rec : ref_rec) (m : MSG) (fd : FD) (d : D) : bool * D :=
  match get_member_info alias_fuel d (field_name fd) with
  | Some (_, Some (info, tc, kind)) =>
      if is_repeated fd || is_map fd then ref_repeated_field rec d info tc m fd
      else ref_singular_field rec d info tc kind m fd
  | _ => (false, d)
  end.

(** The sample that a message becomes, on top of one that is there. *)
Fixpoint sample_reference (fuel : nat) (d : D) (m : MSG) : bool * D :=
  match fuel with
  | O => (false, d)
  | S fuel =>
      if negb (has_descriptor m) then (false, d)
      else if negb (has_reflection m) then (false, d)
      else each (ref_field (sample_reference fuel) m) (ListFields m) d
  end.
End reference.

(** ** What DDS documents of the setters: what they do to objects that read the
    same reads the same. *)
Section laws.
Context {D TC : Type} {DS : DynScalars D} {DM : DynMembers D TC} {DO : DynObjects D TC} {CP : Copies D TC}.

Class WriteLaws := {
  writes_scalar g :: Proper (reads_same ==> eq ==> eq ==> prod_relation eq reads_same) (set_scalar g);
  writes_bytes k :: Proper (reads_same ==> eq ==> eq ==> eq ==> prod_relation eq reads_same) (set_byte_array k);
  writes_string :: Proper (reads_same ==> eq ==> eq ==> prod_relation eq reads_same) set_string;
  reads_name :: Proper (reads_same ==> eq ==> eq) info_by_name
}.
End laws.
Arguments WriteLaws D TC {DS DM DO CP}.

Section equivalence.
Context {D TC MSG FD : Type} `{!EqDecision TC} {TT : TypeCodes TC} {DS : DynScalars D}
  {DM : DynMembers D TC} {DO : DynObjects D TC} {RF : Reflection MSG FD}
  {BD : Bindings D TC} {BL : BindingLaws D TC} {SW : StringLaw (DO := DO)} {CP : Copies D TC}
  {CL : CopyLaws D TC} {WL : WriteLaws D TC}.
#[local] Abbreviation W := (conv_state D TC).
Context {E : Type} (alias_fuel : nat).
Implicit Types (w : W) (d : D) (p q : nat).

(** The same result, and objects that read the same. *)
#[local] Abbreviation same_result := (prod_relation (@eq bool) reads_same).

Lemma ok_of_same (r r' : Z * D) : prod_relation eq reads_same r r' → same_result (ok_of r) (ok_of r').
Proof. intros [Hrc Hd]. split; [|done]. cbn. by rewrite Hrc. Qed.

Lemma set_scalar_same_result g d d' id v :
  reads_same d d' → same_result (ok_of (set_scalar g d id v)) (ok_of (set_scalar g d' id v)).
Proof. intros Hs. apply ok_of_same. by apply writes_scalar. Qed.

Lemma set_fuzzy_same_result d d' id kind v :
  reads_same d d' →
  same_result (set_fuzzy_long d id kind v) (set_fuzzy_long d' id kind v)
  ∧ same_result (set_fuzzy_ulong d id kind v) (set_fuzzy_ulong d' id kind v).
Proof.
  intros Hs. unfold set_fuzzy_long, set_fuzzy_ulong.
  split; destruct kind; try case_match; first [by apply set_scalar_same_result | by split].
Qed.

Lemma number_same_result ft get known d d' id kind :
  reads_same d d' →
  same_result (default (false, d) (number_to_dds ft get known d id kind))
    (default (false, d') (number_to_dds ft get known d' id kind)).
Proof.
  intros Hs. destruct ft; cbn;
    try (by apply set_scalar_same_result); try (by apply set_fuzzy_same_result); try (by split).
  destruct known; [by apply set_scalar_same_result | by split].
Qed.

Lemma ref_plain_same ft get known str d d' id tc kind :
  reads_same d d' →
  same_result (ref_plain alias_fuel ft get known str d id tc kind) (ref_plain alias_fuel ft get known str d' id tc kind).
Proof.
  intros Hs. unfold ref_plain. destruct ft; try (by apply number_same_result).
  - apply ok_of_same. by apply writes_string.
  - unfold set_fuzzy_bytes. destruct (TypeCode_content_type tc) as [el|]; [|by split].
    destruct (resolve_type_code alias_fuel el DDS_TK_NULL) as [[[[] t] k]|]; cbn; [|by split | by split].
    apply ok_of_same. by apply writes_bytes.
Qed.

(** With enough fuel the code returns what the reference says. *)
Lemma plain_to_dds_ref ft get known str d id t kind w :
  (nesting t ≤ alias_fuel)%nat →
  wp (plain_to_dds alias_fuel ft get known str d id t kind)
     (λ r w', r = ref_plain alias_fuel ft get known str d id t kind ∧ w' = w ∧ same_bindings d r.2) (no_jump (E := E)) w.
Proof.
  intros Hf.
  eapply wp_mono with (Q := λ r w', r = ref_plain alias_fuel ft get known str d id t kind
                                    ∧ (w' = w ∧ same_bindings d r.2)); [|naive_solver | done].
  apply wp_and; [|by apply plain_same]. unfold plain_to_dds, ref_plain. destruct ft; try done.
  unfold set_fuzzy_bytes. destruct (TypeCode_content_type t) as [el|] eqn:Hel; [|done].
  apply nesting_content in Hel.
  destruct (resolve_type_code_lemma (AL := nesting_alias) alias_fuel el DDS_TK_NULL) as (b & t' & k' & Hr & _);
    [cbn; lia|].
  cbn. rewrite Hr. cbn. by destruct b.
Qed.

(** A field is read and stored in the object. *)
Lemma store_computes {A} p tp d d2 ft get known str id t kind (k : bool * D → M W E A) a w :
  reads_as tp p d w → (nesting t ≤ alias_fuel)%nat →
  (∀ x w', x.1 = (ref_plain alias_fuel ft get known str d id t kind).1 → 
     reads_as tp p (ref_plain alias_fuel ft get known str d id t kind).2 w' →
     keeps_bindings (nesting tp) p w w' → computes tp p d2 (k x) a w') →
  computes tp p d2 (d ← get_obj p; x ← plain_to_dds alias_fuel ft get known str d id t kind; put_obj p x.2;; k x) a w.
Proof.
  intros Hr Hf Hk. pose proof Hr as [Hw (d0 & Hp & Hs & Ht & Hm) Hfree].
  eapply wp_get_obj; [exact Hp|]. apply wp_bind.
  eapply wp_mono; [by apply plain_to_dds_ref | | done]. intros x w' (Hx & -> & Hsame).
  destruct (ref_plain_same ft get known str d0 d id t kind Hs) as [H1 H2]. rewrite <- Hx in H1, H2.
  eapply (computes_bind (E := E) tp p _ d2 (put_obj p x.2) (λ _, k x) ()); [|intros w' Hr' Hk'; by eapply Hk].
  destruct (put_obj_keeps (E := E) (nesting tp) p d0 x.2 w Hw Hp Hsame) as [Hw' Hkeep].
  split; [by destruct (tt)|]. split; [|exact Hkeep]. constructor; [done | | by eapply keeps_free].
  exists x.2. cbn. rewrite lookup_insert_eq. split; [done|]. split; [done|]. split.
  - by rewrite (same_type _ _ Hsame).
  - by rewrite (same_has_bound _ _ Hsame).
Qed.

Section fields.
Context (rec : nat → MSG → M W E bool) (ref : D → MSG → bool * D) (n : nat).
Hypothesis rec_computes : ∀ q m t d w,
  reads_as t q d w → (nesting t < n)%nat → computes t q (ref d m).2 (rec q m) (ref d m).1 w.

(** A nested member: what the scope returns, or that it could not be bound. *)
Lemma nested_writes p tp d q t id (body : M W E bool) (write : D → bool * D) w :
  reads_as tp p d w → typed w q t → (nesting t < nesting tp)%nat →
  (∀ w1, reads_as t q (complex_member d id t) w1 →
     computes t q (write (complex_member d id t)).2 body (write (complex_member d id t)).1 w1) →
  computes tp p (ref_nested d id t write).2 (r ← with_bound p q id body; mret (default false r))
    (ref_nested d id t write).1 w.
Proof.
  intros Hr Hq Hlt Hbody. eapply computes_bind; [by eapply with_bound_writes|].
  intros w' Hr' _. unfold ref_nested. destruct (can_bind d id t); by apply computes_ret.
Qed.

Lemma singular_field_computes p tp d info t kind m fd w :
  reads_as tp p d w → (nesting t < nesting tp)%nat → (nesting tp ≤ n)%nat → (nesting tp ≤ alias_fuel)%nat →
  computes tp p (ref_singular_field alias_fuel ref d info t kind m fd).2
    (pb_singular_field_to_dds alias_fuel rec p info t kind m fd)
    (ref_singular_field alias_fuel ref d info t kind m fd).1 w.
Proof.
  intros Hr Hlt Hn Hf. unfold pb_singular_field_to_dds, ref_singular_field.
  destruct (negb _); [by apply computes_ret|].
  assert (computes tp p (ref_nested d (mi_id info) t (λ dm, ref dm (GetMessage m fd))).2
            (c ← get_cached_dds_data t;
             match c with
             | None => mret false
             | Some ddsMemberData =>
                 r ← with_bound p ddsMemberData (mi_id info) (rec ddsMemberData (GetMessage m fd));
                 mret (default false r)
             end) (ref_nested d (mi_id info) t (λ dm, ref dm (GetMessage m fd))).1 w) as Hmessage.
  { eapply get_cached_computes; [done|]. intros q w' Hr' Hq _. apply nested_writes; [done..|].
    intros w1 Hr1. apply rec_computes; [done | lia]. }
  destruct (type fd); try exact Hmessage;
    (eapply store_computes; [done | lia |]; intros x w' -> Hr' _; by apply computes_ret).
Qed.

Lemma repeated_messages_computes p tp d q t ixs m fd w :
  reads_as tp p d w → typed w q t → (nesting t < nesting tp)%nat → (nesting tp ≤ n)%nat →
  computes tp p
    (each (λ j d, ref_nested d (Z.of_nat j + 1) t (λ de, ref de (GetRepeatedMessage m fd j))) ixs d).2
    (repeated_messages_to_dds rec p q ixs m fd)
    (each (λ j d, ref_nested d (Z.of_nat j + 1) t (λ de, ref de (GetRepeatedMessage m fd j))) ixs d).1 w.
Proof.
  intros Hr Hq Hlt Hn. revert d w Hr Hq. induction ixs as [|j ixs IH]; intros d w Hr Hq;
    cbn [repeated_messages_to_dds each]; [by apply computes_ret|].
  eapply computes_bind.
  - eapply with_bound_writes; [done..|]. intros w1 Hr1. apply rec_computes; [done | lia].
  - intros w2 Hr2 Hk.
    remember (ref_nested d (Z.of_nat j + 1) t (λ de, ref de (GetRepeatedMessage m fd j))) as r eqn:Heq.
    unfold ref_nested in Heq. destruct (can_bind d (Z.of_nat j + 1) t); subst r; cbn [default fst snd];
      [|by apply computes_ret].
    destruct (ref _ (GetRepeatedMessage m fd j)) as [[] d1]; cbn [fst snd] in *; [|by apply computes_ret].
    apply IH; [done | by eapply typed_keeps].
Qed.

Lemma repeated_plain_computes p tp d t kind ixs m fd w :
  reads_as tp p d w → (nesting t ≤ alias_fuel)%nat →
  computes (E := E) tp p
    (each (λ j d, ref_plain alias_fuel (type fd) (λ a, get_repeated_number a m fd j) (enum_known m fd (Some j))
                    (GetRepeatedString m fd j) d (Z.of_nat j + 1) t kind) ixs d).2
    (repeated_plain_to_dds alias_fuel p ixs t kind m fd)
    (each (λ j d, ref_plain alias_fuel (type fd) (λ a, get_repeated_number a m fd j) (enum_known m fd (Some j))
                    (GetRepeatedString m fd j) d (Z.of_nat j + 1) t kind) ixs d).1 w.
Proof.
  intros Hr Hf. revert d w Hr. induction ixs as [|j ixs IH]; intros d w Hr;
    cbn [repeated_plain_to_dds each]; [by apply computes_ret|]; unfold repeated_element_to_dds.
  eapply store_computes; [done..|]. intros x w' -> Hr' _.
  destruct (ref_plain _ _ _ _ _ d _ _ _) as [[] d1]; cbn [fst snd] in *; [by apply IH | by apply computes_ret].
Qed.
End fields.


Section fields_done.
Context (rec : nat → MSG → M W E bool) (ref : D → MSG → bool * D) (n : nat).
Hypothesis rec_computes : ∀ q m t d w,
  reads_as t q d w → (nesting t < n)%nat → computes t q (ref d m).2 (rec q m) (ref d m).1 w.

Lemma repeated_field_computes p tp d info t m fd w :
  reads_as tp p d w → (nesting t < nesting tp)%nat → (nesting tp ≤ n)%nat → (nesting tp ≤ alias_fuel)%nat →
  computes tp p (ref_repeated_field alias_fuel ref d info t m fd).2
    (pb_repeated_field_to_dds alias_fuel rec p info t m fd) (ref_repeated_field alias_fuel ref d info t m fd).1 w.
Proof.
  intros Hr Hlt Hn Hf. unfold pb_repeated_field_to_dds, ref_repeated_field.
  destruct (_ =? 0)%nat; [by apply computes_ret|].
  eapply get_cached_computes; [done|]. intros q w' Hr' Hq _. apply (nested_writes p tp d q t); [done..|].
  intros w1 Hr1. destruct (TypeCode_content_type t) as [el|] eqn:Hel; cbn [mbind option_bind]; [|by apply computes_ret].
  apply nesting_content in Hel. apply computes_resolve; [lia | |].
  - intros el' kind -> Hle. cbn [negb fst snd]. unfold ref_element.
    destruct (_ || _); [|apply repeated_plain_computes; [done | lia]].
    eapply get_cached_computes; [done|]. intros e w2 Hr2 He _. apply (repeated_messages_computes rec ref n); [done.. | lia | lia].
  - intros el' kind ->. by apply computes_ret.
Qed.

Lemma get_member_info_reads d d' name :
  reads_same d' d → get_member_info alias_fuel d' name = get_member_info alias_fuel d name.
Proof.
  intros Hs. unfold get_member_info. assert (info_by_name d' name = info_by_name d name) as -> by by rewrite Hs.
  by rewrite !(type_reads _ _ _ Hs).
Qed.

Lemma field_computes p tp d m fd w :
  reads_as tp p d w → (nesting tp ≤ n)%nat → (nesting tp ≤ alias_fuel)%nat →
  computes tp p (ref_field alias_fuel ref m fd d).2 (field_to_dds alias_fuel rec p m fd)
    (ref_field alias_fuel ref m fd d).1 w.
Proof.
  intros Hr Hn Hf. unfold field_to_dds, ref_field. eapply computes_get_obj; [done|]. intros d' Hs Htd.
  rewrite <- (get_member_info_reads _ _ _ Hs).
  destruct (get_member_info_nesting alias_fuel d' (field_name fd) tp Htd Hf) as (b & r & -> & Ht).
  destruct r as [[[info t] kind]|]; cbn; [|by apply computes_ret].
  destruct (_ || _); [by apply repeated_field_computes | by apply (singular_field_computes rec ref n)].
Qed.

Lemma fields_computes p tp d m fds w :
  reads_as tp p d w → (nesting tp ≤ n)%nat → (nesting tp ≤ alias_fuel)%nat →
  computes tp p (each (ref_field alias_fuel ref m) fds d).2 (fields_to_dds alias_fuel rec p m fds)
    (each (ref_field alias_fuel ref m) fds d).1 w.
Proof.
  intros Hr Hn Hf. revert d w Hr. induction fds as [|fd fds IH]; intros d w Hr;
    cbn [fields_to_dds each]; [by apply computes_ret|].
  eapply computes_bind; [by apply field_computes|]. intros w' Hr' _.
  destruct (ref_field alias_fuel ref m fd d) as [[] d1]; cbn [fst snd] in *; [by apply IH | by apply computes_ret].
Qed.
End fields_done.

Lemma protobuf_to_dds_computes fuel p tp d m w :
  reads_as tp p d w → (nesting tp < fuel)%nat → (nesting tp ≤ alias_fuel)%nat →
  computes (E := E) tp p (sample_reference alias_fuel fuel d m).2 (protobuf_to_dds alias_fuel fuel p m)
    (sample_reference alias_fuel fuel d m).1 w.
Proof.
  revert p tp d m w. induction fuel as [|fuel IH]; intros p tp d m w Hr Hn Hf; [lia|].
  cbn [protobuf_to_dds sample_reference]. unfold protobuf_to_dds_body.
  destruct (negb _); [by apply computes_ret|]. destruct (negb _); [by apply computes_ret|].
  apply fields_computes with (n := nesting tp); try done.
  intros q m' t' d0 w' Hr' Hlt. apply IH; [done | lia | lia].
Qed.

(** C14: the conversion of a message is what one would write without a cache of
    objects and without bindings.  Into a sample that reads like [d] it returns
    the result of [sample_reference d], and the sample reads like that one's
    object afterwards, also after a failure, when some members are written
    already.  Nothing else that was converted before has a part in it, and all
    objects are as bound as before. *)
Theorem sample_reference_spec fuel p tp d m w :
  reads_as tp p d w → (nesting tp < fuel)%nat → (nesting tp ≤ alias_fuel)%nat →
  ∃ w', protobuf_to_dds alias_fuel fuel p m w = Ok (E := E) (sample_reference alias_fuel fuel d m).1 w'
    ∧ reads_as tp p (sample_reference alias_fuel fuel d m).2 w' ∧ keeps_bindings (nesting tp) p w w'.
Proof.
  intros Hr Hn Hf.
  destruct (wp_returns _ _ _ (protobuf_to_dds_computes fuel p tp d m w Hr Hn Hf)) as (r & w' & Hrun & -> & H).
  by exists w'.
Qed.

End equivalence.
