(* ===== verification/ConversionRoundTrip.v ===== *)
(** A sample that becomes a message and is read back from it is the sample
    again: what the DDS and Protobuf libraries document of members and fields,
    and the round trip of whole samples through the two conversions. *)
From Stdlib Require Import ZArith Lia.
From stdpp Require Import base gmap strings list option fin_maps relations.
From S2P Require Import Prelude Utils DynHelpers DynDataUtils MessageConversion ConversionSessions ConversionReference.
From S2P Require Import SampleReference.

#[local] Open Scope string_scope.
#[local] Open Scope list_scope.
#[local] Open Scope Z_scope.

(** ** Lists and types *)

(** The part of a run of numbers before one of them. *)
Lemma seq_prefix n xs1 x xs2 : seq 0 n = xs1 ++ x :: xs2 → xs1 = seq 0 x ∧ (x < n)%nat.
Proof.
  intros Hs.
  assert (x = length xs1 ∧ length xs1 < n)%nat as [-> Hlt].
  { assert (seq 0 n !! length xs1 = Some x) as Hx by (rewrite Hs; by apply list_lookup_middle).
    apply lookup_seq in Hx. lia. }
  split; [|done]. rewrite <- (take_app_length xs1 (length xs1 :: xs2)), <- Hs at 1.
  rewrite take_seq. f_equal. lia.
Qed.

(** What an alias stands for is no alias. *)
Lemma resolved_kind {TC} {TT : TypeCodes TC} fuel tc out t k : resolved fuel tc out = Some (t, k) → TypeCode_kind t = Some k.
Proof.
  unfold resolved. revert tc out. induction fuel as [|fuel IH]; intros tc out; cbn [resolve_type_code];
    destruct (TypeCode_kind tc) as [[]|] eqn:Hk; try (by intros [= <- <-]); try done;
    destruct (TypeCode_content_type tc) as [c|]; try done.
  cbn. specialize (IH c DDS_TK_ALIAS). destruct (resolve_type_code fuel c DDS_TK_ALIAS) as [[[[] t'] k']|]; done.
Qed.

(** ** Messages *)
Section messages.
Context {MSG FD : Type} {RF : Reflection MSG FD}.

(** One element more in a repeated field. *)
Inductive addition (m : MSG) (fd : FD) : MSG → Prop :=
  | addition_number a v : addition m fd (add_number a m fd v)
  | addition_string s : addition m fd (AddString m fd s)
  | addition_message sub : addition m fd (put_added m fd sub).

(** One field was written. *)
Inductive mutation (m : MSG) (fd : FD) : MSG → Prop :=
  | mutation_number a v : mutation m fd (set_number a m fd v)
  | mutation_string s : mutation m fd (SetString m fd s)
  | mutation_message sub : mutation m fd (put_mutable m fd sub)
  | mutation_add m' : addition m fd m' → mutation m fd m'.

(** An element of a repeated field is read as before. *)
Record element_same (fd : FD) (j : nat) (m m' : MSG) : Prop := {
  element_number : ∀ a, accessor_of (type fd) = Some a → get_repeated_number a m fd j = get_repeated_number a m' fd j;
  element_string : GetRepeatedString m fd j = GetRepeatedString m' fd j;
  element_message : GetRepeatedMessage m fd j = GetRepeatedMessage m' fd j
}.

(** A field is read as before. *)
Record field_same (fd : FD) (m m' : MSG) : Prop := {
  field_has : HasField m fd = HasField m' fd;
  field_size : FieldSize m fd = FieldSize m' fd;
  field_listed : fd ∈ ListFields m ↔ fd ∈ ListFields m';
  field_number : ∀ a, accessor_of (type fd) = Some a → get_number a m fd = get_number a m' fd;
  field_string : GetString m fd = GetString m' fd;
  field_message : GetMessage m fd = GetMessage m' fd;
  field_enum : ∀ o, enum_known m fd o = enum_known m' fd o;
  field_elements : ∀ j, element_same fd j m m'
}.

(** Messages of one type. *)
Record schema_same (m m' : MSG) : Prop := {
  schema_descriptor : has_descriptor m = has_descriptor m';
  schema_reflection : has_reflection m = has_reflection m';
  schema_field : ∀ name, FindFieldByName m name = FindFieldByName m' name
}.

Lemma schema_same_trans m1 m2 m3 : schema_same m1 m2 → schema_same m2 m3 → schema_same m1 m3.
Proof. intros [] []. split; [congruence | congruence | intros; congruence]. Qed.

(** The field is one of the type of the message. *)
Definition owned (m : MSG) (fd : FD) : Prop := ∃ name, FindFieldByName m name = Some fd.

(** What Protobuf documents of fields with explicit presence and repeated
    fields besides [NumberLaws]: fields have names; writing one leaves the others; what was written
    is listed, once, and is read back; a new sub-message is empty. *)
Class MessageLaws := {
  found_name : ∀ m name fd, FindFieldByName m name = Some fd → field_name fd = name;
  list_once : ∀ m, NoDup (ListFields m);
  list_owned : ∀ m fd, fd ∈ ListFields m → owned m fd;
  unlisted_size : ∀ m fd, owned m fd → fd ∉ ListFields m → FieldSize m fd = 0%nat;
  mutation_schema : ∀ m fd m', mutation m fd m' → schema_same m m';
  mutation_frame : ∀ m fd m' fd', mutation m fd m' → owned m fd → owned m fd' → fd' ≠ fd →
    field_same fd' m m';
  mutation_listed : ∀ m fd m', mutation m fd m' → owned m fd → fd ∈ ListFields m';
  set_has : ∀ a m fd v, HasField (set_number a m fd v) fd = true;
  string_has : ∀ m fd s, HasField (SetString m fd s) fd = true;
  message_has : ∀ m fd sub, HasField (put_mutable m fd sub) fd = true;
  get_set_string : ∀ m fd s, GetString (SetString m fd s) fd = s;
  get_put_mutable : ∀ m fd sub, GetMessage (put_mutable m fd sub) fd = sub;
  addition_size : ∀ m fd m', addition m fd m' → FieldSize m' fd = S (FieldSize m fd);
  addition_before : ∀ m fd m' j, addition m fd m' → (j < FieldSize m fd)%nat → element_same fd j m m';
  get_add_string : ∀ m fd s, GetRepeatedString (AddString m fd s) fd (FieldSize m fd) = s;
  get_put_added : ∀ m fd sub, GetRepeatedMessage (put_added m fd sub) fd (FieldSize m fd) = sub;
  mutable_new : ∀ m fd sub, owned m fd → fd ∉ ListFields m → MutableMessage m fd = Some sub → ListFields sub = [];
  added_new : ∀ m fd sub, AddMessage m fd = Some sub → ListFields sub = []
}.

(** A field was written, maybe more than once. *)
Definition mutations (fd : FD) : relation MSG := tc (λ m m', mutation m fd m').
End messages.
Arguments MessageLaws MSG FD {RF}.

(** ** Samples *)

(** Whether a member reads the same in two objects, and whether an object is as
    new. *)
Class Members (D : Type) := {
  member_same : Z → relation D;
  cleared : D → Prop
}.

Definition is_collection (k : DDS_TCKind) : Prop := k = DDS_TK_SEQUENCE ∨ k = DDS_TK_ARRAY.

Section samples.
Context {D TC : Type} {TT : TypeCodes TC} {DS : DynScalars D} {DM : DynMembers D TC} {DO : DynObjects D TC}
  {SW : StringLaw (DO := DO)} {CP : Copies D TC} {MB : Members D}.

(** Elements are written in their order. *)
Definition reachable (d : D) (id : Z) : Prop :=
  is_collection (get_type_kind d) → ∀ j, 1 <= j < id → member_exists d j = true.

(** [d1] is [d0] with the member of [d]. *)
Record writes (id : Z) (d d0 d1 : D) : Prop := {
  writes_type : get_type d1 = get_type d0;
  writes_member : member_same id d1 d;
  writes_frame : ∀ id', id' ≠ id → member_same id' d1 d0
}.

(** What DDS documents of members.  The type of an object determines its kind,
    its members, their names and their types.  Two objects are the same if their
    members are.  A new object has no optional members and no elements.  What
    was read from a member can be written into the member of another object,
    which then has the same member and keeps the others. *)
Class SampleLaws := {
  member_equiv id :: Equivalence (member_same id);
  members_same : ∀ d d', get_type d = get_type d' → (∀ id, member_same id d d') → reads_same d d';
  member_exists_same : ∀ id d d', member_same id d d' → member_exists d id = member_exists d' id;
  member_complex_same : ∀ id d d' tc, get_type d = get_type d' → member_same id d d' →
    reads_same (complex_member d id tc) (complex_member d' id tc);
  member_absent : ∀ id d d', get_type d = get_type d' → member_exists d id = false → member_exists d' id = false →
    member_same id d d';
  type_kind : ∀ d d', get_type d = get_type d' → get_type_kind d = get_type_kind d';
  kind_of_type : ∀ d tc k, get_type d = Some tc → TypeCode_kind tc = Some k → get_type_kind d = k;
  type_of_member : ∀ d d' id, get_type d = get_type d' → type_by_id d id = type_by_id d' id;
  bind_type : ∀ d d' id tc, get_type d = get_type d' → reachable d' id → can_bind d id tc = true →
    can_bind d' id tc = true;
  member_by_name : ∀ d d' i info, get_type d = get_type d' → ¬ is_collection (get_type_kind d) → info_by_index d i = (DDS_RETCODE_OK, info) →
    ∃ info', info_by_name d' (mi_name info) = (DDS_RETCODE_OK, info') ∧ mi_id info' = mi_id info;
  member_by_index : ∀ d id, ¬ is_collection (get_type_kind d) → member_exists d id = true →
    ∃ i info, (i < get_member_count d)%nat ∧ info_by_index d i = (DDS_RETCODE_OK, info) ∧ mi_id info = id;
  member_names : ∀ d i j info info', ¬ is_collection (get_type_kind d) →
    info_by_index d i = (DDS_RETCODE_OK, info) → info_by_index d j = (DDS_RETCODE_OK, info') →
    mi_name info = mi_name info' ∨ mi_id info = mi_id info' → i = j;
  element_index : ∀ d i info, is_collection (get_type_kind d) → info_by_index d i = (DDS_RETCODE_OK, info) →
    mi_id info = Z.of_nat i + 1;
  element_type : ∀ d tc el j, get_type d = Some tc → is_collection (get_type_kind d) →
    TypeCode_content_type tc = Some el → member_exists d j = true → type_by_id d j = (DDS_RETCODE_OK, el);
  copy_elements_only : ∀ d i info t tc k fuel j, info_by_index d i = (DDS_RETCODE_OK, info) →
    type_by_id d (mi_id info) = (DDS_RETCODE_OK, t) → resolved fuel t DDS_TK_NULL = Some (tc, k) →
    is_collection (get_type_kind (complex_member d (mi_id info) tc)) →
    member_exists (complex_member d (mi_id info) tc) j = true → 1 <= j <= mi_element_count info;
  count_u32 : ∀ d i, is_u32 (mi_element_count (info_by_index d i).2);
  string_no_nul : ∀ d id s, string_value d id = Some s → c_str s = s;
  cleared_same : ∀ d d', reads_same d d' → cleared d → cleared d';
  cleared_absent : ∀ d d' id, cleared d → get_type d = get_type d' → member_exists d' id = false →
    member_exists d id = false;
  cleared_empty : ∀ d d' i info t tc k fuel, cleared d → get_type d = get_type d' →
    ¬ is_collection (get_type_kind d') → info_by_index d' i = (DDS_RETCODE_OK, info) → type_by_id d' (mi_id info) = (DDS_RETCODE_OK, t) →
    resolved fuel t DDS_TK_NULL = Some (tc, k) → is_collection k → mi_element_count info = 0 →
    member_same (mi_id info) d d';
  cleared_complex : ∀ d id t tc k fuel, cleared d → type_by_id d id = (DDS_RETCODE_OK, t) →
    resolved fuel t DDS_TK_NULL = Some (tc, k) → cleared (complex_member d id tc);
  write_scalar : ∀ d d0 id t tc k g a fuel v, get_type d0 = get_type d → reachable d0 id →
    type_by_id d id = (DDS_RETCODE_OK, t) → resolved fuel t DDS_TK_NULL = Some (tc, k) →
    scalar_case k = Some (g, a) → get_scalar g d id = (DDS_RETCODE_OK, v) →
    ∃ d1, set_scalar g d0 id v = (DDS_RETCODE_OK, d1) ∧ writes id d d0 d1;
  write_string : ∀ d d0 id s, get_type d0 = get_type d → reachable d0 id → string_value d id = Some s →
    ∃ d1, set_string d0 id s = (DDS_RETCODE_OK, d1) ∧ writes id d d0 d1;
  write_octets : ∀ d d0 i info b, get_type d0 = get_type d → reachable d0 (mi_id info) →
    info_by_index d i = (DDS_RETCODE_OK, info) →
    get_octets d (mi_id info) (mi_element_count info) = (DDS_RETCODE_OK, b) →
    ∃ d1, set_byte_array OctetSeq d0 (mi_id info) (mi_element_count info) b = (DDS_RETCODE_OK, d1)
      ∧ writes (mi_id info) d d0 d1;
  write_complex : ∀ d d0 id tc dm, get_type d0 = get_type d → reachable d0 id → can_bind d0 id tc = true →
    member_exists d id = true → reads_same dm (complex_member d id tc) →
    writes id d d0 (set_complex_member d0 id dm)
}.
End samples.
Arguments SampleLaws D TC {TT DS DM DO SW CP MB}.

(** ** Types and fields *)
Section schema.
Context {D TC MSG FD : Type} {TT : TypeCodes TC} {DS : DynScalars D} {DM : DynMembers D TC} {DO : DynObjects D TC}
  {RF : Reflection MSG FD}.
Context (alias_fuel : nat).

(** A field of messages. *)
Definition is_message (fd : FD) : Prop := type fd = TYPE_MESSAGE ∨ type fd = TYPE_GROUP.

(** A field that can hold a value, or the elements that are values, of a type. *)
Definition fits_one (tc : TC) (kind : DDS_TCKind) (fd : FD) : Prop :=
  (is_map fd = true → type fd = TYPE_MESSAGE) ∧
  match kind with
  | DDS_TK_STRUCT | DDS_TK_VALUE => is_message fd
  | DDS_TK_STRING => type fd = TYPE_STRING
  | DDS_TK_SEQUENCE =>
      type fd = TYPE_BYTES
      ∧ ∃ el t, TypeCode_content_type tc = Some el ∧ resolved alias_fuel el DDS_TK_NULL = Some (t, DDS_TK_OCTET)
  | k =>
      ∃ g a, scalar_case k = Some (g, a) ∧ accessor_of (type fd) = Some a
        ∧ (type fd = TYPE_ENUM → ∀ m o, enum_known m fd o = true)
  end.

(** Whether a member is converted element by element. *)
Definition by_elements (info : member_info) (kind : DDS_TCKind) (fd : FD) : bool :=
  bool_decide (kind = DDS_TK_ARRAY ∨ kind = DDS_TK_SEQUENCE)
  && negb (bool_decide (type fd = TYPE_BYTES) && bool_decide (mi_element_kind info = DDS_TK_OCTET)).

Definition fits_member (info : member_info) (tc : TC) (kind : DDS_TCKind) (fd : FD) : Prop :=
  is_repeated fd || is_map fd = by_elements info kind fd
  ∧ if by_elements info kind fd
    then ∀ el t k, TypeCode_content_type tc = Some el → resolved alias_fuel el DDS_TK_NULL = Some (t, k) → fits_one t k fd
    else fits_one tc kind fd.

(** Messages of a type that was made for a type of DDS: the field of the name
    of a member fits it, and nested messages are made for nested types. *)
Class Schema := {
  speaks : TC → MSG → Prop;
  speaks_same : ∀ tc m m', schema_same m m' → speaks tc m → speaks tc m';
  speaks_fits : ∀ tp m d i info t tc kind fd, speaks tp m → get_type d = Some tp →
    info_by_index d i = (DDS_RETCODE_OK, info) → type_by_id d (mi_id info) = (DDS_RETCODE_OK, t) →
    resolved alias_fuel t DDS_TK_NULL = Some (tc, kind) → FindFieldByName m (mi_name info) = Some fd →
    fits_member info tc kind fd
    ∧ (by_elements info kind fd = false → is_message fd → ∀ sub, MutableMessage m fd = Some sub → speaks tc sub)
    ∧ (is_message fd → ∀ el t' k sub, TypeCode_content_type tc = Some el → resolved alias_fuel el DDS_TK_NULL = Some (t', k) →
         AddMessage m fd = Some sub → speaks t' sub)
}.
End schema.
Arguments Schema D TC MSG FD {TT DM DO RF} alias_fuel.

(** ** Members one after the other *)
Section members.
Context {D TC MSG FD : Type} {TT : TypeCodes TC} {DS : DynScalars D} {DM : DynMembers D TC} {DO : DynObjects D TC}
  {RF : Reflection MSG FD} {BD : Bindings D TC} {SW : StringLaw (DO := DO)} {CP : Copies D TC} {MB : Members D}
  {CL : CopyLaws D TC} {SL : SampleLaws D TC}.
Context (alias_fuel : nat).
Implicit Types d dc : D.

Lemma each_snoc {X M} (f : X → M → bool * M) xs x m :
  each f (xs ++ [x]) m = if (each f xs m).1 then f x (each f xs m).2 else each f xs m.
Proof.
  revert m. induction xs as [|y xs IH]; intros m; cbn.
  - by destruct (f x m) as [[] m'].
  - destruct (f y m) as [[] m']; cbn; [apply IH | done].
Qed.

Lemma each_fmap {X Y M} (f : X → M → bool * M) (g : Y → X) ys m : each f (g <$> ys) m = each (λ y, f (g y)) ys m.
Proof. revert m. induction ys as [|y ys IH]; intros m; cbn; [done|]. destruct (f (g y) m) as [[] m']; cbn; [apply IH | done]. Qed.

(** A step that writes the member [id] of [d] into any object in which the
    member is as in a new one. *)
Definition restores (f : D → bool * D) d (id : Z) : Prop :=
  ∀ d0 dc, get_type d0 = get_type d → cleared dc → get_type dc = get_type d0 → member_same id d0 dc → reachable d0 id →
    ∃ d1, f d0 = (true, d1) ∧ writes id d d0 d1.

Lemma restores_ext f f' d id : (∀ d0, f d0 = f' d0) → restores f d id → restores f' d id.
Proof. intros Hf Hr d0 dc ?????. rewrite <- Hf. by eapply Hr. Qed.

(** Such steps, one for each of several members. *)
Lemma restores_all {X} (f : X → D → bool * D) (idf : X → Z) d dc d0 xs :
  get_type dc = get_type d → cleared dc → get_type d0 = get_type d →
  Forall (λ x, restores (f x) d (idf x)) xs → NoDup (idf <$> xs) →
  (∀ x, x ∈ xs → member_same (idf x) d0 dc) →
  (∀ xs1 x xs2 d1, xs = xs1 ++ x :: xs2 → get_type d1 = get_type d →
     (∀ y, y ∈ xs1 → member_same (idf y) d1 d) → reachable d1 (idf x)) →
  ∃ d1, each f xs d0 = (true, d1) ∧ get_type d1 = get_type d
    ∧ (∀ x, x ∈ xs → member_same (idf x) d1 d)
    ∧ (∀ id, id ∉ idf <$> xs → member_same id d1 d0).
Proof.
  intros Htc Hc Ht0. induction xs as [|x xs IH] using rev_ind; intros Hf Hnd Hsame Hreach.
  { exists d0. split; [done|]. split; [done|]. split; [by intros x ?%elem_of_nil | done]. }
  apply Forall_app in Hf as [Hf [Hx _]%Forall_cons]. rewrite fmap_app in Hnd.
  apply NoDup_app in Hnd as (Hnd & Hnew & _). 
  assert (idf x ∉ idf <$> xs) as Hnot.
  { intros Hin. apply (Hnew _ Hin). by apply list_elem_of_singleton. }
  destruct IH as (d1 & Hrun & Ht1 & Hdone & Hrest); [done | done | | |].
  { intros y Hy. apply Hsame, elem_of_app. by left. }
  { intros xs1 y xs2 d1 -> Ht1 Hy. apply (Hreach xs1 y (xs2 ++ [x])); [by rewrite <- app_assoc | done | done]. }
  destruct (Hx d1 dc) as (d2 & Hstep & Hw); [done | done | congruence | | |].
  { etrans; [by apply Hrest|]. apply Hsame, elem_of_app. right. by apply list_elem_of_singleton. }
  { by apply (Hreach xs x []). }
  exists d2. rewrite each_snoc, Hrun. cbn. split; [done|]. split; [by rewrite (writes_type _ _ _ _ Hw)|]. split.
  - intros y [Hy|Hy%list_elem_of_singleton]%elem_of_app; [|subst y; by apply writes_member in Hw].
    etrans; [|by apply Hdone]. apply (writes_frame _ _ _ _ Hw). intros Heq. apply Hnot. rewrite <- Heq.
    by apply list_elem_of_fmap_2.
  - intros id Hid. rewrite fmap_app, not_elem_of_app in Hid. destruct Hid as [Hid Hne].
    etrans; [|by apply Hrest]. apply (writes_frame _ _ _ _ Hw). intros ->. apply Hne. by apply list_elem_of_singleton.
Qed.
End members.


(** ** Values *)
Section values.
Context {D TC MSG FD : Type} {TT : TypeCodes TC} {DS : DynScalars D} {DM : DynMembers D TC} {DO : DynObjects D TC}
  {RF : Reflection MSG FD} {BD : Bindings D TC} {SW : StringLaw (DO := DO)} {CP : Copies D TC} {MB : Members D}
  {CL : CopyLaws D TC} {SL : SampleLaws D TC} {NL : NumberLaws (DS := DS) (RF := RF)} {ML : MessageLaws MSG FD}.
Context (alias_fuel : nat).
Context {SC : Schema D TC MSG FD alias_fuel}.
Implicit Types d dc : D.

Lemma ref_plain_number ft a get known str d id tc kind r :
  accessor_of ft = Some a → (ft = TYPE_ENUM → known = true) → number_to_dds ft get true d id kind = Some r →
  ref_plain alias_fuel ft get known str d id tc kind = r.
Proof.
  intros Ha Hk Hr. unfold ref_plain. destruct ft; cbn in *; try done; try (rewrite Hk by done); by simplify_eq/=.
Qed.

Lemma number_restores d id t tc kind g a v ft get known str :
  type_by_id d id = (DDS_RETCODE_OK, t) → resolved alias_fuel t DDS_TK_NULL = Some (tc, kind) →
  scalar_case kind = Some (g, a) → get_scalar g d id = (DDS_RETCODE_OK, v) →
  accessor_of ft = Some a → get a = v → (ft = TYPE_ENUM → known = true) →
  restores (λ d0, ref_plain alias_fuel ft get known str d0 id tc kind) d id.
Proof.
  intros Ht Hres Hk Hv Ha Hget Hknown d0 dc Ht0 _ _ _ Hreach.
  destruct (write_scalar d d0 id t tc kind g a alias_fuel v) as (d1 & Hset & Hw); [done..|].
  exists d1. split; [|done]. eapply ref_plain_number; [done..|].
  rewrite (number_back kind g a ft get d0 id v); [|done | done | by eapply scalar_range | done].
  unfold ok_of. by rewrite Hset.
Qed.

Lemma string_restores d id s get known tc kind :
  string_value d id = Some s → restores (λ d0, ref_plain alias_fuel TYPE_STRING get known s d0 id tc kind) d id.
Proof.
  intros Hs d0 dc Ht0 _ _ _ Hreach. destruct (write_string d d0 id s) as (d1 & Hset & Hw); [done..|].
  exists d1. split; [|done]. cbn. rewrite (string_no_nul _ _ _ Hs). unfold ok_of. by rewrite Hset.
Qed.

Lemma octets_restores d i info b get known tc kind el t :
  info_by_index d i = (DDS_RETCODE_OK, info) →
  octets_value d (mi_id info) (mi_element_count info) = Some b →
  TypeCode_content_type tc = Some el → resolved alias_fuel el DDS_TK_NULL = Some (t, DDS_TK_OCTET) →
  restores (λ d0, ref_plain alias_fuel TYPE_BYTES get known b d0 (mi_id info) tc kind) d (mi_id info).
Proof.
  intros Hi Hb Hel Hres d0 dc Ht0 _ _ _ Hreach. unfold octets_value in Hb.
  destruct (get_octets d (mi_id info) (mi_element_count info)) as [rc b'] eqn:Hget. cbn in Hb.
  destruct (Z.eqb_spec rc DDS_RETCODE_OK) as [->|]; [|done]. injection Hb as ->.
  destruct (write_octets d d0 i info b) as (d1 & Hset & Hw); [done..|]. exists d1. split; [|done].
  pose proof (octets_all d (mi_id info) (mi_element_count info)) as Hlen. rewrite Hget in Hlen. cbn in Hlen.
  pose proof (count_u32 d i) as Hc. pose proof (element_count_nonneg d i) as Hc'. rewrite Hi in Hc, Hc'. cbn in Hc, Hc'.
  unfold ref_plain, set_fuzzy_bytes, resolved in *. rewrite Hel.
  destruct (resolve_type_code alias_fuel el DDS_TK_NULL) as [[[[] t'] k]|]; try done. injection Hres as -> ->. cbn.
  assert (u32 (Z.of_nat (length b)) = mi_element_count info) as ->.
  { rewrite (Hlen eq_refl), Z2Nat.id by lia. unfold u32, is_u32 in *. rewrite Z.mod_small by lia. done. }
  unfold ok_of. by rewrite Hset.
Qed.

Section nested.
Context (ref : MSG → D → bool * MSG) (back : D → MSG → bool * D).
Hypothesis back_ref : ∀ t m m' d d0,
  ListFields m = [] → speaks alias_fuel t m → get_type d = Some t → get_type d0 = Some t → cleared d0 →
  ref m d = (true, m') → ∃ d', back d0 m' = (true, d') ∧ reads_same d' d.

Lemma nested_restores d id t tc k sub sub' :
  type_by_id d id = (DDS_RETCODE_OK, t) → resolved alias_fuel t DDS_TK_NULL = Some (tc, k) → ListFields sub = [] → speaks alias_fuel tc sub → can_bind d id tc = true → member_exists d id = true →
  ref sub (complex_member d id tc) = (true, sub') →
  restores (λ d0, ref_nested d0 id tc (λ dm, back dm sub')) d id.
Proof.
  intros Ht Hres Hnew Hsp Hbind Hex Href d0 dc Ht0 Hc Htc Hsame Hreach. unfold ref_nested.
  assert (can_bind d0 id tc = true) as Hbind0 by by apply (bind_type d).
  destruct (back_ref tc sub sub' (complex_member d id tc) (complex_member d0 id tc)) as (dm & Hback & Hdm);
    [done | done | apply copy_type | apply copy_type | | done |].
  { eapply (cleared_same (complex_member dc _ tc)); [symmetry; by apply member_complex_same|].
    eapply cleared_complex; [done | | done]. rewrite <- Ht. apply type_of_member. congruence. }
  rewrite Hbind0, Hback. cbn. eexists. split; [done|]. by eapply write_complex.
Qed.
End nested.
End values.


(** ** Members *)
Section converted.
Context {D TC MSG FD : Type} {TT : TypeCodes TC} {DS : DynScalars D} {DM : DynMembers D TC} {DO : DynObjects D TC}
  {RF : Reflection MSG FD} {BD : Bindings D TC} {SW : StringLaw (DO := DO)} {CP : Copies D TC} {MB : Members D}
  {CL : CopyLaws D TC} {SL : SampleLaws D TC} {NL : NumberLaws (DS := DS) (RF := RF)} {ML : MessageLaws MSG FD}.
Context (alias_fuel : nat).
Context {SC : Schema D TC MSG FD alias_fuel}.
Implicit Types d dc : D.

Lemma ref_plain_ext ft get get' known known' str d id tc kind :
  (∀ a, accessor_of ft = Some a → get a = get' a) → (ft = TYPE_ENUM → known = known') →
  ref_plain alias_fuel ft get known str d id tc kind = ref_plain alias_fuel ft get' known' str d id tc kind.
Proof.
  intros Hget Hknown. unfold ref_plain. destruct ft; cbn in *; try done; try (by rewrite Hget).
  by rewrite Hknown, Hget.
Qed.

(** A field that is no message. *)
Definition plain_type (ft : field_type) : bool :=
  match ft with TYPE_GROUP | TYPE_MESSAGE => false | _ => true end.

Lemma accessor_plain ft a : accessor_of ft = Some a → plain_type ft = true.
Proof. by destruct ft. Qed.

Section back.
Context (ref : MSG → D → bool * MSG) (back : D → MSG → bool * D).
Hypothesis back_ref : ∀ t m m' d d0,
  ListFields m = [] → speaks alias_fuel t m → get_type d = Some t → get_type d0 = Some t → cleared d0 →
  ref m d = (true, m') → ∃ d', back d0 m' = (true, d') ∧ reads_same d' d.

Lemma singular_field_plain d info tc kind m fd :
  HasField m fd = true → plain_type (type fd) = true →
  ref_singular_field alias_fuel back d info tc kind m fd
  = ref_plain alias_fuel (type fd) (λ a, get_number a m fd) (enum_known m fd None) (GetString m fd) d (mi_id info) tc kind.
Proof. intros Hhas Hp. unfold ref_singular_field. rewrite Hhas. cbn. by destruct (type fd). Qed.

Lemma singular_field_message d info tc kind m fd :
  HasField m fd = true → is_message fd →
  ref_singular_field alias_fuel back d info tc kind m fd
  = ref_nested d (mi_id info) tc (λ dm, back dm (GetMessage m fd)).
Proof. intros Hhas Ht. unfold ref_singular_field. rewrite Hhas. cbn. by destruct Ht as [-> | ->]. Qed.

(** What a kind of numbers means on both sides. *)
Lemma fits_number tc kind fd g a :
  scalar_case kind = Some (g, a) → fits_one alias_fuel tc kind fd →
  accessor_of (type fd) = Some a ∧ (type fd = TYPE_ENUM → ∀ m o, enum_known m fd o = true).
Proof. intros Hk [_ Hf]. destruct kind; try done; destruct Hf as (g' & a' & Hk' & ? & ?); by simplify_eq. Qed.

(** A nested message of the field. *)
Lemma message_restores d id t tc k info' kind m m' fd :
  mi_id info' = id → member_exists d id = true →
  type_by_id d id = (DDS_RETCODE_OK, t) → resolved alias_fuel t DDS_TK_NULL = Some (tc, k) →
  owned m fd → fd ∉ ListFields m →
  is_message fd → (∀ sub, MutableMessage m fd = Some sub → speaks alias_fuel tc sub) →
  ref_struct ref d id tc (MutableMessage m fd) (put_mutable m fd) m = (true, m') →
  mutation m fd m' ∧ restores (λ d0, ref_singular_field alias_fuel back d0 info' tc kind m' fd) d id.
Proof.
  intros <- Hex Ht Hres Hown Hnew Htype Hsub Href. unfold ref_struct in Href.
  destruct (can_bind d (mi_id info') tc) eqn:Hbind; [|done]. destruct (MutableMessage m fd) as [sub|] eqn:Hm; [|done].
  destruct (ref sub (complex_member d (mi_id info') tc)) as [ok sub'] eqn:Hsubref. cbn in Href. injection Href as -> <-.
  split; [constructor|]. eapply restores_ext; [|eapply (nested_restores alias_fuel ref back back_ref)].
  - intros d0. rewrite singular_field_message, get_put_mutable; [done | apply message_has | done].
  - done.
  - done.
  - by eapply mutable_new.
  - by apply Hsub.
  - done.
  - done.
  - done.
Qed.

Lemma singular_restores d i info info' t tc kind m m' fd :
  info_by_index d i = (DDS_RETCODE_OK, info) → mi_id info' = mi_id info → member_exists d (mi_id info) = true →
  type_by_id d (mi_id info) = (DDS_RETCODE_OK, t) → resolved alias_fuel t DDS_TK_NULL = Some (tc, kind) →
  fits_one alias_fuel tc kind fd → owned m fd → fd ∉ ListFields m → (is_message fd → ∀ sub, MutableMessage m fd = Some sub → speaks alias_fuel tc sub) →
  ref_singular ref d info tc kind m fd = (true, m') →
  mutation m fd m' ∧ restores (λ d0, ref_singular_field alias_fuel back d0 info' tc kind m' fd) d (mi_id info).
Proof.
  intros Hi Hid Hex Ht Hres Hfit Hown Hnew Hsub Href.
  destruct (scalar_case kind) as [[g a]|] eqn:Hk.
  - destruct (fits_number _ _ _ _ _ Hk Hfit) as [Ha Henum].
    assert (singular_scalar_to_pb g a d (mi_id info) m fd = (true, m')) as Hset.
    { unfold ref_singular in Href. rewrite Hk in Href. by destruct kind. }
    unfold singular_scalar_to_pb in Hset. destruct (get_scalar g d (mi_id info)) as [rc v] eqn:Hv. cbn in Hset.
    destruct (Z.eqb_spec rc DDS_RETCODE_OK) as [->|]; [|done]. injection Hset as <-. split; [constructor|].
    eapply restores_ext; [|eapply number_restores with (get := λ a', get_number a' (set_number a m fd v) fd)
      (known := true) (str := GetString (set_number a m fd v) fd); [done..| by apply get_set | done]].
    intros d0. rewrite singular_field_plain, Hid; [|apply set_has | by eapply accessor_plain].
    apply ref_plain_ext; [done | intros; symmetry; by apply Henum].
  - destruct kind; try done; destruct Hfit as [_ Hfit].
    + eapply message_restores; try done. by apply Hsub.
    + cbn in Href. destruct (string_value d (mi_id info)) as [s|] eqn:Hs; [|done]. injection Href as <-.
      split; [constructor|]. eapply restores_ext; [|by eapply string_restores].
      intros d0. rewrite singular_field_plain, Hfit, get_set_string, Hid; [done | apply string_has | by rewrite Hfit].
    + cbn in Href. destruct (octets_value d (mi_id info) (mi_element_count info)) as [b|] eqn:Hb; [|done].
      injection Href as <-. destruct Hfit as (Hfit & el & t' & Hel & Hoct).
      split; [constructor|]. eapply restores_ext; [|by eapply octets_restores].
      intros d0. rewrite singular_field_plain, Hfit, get_set_string, Hid; [done | apply string_has | by rewrite Hfit].
    + eapply message_restores; try done. by apply Hsub.
Qed.

(** *** Elements *)

(** Elements that are added one after the other. *)
Lemma additions (f : nat → MSG → bool * MSG) (g : MSG → nat → D → bool * D) dm fd n m m' :
  (∀ j m1 m2, (j < n)%nat → FieldSize m1 fd = j → schema_same m m1 → f j m1 = (true, m2) →
     addition m1 fd m2 ∧ restores (g m2 j) dm (Z.of_nat j + 1)) →
  (∀ j m1 m2, element_same fd j m1 m2 → ∀ d0, g m1 j d0 = g m2 j d0) →
  FieldSize m fd = 0%nat → each f (seq 0 n) m = (true, m') →
  FieldSize m' fd = n ∧ schema_same m m' ∧ (n = 0%nat ∨ mutations fd m m')
  ∧ ∀ j, (j < n)%nat → restores (g m' j) dm (Z.of_nat j + 1).
Proof.
  intros Hf Hg Hsize. revert m'. induction n as [|n IH]; intros m'.
  { intros [= <-]. split; [done|]. split; [by split|]. split; [by left | lia]. }
  rewrite seq_S, each_snoc. destruct (each f (seq 0 n) m) as [[] m1] eqn:Heach; [|done]. cbn [fst snd]. intros Hlast.
  destruct (IH ltac:(intros; apply Hf; [lia | done..]) m1 eq_refl) as (Hsize1 & Hsch & Hmut & Hdone).
  destruct (Hf n m1 m' ltac:(lia) Hsize1 Hsch Hlast) as [Hadd Hnew].
  pose proof (mutation_schema _ _ _ (mutation_add _ _ _ Hadd)) as Hsch'.
  split; [by rewrite (addition_size _ _ _ Hadd), Hsize1|]. split; [|split].
  - by eapply schema_same_trans.
  - right. destruct Hmut as [->|Hmut]; [|eapply tc_r; [done | by constructor]].
    injection Heach as <-. apply tc_once. by constructor.
  - intros j Hj. destruct (decide (j = n)) as [->|]; [done|].
    eapply restores_ext; [|apply Hdone; lia]. apply Hg. apply (addition_before _ _ _ _ Hadd). lia.
Qed.

Lemma ref_element_plain tc kind m fd j d :
  (is_map fd = true → type fd = TYPE_MESSAGE) → plain_type (type fd) = true →
  ref_element alias_fuel back tc kind m fd j d
  = ref_plain alias_fuel (type fd) (λ a, get_repeated_number a m fd j) (enum_known m fd (Some j))
      (GetRepeatedString m fd j) d (Z.of_nat j + 1) tc kind.
Proof.
  intros Hmap Hp. unfold ref_element. destruct (is_map fd); [by rewrite Hmap in Hp|]. by destruct (type fd).
Qed.

Lemma ref_element_message tc kind m fd j d :
  is_message fd →
  ref_element alias_fuel back tc kind m fd j d
  = ref_nested d (Z.of_nat j + 1) tc (λ de, back de (GetRepeatedMessage m fd j)).
Proof. intros Ht. unfold ref_element. destruct Ht as [-> | ->]; by destruct (is_map fd). Qed.

Lemma ref_element_same tc kind fd j m m' d :
  fits_one alias_fuel tc kind fd → element_same fd j m m' →
  ref_element alias_fuel back tc kind m fd j d = ref_element alias_fuel back tc kind m' fd j d.
Proof.
  intros Hfits [Hnum Hstr Hmsg]. pose proof Hfits as [Hmap Hfit]. destruct (plain_type (type fd)) eqn:Hp.
  - rewrite !ref_element_plain, Hstr by done. apply ref_plain_ext; [done|]. intros Henum.
    destruct (scalar_case kind) as [[g a]|] eqn:Hk.
    + by rewrite !(proj2 (fits_number _ _ _ _ _ Hk Hfits) Henum).
    + unfold is_message in Hfit. rewrite Henum in Hfit. destruct kind; naive_solver.
  - assert (is_message fd) as Ht by (unfold is_message; destruct (type fd); try done; auto).
    by rewrite !ref_element_message, Hmsg.
Qed.

(** A nested message that is added. *)
Lemma added_restores d id t tc k kind j m m' fd :
  id = Z.of_nat j + 1 → member_exists d id = true →
  type_by_id d id = (DDS_RETCODE_OK, t) → resolved alias_fuel t DDS_TK_NULL = Some (tc, k) → FieldSize m fd = j → is_message fd →
  (∀ sub, AddMessage m fd = Some sub → speaks alias_fuel tc sub) →
  ref_struct ref d id tc (AddMessage m fd) (put_added m fd) m = (true, m') →
  addition m fd m' ∧ restores (ref_element alias_fuel back tc kind m' fd j) d id.
Proof.
  intros -> Hex Ht Hres Hsize Htype Hsub Href. unfold ref_struct in Href.
  destruct (can_bind d (Z.of_nat j + 1) tc) eqn:Hbind; [|done]. destruct (AddMessage m fd) as [sub|] eqn:Hm; [|done].
  destruct (ref sub (complex_member d (Z.of_nat j + 1) tc)) as [ok sub'] eqn:Hsubref. cbn in Href. injection Href as -> <-.
  split; [constructor|]. eapply restores_ext; [|eapply (nested_restores alias_fuel ref back back_ref)].
  - intros d0. by rewrite ref_element_message, <- Hsize, get_put_added.
  - done.
  - done.
  - by eapply added_new.
  - by apply Hsub.
  - done.
  - done.
  - done.
Qed.

Section elements.
Context (d dm : D) (i : nat) (info : member_info) (t tc el el0 : TC) (kind0 kind : DDS_TCKind) (fd : FD).
Hypothesis index : info_by_index d i = (DDS_RETCODE_OK, info).
Hypothesis member_type : type_by_id d (mi_id info) = (DDS_RETCODE_OK, t).
Hypothesis member_resolves : resolved alias_fuel t DDS_TK_NULL = Some (tc, kind0).
Hypothesis copy : dm = complex_member d (mi_id info) tc.
Hypothesis collection : is_collection (get_type_kind dm).
Hypothesis content : TypeCode_content_type tc = Some el0.
Hypothesis resolves : resolved alias_fuel el0 DDS_TK_NULL = Some (el, kind).
Hypothesis fits : fits_one alias_fuel el kind fd.

Lemma element_exists j : (Z.of_nat j < mi_element_count info) → member_exists dm (Z.of_nat j + 1) = true.
Proof. intros Hj. rewrite copy. eapply copy_elements; [exact index | exact member_type | exact member_resolves | lia]. Qed.

(** The step that adds an element, by the kind of the elements. *)
Definition element_step (j : nat) (m : MSG) : bool * MSG :=
  match kind with
  | DDS_TK_STRUCT | DDS_TK_VALUE =>
      ref_struct ref dm (Z.of_nat j + 1) el (AddMessage m fd) (put_added m fd) m
  | DDS_TK_STRING => put_value (string_value dm (Z.of_nat j + 1)) (AddString m fd) m
  | DDS_TK_SEQUENCE =>
      let info := info_by_index dm j in
      if info.1 =? DDS_RETCODE_OK
      then put_value (octets_value dm (Z.of_nat j + 1) (mi_element_count info.2)) (AddString m fd) m
      else (false, m)
  | k =>
      match scalar_case k with
      | Some (g, a) =>
          let r := get_scalar g dm (Z.of_nat j + 1) in
          if r.1 =? DDS_RETCODE_OK then (true, add_number a m fd r.2) else (false, m)
      | None => (false, m)
      end
  end.

Lemma ref_elements_steps count m m' :
  ref_elements ref dm count el kind m fd = (true, m') →
  each element_step (seq 0 (Z.to_nat count)) m = (true, m').
Proof.
  clear index member_type member_resolves copy collection content resolves fits. unfold ref_elements, element_step, element_ids. intros H.
  destruct kind; cbn [scalar_case] in *; rewrite ?each_fmap in H; done.
Qed.

Lemma element_restores j m m' :
  (Z.of_nat j < mi_element_count info) → FieldSize m fd = j →
  (is_message fd → ∀ sub, AddMessage m fd = Some sub → speaks alias_fuel el sub) →
  element_step j m = (true, m') →
  addition m fd m' ∧ restores (ref_element alias_fuel back el kind m' fd j) dm (Z.of_nat j + 1).
Proof.
  intros Hj Hsize Hsub Hstep. pose proof (element_exists j Hj) as Hex.
  assert (type_by_id dm (Z.of_nat j + 1) = (DDS_RETCODE_OK, el0)) as Htype.
  { eapply element_type; [rewrite copy; apply copy_type | done..]. }
  destruct (scalar_case kind) as [[g a]|] eqn:Hk.
  - destruct (fits_number _ _ _ _ _ Hk fits) as [Ha Henum].
    assert ((let r := get_scalar g dm (Z.of_nat j + 1) in
             if r.1 =? DDS_RETCODE_OK then (true, add_number a m fd r.2) else (false, m)) = (true, m')) as Hset.
    { unfold element_step in Hstep. rewrite Hk in Hstep. by destruct kind. }
    destruct (get_scalar g dm (Z.of_nat j + 1)) as [rc v] eqn:Hv. cbn in Hset.
    destruct (Z.eqb_spec rc DDS_RETCODE_OK) as [->|]; [|done]. injection Hset as <-. split; [constructor|].
    eapply restores_ext; [|eapply number_restores with (get := λ a', get_repeated_number a' (add_number a m fd v) fd j)
      (known := true) (str := GetRepeatedString (add_number a m fd v) fd j);
      [done..| rewrite <- Hsize; by apply get_added | done]].
    intros d0. rewrite ref_element_plain; [|apply fits | by eapply accessor_plain].
    apply ref_plain_ext; [done | intros; symmetry; by apply Henum].
  - unfold element_step in Hstep. pose proof fits as [Hmap Hfit]. destruct kind; try done.
    + eapply added_restores; try done. by apply Hsub.
    + destruct (string_value dm _) as [s|] eqn:Hs; [|done]. injection Hstep as <-. split; [constructor|].
      eapply restores_ext; [|by eapply string_restores]. intros d0.
      rewrite ref_element_plain, Hfit, <- Hsize, get_add_string; [done | done | by rewrite Hfit].
    + destruct (info_by_index dm j) as [rc info'] eqn:Hi. cbn [fst snd] in Hstep.
      destruct (Z.eqb_spec rc DDS_RETCODE_OK) as [->|]; [|done].
      pose proof (element_index _ _ _ collection Hi) as Hid. rewrite <- Hid in Hstep |- *.
      destruct (octets_value dm _ _) as [b|] eqn:Hb; [|done]. injection Hstep as <-.
      destruct Hfit as (Hfit & el' & t' & Hel' & Hoct). split; [constructor|].
      eapply restores_ext; [|by eapply octets_restores]. intros d0.
      rewrite ref_element_plain, Hfit, <- Hid, <- Hsize, get_add_string; [done | done | by rewrite Hfit].
    + eapply added_restores; try done. by apply Hsub.
Qed.
End elements.


(** *** Collections *)

(** The elements of a collection, written into one that is as new. *)
Lemma elements_restored d i info t tc k dm dm0 (f : nat → D → bool * D) :
  info_by_index d i = (DDS_RETCODE_OK, info) →
  type_by_id d (mi_id info) = (DDS_RETCODE_OK, t) → resolved alias_fuel t DDS_TK_NULL = Some (tc, k) → dm = complex_member d (mi_id info) tc →
  is_collection (get_type_kind dm) → get_type dm0 = Some tc → cleared dm0 →
  (∀ j, (j < Z.to_nat (mi_element_count info))%nat → restores (f j) dm (Z.of_nat j + 1)) →
  ∃ dm1, each f (seq 0 (Z.to_nat (mi_element_count info))) dm0 = (true, dm1) ∧ reads_same dm1 dm.
Proof.
  intros Hi Htype Hres Hdm Hcol Ht0 Hc0 Hf. assert (get_type dm = Some tc) as Ht by (rewrite Hdm; apply copy_type).
  destruct (restores_all f (λ j, Z.of_nat j + 1) dm dm0 dm0 (seq 0 (Z.to_nat (mi_element_count info))))
    as (dm1 & Hrun & Ht1 & Hdone & Hrest).
  - congruence.
  - done.
  - congruence.
  - apply Forall_seq. intros j Hj. apply Hf. lia.
  - apply NoDup_fmap_2; [intros x y; lia | apply NoDup_seq].
  - done.
  - intros xs1 j xs2 d1 [-> Hj]%seq_prefix Ht1 Hbefore _ k0 Hk.
    assert (Z.to_nat (k0 - 1) ∈ seq 0 j) as Hin by (apply elem_of_seq; lia).
    specialize (Hbefore _ Hin). replace (Z.of_nat (Z.to_nat (k0 - 1)) + 1) with k0 in Hbefore by lia.
    rewrite (member_exists_same _ _ _ Hbefore), Hdm. eapply copy_elements; [exact Hi | exact Htype | exact Hres | lia].
  - exists dm1. split; [done|]. apply members_same; [done|]. intros id.
    destruct (decide (id ∈ (λ j, Z.of_nat j + 1) <$> seq 0 (Z.to_nat (mi_element_count info)))) as [Hin|Hout].
    + apply list_elem_of_fmap in Hin as (j & -> & Hj). by apply Hdone.
    + assert (member_exists dm id = false) as Habs.
      { apply not_true_is_false. intros Hex. rewrite Hdm in Hex, Hcol.
        pose proof (copy_elements_only d i info t tc k alias_fuel id Hi Htype Hres Hcol Hex) as Hr.
        apply Hout, list_elem_of_fmap. exists (Z.to_nat (id - 1)). split; [lia|]. apply elem_of_seq. lia. }
      etrans; [by apply Hrest|]. apply member_absent; [congruence | | done].
      eapply cleared_absent; [done | | done]. congruence.
Qed.

Lemma collection_restores d i info info' t tc kind m m' fd :
  info_by_index d i = (DDS_RETCODE_OK, info) → mi_id info' = mi_id info → member_exists d (mi_id info) = true →
  type_by_id d (mi_id info) = (DDS_RETCODE_OK, t) → resolved alias_fuel t DDS_TK_NULL = Some (tc, kind) →
  is_collection kind → mi_element_count info ≠ 0 → owned m fd → fd ∉ ListFields m →
  (∀ el t k, TypeCode_content_type tc = Some el → resolved alias_fuel el DDS_TK_NULL = Some (t, k) →
     fits_one alias_fuel t k fd) →
  (is_message fd → ∀ el t' k m1 sub, schema_same m m1 → TypeCode_content_type tc = Some el →
     resolved alias_fuel el DDS_TK_NULL = Some (t', k) → AddMessage m1 fd = Some sub → speaks alias_fuel t' sub) →
  ref_collection alias_fuel ref d info tc m fd = (true, m') →
  mutations fd m m' ∧ restores (λ d0, ref_repeated_field alias_fuel back d0 info' tc m' fd) d (mi_id info).
Proof.
  intros Hi Hid Hex Ht Hres Hkind Hcount Hown Hnew Hfit Hsub Href.
  pose proof (element_count_nonneg d i) as Hnn. rewrite Hi in Hnn. cbn in Hnn.
  unfold ref_collection in Href. rewrite (proj2 (Z.eqb_neq _ _) Hcount) in Href.
  destruct (can_bind d (mi_id info) tc) eqn:Hbind; [|done].
  destruct (TypeCode_content_type tc) as [el0|] eqn:Hel; cbn [mbind option_bind] in Href; [|done].
  destruct (resolved alias_fuel el0 DDS_TK_NULL) as [[el k]|] eqn:Hk; [|done].
  assert (is_collection (get_type_kind (complex_member d (mi_id info) tc))) as Hcol.
  { erewrite kind_of_type; [exact Hkind | apply copy_type | by eapply resolved_kind]. }
  apply ref_elements_steps in Href.
  set (dm := complex_member d (mi_id info) tc) in *. set (n := Z.to_nat (mi_element_count info)) in *.
  destruct (additions (element_step dm el k fd) (λ m, ref_element alias_fuel back el k m fd) dm fd n m m')
    as (Hsize & _ & Hmut & Hdone).
  { intros j m1 m2 Hj Hs Hsch Hstep. eapply element_restores; [exact Hi | exact Ht | exact Hres | done | done | done | done | by eapply Hfit | lia | done | | done].
    intros Hmsg sub Hsubm. by eapply Hsub. }
  { intros j m1 m2 Hsame d0. apply ref_element_same; [by eapply Hfit | done]. }
  { by apply unlisted_size. }
  { done. }
  split; [destruct Hmut as [?|?]; [lia | done]|]. intros d0 dc Ht0 Hc Htc Hsame Hreach.
  unfold ref_repeated_field, ref_nested. rewrite Hsize, (proj2 (Nat.eqb_neq n 0)), Hid by lia.
  assert (can_bind d0 (mi_id info) tc = true) as -> by by apply (bind_type d).
  rewrite Hel. cbn [mbind option_bind]. rewrite Hk.
  destruct (elements_restored d i info t tc kind dm (complex_member d0 (mi_id info) tc) (ref_element alias_fuel back el k m' fd))
    as (dm1 & Hrun & Hdm1); [done | done | done | done | done | apply copy_type | | done |].
  { eapply (cleared_same (complex_member dc _ tc)); [symmetry; by apply member_complex_same|].
    eapply cleared_complex; [done | | done]. rewrite <- Ht. apply type_of_member. congruence. }
  fold n in Hrun. rewrite Hrun. cbn. eexists. split; [done|].
  apply (write_complex d d0 (mi_id info) tc); [done | done | by apply (bind_type d) | done | done].
Qed.


(** *** Any member *)

Lemma get_member_info_same d d0 i info t tc kind :
  get_type d = get_type d0 → ¬ is_collection (get_type_kind d) → info_by_index d i = (DDS_RETCODE_OK, info) →
  type_by_id d (mi_id info) = (DDS_RETCODE_OK, t) → resolved alias_fuel t DDS_TK_NULL = Some (tc, kind) →
  ∃ info', get_member_info alias_fuel d0 (mi_name info) = Some (true, Some (info', tc, kind))
    ∧ mi_id info' = mi_id info.
Proof.
  intros Htype Hkind Hi Ht Hres. destruct (member_by_name d d0 i info Htype Hkind Hi) as (info' & Hname & Hid).
  exists info'. split; [|done]. unfold get_member_info. rewrite Hname. cbn.
  rewrite Hid, <- (type_of_member d d0 _ Htype), Ht. cbn. unfold resolved in Hres.
  destruct (resolve_type_code alias_fuel t DDS_TK_NULL) as [[[[] t'] k]|]; try done. by injection Hres as -> ->.
Qed.

Lemma member_case info tc kind d m fd :
  match kind with
  | DDS_TK_ARRAY | DDS_TK_SEQUENCE =>
      if bool_decide (type fd = TYPE_BYTES) && bool_decide (mi_element_kind info = DDS_TK_OCTET)
      then ref_singular ref d info tc kind m fd
      else ref_collection alias_fuel ref d info tc m fd
  | _ => ref_singular ref d info tc kind m fd
  end
  = if by_elements info kind fd then ref_collection alias_fuel ref d info tc m fd
    else ref_singular ref d info tc kind m fd.
Proof.
  unfold by_elements. destruct kind; try (rewrite bool_decide_false by naive_solver; done).
  all: rewrite (bool_decide_true (_ ∨ _)) by auto; cbn [andb]; by destruct (_ && _).
Qed.

Lemma by_elements_collection info kind fd : by_elements info kind fd = true → is_collection kind.
Proof. unfold by_elements. intros [Hk _]%andb_true_iff. apply bool_decide_eq_true in Hk. destruct Hk as [-> | ->]; [by right | by left]. Qed.

Lemma ref_collection_empty d info tc m m' fd :
  mi_element_count info = 0 → ref_collection alias_fuel ref d info tc m fd = (true, m') → m' = m.
Proof. intros Hc. unfold ref_collection. rewrite Hc. cbn. by intros [= ->]. Qed.

(** A member that is converted is left out, and is as in a new object, or goes
    into its field, from which it can be restored. *)
Lemma member_step tp d i m m' :
  speaks alias_fuel tp m → get_type d = Some tp → ¬ is_collection (get_type_kind d) →
  (∀ info fd, info_by_index d i = (DDS_RETCODE_OK, info) → FindFieldByName m (mi_name info) = Some fd →
     fd ∉ ListFields m) →
  ref_member alias_fuel ref d i m = (true, m') →
  ∃ info, info_by_index d i = (DDS_RETCODE_OK, info)
    ∧ ((m' = m ∧ ∀ dc, cleared dc → get_type dc = get_type d → member_same (mi_id info) dc d)
       ∨ ∃ fd, FindFieldByName m (mi_name info) = Some fd ∧ mutations fd m m'
           ∧ restores (ref_field alias_fuel back m' fd) d (mi_id info)).
Proof.
  intros Hsp Htp Hstruct Hnew Href. unfold ref_member in Href.
  destruct (info_by_index d i) as [rc info] eqn:Hi. cbn [fst snd] in Href.
  destruct (Z.eqb_spec rc DDS_RETCODE_OK) as [->|]; [|done]. exists info. split; [done|].
  destruct (member_exists d (mi_id info)) eqn:Hex; cbn [negb] in Href.
  2:{ injection Href as <-. left. split; [done|]. intros dc Hc Ht.
      apply member_absent; [done | by eapply cleared_absent | done]. }
  destruct (type_by_id d (mi_id info)) as [rc t] eqn:Ht. cbn [fst snd] in Href.
  destruct (Z.eqb_spec rc DDS_RETCODE_OK) as [->|]; [|done]. cbn [negb] in Href.
  destruct (resolved alias_fuel t DDS_TK_NULL) as [[tc kind]|] eqn:Hres; [|done].
  destruct (FindFieldByName m (mi_name info)) as [fd|] eqn:Hfd; [|done].
  rewrite member_case in Href. specialize (Hnew info fd eq_refl Hfd).
  assert (owned m fd) as Hown by by eexists.
  destruct (speaks_fits alias_fuel tp m d i info t tc kind fd) as ((Hrep & Hfit) & Hmut & _); [done..|].
  assert (∀ m' d0, get_type d0 = get_type d → ∃ info', mi_id info' = mi_id info ∧
            ref_field alias_fuel back m' fd d0
            = if by_elements info kind fd then ref_repeated_field alias_fuel back d0 info' tc m' fd
              else ref_singular_field alias_fuel back d0 info' tc kind m' fd) as Hfield.
  { intros m2 d0 Ht0. destruct (get_member_info_same d d0 i info t tc kind) as (info' & Hinfo & Hid); [done..|].
    exists info'. split; [done|]. unfold ref_field. rewrite (found_name _ _ _ Hfd), Hinfo. cbn. by rewrite Hrep. }
  destruct (by_elements info kind fd) eqn:Hby.
  - apply by_elements_collection in Hby. destruct (decide (mi_element_count info = 0)) as [Hzero|Hcount].
    { left. split; [by eapply ref_collection_empty|]. intros dc Hc Htc. by eapply cleared_empty. }
    right. exists fd. split; [done|].
    assert (∀ info', mi_id info' = mi_id info → mutations fd m m'
              ∧ restores (λ d0, ref_repeated_field alias_fuel back d0 info' tc m' fd) d (mi_id info)) as Hcol.
    { intros info' Hid. eapply collection_restores; try done.
      intros Hmsg el t' k m1 sub Hsch Hel Hk Hsub.
      destruct (speaks_fits alias_fuel tp m1 d i info t tc kind fd) as (_ & _ & Hadd);
        [by eapply speaks_same | done.. | by rewrite <- (schema_field _ _ Hsch) |]. by eapply Hadd. }
    split; [by apply (Hcol info)|]. intros d0 dc Ht0 ????.
    destruct (Hfield m' d0 Ht0) as (info' & Hid & ->). by eapply (Hcol info' Hid).
  - right. exists fd. split; [done|].
    assert (∀ info', mi_id info' = mi_id info → mutation m fd m'
              ∧ restores (λ d0, ref_singular_field alias_fuel back d0 info' tc kind m' fd) d (mi_id info)) as Hsing.
    { intros info' Hid. eapply singular_restores; try done. by apply Hmut. }
    split; [apply tc_once; by apply (Hsing info)|]. intros d0 dc Ht0 ????.
    destruct (Hfield m' d0 Ht0) as (info' & Hid & ->). by eapply (Hsing info' Hid).
Qed.


(** *** All members *)

Lemma ref_field_same m m' fd d :
  field_same fd m m' → ref_field alias_fuel back m fd d = ref_field alias_fuel back m' fd d.
Proof.
  intros [Hhas Hsize _ Hnum Hstr Hmsg Henum Hel]. unfold ref_field.
  destruct (get_member_info alias_fuel d (field_name fd)) as [[b [[[info tc] kind]|]]|]; [|done..].
  destruct (is_repeated fd || is_map fd).
  - unfold ref_repeated_field, ref_nested. rewrite Hsize. case_match; [done|].
    destruct (can_bind d (mi_id info) tc); [|done].
    destruct (el ← TypeCode_content_type tc; resolved alias_fuel el DDS_TK_NULL) as [[el k]|]; [|done].
    assert (∀ dm, each (ref_element alias_fuel back el k m fd) (seq 0 (FieldSize m' fd)) dm
                  = each (ref_element alias_fuel back el k m' fd) (seq 0 (FieldSize m' fd)) dm) as Heach; [|by rewrite Heach].
    intros dm. apply each_ext. intros j dj. destruct (Hel j) as [Hn Hs Hm]. unfold ref_element.
    rewrite Hm, Hs. case_match; [done|]. by apply ref_plain_ext.
  - unfold ref_singular_field. rewrite Hhas, Hmsg, Hstr.
    case_match; [done|]. case_match; try done; by apply ref_plain_ext.
Qed.

Lemma mutations_schema fd m m' : mutations fd m m' → schema_same m m'.
Proof.
  induction 1 as [m m' H|m m1 m' H _ IH]; [by eapply mutation_schema|].
  eapply schema_same_trans; [by eapply mutation_schema | done].
Qed.

Lemma field_same_trans fd m1 m2 m3 : field_same fd m1 m2 → field_same fd m2 m3 → field_same fd m1 m3.
Proof.
  intros [Hh Hs Hl Hn Hst Hm He Hel] [Hh' Hs' Hl' Hn' Hst' Hm' He' Hel'].
  split; [congruence | congruence | by rewrite Hl | intros; by rewrite Hn, Hn' | congruence | congruence
         | intros; by rewrite He | intros j].
  destruct (Hel j) as [Hen Hes Hem], (Hel' j) as [Hen' Hes' Hem'].
  split; [intros; by rewrite Hen, Hen' | congruence | congruence].
Qed.

Lemma owned_schema m m' fd : schema_same m m' → owned m fd → owned m' fd.
Proof. intros Hs [name Hname]. exists name. by rewrite <- (schema_field _ _ Hs). Qed.

Lemma mutations_frame fd fd' m m' :
  mutations fd m m' → owned m fd → owned m fd' → fd' ≠ fd → field_same fd' m m'.
Proof.
  intros Hm Ho Ho' Hne. induction Hm as [m m' H|m m1 m' H _ IH]; [by eapply mutation_frame|].
  pose proof (mutation_schema _ _ _ H) as Hs.
  eapply field_same_trans; [by eapply mutation_frame | apply IH; by eapply owned_schema].
Qed.

Lemma mutations_listed fd m m' : mutations fd m m' → owned m fd → fd ∈ ListFields m'.
Proof.
  induction 1 as [m m' H|m m1 m' H _ IH]; intros Ho; [by eapply mutation_listed|].
  apply IH. eapply owned_schema; [by eapply mutation_schema | done].
Qed.

(** The member [i] is in the field [fd] of the message. *)
Definition carried d (i : nat) (fd : FD) (m : MSG) : Prop :=
  ∃ info, info_by_index d i = (DDS_RETCODE_OK, info) ∧ FindFieldByName m (mi_name info) = Some fd
    ∧ restores (ref_field alias_fuel back m fd) d (mi_id info).

(** The member is as in a new object, or in a field. *)
Definition settled d (i : nat) (m : MSG) : Prop :=
  (∃ info, info_by_index d i = (DDS_RETCODE_OK, info)
     ∧ ∀ dc, cleared dc → get_type dc = get_type d → member_same (mi_id info) dc d)
  ∨ ∃ fd, fd ∈ ListFields m ∧ carried d i fd m.

Lemma carried_field d i j fd m : ¬ is_collection (get_type_kind d) → carried d i fd m → carried d j fd m → i = j.
Proof.
  intros Hk (info & Hi & Hfd & _) (info' & Hj & Hfd' & _). eapply member_names; [done.. |]. left.
  by rewrite <- (found_name _ _ _ Hfd), <- (found_name _ _ _ Hfd').
Qed.

Lemma carried_same d i fd m m' : schema_same m m' → field_same fd m m' → carried d i fd m → carried d i fd m'.
Proof.
  intros Hsch Hf (info & Hi & Hfd & Hr). exists info. split; [done|]. split; [by rewrite <- (schema_field _ _ Hsch)|].
  eapply restores_ext; [|exact Hr]. intros d0. by apply ref_field_same.
Qed.

(** What the loop over the members leaves. *)
Lemma members_settled `{!EqDecision FD} tp d ixs m m' :
  speaks alias_fuel tp m → get_type d = Some tp → ¬ is_collection (get_type_kind d) → NoDup ixs → ListFields m = [] →
  each (ref_member alias_fuel ref d) ixs m = (true, m') →
  schema_same m m' ∧ (∀ i, i ∈ ixs → settled d i m')
  ∧ ∀ fd, fd ∈ ListFields m' → ∃ i, i ∈ ixs ∧ carried d i fd m'.
Proof.
  intros Hsp Htp Hkind Hnd Hnew. revert m'. induction ixs as [|i ixs IH] using rev_ind; intros m'.
  { intros [= <-]. split; [by split|]. split; [by intros i ?%elem_of_nil|]. rewrite Hnew. by intros fd ?%elem_of_nil. }
  rewrite each_snoc. destruct (each _ ixs m) as [[] m1]; [|done]. cbn [fst snd]. intros Hstep.
  apply NoDup_app in Hnd as (Hnd & Hni & _).
  assert (i ∉ ixs) as Hi by (intros Hin; apply (Hni _ Hin); by apply list_elem_of_singleton).
  destruct (IH Hnd m1 eq_refl) as (Hsch & Hset & Hlist). clear IH.
  destruct (member_step tp d i m1 m') as (info & Hinfo & Hcases); [by eapply speaks_same | done | done | | done |].
  { intros info fd Hinfo Hfd Hin. apply Hlist in Hin as (j & Hj & Hcar). 
    destruct Hcar as (info' & Hinfo' & Hfd' & _). apply Hi. 
    assert (i = j) as ->; [|done]. eapply member_names; [done.. |]. left.
    by rewrite <- (found_name _ _ _ Hfd), <- (found_name _ _ _ Hfd'). }
  destruct Hcases as [[-> Hskip]|(fd & Hfd & Hmut & Hr)].
  { split; [done|]. split.
    - intros j [Hj|Hj%list_elem_of_singleton]%elem_of_app; [by apply Hset|]. subst j. left. by exists info.
    - intros fd (j & Hj & Hcar)%Hlist. exists j. split; [|done]. apply elem_of_app. by left. }
  pose proof (mutations_schema _ _ _ Hmut) as Hsch'.
  assert (carried d i fd m') as Hcar by (exists info; split_and!; [done | by rewrite <- (schema_field _ _ Hsch') | done]).
  assert (owned m1 fd) as Hown by by eexists.
  assert (∀ j fd', j ∈ ixs → carried d j fd' m1 → fd' ≠ fd ∧ carried d j fd' m') as Hothers.
  { intros j fd' Hj Hj'. assert (fd' ≠ fd) as Hne.
    { intros ->. destruct Hj' as (info' & Hinfo' & Hfd' & _). apply Hi. assert (i = j) as ->; [|done].
      eapply member_names; [done.. |]. left. by rewrite <- (found_name _ _ _ Hfd), <- (found_name _ _ _ Hfd'). }
    split; [done|]. eapply carried_same; [done | | done].
    eapply mutations_frame; [done | done | | done]. destruct Hj' as (info' & _ & Hfd' & _). by eexists. }
  split; [by eapply schema_same_trans|]. split.
  - intros j [Hj|Hj%list_elem_of_singleton]%elem_of_app.
    + destruct (Hset j Hj) as [Hskip|(fd' & Hin & Hcar')]; [by left|]. right. exists fd'.
      destruct (Hothers j fd' Hj Hcar') as [Hne Hcar'']. split; [|done].
      assert (owned m1 fd') as Hown' by by apply list_owned.
      by apply (field_listed _ _ _ (mutations_frame _ _ _ _ Hmut Hown Hown' Hne)).
    + subst j. right. exists fd. split; [by eapply mutations_listed | done].
  - intros fd' Hin. destruct (decide (fd' = fd)) as [->|Hne].
    + exists i. split; [|done]. apply elem_of_app. right. by apply list_elem_of_singleton.
    + assert (owned m1 fd') as Hown'.
      { apply list_owned in Hin as [name Hname]. exists name. by rewrite (schema_field _ _ Hsch'). }
      apply (field_listed _ _ _ (mutations_frame _ _ _ _ Hmut Hown Hown' Hne)) in Hin.
      destruct (Hlist fd' Hin) as (j & Hj & Hcar'). exists j. split; [apply elem_of_app; by left | by apply Hothers].
Qed.

End back.
End converted.


(** ** Whole samples *)
Section roundtrip.
Context {D TC MSG FD : Type} `{!EqDecision TC} `{!EqDecision FD} {TT : TypeCodes TC} {DS : DynScalars D}
  {DM : DynMembers D TC} {DO : DynObjects D TC} {RF : Reflection MSG FD} {SQ : SeqLib} {BD : Bindings D TC}
  {BL : BindingLaws D TC} {SW : StringLaw (DO := DO)} {CP : Copies D TC} {MB : Members D} {CL : CopyLaws D TC}
  {WL : WriteLaws D TC} {LA : SeqLibLaws SQ} {SL : SampleLaws D TC} {NL : NumberLaws (DS := DS) (RF := RF)}
  {ML : MessageLaws MSG FD}.
#[local] Abbreviation W := (conv_state D TC).
Context {E : Type} (alias_fuel : nat).
Context {SC : Schema D TC MSG FD alias_fuel}.
Implicit Types (w : W) (d : D) (p q : nat).

(** The references are inverse to each other. *)
Lemma reference_roundtrip fuel tp m m' d d0 :
  ListFields m = [] → speaks alias_fuel tp m → get_type d = Some tp → get_type d0 = Some tp → cleared d0 →
  reference alias_fuel fuel m d = (true, m') →
  ∃ d', sample_reference alias_fuel fuel d0 m' = (true, d') ∧ reads_same d' d.
Proof.
  revert tp m m' d d0. induction fuel as [|fuel IH]; intros tp m m' d d0 Hnew Hsp Htp Htp0 Hc Href; [done|].
  cbn [reference] in Href. unfold ref_body in Href.
  destruct (has_descriptor m) eqn:Hdesc; [|done]. destruct (has_reflection m) eqn:Hrefl; [|done].
  cbn [negb] in Href. rewrite Htp in Href. case_bool_decide; [done|].
  destruct (_ && _) eqn:Hk; [done|]. destruct (resolved _ _ _) as [_|]; [|done].
  assert (¬ is_collection (get_type_kind d)) as Hkind.
  { intros [Hcol|Hcol]; by rewrite Hcol in Hk. }
  destruct (members_settled alias_fuel (reference alias_fuel fuel) (sample_reference alias_fuel fuel) IH
              tp d (seq 0 (get_member_count d)) m m') as (Hsch & Hset & Hlist); [done | done | done | apply NoDup_seq | done | done |].
  set (idf := λ fd, mi_id (info_by_name d (field_name fd)).2).
  assert (∀ i fd, carried alias_fuel (sample_reference alias_fuel fuel) d i fd m' → ∃ info,
            info_by_index d i = (DDS_RETCODE_OK, info) ∧ mi_id info = idf fd
            ∧ FindFieldByName m' (mi_name info) = Some fd
            ∧ restores (ref_field alias_fuel (sample_reference alias_fuel fuel) m' fd) d (idf fd)) as Hcarried.
  { intros i fd (info & Hi & Hfd & Hr). exists info.
    destruct (member_by_name d d i info eq_refl Hkind Hi) as (info' & Hname & Hid).
    assert (mi_id info = idf fd) as Heq by (unfold idf; rewrite (found_name _ _ _ Hfd), Hname; done).
    split_and!; [done | done | done | by rewrite <- Heq]. }
  destruct (restores_all (ref_field alias_fuel (sample_reference alias_fuel fuel) m') idf d d0 d0 (ListFields m'))
    as (d' & Hrun & Htd & Hdone & Hrest).
  - congruence.
  - done.
  - congruence.
  - apply Forall_forall. intros fd (i & _ & Hcar)%Hlist. by destruct (Hcarried i fd Hcar) as (? & _ & _ & _ & ?).
  - apply NoDup_fmap_2_strong; [|apply list_once]. intros fd fd' (i & _ & Hcar)%Hlist (j & _ & Hcar')%Hlist Heq.
    destruct (Hcarried i fd Hcar) as (info & Hi & Hid & Hfd & _), (Hcarried j fd' Hcar') as (info' & Hj & Hid' & Hfd' & _).
    assert (i = j) as -> by (eapply member_names; [done.. |]; right; congruence). congruence.
  - done.
  - intros xs1 fd xs2 d1 _ Ht1 _ Hcol. rewrite (type_kind d1 d Ht1) in Hcol. done.
  - exists d'. cbn [sample_reference].
    rewrite <- (schema_descriptor _ _ Hsch), <- (schema_reflection _ _ Hsch), Hdesc, Hrefl. cbn. split; [done|].
    apply members_same; [done|]. intros id. destruct (decide (id ∈ idf <$> ListFields m')) as [Hin|Hout].
    { apply list_elem_of_fmap in Hin as (fd & -> & Hin). by apply Hdone. }
    etrans; [by apply Hrest|]. destruct (member_exists d id) eqn:Hex.
    2:{ apply member_absent; [congruence | eapply cleared_absent; [done | | done]; congruence | done]. }
    destruct (member_by_index d id Hkind Hex) as (i & info & Hi & Hinfo & <-).
    destruct (Hset i) as [(info' & Hinfo' & Hskip)|(fd & Hfd & Hcar)]; [apply elem_of_seq; lia | |].
    + rewrite Hinfo in Hinfo'. injection Hinfo' as <-. apply Hskip; [done | congruence].
    + destruct (Hcarried i fd Hcar) as (info' & Hi' & Hid & _). rewrite Hinfo in Hi'. injection Hi' as <-.
      exfalso. apply Hout. rewrite Hid. by apply list_elem_of_fmap_2.
Qed.

(** Another sample of the type is not touched by a conversion. *)
Lemma reads_as_other p q tp d w w' :
  reads_as tp q d w → well w' → keeps_bindings (nesting tp) p w w' → q ≠ p → reads_as tp q d w'.
Proof.
  intros [Hw (d' & Hq & Hs & Ht & Hb) Hfree] Hw' Hk Hne. constructor; [done | |].
  - destruct (kept_object _ _ _ _ Hk q d' Hq) as (d2 & Hq2 & _ & Hsame). rewrite Hsame in Hq2; [by exists d' | done |].
    unfold depth. by rewrite Ht.
  - eapply keeps_free; [|exact Hk | exact Hfree]. done.
Qed.


End roundtrip.

