(* ===== verification/ConversionTables.v ===== *)
(** A small DDS library on which the theorems of the conversions hold: a type is
    an index into a table of types, and a sample is a tree of values that
    conforms to its type. *)
From Stdlib Require Import ZArith Lia.
From stdpp Require Import base gmap strings list option fin_maps.
From S2P Require Import Prelude DynHelpers DynDataUtils MessageConversion ConversionSessions ConversionReference.
From S2P Require Import SampleReference ConversionRoundTrip.

#[local] Open Scope string_scope.
#[local] Open Scope list_scope.
#[local] Open Scope Z_scope.

(** ** Types *)

(** A type refers to types before it. *)
Inductive type_def :=
  | DNum (k : DDS_TCKind)
  | DString
  | DSequence (content : nat)
  | DAlias (content : nat)
  | DStruct (members : list (string * nat)).

Definition table : list type_def :=
  [DNum DDS_TK_LONG; DNum DDS_TK_OCTET; DString; DSequence 1; DAlias 0;
   DStruct [("x", 4%nat); ("name", 2%nat)]; DSequence 5; DSequence 2;
   DStruct [("id", 0%nat); ("pos", 5%nat); ("path", 6%nat); ("tags", 7%nat); ("raw", 3%nat)];
   DStruct [("payload", 3%nat)]].

Definition content_of (t : nat) : option nat :=
  match table !! t with Some (DSequence c) | Some (DAlias c) => Some c | _ => None end.

(** Name and type of a member. *)
Definition member_of (t : nat) (i : nat) : option (string * nat) :=
  match table !! t with
  | Some (DStruct l) => l !! i
  | Some (DSequence c) => Some ("", c)
  | _ => None
  end.

Definition table_types : TypeCodes nat := {|
  TypeCode_kind t :=
    Some match table !! t with
         | Some (DNum k) => k
         | Some DString => DDS_TK_STRING
         | Some (DSequence _) => DDS_TK_SEQUENCE
         | Some (DAlias _) => DDS_TK_ALIAS
         | Some (DStruct _) => DDS_TK_STRUCT
         | None => DDS_TK_NULL
         end;
  TypeCode_content_type := content_of
|}.

(** Behind an alias. *)
Definition strip (t : nat) : nat := match table !! t with Some (DAlias c) => c | _ => t end.

(** Structures and sequences. *)
Definition complex (t : nat) : bool :=
  match table !! t with Some (DStruct _) | Some (DSequence _) => true | _ => false end.

(** A fact about every type of the table. *)
Ltac each_below n t :=
  lazymatch n with
  | O => destruct t; cbn in *
  | S ?n => destruct t as [|t]; [cbn in * | each_below n t]
  end.
Ltac each_type t := each_below 10%nat t.

Lemma table_lt t i m : member_of t i = Some m → (m.2 < t)%nat.
Proof.
  each_type t; try done; try (intros [= <-]; cbn; lia);
    each_below 6%nat i; try done; intros [= <-]; cbn; lia.
Qed.

Lemma content_lt t c : content_of t = Some c → (c < t)%nat.
Proof. each_type t; try done; intros [= <-]; lia. Qed.

Lemma strip_strip t : strip (strip t) = strip t.
Proof. each_type t; done. Qed.

Lemma strip_complex t : complex t = true → strip t = t.
Proof. each_type t; done. Qed.

Lemma struct_names t l : table !! t = Some (DStruct l) → NoDup l.*1.
Proof. each_type t; try done; intros [= <-]; cbn; by apply (bool_decide_unpack _). Qed.

Lemma resolved_strip fuel t tc k : resolved (TT := table_types) fuel t DDS_TK_NULL = Some (tc, k) → tc = strip t.
Proof.
  each_type t; destruct fuel as [|[|fuel]]; unfold resolved, strip; cbn; congruence.
Qed.

(** ** Values *)
Inductive val := VNum (z : Z) | VString (s : list Z) | VMany (l : list val).

(** Members, or elements, in their order. *)
Fixpoint conforms (v : val) (t : nat) : bool :=
  match v, table !! strip t with
  | VNum _, (Some (DNum _) | None) => true
  | VString _, Some DString => true
  | VMany l, Some (DSequence c) => (Z.of_nat (length l) <? 2 ^ 32) && forallb (λ v, conforms v c) l
  | VMany l, Some (DStruct ms) =>
      (fix go (l : list val) (ms : list (string * nat)) : bool :=
         match l, ms with
         | [], [] => true
         | v :: l, m :: ms => conforms v m.2 && go l ms
         | _, _ => false
         end) l ms
  | _, _ => false
  end.

Fixpoint default_val (fuel : nat) (t : nat) : val :=
  match table !! t, fuel with
  | Some DString, _ => VString []
  | Some (DStruct l), S fuel => VMany ((λ m, default_val fuel m.2) <$> l)
  | Some (DAlias c), S fuel => default_val fuel c
  | Some (DSequence _), _ => VMany []
  | _, _ => VNum 0
  end.

Lemma default_conforms t : conforms (default_val 10 t) t = true.
Proof. each_type t; reflexivity. Qed.

Lemma conforms_strip v t : conforms v (strip t) = conforms v t.
Proof. destruct v; cbn; by rewrite strip_strip. Qed.

Lemma conforms_struct l t ms :
  table !! t = Some (DStruct ms) → conforms (VMany l) t = true ↔ Forall2 (λ v m, conforms v m.2 = true) l ms.
Proof.
  intros Ht. assert (strip t = t) as Hs by (unfold strip; by rewrite Ht). cbn. rewrite Hs, Ht. clear.
  revert ms. induction l as [|v l IH]; intros [|m ms].
  - split; intros _; [constructor | reflexivity].
  - split; [discriminate | by inversion 1].
  - split; [discriminate | by inversion 1].
  - rewrite andb_true_iff, IH. split; [intros []; by constructor | by inversion 1].
Qed.

Lemma conforms_sequence l t c :
  table !! t = Some (DSequence c) →
  conforms (VMany l) t = true ↔ Z.of_nat (length l) < 2 ^ 32 ∧ Forall (λ v, conforms v c = true) l.
Proof.
  intros Ht. assert (strip t = t) as Hs by (unfold strip; by rewrite Ht). cbn. rewrite Hs, Ht.
  rewrite andb_true_iff, Z.ltb_lt, forallb_forall. by rewrite <- List.Forall_forall.
Qed.

(** ** Samples *)

(** An object holds members or elements, or nothing. *)
Definition well_typed (t : nat) (v : val) : bool :=
  if complex t then conforms v t else match v with VNum 0 => true | _ => false end.
Definition object_default (t : nat) : val := if complex t then default_val 10 t else VNum 0.

Lemma well_typed_default t : well_typed t (object_default t) = true.
Proof. unfold well_typed, object_default. destruct (complex t); [apply default_conforms | done]. Qed.

Record object := Object {
  o_type : nat; o_val : val; o_bound : bool; o_member : option Z; o_ok : well_typed o_type o_val = true
}.

Definition make (t : nat) (v : val) (b : bool) (m : option Z) : object :=
  match decide (well_typed t v = true) with
  | left H => Object t v b m H
  | right _ => Object t (object_default t) b m (well_typed_default t)
  end.

(** The bindings of an object. *)
Definition with_bound_flag (b : bool) (d : object) : object := Object (o_type d) (o_val d) b (o_member d) (o_ok d).
Definition with_member (m : option Z) (d : object) : object := Object (o_type d) (o_val d) (o_bound d) m (o_ok d).

Lemma make_val t v b m : o_val (make t v b m) = if well_typed t v then v else object_default t.
Proof. unfold make. case_decide as H; cbn; [by rewrite H | by destruct (well_typed t v)]. Qed.
Lemma make_rest t v b m : o_type (make t v b m) = t ∧ o_bound (make t v b m) = b ∧ o_member (make t v b m) = m.
Proof. unfold make. by case_decide. Qed.

(** Members are counted from 1. *)
Definition index (id : Z) : nat := Z.to_nat (id - 1).
Definition vals (d : object) : list val := match o_val d with VMany l => l | _ => [] end.
Definition get_val (d : object) (id : Z) : option val := if 1 <=? id then vals d !! index id else None.
Definition member_at (d : object) (id : Z) : option (string * nat) :=
  if 1 <=? id then member_of (o_type d) (index id) else None.

Definition put_list (l : list val) (i : nat) (v : val) : list val := take i l ++ v :: drop (S i) l.

(** A member is replaced, or an element added at the end. *)
Definition put_val (d : object) (id : Z) (v : val) : bool * object :=
  let v' := VMany (put_list (vals d) (index id) v) in
  if (1 <=? id) && (index id <=? length (vals d))%nat && complex (o_type d)
  then match decide (well_typed (o_type d) v' = true) with
       | left H => (true, Object (o_type d) v' (o_bound d) (o_member d) H)
       | right _ => (false, d)
       end
  else (false, d).

Definition put_code (d : object) (id : Z) (v : val) : Z * object :=
  let r := put_val d id v in (if r.1 then DDS_RETCODE_OK else DDS_RETCODE_ERROR, r.2).

(** The value of a member that is there, or of a new one. *)
Definition member_val (d : object) (id : Z) : val :=
  match get_val d id, member_at d id with
  | Some v, _ => v
  | None, Some m => default_val 10 m.2
  | None, None => VNum 0
  end.

(** ** Facts about samples *)

Lemma put_list_case l i v :
  (i ≤ length l)%nat → put_list l i v = if decide (i = length l) then l ++ [v] else <[i := v]> l.
Proof.
  intros Hi. unfold put_list. case_decide as Hd.
  - subst i. by rewrite take_ge, drop_ge by lia.
  - by rewrite insert_take_drop by lia.
Qed.

Lemma put_list_lookup l i v j :
  (i ≤ length l)%nat → put_list l i v !! j = if decide (j = i) then Some v else l !! j.
Proof.
  intros Hi. rewrite put_list_case by done. case_decide as Hl; case_decide as Hj; subst.
  - by rewrite list_lookup_middle.
  - destruct (decide (j < length l)%nat); [by apply lookup_app_l|].
    rewrite !(proj2 (lookup_ge_None _ _)); [done | lia | rewrite length_app; cbn; lia].
  - apply list_lookup_insert_eq. lia.
  - by apply list_lookup_insert_ne.
Qed.

Lemma length_put_list l i v : (i ≤ length l)%nat → length (put_list l i v) = Nat.max (length l) (S i).
Proof.
  intros Hi. rewrite put_list_case by done. case_decide; [rewrite length_app; cbn | rewrite length_insert]; lia.
Qed.

Lemma complex_many d : complex (o_type d) = true → o_val d = VMany (vals d) ∧ conforms (VMany (vals d)) (o_type d) = true.
Proof.
  intros Hc. pose proof (o_ok d) as Hok. unfold well_typed, vals in *. rewrite Hc in Hok.
  unfold complex in Hc. pose proof Hok as Hok'. destruct (o_val d); cbn in Hok; rewrite ?strip_complex in Hok by done;
    destruct (table !! o_type d) as [[]|]; done.
Qed.

Lemma plain_value d : complex (o_type d) = false → o_val d = VNum 0.
Proof.
  intros Hc. pose proof (o_ok d) as Hok. unfold well_typed in Hok. rewrite Hc in Hok. by destruct (o_val d) as [[]| |].
Qed.

Lemma get_val_complex d id v : get_val d id = Some v → complex (o_type d) = true.
Proof.
  unfold get_val, vals. case_match; [|done]. intros Hv. destruct (complex (o_type d)) eqn:Hc; [done|].
  by rewrite (plain_value d Hc) in Hv.
Qed.

Lemma conforms_lookup l t i v :
  complex t = true → conforms (VMany l) t = true → l !! i = Some v → ∃ m, member_of t i = Some m ∧ conforms v m.2 = true.
Proof.
  intros Hc Hl Hv. unfold complex, member_of in *. destruct (table !! t) as [[]|] eqn:Ht; try done.
  - apply (conforms_sequence _ _ _ Ht) in Hl as [_ Hl]. rewrite Forall_lookup in Hl. eexists. split; [done|]. cbn. by eapply Hl.
  - apply (conforms_struct _ _ _ Ht) in Hl. destruct (Forall2_lookup_l _ _ _ _ _ Hl Hv) as (m & Hm & Hc'). by exists m.
Qed.

Lemma get_val_member d id v :
  get_val d id = Some v → ∃ m, member_at d id = Some m ∧ conforms v m.2 = true.
Proof.
  intros Hv. pose proof (get_val_complex _ _ _ Hv) as Hc. unfold get_val, member_at in *.
  case_match; [|done]. eapply conforms_lookup; [done | by apply complex_many | done].
Qed.

Lemma member_val_conforms d id m : member_at d id = Some m → conforms (member_val d id) m.2 = true.
Proof.
  intros Hm. unfold member_val. rewrite Hm. destruct (get_val d id) as [v|] eqn:Hv; [|apply default_conforms].
  destruct (get_val_member _ _ _ Hv) as (m' & Hm' & Hc). congruence.
Qed.

Lemma put_val_rest d id v :
  o_type (put_val d id v).2 = o_type d ∧ o_bound (put_val d id v).2 = o_bound d
  ∧ o_member (put_val d id v).2 = o_member d.
Proof. unfold put_val. repeat case_match; done. Qed.

Lemma put_val_get d id v d1 :
  put_val d id v = (true, d1) → ∀ id', get_val d1 id' = if decide (id' = id) then Some v else get_val d id'.
Proof.
  unfold put_val. case_match eqn:Hc; [|done]. case_decide; [|done]. intros [= <-] id'.
  rewrite !andb_true_iff, Nat.leb_le, Z.leb_le in Hc. destruct Hc as [[Hid Hl] _].
  unfold get_val, vals at 1. cbn. destruct (Z.leb_spec 1 id') as [Hid'|]; [|by rewrite decide_False by lia].
  rewrite put_list_lookup by done. unfold index. case_decide as H1; case_decide as H2; try done; lia.
Qed.

(** What is read from the two is equal. *)
Definition same_value (d d' : object) : Prop := o_type d = o_type d' ∧ o_val d = o_val d'.

Lemma put_val_same_value d d' id v :
  same_value d d' → (put_val d id v).1 = (put_val d' id v).1 ∧ same_value (put_val d id v).2 (put_val d' id v).2.
Proof.
  intros [Ht Hv]. unfold put_val, vals, same_value. rewrite Hv, Ht.
  repeat case_match; cbn; by rewrite ?Ht, ?Hv.
Qed.

Lemma put_code_same_value d d' id v :
  same_value d d' → prod_relation eq same_value (put_code d id v) (put_code d' id v).
Proof.
  intros Hs. destruct (put_val_same_value d d' id v Hs) as [H1 H2]. split; [|done]. cbn. by rewrite H1.
Qed.

(** A value of a sample fits into another one of its type. *)
Lemma put_copy d d0 id v :
  o_type d0 = o_type d → (index id ≤ length (vals d0))%nat → get_val d id = Some v → ∃ d1, put_val d0 id v = (true, d1).
Proof.
  intros Ht Hl Hv. pose proof (get_val_complex _ _ _ Hv) as Hc. pose proof Hc as Hc0. rewrite <- Ht in Hc0.
  destruct (complex_many d Hc) as [_ Hok], (complex_many d0 Hc0) as [_ Hok0].
  assert (well_typed (o_type d0) (VMany (put_list (vals d0) (index id) v)) = true) as Hput.
  { unfold well_typed. rewrite Hc0. unfold get_val in Hv. case_match; [|done].
    pose proof (lookup_lt_Some _ _ _ Hv) as Hlt.
    destruct (conforms_lookup _ _ _ _ Hc Hok Hv) as (m & Hm & Hcv). rewrite <- Ht in Hok, Hm.
    unfold complex, member_of in Hc0, Hm. destruct (table !! o_type d0) as [[]|] eqn:Htab; try done.
    - apply (conforms_sequence _ _ _ Htab) in Hok as [Hs _], Hok0 as [Hs0 Hok0]. injection Hm as <-.
      apply (conforms_sequence _ _ _ Htab). split.
      + rewrite length_put_list by done. lia.
      + rewrite put_list_case by done. case_decide; [apply Forall_app; split; [done | by repeat constructor]|].
        by apply Forall_insert.
    - apply (conforms_struct _ _ _ Htab) in Hok, Hok0. apply (conforms_struct _ _ _ Htab). pose proof (Forall2_length _ _ _ Hok) as Hl1.
      pose proof (Forall2_length _ _ _ Hok0) as Hl0. rewrite put_list_case, decide_False by lia.
      rewrite <- (list_insert_id _ _ _ Hm). by apply Forall2_insert. }
  assert (1 <= id) as Hid by (unfold get_val in Hv; case_match eqn:Hid; [by apply Z.leb_le | done]).
  unfold put_val. rewrite (proj2 (Z.leb_le _ _) Hid), (proj2 (Nat.leb_le _ _) Hl), Hc0. cbn.
  destruct (decide _) as [H|H]; [by eexists | by destruct H].
Qed.


(** ** The library *)

Definition number_ok (g : scalar) (z : Z) : bool := (scalar_min g <=? z) && (z <=? scalar_max g).

#[export] Instance table_scalars : DynScalars object := {|
  get_scalar g d id :=
    match get_val d id with
    | Some (VNum z) => if number_ok g z then (DDS_RETCODE_OK, z) else (DDS_RETCODE_ERROR, 0)
    | _ => (DDS_RETCODE_ERROR, 0)
    end;
  set_scalar g d id z := put_code d id (VNum z);
  set_byte_array k d id n bytes := put_code d id (VMany (VNum <$> bytes))
|}.

Definition count_of (v : val) : Z := match v with VMany l => Z.of_nat (length l) | _ => 0 end.

Definition member_data (d : object) (i : nat) (m : string * nat) : member_info :=
  let id := Z.of_nat i + 1 in
  MemberInfo m.1 id (count_of (member_val d id))
    (match content_of m.2 with
     | Some c => default DDS_TK_NULL (TypeCode_kind (TypeCodes := table_types) c)
     | None => DDS_TK_NULL
     end).

Definition no_member : member_info := MemberInfo "" 0 0 DDS_TK_NULL.

Definition index_of (t : nat) (name : string) : option nat :=
  match table !! t with Some (DStruct l) => fst <$> list_find (λ m, m.1 = name) l | _ => None end.

#[export] Instance table_members : DynMembers object nat := {|
  info_by_name d name :=
    match index_of (o_type d) name with
    | Some i => match member_of (o_type d) i with
                | Some m => (DDS_RETCODE_OK, member_data d i m)
                | None => (DDS_RETCODE_ERROR, no_member)
                end
    | None => (DDS_RETCODE_ERROR, no_member)
    end;
  type_by_id d id :=
    match member_at d id with
    | Some m => (DDS_RETCODE_OK, m.2)
    | None => (DDS_RETCODE_ERROR, 0%nat)
    end
|}.

Definition number_of (v : val) : option Z := match v with VNum z => Some z | _ => None end.

(** The octets of a collection. *)
Definition octets (v : option val) : option (list Z) :=
  match v with Some (VMany l) => mapM number_of l | _ => None end.

(** A string that DDS can hold. *)
Definition short_string (d : object) (id : Z) : option (list Z) :=
  match get_val d id with
  | Some (VString s) => if (Z.of_nat (length s) <? 2 ^ 31) && forallb (λ b, negb (b =? 0)) s then Some s else None
  | _ => None
  end.

(** An object of the type behind the aliases can be bound to a member, or to
    the element behind the last one. *)
Definition table_can_bind (d : object) (id : Z) (t : nat) : bool :=
  complex t && (index id <=? length (vals d))%nat
  && match member_at d id with Some m => (strip m.2 =? t)%nat | None => false end.

#[export] Instance table_objects : DynObjects object nat := {|
  get_type d := Some (o_type d);
  TypeCode_name t := Some "type";
  get_type_kind d := default DDS_TK_NULL (TypeCode_kind (TypeCodes := table_types) (o_type d));
  get_member_count d := match table !! o_type d with Some (DStruct l) => length l | _ => length (vals d) end;
  info_by_index d i :=
    match member_of (o_type d) i with
    | Some m => (DDS_RETCODE_OK, member_data d i m)
    | None => (DDS_RETCODE_ERROR, no_member)
    end;
  member_exists d id := bool_decide (is_Some (get_val d id));
  get_string d id room :=
    match short_string d id with
    | Some s =>
        if Z.of_nat (length s) + 1 <=? room then (DDS_RETCODE_OK, s ++ [0], Z.of_nat (length s) + 1)
        else (DDS_RETCODE_PRECONDITION_NOT_MET, [], Z.of_nat (length s) + 1)
    | None => (DDS_RETCODE_ERROR, [], 0)
    end;
  set_string d id s := put_code d id (VString s);
  get_octets d id n :=
    match octets (get_val d id) with
    | Some b => if n <=? Z.of_nat (length b) then (DDS_RETCODE_OK, take (Z.to_nat n) b) else (DDS_RETCODE_ERROR, [])
    | None => (DDS_RETCODE_ERROR, [])
    end;
  DynamicData_new t := Some (make t (object_default t) false None);
  bind_complex_member dp dm id :=
    match o_member dp with
    | Some _ => None
    | None =>
        if o_bound dm then None
        else if table_can_bind dp id (o_type dm)
        then Some (with_member (Some id) dp, make (o_type dm) (member_val dp id) true (o_member dm))
        else None
    end;
  unbind_complex_member dp dm :=
    match o_member dp with
    | Some id =>
        if o_bound dm then Some (with_member None (put_val dp id (o_val dm)).2, with_bound_flag false dm) else None
    | None => None
    end
|}.

#[export] Instance table_bindings : Bindings object nat := {|
  nesting t := t;
  is_bound := o_bound;
  has_bound_member d := match o_member d with Some _ => true | None => false end;
  bound_pair dp dm := o_bound dm = true ∧ is_Some (o_member dp)
|}.

(** Copies of members are their values. *)
#[export] Instance table_copies : Copies object nat := {|
  complex_member d id t := make t (member_val d id) false None;
  set_complex_member d id dm := (put_val d id (o_val dm)).2;
  can_bind := table_can_bind;
  reads_same := same_value
|}.

#[export] Instance table_rel : Members object := {|
  member_same id d d' := get_val d id = get_val d' id;
  cleared d := o_val d = object_default (o_type d)
|}.

(** *** Bindings *)

Lemma put_val_same d id v : same_bindings d (put_val d id v).2.
Proof.
  destruct (put_val_rest d id v) as (Ht & Hb & Hm). constructor; cbn; [by rewrite Ht | done | by rewrite Hm |].
  intros dp. by rewrite Hb.
Qed.

#[export] Instance table_binding_laws : BindingLaws object nat (TT := table_types).
Proof.
  constructor; cbn.
  - apply content_lt.
  - intros d id t. destruct (member_at d id) as [m|] eqn:Hm; [|done]. intros [= <-].
    exists (o_type d). split; [done|]. unfold member_at in Hm. case_match; [by eapply table_lt | done].
  - intros t d [= <-]. destruct (make_rest t (object_default t) false None) as (-> & Hb & Hm).
    unfold free_object. cbn. by rewrite Hb, Hm.
  - by intros dp dm [].
  - intros. apply put_val_same.
  - intros. apply put_val_same.
  - intros. apply put_val_same.
  - intros dp dm id dp' dm'. destruct (o_member dp) eqn:Hp; [done|]. destruct (o_bound dm) eqn:Hb; [done|].
    case_match; [|done]. intros [= <- <-]. cbn.
    destruct (make_rest (o_type dm) (member_val dp id) true (o_member dm)) as (-> & -> & ->). naive_solver.
  - intros dp dm [Hb [id Hm]]. rewrite Hm, Hb. do 2 eexists. split; [done|]. cbn.
    destruct (put_val_rest dp id (o_val dm)) as (-> & -> & _). naive_solver.
  - intros d id room rc bytes len Hroom.
    destruct (short_string d id) as [s|] eqn:Hs; [|intros [= <- <- <-]; cbn; repeat split; done || lia].
    assert (Z.of_nat (length s) < 2 ^ 31) as Hlen.
    { unfold short_string in Hs. repeat case_match; simplify_eq.
      match goal with H : _ && _ = true |- _ => apply andb_true_iff in H as [H _] end. by apply Z.ltb_lt. }
    unfold is_u32. destruct (Z.leb_spec (Z.of_nat (length s) + 1) room); intros [= <- <- <-].
    + rewrite length_app. cbn. lia.
    + cbn. split; [lia|]. split; [lia | done].
  - intros d id n. repeat case_match; cbn; rewrite ?length_take; lia.
Qed.

#[export] Instance table_string_law : StringLaw (DO := table_objects).
Proof.
  refine {| string_value := short_string |}.
  - intros d id s Hs. unfold short_string in Hs. repeat case_match; simplify_eq.
    match goal with H : _ && _ = true |- _ => apply andb_true_iff in H as [H _] end. by apply Z.ltb_lt.
  - intros d id room s Hs. cbn. by rewrite Hs.
Defined.


(** *** Copies and writes *)

Lemma struct_short t ms : table !! t = Some (DStruct ms) → (length ms < 10)%nat.
Proof. each_type t; try done; intros [= <-]; cbn; lia. Qed.

Lemma count_small v t : conforms v t = true → count_of v < 2 ^ 32.
Proof.
  destruct v as [| |l]; try done. rewrite <- conforms_strip. intros Hc. cbn [count_of].
  destruct (table !! strip t) as [[]|] eqn:Ht; try (by cbn in Hc; rewrite strip_strip, Ht in Hc).
  - apply (conforms_sequence _ _ _ Ht) in Hc. apply Hc.
  - apply (conforms_struct _ _ _ Ht) in Hc. pose proof (Forall2_length _ _ _ Hc) as Hl.
    pose proof (struct_short _ _ Ht) as Hs. rewrite Hl. lia.
Qed.

Lemma member_at_index d i m : member_of (o_type d) i = Some m → member_at d (Z.of_nat i + 1) = Some m.
Proof.
  intros Hm. unfold member_at, index. rewrite (proj2 (Z.leb_le _ _)) by lia.
  by replace (Z.to_nat (Z.of_nat i + 1 - 1)) with i by lia.
Qed.

Lemma info_index d i info :
  info_by_index d i = (DDS_RETCODE_OK, info) → ∃ m, member_of (o_type d) i = Some m ∧ info = member_data d i m.
Proof. cbn. destruct (member_of (o_type d) i) as [m|]; [|done]. intros [= <-]. by exists m. Qed.

Lemma type_at d id t : type_by_id d id = (DDS_RETCODE_OK, t) → ∃ m, member_at d id = Some m ∧ m.2 = t.
Proof. cbn. destruct (member_at d id) as [m|]; [|done]. intros [= <-]. by exists m. Qed.

(** A copy has the value of the member. *)
Lemma copy_val d id m t :
  member_at d id = Some m → strip m.2 = t → complex t = true → o_val (make t (member_val d id) false None) = member_val d id.
Proof.
  intros Hm Ht Hc. rewrite make_val. unfold well_typed. rewrite Hc, <- Ht, conforms_strip.
  by rewrite (member_val_conforms _ _ _ Hm).
Qed.

Lemma many_complex l t : conforms (VMany l) t = true → complex (strip t) = true.
Proof. cbn. unfold complex. by destruct (table !! strip t) as [[]|]. Qed.

Lemma same_value_reads d d' id :
  same_value d d' → get_val d id = get_val d' id ∧ member_at d id = member_at d' id ∧ member_val d id = member_val d' id
    ∧ vals d = vals d'.
Proof. intros [Ht Hv]. unfold member_val, get_val, member_at, vals. by rewrite Ht, Hv. Qed.

(** The elements of a copy are those that the information counts. *)
Lemma copy_count d i info t tc k fuel j :
  info_by_index d i = (DDS_RETCODE_OK, info) → type_by_id d (mi_id info) = (DDS_RETCODE_OK, t) →
  resolved (TT := table_types) fuel t DDS_TK_NULL = Some (tc, k) → 1 <= j <= mi_element_count info →
  is_Some (get_val (make tc (member_val d (mi_id info)) false None) j).
Proof.
  intros (m & Hm & ->)%info_index (m' & Hm' & <-)%type_at Htc%resolved_strip. cbn [mi_id mi_element_count member_data] in *.
  intros Hj. pose proof (member_val_conforms _ _ _ Hm') as Hc.
  destruct (member_val d (Z.of_nat i + 1)) as [| |l] eqn:Hv; cbn in Hj; try lia.
  unfold get_val, vals. rewrite <- Hv, (copy_val _ _ _ tc Hm'); [|done | rewrite Htc; by eapply many_complex].
  rewrite Hv, (proj2 (Z.leb_le _ _)) by lia. apply lookup_lt_is_Some. unfold index. lia.
Qed.

#[export] Instance same_value_equiv : Equivalence same_value.
Proof.
  split; [by split | by intros d d' []; split | intros d1 d2 d3 [] []; split; congruence].
Qed.

(** Objects with the same members are the same. *)
Lemma same_value_ext d d' : o_type d = o_type d' → (∀ id, get_val d id = get_val d' id) → same_value d d'.
Proof.
  intros Ht Hg. split; [done|]. destruct (complex (o_type d)) eqn:Hc.
  - destruct (complex_many d Hc) as [-> _], (complex_many d') as [-> _]; [by rewrite <- Ht|]. f_equal.
    apply list_eq. intros i. specialize (Hg (Z.of_nat i + 1)). unfold get_val, index in Hg.
    rewrite (proj2 (Z.leb_le _ _)) in Hg by lia. by replace (Z.to_nat (Z.of_nat i + 1 - 1)) with i in Hg by lia.
  - rewrite (plain_value d Hc), (plain_value d'); [done | by rewrite <- Ht].
Qed.

#[export] Instance table_copy_laws : CopyLaws object nat (TT := table_types).
Proof.
  constructor; cbn.
  - apply _.
  - by intros d d' [-> _].
  - by intros d d' [-> _].
  - intros d d' [Ht Hv]. unfold vals. by rewrite Ht, Hv.
  - intros d d' Hs ? i ->. destruct (same_value_reads _ _ (Z.of_nat i + 1) Hs) as (_ & _ & Hm & _).
    unfold member_data. by rewrite (proj1 Hs), Hm.
  - intros d d' Hs ? id ->. by rewrite (proj1 (proj2 (same_value_reads _ _ id Hs))).
  - intros d d' Hs ? id ->. by rewrite (proj1 (same_value_reads _ _ id Hs)).
  - intros g d d' Hs ? id ->. by rewrite (proj1 (same_value_reads _ _ id Hs)).
  - intros d d' Hs ? id ->. unfold string_value, table_string_law, short_string.
    by rewrite (proj1 (same_value_reads _ _ id Hs)).
  - intros d d' Hs ? id -> ? n ->. by rewrite (proj1 (same_value_reads _ _ id Hs)).
  - intros d d' Hs ? id -> ? t ->. destruct (same_value_reads _ _ id Hs) as (_ & Hm & _ & Hl).
    unfold table_can_bind. by rewrite Hm, Hl.
  - intros d d' Hs ? id -> ? t ->. by rewrite (proj1 (proj2 (proj2 (same_value_reads _ _ id Hs)))).
  - intros d d' Hs ? id -> m m' [_ ->]. by apply put_val_same_value.
  - intros d id t. by destruct (make_rest t (member_val d id) false None) as (-> & _).
  - intros d i info t tc k fuel j Hi Ht Hr Hj. apply bool_decide_eq_true. exact (copy_count d i info t tc k fuel j Hi Ht Hr Hj).
  - intros d id t Hex Hbind. apply bool_decide_eq_true in Hex as [v Hv].
    apply andb_true_iff in Hbind as [[Hc Hl]%andb_true_iff Hm]. apply Nat.leb_le in Hl.
    destruct (member_at d id) as [m|] eqn:Hmem; [|done]. apply Nat.eqb_eq in Hm.
    rewrite (copy_val _ _ _ _ Hmem Hm Hc). unfold member_val. rewrite Hv.
    destruct (put_copy d d id v) as (d1 & Hput); [done..|]. rewrite Hput. cbn.
    destruct (put_val_rest d id v) as (Ht & _). rewrite Hput in Ht. cbn in Ht.
    apply same_value_ext; [done|]. intros id'. rewrite (put_val_get _ _ _ _ Hput). case_decide; [by subst | done].
  - intros dp dm id t Hp Hm [= <-]. destruct (o_member dp); [done|]. rewrite Hm.
    destruct (table_can_bind dp id (o_type dm)); [|done]. do 2 eexists. split; [done|].
    unfold same_value. rewrite !make_val. by destruct (make_rest (o_type dm) (member_val dp id) true (o_member dm)) as (-> & _),
      (make_rest (o_type dm) (member_val dp id) false None) as (-> & _).
  - intros dp dm id dp1 dm1 dm2 dp3 dm3. destruct (o_member dp); [done|]. destruct (o_bound dm); [done|].
    case_match; [|done]. intros [= <- <-] _. cbn. destruct (o_bound dm2); [|done]. intros [= <- <-].
    by destruct (put_val_same_value (with_member (Some id) dp) dp id (o_val dm2)) as [_ [? ?]].
  - by eexists.
  - intros d id room Hs. unfold string_value, table_string_law in Hs. by rewrite Hs.
  - intros d id n. repeat case_match; try done. intros _. cbn. rewrite length_take.
    match goal with H : (_ <=? _) = true |- _ => apply Z.leb_le in H end. lia.
  - intros d i. destruct (member_of _ _); [|done]. cbn. unfold count_of. case_match; lia.
Qed.


#[export] Instance table_write_laws : WriteLaws object nat.
Proof.
  constructor; cbn.
  - intros g d d' Hs ? id -> ? v ->. by apply put_code_same_value.
  - intros k d d' Hs ? id -> ? n -> ? v ->. by apply put_code_same_value.
  - intros d d' Hs ? id -> ? v ->. by apply put_code_same_value.
  - intros d d' [Ht Hv] ? name ->. rewrite Ht. case_match; [|done]. case_match; [|done].
    unfold member_data. by rewrite (proj1 (proj2 (proj2 (same_value_reads d d' _ (conj Ht Hv))))).
Qed.

(** *** Members *)

Lemma get_val_bounds d id v : get_val d id = Some v → 1 <= id ∧ (index id < length (vals d))%nat.
Proof.
  unfold get_val. case_match eqn:Hid; [|done]. intros Hv%lookup_lt_Some. by apply Z.leb_le in Hid.
Qed.

(** Where a member is that can be written. *)
Lemma reachable_index d id m :
  reachable d id → member_at d id = Some m → (index id ≤ length (vals d))%nat.
Proof.
  intros Hr Hm. assert (1 <= id) as Hid by (unfold member_at in Hm; case_match eqn:H; [by apply Z.leb_le | done]).
  unfold member_at in Hm. case_match; [|done]. unfold member_of in Hm.
  destruct (table !! o_type d) as [[]|] eqn:Ht; try done.
  - destruct (decide (id = 1)) as [->|Hne]; [unfold index; lia|].
    assert (member_exists d (id - 1) = true) as Hex.
    { apply Hr; [|lia]. left. cbn. by rewrite Ht. }
    apply bool_decide_eq_true in Hex as [v [_ Hl]%get_val_bounds]. unfold index in *. lia.
  - assert (complex (o_type d) = true) as Hc by (unfold complex; by rewrite Ht).
    destruct (complex_many d Hc) as [_ Hok]. apply (conforms_struct _ _ _ Ht) in Hok.
    apply lookup_lt_Some in Hm. pose proof (Forall2_length _ _ _ Hok). lia.
Qed.

Lemma copy_writes d d0 id v :
  o_type d0 = o_type d → reachable d0 id → get_val d id = Some v →
  ∃ d1, put_code d0 id v = (DDS_RETCODE_OK, d1) ∧ writes id d d0 d1.
Proof.
  intros Ht Hr Hv. destruct (get_val_member _ _ _ Hv) as (m & Hm & _).
  assert (member_at d0 id = Some m) as Hm0 by (unfold member_at in *; by rewrite Ht).
  destruct (put_copy d d0 id v Ht (reachable_index _ _ _ Hr Hm0) Hv) as (d1 & Hput).
  exists d1. unfold put_code. rewrite Hput. split; [done|]. destruct (put_val_rest d0 id v) as (Ht1 & _).
  rewrite Hput in Ht1. cbn in Ht1. constructor; cbn; [by rewrite Ht1 | |].
  - rewrite (put_val_get _ _ _ _ Hput), decide_True by done. done.
  - intros id' Hne. by rewrite (put_val_get _ _ _ _ Hput), decide_False.
Qed.

(** A new object has new members. *)
Lemma default_member d id m :
  o_val d = object_default (o_type d) → member_at d id = Some m → complex (strip m.2) = true →
  member_val d id = object_default (strip m.2).
Proof.
  destruct d as [t v b mb ok]. unfold member_val, member_at, get_val, vals, member_of. cbn. intros ->. clear ok.
  case_match eqn:Hid; [|done]. generalize (index id). intros i. clear Hid.
  each_type t; try done; try (by intros [= <-]; destruct i); each_below 6%nat i; try done; by intros [= <-].
Qed.


(** A member is found by its name. *)
Lemma index_of_member t i m l :
  table !! t = Some (DStruct l) → member_of t i = Some m → index_of t m.1 = Some i.
Proof.
  unfold member_of, index_of. intros Ht. rewrite Ht. intros Hm. pose proof (struct_names _ _ Ht) as Hnd.
  destruct (list_find (λ m', m'.1 = m.1) l) as [[j m']|] eqn:Hf.
  - apply list_find_Some in Hf as (Hj & Hname & _). cbn. f_equal.
    apply (NoDup_lookup l.*1 j i m.1); [done | by rewrite list_lookup_fmap, Hj; cbn; rewrite Hname | by rewrite list_lookup_fmap, Hm].
  - exfalso. apply list_find_None, Forall_lookup with (i := i) (x := m) in Hf; done.
Qed.

Lemma not_collection d : ¬ is_collection (get_type_kind d) → complex (o_type d) = true →
  ∃ l, table !! o_type d = Some (DStruct l).
Proof.
  cbn. unfold complex. intros Hk Hc. destruct (table !! o_type d) as [[]|]; try done; [|by eexists].
  destruct Hk. by left.
Qed.

Lemma member_struct d i m : ¬ is_collection (get_type_kind d) → member_of (o_type d) i = Some m →
  ∃ l, table !! o_type d = Some (DStruct l) ∧ l !! i = Some m.
Proof.
  cbn. unfold member_of. intros Hk Hm. destruct (table !! o_type d) as [[]|] eqn:Ht; try done; [|by eexists].
  destruct Hk. by left.
Qed.

Lemma struct_length d l : table !! o_type d = Some (DStruct l) → length (vals d) = length l.
Proof.
  intros Ht. assert (complex (o_type d) = true) as Hc by (unfold complex; by rewrite Ht).
  destruct (complex_many d Hc) as [_ Hok]. apply (conforms_struct _ _ _ Ht) in Hok. by apply Forall2_length in Hok.
Qed.

(** Structures have all their members. *)
Lemma struct_present d i m :
  ¬ is_collection (get_type_kind d) → member_of (o_type d) i = Some m → is_Some (get_val d (Z.of_nat i + 1)).
Proof.
  intros Hk Hm. destruct (member_struct _ _ _ Hk Hm) as (l & Hl & Hi%lookup_lt_Some).
  unfold get_val, index. rewrite (proj2 (Z.leb_le _ _)) by lia. apply lookup_lt_is_Some.
  rewrite (struct_length _ _ Hl). lia.
Qed.

Lemma empty_sequence d c :
  table !! o_type d = Some (DSequence c) → o_val d = object_default (o_type d) → vals d = [].
Proof.
  intros Ht Hv. unfold vals. rewrite Hv. unfold object_default, complex. rewrite Ht. cbn. by rewrite Ht.
Qed.

Lemma collection_sequence t k :
  TypeCode_kind (TypeCodes := table_types) t = Some k → is_collection k → ∃ c, table !! t = Some (DSequence c).
Proof. each_type t; intros [= <-] []; try done; by eexists. Qed.

Lemma empty_collection t v k :
  complex t = true → TypeCode_kind (TypeCodes := table_types) t = Some k → is_collection k →
  conforms v t = true → count_of v = 0 → object_default t = v.
Proof.
  intros Hc Hk Hcol Hconf Hcount. unfold object_default. rewrite Hc. pose proof (strip_complex _ Hc) as Hs.
  unfold complex in Hc. cbn in Hk.
  destruct (table !! t) as [[]|] eqn:Ht; try done; [|injection Hk as <-; by destruct Hcol].
  destruct v as [| |l]; cbn in Hconf; rewrite Hs, Ht in Hconf; try done.
  destruct l; [cbn; by rewrite Ht | cbn in Hcount; lia].
Qed.

Lemma c_str_same s : forallb (λ b, negb (b =? 0)) s = true → c_str s = s.
Proof.
  induction s as [|b s IH]; [done|]. cbn. intros [Hb Hs]%andb_true_iff. apply negb_true_iff in Hb. rewrite Hb.
  by rewrite IH.
Qed.

#[export] Instance table_sample_laws : SampleLaws object nat (TT := table_types).
Proof.
  constructor; cbn [member_same table_rel cleared reads_same table_copies complex_member set_complex_member can_bind].
  - intros id. split; [done | by intros d d' | intros d1 d2 d3 H1 H2; by rewrite H1].
  - intros d d' [= Ht] Hg. by apply same_value_ext.
  - intros id d d' Hg. cbn. by rewrite Hg.
  - intros id d d' tc [= Ht] Hg. unfold member_val, member_at. by rewrite Hg, Ht.
  - intros id d d' _ Hd Hd'. cbn in *. apply bool_decide_eq_false, eq_None_not_Some in Hd, Hd'. by rewrite Hd, Hd'.
  - intros d d' [= Ht]. cbn. by rewrite Ht.
  - intros d tc k [= <-] [= <-]. done.
  - intros d d' id [= Ht]. cbn. unfold member_at. by rewrite Ht.
  - intros d d' id tc [= Ht] Hr. unfold table_can_bind. rewrite !andb_true_iff. intros [[Hc _] Hm].
    assert (member_at d id = member_at d' id) as Heq by (unfold member_at; by rewrite Ht). rewrite Heq in Hm.
    split; [|done]. split; [done|]. destruct (member_at d' id) as [m|] eqn:Hmem; [|done].
    apply Nat.leb_le. by eapply reachable_index.
  - intros d d' i info [= Ht] Hk (m & Hm & ->)%info_index. destruct (member_struct _ _ _ Hk Hm) as (l & Hl & _).
    exists (member_data d' i m). cbn. rewrite <- Ht, (index_of_member _ _ _ _ Hl Hm), Hm. done.
  - intros d id Hk Hex. cbn in Hex. apply bool_decide_eq_true in Hex as [v Hv].
    destruct (get_val_bounds _ _ _ Hv) as [Hid Hlt]. pose proof (get_val_complex _ _ _ Hv) as Hc.
    destruct (get_val_member _ _ _ Hv) as (m & Hm & _), (not_collection _ Hk Hc) as [l Hl].
    destruct (complex_many d Hc) as [_ Hok]. apply (conforms_struct _ _ _ Hl) in Hok. apply Forall2_length in Hok.
    assert (member_of (o_type d) (index id) = Some m) as Hm'.
    { unfold member_at in Hm. by rewrite (proj2 (Z.leb_le _ _) Hid) in Hm. }
    exists (index id), (member_data d (index id) m). cbn. rewrite Hl, Hm'. split; [lia|]. split; [done|]. unfold index. lia.
  - intros d i j info info' Hk (m & Hm & ->)%info_index (m' & Hm' & ->)%info_index.
    destruct (member_struct _ _ _ Hk Hm) as (l & Hl & Hi), (member_struct _ _ _ Hk Hm') as (l' & Hl' & Hj).
    cbn. intros [Hname|Hid]; [|lia]. pose proof (index_of_member _ _ _ _ Hl Hm) as H1.
    pose proof (index_of_member _ _ _ _ Hl Hm') as H2. congruence.
  - intros d i info _ (m & _ & ->)%info_index. done.
  - intros d tc el j [= <-] Hk Hel Hex. cbn in *. apply bool_decide_eq_true in Hex as [v [Hj _]%get_val_bounds].
    unfold member_at, member_of, content_of in *. rewrite (proj2 (Z.leb_le _ _) Hj).
    destruct (table !! o_type d) as [[]|]; try done; [by injection Hel as -> | by destruct Hk].
  - intros d i info t tc k fuel j (m & Hm & ->)%info_index (m' & Hm' & <-)%type_at ->%resolved_strip _ Hex.
    cbn [mi_id mi_element_count member_data] in *. cbn in Hex. apply bool_decide_eq_true in Hex as [v Hv].
    pose proof (get_val_complex _ _ _ Hv) as Hc.
    destruct (make_rest (strip m'.2) (member_val d (Z.of_nat i + 1)) false None) as (Ht & _). rewrite Ht in Hc.
    apply get_val_bounds in Hv as [Hj Hlt]. unfold vals in Hlt. rewrite (copy_val _ _ _ _ Hm' eq_refl Hc) in Hlt.
    unfold index, count_of in *. destruct (member_val d (Z.of_nat i + 1)); cbn in *; lia.
  - intros d i. cbn. destruct (member_of (o_type d) i) as [m|] eqn:Hm; [|cbn; unfold is_u32; lia].
    apply member_at_index, member_val_conforms, count_small in Hm. unfold is_u32. cbn.
    split; [|done]. unfold count_of. case_match; lia.
  - intros d id s Hs. cbn in Hs. unfold short_string in Hs. repeat case_match; try done. injection Hs as <-.
    match goal with H : _ && _ = true |- _ => apply andb_true_iff in H as [_ H] end. by apply c_str_same.
  - intros d d' [Ht Hv] Hc. by rewrite <- Ht, <- Hv.
  - intros d d' id Hc [= Ht] Hex. cbn in *. apply bool_decide_eq_false, eq_None_not_Some in Hex.
    apply bool_decide_eq_false, eq_None_not_Some. destruct (get_val d id) as [v|] eqn:Hv; [|done].
    destruct (get_val_bounds _ _ _ Hv) as [Hid Hlt]. pose proof (get_val_complex _ _ _ Hv) as Hcx.
    unfold get_val in Hex. rewrite (proj2 (Z.leb_le _ _) Hid) in Hex. apply lookup_ge_None in Hex.
    unfold complex in Hcx. destruct (table !! o_type d) as [[]|] eqn:Htab; try done.
    + rewrite (empty_sequence _ _ Htab Hc) in Hlt. cbn in Hlt. lia.
    + rewrite (struct_length d _ Htab) in Hlt. rewrite Ht in Htab. rewrite (struct_length d' _ Htab) in Hex. lia.
  - intros d d' i info t tc k fuel Hc [= Ht] Hk (m & Hm & ->)%info_index (m' & Hm' & <-)%type_at Hres Hcol Hcount.
    cbn [mi_id mi_element_count member_data] in *. pose proof (resolved_strip _ _ _ _ Hres) as ->.
    apply resolved_kind in Hres. rewrite (member_at_index _ _ _ Hm) in Hm'. injection Hm' as <-.
    destruct (struct_present d' i m Hk Hm) as [v' Hv'].
    assert (member_of (o_type d) i = Some m) as Hmd by by rewrite Ht.
    destruct (struct_present d i m) as [v Hv]; [cbn in *; by rewrite Ht | done |].
    assert (complex (strip m.2) = true) as Hcm.
    { destruct (collection_sequence _ _ Hres Hcol) as [c Htab]. unfold complex. by rewrite Htab. }
    pose proof (default_member d _ m Hc (member_at_index _ _ _ Hmd) Hcm) as Hdef.
    unfold member_val in Hdef, Hcount. rewrite Hv in Hdef. rewrite Hv' in Hcount. rewrite Hv, Hv', Hdef.
    destruct (get_val_member _ _ _ Hv') as (m' & Hm' & Hconf). rewrite (member_at_index _ _ _ Hm) in Hm'.
    injection Hm' as <-. f_equal. rewrite <- conforms_strip in Hconf. by eapply empty_collection.
  - intros d id t tc k fuel Hc (m & Hm & <-)%type_at ->%resolved_strip.
    destruct (make_rest (strip m.2) (member_val d id) false None) as (-> & _).
    rewrite make_val. case_match; [|done]. unfold well_typed, object_default in *.
    destruct (complex (strip m.2)) eqn:Hcm.
    + rewrite (default_member _ _ _ Hc Hm Hcm). unfold object_default. by rewrite Hcm.
    + by destruct (member_val d id) as [[]| |].
  - intros d d0 id t tc k g a fuel v [= Ht] Hr _ _ _ Hget. cbn in *.
    destruct (get_val d id) as [[z| |]|] eqn:Hv; try done. destruct (number_ok g z); [|done].
    injection Hget as <-. by apply copy_writes.
  - intros d d0 id s [= Ht] Hr Hs. cbn in Hs. unfold short_string in Hs.
    destruct (get_val d id) as [[| s'|]|] eqn:Hv; try done. case_match; [|done]. injection Hs as ->. by apply copy_writes.
  - intros d d0 i info b [= Ht] Hr (m & Hm & ->)%info_index. cbn [mi_id mi_element_count member_data] in *. cbn.
    unfold member_val. destruct (get_val d (Z.of_nat i + 1)) as [v|] eqn:Hv; [|done].
    destruct v as [| |l]; try done. cbn. destruct (mapM number_of l) as [b'|] eqn:Hb; [|done].
    apply mapM_Some in Hb. pose proof (Forall2_length _ _ _ Hb) as Hl. rewrite Hl, Z.leb_refl, Nat2Z.id.
    intros [= <-]. rewrite firstn_all. replace (VMany (VNum <$> b')) with (VMany l); [by apply copy_writes|].
    f_equal. clear -Hb. induction Hb as [|v z l b' Hvz _ IH]; [done|]. cbn. rewrite <- IH.
    destruct v; try done. by injection Hvz as ->.
  - intros d d0 id tc dm [= Ht] Hr Hbind Hex [_ Hdm]. cbn in Hex. apply bool_decide_eq_true in Hex as [v Hv].
    apply andb_true_iff in Hbind as [[Hc _]%andb_true_iff Hm].
    assert (member_at d id = member_at d0 id) as Heq by (unfold member_at; by rewrite Ht). rewrite <- Heq in Hm.
    destruct (member_at d id) as [m|] eqn:Hmem; [|done]. apply Nat.eqb_eq in Hm.
    rewrite (copy_val _ _ _ _ Hmem Hm Hc) in Hdm. unfold member_val in Hdm. rewrite Hv in Hdm. rewrite Hdm.
    destruct (copy_writes d d0 id v Ht Hr Hv) as (d1 & Hput & Hw). unfold put_code in Hput.
    by injection Hput as _ ->.
Qed.

