(* ===== verification/MessageTables.v ===== *)
(** A small reflection library on which the theorems of the conversions hold: a
    descriptor is an index into a table of descriptors, a message is a list of
    named values; and the messages that were made for the types of
    ConversionTables. *)
From Stdlib Require Import ZArith Lia.
From stdpp Require Import base gmap strings list option fin_maps.
From S2P Require Import Prelude DynHelpers DynDataUtils MessageConversion ConversionSessions ConversionReference.
From S2P Require Import SampleReference ConversionRoundTrip ConversionTables.

#[local] Open Scope string_scope.
#[local] Open Scope list_scope.
#[local] Open Scope Z_scope.

(** ** Messages *)

Inductive mval :=
  | MNum (z : Z)
  | MString (s : list Z)
  | MMessage (descriptor : nat) (fields : list (string * mval))
  | MRepeated (l : list mval).

Record field := Field { f_name : string; f_type : field_type; f_repeated : bool; f_message : nat }.

Definition descriptors : list (list field) :=
  [[Field "x" TYPE_INT32 false 0; Field "name" TYPE_STRING false 0];
   [Field "id" TYPE_INT32 false 0; Field "pos" TYPE_MESSAGE false 0; Field "path" TYPE_MESSAGE true 0;
    Field "tags" TYPE_STRING true 0; Field "raw" TYPE_BYTES false 0]].

#[export] Instance field_eq_dec : EqDecision field.
Proof. solve_decision. Defined.

Definition fields_at (k : nat) : list field := default [] (descriptors !! k).

Definition descriptor_of (m : mval) : nat := match m with MMessage d _ => d | _ => 0 end.
Definition fields_of (m : mval) : list (string * mval) := match m with MMessage _ l => l | _ => [] end.

Fixpoint find_entry (name : string) (l : list (string * mval)) : option mval :=
  match l with
  | [] => None
  | e :: l => if decide (e.1 = name) then Some e.2 else find_entry name l
  end.

Definition get_field (m : mval) (fd : field) : option mval := find_entry (f_name fd) (fields_of m).
Definition set_field (m : mval) (fd : field) (v : mval) : mval :=
  MMessage (descriptor_of m) ((f_name fd, v) :: filter (λ e, e.1 ≠ f_name fd) (fields_of m)).

Definition repeated (m : mval) (fd : field) : list mval :=
  match get_field m fd with Some (MRepeated l) => l | _ => [] end.
Definition add_field (m : mval) (fd : field) (v : mval) : mval :=
  set_field m fd (MRepeated (repeated m fd ++ [v])).

Definition number (v : option mval) : Z := match v with Some (MNum z) => z | _ => 0 end.
Definition text_of (v : option mval) : list Z := match v with Some (MString s) => s | _ => [] end.
(** The message of a field, or an empty one. *)
Definition message_of (fd : field) (v : option mval) : mval := default (MMessage (f_message fd) []) v.

#[local] Arguments get_field : simpl never.
#[local] Arguments set_field : simpl never.
#[local] Arguments repeated : simpl never.
#[local] Arguments add_field : simpl never.

#[export] Instance table_reflection : Reflection mval field := {|
  has_descriptor m := true;
  has_reflection m := true;
  FindFieldByName m name :=
    snd <$> list_find (λ f, f_name f = name) (fields_at (descriptor_of m));
  ListFields m := filter (λ f, is_Some (get_field m f)) (fields_at (descriptor_of m));
  HasField m fd := match get_field m fd with Some _ => true | None => false end;
  FieldSize m fd := length (repeated m fd);
  field_name := f_name;
  type := f_type;
  is_repeated := f_repeated;
  is_map fd := false;
  set_number a m fd z := set_field m fd (MNum z);
  add_number a m fd z := add_field m fd (MNum z);
  get_number a m fd := number (get_field m fd);
  get_repeated_number a m fd i := number (repeated m fd !! i);
  SetString m fd s := set_field m fd (MString s);
  AddString m fd s := add_field m fd (MString s);
  GetString m fd := text_of (get_field m fd);
  GetRepeatedString m fd i := text_of (repeated m fd !! i);
  enum_known m fd i := true;
  MutableMessage m fd := Some (MMessage (f_message fd) (fields_of (message_of fd (get_field m fd))));
  AddMessage m fd := Some (MMessage (f_message fd) []);
  put_mutable m fd sub := set_field m fd sub;
  put_added m fd sub := add_field m fd sub;
  GetMessage m fd := message_of fd (get_field m fd);
  GetRepeatedMessage m fd i := message_of fd (repeated m fd !! i)
|}.

(** ** Fields *)

Lemma found_field k name fd : snd <$> list_find (λ f, f_name f = name) (fields_at k) = Some fd → fd ∈ fields_at k ∧ f_name fd = name.
Proof.
  destruct (list_find _ _) as [[i f]|] eqn:Hf; [|done]. intros [= <-].
  apply list_find_Some in Hf as (Hi & Hn & _). split; [by eapply list_elem_of_lookup_2 | done].
Qed.

Lemma fields_nodup k : NoDup (fields_at k).
Proof. destruct k as [|[|k]]; [by apply (bool_decide_unpack _).. |]. destruct k; constructor. Qed.

(** Names are unique. *)
Lemma names_nodup k : NoDup (f_name <$> fields_at k).
Proof. destruct k as [|[|k]]; [by apply (bool_decide_unpack _).. |]. destruct k; constructor. Qed.

Lemma find_member k fd : fd ∈ fields_at k → snd <$> list_find (λ f, f_name f = f_name fd) (fields_at k) = Some fd.
Proof.
  intros Hin. destruct (list_find _ _) as [[i f]|] eqn:Hf.
  - apply list_find_Some in Hf as (Hi & Hn & _). apply list_elem_of_lookup_1 in Hin as [j Hj]. cbn. f_equal.
    assert (i = j) as ->; [|congruence].
    apply (NoDup_lookup _ i j (f_name fd) (names_nodup k)); rewrite list_lookup_fmap; [by rewrite Hi, <- Hn | by rewrite Hj].
  - exfalso. apply list_find_None in Hf. rewrite Forall_forall in Hf. by apply (Hf fd).
Qed.

Lemma owned_field m fd : owned (MSG := mval) m fd ↔ fd ∈ fields_at (descriptor_of m).
Proof.
  split; [intros [name Hf]; by apply found_field in Hf as [? _] | intros Hin; exists (f_name fd); by apply find_member].
Qed.

Lemma find_entry_other name name' l :
  name' ≠ name → find_entry name' (filter (λ e, e.1 ≠ name) l) = find_entry name' l.
Proof.
  intros Hne. induction l as [|e l IH]; [done|]. rewrite filter_cons. cbn. case_decide as H1; cbn; rewrite IH; [done|].
  case_decide; [|done]. destruct H1. by subst.
Qed.

Lemma get_set_field m fd v : get_field (set_field m fd v) fd = Some v.
Proof. unfold get_field, set_field. cbn. by rewrite decide_True. Qed.

Lemma get_set_other m fd fd' v : f_name fd' ≠ f_name fd → get_field (set_field m fd v) fd' = get_field m fd'.
Proof.
  intros Hne. unfold get_field, set_field. cbn. rewrite decide_False by congruence. by apply find_entry_other.
Qed.

Lemma repeated_add m fd v : repeated (add_field m fd v) fd = repeated m fd ++ [v].
Proof. unfold add_field, repeated at 1. by rewrite get_set_field. Qed.

Lemma listed_field m fd : fd ∈ ListFields m ↔ is_Some (get_field m fd) ∧ fd ∈ fields_at (descriptor_of m).
Proof. cbn. by rewrite list_elem_of_filter. Qed.

Lemma addition_add m fd m' : addition m fd m' → ∃ v, m' = add_field m fd v.
Proof. intros []; by eexists. Qed.

Lemma mutation_set m fd m' : mutation m fd m' → ∃ v, m' = set_field m fd v.
Proof. intros [a v|s|sub|m2 (v & ->)%addition_add]; by eexists. Qed.

Lemma unlisted_field m fd : owned m fd → fd ∉ ListFields m → get_field m fd = None.
Proof.
  intros Ho%owned_field Hn. destruct (get_field m fd) eqn:Hg; [|done]. destruct Hn. apply listed_field.
  by rewrite Hg.
Qed.

Lemma empty_message k : ListFields (MMessage k []) = [].
Proof. cbn. induction (fields_at k) as [|f l IH]; [done|]. rewrite filter_cons, IH. case_decide as H; [by destruct H | done]. Qed.

#[export] Instance table_number_laws : NumberLaws (DS := table_scalars) (RF := table_reflection).
Proof.
  constructor; cbn.
  - intros. by rewrite get_set_field.
  - intros. rewrite repeated_add, length_app. cbn. lia.
  - intros. by rewrite repeated_add, list_lookup_middle.
  - intros a m fd v i _ Hi. by rewrite repeated_add, lookup_app_l.
  - intros g d id v. destruct (get_val d id) as [[z| |]|]; try done. unfold number_ok, fits.
    destruct (Z.leb_spec (scalar_min g) z), (Z.leb_spec z (scalar_max g)); cbn; intros [= <-]; done.
Qed.

#[export] Instance table_message_laws : MessageLaws mval field.
Proof.
  constructor.
  - by intros m name fd [_ ?]%found_field.
  - intros m. apply NoDup_filter, fields_nodup.
  - intros m fd [_ Hin]%listed_field. by apply owned_field.
  - intros m fd Ho Hn. cbn. unfold repeated. by rewrite (unlisted_field _ _ Ho Hn).
  - intros m fd m' (v & ->)%mutation_set. by split.
  - intros m fd m' fd' (v & ->)%mutation_set Ho%owned_field Ho'%owned_field Hne.
    assert (f_name fd' ≠ f_name fd) as Hn.
    { intros Heq. apply Hne. apply find_member in Ho, Ho'. rewrite Heq in Ho'. congruence. }
    assert (repeated (set_field m fd v) fd' = repeated m fd') as Hr by (unfold repeated; by rewrite get_set_other).
    split; cbn; rewrite ?get_set_other, ?Hr by done; try done.
    + change (fd' ∈ ListFields m ↔ fd' ∈ ListFields (set_field m fd v)). rewrite !listed_field, get_set_other by done. done.
    + split; cbn; rewrite ?Hr; done.
  - intros m fd m' (v & ->)%mutation_set Ho%owned_field. apply listed_field. by rewrite get_set_field.
  - intros. cbn. by rewrite get_set_field.
  - intros. cbn. by rewrite get_set_field.
  - intros. cbn. by rewrite get_set_field.
  - intros. cbn. by rewrite get_set_field.
  - intros. cbn. by rewrite get_set_field.
  - intros m fd m' (v & ->)%addition_add. cbn. rewrite repeated_add, length_app. cbn. lia.
  - intros m fd m' j (v & ->)%addition_add Hj. cbn in Hj.
    split; cbn; intros; by rewrite repeated_add, lookup_app_l.
  - intros. cbn. by rewrite repeated_add, list_lookup_middle.
  - intros. cbn. by rewrite repeated_add, list_lookup_middle.
  - intros m fd sub Ho Hn. cbn. rewrite (unlisted_field _ _ Ho Hn). intros [= <-]. apply empty_message.
  - intros m fd sub [= <-]. apply empty_message.
Qed.

(** ** Messages for types *)

Definition table_speaks (t : nat) (m : mval) : Prop :=
  t = 5%nat ∧ descriptor_of m = 0%nat ∨ t = 8%nat ∧ descriptor_of m = 1%nat.

Lemma schema_descriptors m m' : schema_same m m' → ∀ name,
  snd <$> list_find (λ f, f_name f = name) (fields_at (descriptor_of m))
  = snd <$> list_find (λ f, f_name f = name) (fields_at (descriptor_of m')).
Proof. intros [_ _ H]. exact H. Qed.

(** A member of the table and its field, by computation. *)
Ltac fit_value :=
  split; [done|]; cbn -[resolved];
  first [ by left | reflexivity | by split; [|do 2 eexists; split]
        | do 2 eexists; split; [reflexivity|]; split; [reflexivity | done] ].
Ltac fit_member :=
  split; [|split];
    [ split; [reflexivity|];
      lazymatch goal with
      | |- (if ?b then _ else _) => let b' := eval vm_compute in b in replace b with b' by reflexivity
      end; cbn iota;
      first [ fit_value
            | let el := fresh in let t := fresh in let k := fresh in
              let H1 := fresh in let H2 := fresh in
              intros el t k H1 H2; vm_compute in H1; injection H1 as <-; vm_compute in H2; injection H2 as <- <-; fit_value ]
    | intros Hby; try (by vm_compute in Hby); clear Hby; intros []; try done; cbn; intros sub [= <-]; by left
    | intros []; try done; intros el t' k sub Hel Hk [= <-];
      vm_compute in Hel; injection Hel as <-; vm_compute in Hk; injection Hk as <- <-; by left ].

(** The members of the two types, one by one. *)
#[export] Instance table_schema : Schema object nat mval field (TT := table_types) 10.
Proof.
  refine {| speaks := table_speaks |}.
  - intros t m m' Hs Ht. pose proof (schema_descriptors _ _ Hs) as Hf.
    destruct Ht as [[-> Hd]|[-> Hd]]; [left | right]; (split; [done|]); rewrite Hd in Hf.
    + specialize (Hf "x"). destruct (descriptor_of m') as [|[|k]]; [done | by cbv in Hf | by destruct k].
    + specialize (Hf "pos"). destruct (descriptor_of m') as [|[|k]]; [by cbv in Hf | done | by destruct k].
  - intros tp m d i info t tc kind fd Hsp [= Htp] (mem & Hmem & ->)%info_index (mem' & Hmem' & <-)%type_at Hres.
    cbn [mi_id member_data] in Hmem'. rewrite (member_at_index _ _ _ Hmem) in Hmem'. injection Hmem' as <-.
    rewrite Htp in Hmem. cbn [mi_name member_data FindFieldByName table_reflection].
    destruct Hsp as [[-> Hd]|[-> Hd]]; rewrite Hd.
    + destruct i as [|[|i]]; [injection Hmem as <- .. | by destruct i]; vm_compute in Hres; injection Hres as <- <-;
        intros Hfd; vm_compute in Hfd; injection Hfd as <-; fit_member.
    + destruct i as [|[|[|[|[|i]]]]]; [injection Hmem as <- .. | by destruct i]; vm_compute in Hres; injection Hres as <- <-;
        intros Hfd; vm_compute in Hfd; injection Hfd as <-; fit_member.
Defined.

