(* ===== verification/ProtobufConverter.v ===== *)
(** The message converter of the Protobuf transformation
    (common/protobuf2dds/srcCxx: ProtobufDescriptorSet.cxx,
    ProtobufDynamicDataConverter.cxx): the search of a message in a descriptor
    set, and the converter object.  The Protobuf library is a parameter, and so
    are the conversions between messages and samples. *)
From Stdlib Require Import ZArith Lia.
From stdpp Require Import base strings list option.
From S2P Require Import Prelude.

#[local] Open Scope list_scope.
#[local] Open Scope Z_scope.

(** google::protobuf: descriptors, a pool that builds files ([None]: nullptr;
    otherwise its top level messages, [message_type(j)]), messages.  A message
    object and its prototype have one type. *)
Class Protobuf := {
  FileDescriptorProto : Type;
  DescriptorPool : Type;
  Descriptor : Type;
  Message : Type;
  empty_pool : DescriptorPool;
  BuildFile : DescriptorPool → FileDescriptorProto → option (list (option Descriptor)) * DescriptorPool;
  full_name : Descriptor → string;
  GetPrototype : Descriptor → option Message;
  New : Message → option Message;
  Clear : Message → Message;
  ParseFromArray : Message → list Z → Z → bool * Message;
  SerializeToString : Message → list Z → bool * list Z;
  (* ParseFromIstream on the file of a name, into an empty descriptor set *)
  ParseFromFile : string → list FileDescriptorProto
}.

(** protobuf_to_dds (ProtobufToDds.cpp) and dds_to_protobuf (DdsToProtobuf.cpp)
    on the state that the converter keeps for them: the result, and the objects
    afterwards. *)
Class Conversion {PB : Protobuf} (DD : Type) := {
  ConverterState : Type;
  empty_state : ConverterState;
  protobuf_to_dds : ∀ {E}, DD → Message → M ConverterState E (bool * DD);
  dds_to_protobuf : ∀ {E}, Message → DD → M ConverterState E (bool * Message * DD)
}.

(** What the conversions promise: from a state as the converter leaves it, and
    with a sample that can be converted, they return, and leave both so. *)
Class ConversionContract {PB : Protobuf} {DD : Type} (CO : Conversion DD) := {
  state_ok : ConverterState → Prop;
  sample_ok : DD → Prop;
  empty_state_ok : state_ok empty_state;
  protobuf_to_dds_ok : ∀ E cs d m, state_ok cs → sample_ok d →
    wp (protobuf_to_dds (E := E) d m) (λ r cs', state_ok cs' ∧ sample_ok r.2) no_jump cs;
  dds_to_protobuf_ok : ∀ E cs d m, state_ok cs → sample_ok d →
    wp (dds_to_protobuf (E := E) m d) (λ r cs', state_ok cs' ∧ sample_ok r.2) no_jump cs
}.

Section converter.
Context {PB : Protobuf}.

(** ** ProtobufDescriptorSet.cxx *)

Definition parse_descriptor_set (descriptorFile : string) : list FileDescriptorProto :=
  ParseFromFile descriptorFile.

Definition build_file {E} (f : FileDescriptorProto)
    : M DescriptorPool E (option (list (option Descriptor))) := λ pool,
  Ok (BuildFile pool f).1 (BuildFile pool f).2.

(** The loop over j; a return of the function is a jump.  A null message is
    logged by its name. *)
Fixpoint search_messages (msg_name : string) (l : list (option Descriptor))
    : M DescriptorPool (option Message) () :=
  match l with
  | [] => mret ()
  | None :: _ => fail NullDeref
  | Some msg_desc :: l' =>
      when (bool_decide (msg_name = full_name msg_desc)) (goto (GetPrototype msg_desc));;
      search_messages msg_name l'
  end.

(** The loop over i. *)
Fixpoint search_files (msg_name : string) (files : list FileDescriptorProto)
    : M DescriptorPool (option Message) () :=
  match files with
  | [] => mret ()
  | file_desc_proto :: files' =>
      file_desc ← build_file file_desc_proto;
      match file_desc with
      | None => goto None
      | Some message_types => search_messages msg_name message_types;; search_files msg_name files'
      end
  end.

Definition load_message_prototype {E} (desc_set : list FileDescriptorProto) (msg_name : string)
    : M DescriptorPool E (option Message) :=
  labelled (search_files msg_name desc_set;; mret None) mret.

(** ** ProtobufDynamicDataConverter.cxx *)

Context {DD : Type} {CO : Conversion DD}.

Record ProtobufDynamicDataConverter := Converter {
  conv_state_ : ConverterState;
  pb_msg_proto_ : Message;
  pb_msg_ : Message
}.

(** The constructor; a jump is an exception. *)
Definition new_converter (pbDescriptorSet : list FileDescriptorProto) (pbMessageName : string)
    : M DescriptorPool () ProtobufDynamicDataConverter :=
  proto ← load_message_prototype pbDescriptorSet pbMessageName;
  match proto with
  | None => goto ()
  | Some proto =>
      match New proto with
      | None => goto ()
      | Some msg => mret (Converter empty_state proto msg)
      end
  end.

Definition with_msg (self : ProtobufDynamicDataConverter) (m : Message) : ProtobufDynamicDataConverter :=
  Converter (conv_state_ self) (pb_msg_proto_ self) m.
Definition with_state (cs : ConverterState) (self : ProtobufDynamicDataConverter) : ProtobufDynamicDataConverter :=
  Converter cs (pb_msg_proto_ self) (pb_msg_ self).

(** The methods run on the converter object. *)
Definition get_self {E} : M ProtobufDynamicDataConverter E ProtobufDynamicDataConverter := λ self, Ok self self.
Definition put_msg {E} (m : Message) : M ProtobufDynamicDataConverter E () := λ self, Ok () (with_msg self m).
Definition on_conv_state {E A} (m : M ConverterState E A) : M ProtobufDynamicDataConverter E A :=
  zoom conv_state_ with_state m.

(** The result, and the sample afterwards. *)
Definition conv_deserialize {E} (data : DD) (serialized_data : list Z) (serialized_data_len : Z)
    : M ProtobufDynamicDataConverter E (bool * DD) :=
  self ← get_self;
  let parsed := ParseFromArray (Clear (pb_msg_ self)) serialized_data (s32 serialized_data_len) in
  put_msg parsed.2;;
  if negb parsed.1 then mret (false, data)
  else
    r ← on_conv_state (protobuf_to_dds data parsed.2);
    if negb r.1 then mret (false, r.2) else mret (true, r.2).

(** The result, the string and the sample afterwards. *)
Definition conv_serialize {E} (data : DD) (serialized_data : list Z)
    : M ProtobufDynamicDataConverter E (bool * list Z * DD) :=
  self ← get_self;
  filled ← on_conv_state (dds_to_protobuf (Clear (pb_msg_ self)) data);
  put_msg filled.1.2;;
  if negb filled.1.1 then mret (false, serialized_data, filled.2)
  else
    let r := SerializeToString filled.1.2 serialized_data in
    if negb r.1 then mret (false, r.2, filled.2) else mret (true, r.2, filled.2).
End converter.

(** * Specifications *)
Section theorems.
Context {PB : Protobuf}.

(** What Protobuf documents: the messages of a file that was built are there,
    a prototype can be made of each and a message of each prototype. *)
Class DescriptorLaws := {
  built_messages : ∀ pool f l pool', BuildFile pool f = (Some l, pool') → Forall is_Some l;
  prototype_of : ∀ d, is_Some (GetPrototype d);
  new_of : ∀ m, is_Some (New m)
}.

(** What is serialized is parsed back, by any object of the message's type, and
    the object to parse into is cleared first. *)
Class WireLaws := {
  same_type : Message → Message → Prop;
  parse_serialized : ∀ m m0 old bytes, same_type m m0 → SerializeToString m old = (true, bytes) →
    Z.of_nat (length bytes) < 2 ^ 31 →
    ParseFromArray (Clear m0) bytes (Z.of_nat (length bytes)) = (true, m)
}.

(** The reference: the messages that the files which can be built declare, up to
    the first file that cannot. *)
Fixpoint declared (pool : DescriptorPool) (files : list FileDescriptorProto) : list Descriptor :=
  match files with
  | [] => []
  | f :: files' =>
      match BuildFile pool f with
      | (None, _) => []
      | (Some l, pool') => omap id l ++ declared pool' files'
      end
  end.

Definition named (name : string) (d : Descriptor) : Prop := name = full_name d.
#[export] Instance named_dec name d : Decision (named name d).
Proof. unfold named. apply _. Defined.

(** The first message of that name. *)
Definition find_message (name : string) (l : list Descriptor) : option Message :=
  d ← head (filter (named name) l); GetPrototype d.

Context {DL : DescriptorLaws} {DD : Type} {CO : Conversion DD}.

Lemma search_messages_spec name l pool :
  Forall is_Some l →
  search_messages name l pool =
    match head (filter (named name) (omap id l)) with
    | Some d => Jump (GetPrototype d) pool
    | None => Ok () pool
    end.
Proof.
  induction 1 as [|x l [d ->] _ IH]; [done|]. cbn [search_messages omap list_omap id].
  rewrite filter_cons. unfold named at 1, when, mbind, M_bind. case_decide as Hd.
  - by rewrite bool_decide_true.
  - rewrite bool_decide_false by done. cbn. apply IH.
Qed.

Lemma search_files_spec {E} name files pool :
  ∃ pool', labelled (E2 := E) (search_files name files;; mret None) mret pool
             = Ok (find_message name (declared pool files)) pool'.
Proof.
  revert pool. induction files as [|f files IH]; intros pool; [by exists pool|].
  cbn [search_files declared]. unfold labelled, build_file, mbind, M_bind in *.
  destruct (BuildFile pool f) as [[l|] pool1] eqn:Hb; cbn [fst snd].
  2: { by exists pool1. }
  rewrite search_messages_spec by by eapply built_messages.
  unfold find_message. rewrite list.filter_app.
  destruct (filter (named name) (omap id l)) as [|d k]; [apply IH | by exists pool1].
Qed.


(** The constructor throws exactly when the message is not found. *)
Lemma new_converter_spec name files pool :
  match find_message name (declared pool files) with
  | None => ∃ pool', new_converter files name pool = Jump () pool'
  | Some proto => ∃ msg pool', New proto = Some msg
      ∧ new_converter files name pool = Ok (Converter empty_state proto msg) pool'
  end.
Proof.
  destruct (search_files_spec (E := ()) name files pool) as [pool' Hl].
  unfold new_converter, load_message_prototype. rewrite (bind_Ok _ _ _ _ _ Hl).
  destruct (find_message name (declared pool files)) as [proto|]; [|by exists pool'].
  destruct (new_of proto) as [msg Hmsg]. exists msg, pool'. by rewrite Hmsg.
Qed.

(** The methods return, and leave the converter and the sample as the
    conversions need them. *)
Definition converter_ok {CC : ConversionContract CO} (self : ProtobufDynamicDataConverter) : Prop :=
  state_ok (conv_state_ self).

Lemma conv_deserialize_ok {CC : ConversionContract CO} {E} d b n self :
  converter_ok self → sample_ok d →
  wp (conv_deserialize (E := E) d b n) (λ r self', converter_ok self' ∧ sample_ok r.2) no_jump self.
Proof.
  intros Hself Hd. unfold conv_deserialize. apply wp_bind.
  change (wp (get_self (E := E)) ?Q ?R self) with (Q self self). cbn beta zeta. apply wp_bind.
  change (wp (put_msg (E := E) ?m) ?Q ?R self) with (Q () (with_msg self m)). cbn beta.
  destruct (negb _); [by split|]. apply wp_bind, wp_zoom.
  eapply wp_mono; [by apply protobuf_to_dds_ok | | done]. intros [[] d'] cs' [Hcs Hd']; by split.
Qed.

Lemma conv_serialize_ok {CC : ConversionContract CO} {E} d b self :
  converter_ok self → sample_ok d →
  wp (conv_serialize (E := E) d b) (λ r self', converter_ok self' ∧ sample_ok r.2) no_jump self.
Proof.
  intros Hself Hd. unfold conv_serialize. apply wp_bind.
  change (wp (get_self (E := E)) ?Q ?R self) with (Q self self). cbn beta zeta. apply wp_bind, wp_zoom.
  eapply wp_mono; [by apply dds_to_protobuf_ok | | done]. intros [[ok m] d'] cs' [Hcs Hd']. apply wp_bind.
  change (wp (put_msg (E := E) ?m) ?Q ?R ?s) with (Q () (with_msg s m)). cbn beta.
  destruct (negb _); [by split|]. cbn zeta. destruct (negb _); by split.
Qed.
End theorems.
