(* ===== verification/ProtobufTransformation.v ===== *)
(** The Protobuf transformation (plugins/transformations/protobuf/srcCxx/
    ProtobufTransformation.cxx): its configuration, the validation of the types,
    and the two conversions the base transformation calls.  The message
    converter is that of ProtobufConverter; the calls to the base class and to
    the allocator are external calls. *)
From Stdlib Require Import ZArith Lia Ascii.
From stdpp Require Import base strings list option.
From S2P Require Import Prelude KafkaTypes TsfmTypes DynHelpers ProtobufConverter.

#[local] Open Scope string_scope.
#[local] Open Scope list_scope.
#[local] Open Scope Z_scope.

(** The names of its properties. *)
Definition RTI_TSFM_PROTO_PROPERTY_PREFIX : string := "".
Definition RTI_TSFM_PROTO_PROPERTY_BUFFER_MEMBER : string :=
  RTI_TSFM_PROTO_PROPERTY_PREFIX +:+ "buffer_member".
Definition RTI_TSFM_PROTO_PROPERTY_DESCRIPTOR_FILE : string :=
  RTI_TSFM_PROTO_PROPERTY_PREFIX +:+ "descriptor_file".
Definition RTI_TSFM_PROTO_PROPERTY_MESSAGE_TYPE : string :=
  RTI_TSFM_PROTO_PROPERTY_PREFIX +:+ "message_type".

(** struct RTI_TSFM_ProtobufTransformationConfig; of the parent, the strings
    and the kind. *)
Record pb_config := PbConfig {
  pb_type : RTI_TSFM_TransformationKind;
  pb_input_type : option string;
  pb_output_type : option string;
  pb_buffer_member : option string;
  pb_descriptor_file : option string;
  pb_message_type : option string
}.

(** struct RTI_TSFM_ProtobufTransformationState; a std::string is its bytes. *)
Record pb_state {PB : Protobuf} {DD : Type} {CO : Conversion DD} := PbState {
  st_msg_converter : option (ProtobufDynamicDataConverter (CO := CO));
  st_message_type : option string;
  st_pb_buffer : option (list Z);
  st_octet_seq : dds_seq;
  st_char_seq : dds_seq
}.
Arguments PbState {PB DD CO} _ _ _ _ _.
Arguments pb_state {PB} DD {CO}.

(** DDS_TCKind, as far as the code distinguishes. *)
Inductive tckind := TK_ARRAY | TK_SEQUENCE | TK_OCTET | TK_CHAR | TK_STRUCT | TK_VALUE | TK_OTHER.

#[export] Instance tckind_eq_dec : EqDecision tckind.
Proof. solve_decision. Defined.

(** DDS_TypeCode; [None] is an exception. *)
Class TypeCodeInfo (TC : Type) := {
  tc_kind : TC → option tckind;
  tc_length : TC → option Z;
  tc_dimensions : TC → option Z;
  tc_content_type : TC → option TC;
  tc_member_count : TC → option Z
}.

(** DDS_DynamicData: the kinds of a member and of its elements, and the access
    to arrays of bytes; [get_array] is given the array and its capacity. *)
Class DynArrays (DD : Type) := {
  get_member_info : DD → string → Z * (tckind * tckind);
  set_array : seq_kind → DD → string → Z → list Z → Z * DD;
  get_array : seq_kind → DD → string → list Z → Z → Z * list Z * Z
}.

(** struct RTI_RoutingServiceTypeInfo; [ti_dynamic]: its representation is a
    DDS type code. *)
Record pb_type_info (TC : Type) := PbTypeInfo { ti_name : string; ti_dynamic : bool; ti_tc : TC }.
Arguments PbTypeInfo {TC} _ _ _.
Arguments ti_name {TC} _.
Arguments ti_dynamic {TC} _.
Arguments ti_tc {TC} _.

(** The external calls; for the answers see TsfmTypes. *)
Inductive pcall :=
  | PBaseConfigParse
  | PBaseInitialize
  | PStringReplace (value : string)
  | PStringAlloc
  | PStringDup
  | PMalloc
  | PSeqInitialize (k : seq_kind)
  | PNewString
  | PStringFree
  | PFree
  | PDeleteConverter
  | PDeleteString
  | PSeqFinalize (k : seq_kind).

Record pb_world {PB : Protobuf} (DD X : Type) {CO : Conversion DD} := PbWorld {
  pw_config : pb_config;
  pw_state : pb_state DD;
  pw_in : DD;
  pw_out : DD;
  pw_ext : X
}.
Arguments PbWorld {PB DD X CO} _ _ _ _ _.
Arguments pw_config {PB DD X CO} _.
Arguments pw_state {PB DD X CO} _.
Arguments pw_in {PB DD X CO} _.
Arguments pw_out {PB DD X CO} _.
Arguments pw_ext {PB DD X CO} _.

Section operations.
Context {PB : Protobuf} {DD X TC : Type} `{!Env X pcall} {PA : PropertyApi} {SL : SeqLib} {DY : DynData DD}
  {DA : DynArrays DD} {CO : Conversion DD} {TL : TypeCodeLib TC} {TI : TypeCodeInfo TC}
  {ST : StrToken}.
#[local] Abbreviation W := (pb_world DD X).

Definition pcall_ {E} (q : pcall) : M W E Z := λ w,
  Ok (answer (pw_ext w) q).1
     (PbWorld (pw_config w) (pw_state w) (pw_in w) (pw_out w) (answer (pw_ext w) q).2).
Definition get_w {E} : M W E W := λ w, Ok w w.
Definition put_config {E} (c : pb_config) : M W E () := λ w,
  Ok () (PbWorld c (pw_state w) (pw_in w) (pw_out w) (pw_ext w)).
Definition put_state {E} (s : pb_state DD) : M W E () := λ w,
  Ok () (PbWorld (pw_config w) s (pw_in w) (pw_out w) (pw_ext w)).
Definition put_in {E} (d : DD) : M W E () := λ w,
  Ok () (PbWorld (pw_config w) (pw_state w) d (pw_out w) (pw_ext w)).
Definition put_out {E} (d : DD) : M W E () := λ w,
  Ok () (PbWorld (pw_config w) (pw_state w) (pw_in w) d (pw_ext w)).

(** The dereference of a pointer that may be NULL. *)
Definition deref {E A} (p : option A) : M W E A :=
  match p with Some a => mret a | None => fail NullDeref end.

(** ** Configuration *)

Definition set_buffer_member s c := PbConfig (pb_type c) (pb_input_type c) (pb_output_type c)
  s (pb_descriptor_file c) (pb_message_type c).
Definition set_descriptor_file s c := PbConfig (pb_type c) (pb_input_type c) (pb_output_type c)
  (pb_buffer_member c) s (pb_message_type c).
Definition set_message_type s c := PbConfig (pb_type c) (pb_input_type c) (pb_output_type c)
  (pb_buffer_member c) (pb_descriptor_file c) s.

(** DDS_String_replace: the new string, NULL without memory. *)
Definition string_replace {E} (value : string) : M W E (option string) :=
  r ← pcall_ (PStringReplace value); mret (if r =? 0 then None else Some value).

(** One RTI_TSFM_lookup_property block. *)
Definition parse_property (ps : properties) (name : string) (set : option string → pb_config → pb_config)
    : M W () () :=
  match lookup_property ps name with
  | None => mret ()
  | Some pval =>
      s ← string_replace pval;
      w ← get_w;
      put_config (set s (pw_config w));;
      when (bool_decide (s = None)) (goto ())
  end.

Definition RTI_TSFM_ProtobufTransformationConfig_parse_from_properties {E} (ps : properties)
    : M W E Z :=
  labelled
    (r ← pcall_ PBaseConfigParse;
     when (negb (r =? DDS_RETCODE_OK)) (goto ());;
     parse_property ps RTI_TSFM_PROTO_PROPERTY_BUFFER_MEMBER set_buffer_member;;
     parse_property ps RTI_TSFM_PROTO_PROPERTY_DESCRIPTOR_FILE set_descriptor_file;;
     parse_property ps RTI_TSFM_PROTO_PROPERTY_MESSAGE_TYPE set_message_type;;
     mret DDS_RETCODE_OK)
    (λ _ : (), mret DDS_RETCODE_ERROR).

(** DDS_String_alloc(0) and the copy of the empty string. *)
Definition empty_string {E} : M W E (option string) :=
  r ← pcall_ PStringAlloc; mret (if r =? 0 then None else Some "").

(** A field that is freed unless it is NULL. *)
Definition free_string {E} (s : option string) : M W E () :=
  when (negb (bool_decide (s = None))) (pcall_ PStringFree;; mret ()).

Definition RTI_TSFM_ProtobufTransformationConfigTypeSupport_delete_data {E} (sample : pb_config)
    : M W E () :=
  free_string (pb_input_type sample);;
  free_string (pb_output_type sample);;
  free_string (pb_buffer_member sample);;
  free_string (pb_descriptor_file sample);;
  free_string (pb_message_type sample);;
  pcall_ PFree;;
  mret ().

(** [None]: NULL; the struct comes zeroed, and what it holds at a failure is
    deleted. *)
Definition RTI_TSFM_ProtobufTransformationConfigTypeSupport_create_data {E}
    : M W E (option pb_config) :=
  r ← pcall_ PMalloc;
  if r =? 0 then mret None
  else
    labelled
      (let zeroed := PbConfig RTI_TSFM_TransformationKind_SERIALIZER None None None None None in
       b ← empty_string;
       let sample := set_buffer_member b zeroed in
       when (bool_decide (b = None)) (goto sample);;
       d ← empty_string;
       let sample := set_descriptor_file d sample in
       when (bool_decide (d = None)) (goto sample);;
       m ← empty_string;
       let sample := set_message_type m sample in
       when (bool_decide (m = None)) (goto sample);;
       mret (Some sample))
      (λ sample, RTI_TSFM_ProtobufTransformationConfigTypeSupport_delete_data sample;; mret None).

(** ** State *)

Definition RTI_TSFM_ProtobufTransformationState_create_data {E} : M W E (option (pb_state DD)) :=
  r ← pcall_ PMalloc;
  if r =? 0 then mret None
  else
    labelled
      (r ← pcall_ (PSeqInitialize OctetSeq); when (r =? 0) (goto ());;
       r ← pcall_ (PSeqInitialize CharSeq); when (r =? 0) (goto ());;
       mret (Some (PbState None None None fresh_seq fresh_seq)))
      (λ _ : (), pcall_ PFree;; mret None).

Definition RTI_TSFM_ProtobufTransformationState_delete_data {E} (data : pb_state DD) : M W E () :=
  when (match st_msg_converter data with Some _ => true | None => false end) (pcall_ PDeleteConverter;; mret ());;
  when (negb (bool_decide (st_message_type data = None))) (pcall_ PDeleteString;; mret ());;
  when (negb (bool_decide (st_pb_buffer data = None))) (pcall_ PDeleteString;; mret ());;
  pcall_ (PSeqFinalize OctetSeq);;
  pcall_ (PSeqFinalize CharSeq);;
  pcall_ PFree;;
  mret ().

Definition set_msg_converter (v : option ProtobufDynamicDataConverter) (s : pb_state DD) : pb_state DD :=
  PbState v (st_message_type s) (st_pb_buffer s)
  (st_octet_seq s) (st_char_seq s).
Definition set_state_message_type (v : option string) (s : pb_state DD) : pb_state DD :=
  PbState (st_msg_converter s) v (st_pb_buffer s)
  (st_octet_seq s) (st_char_seq s).
Definition set_pb_buffer (v : option (list Z)) (s : pb_state DD) : pb_state DD :=
  PbState (st_msg_converter s) (st_message_type s) v
  (st_octet_seq s) (st_char_seq s).
Definition state_seq (k : seq_kind) (s : pb_state DD) : dds_seq :=
  match k with OctetSeq => st_octet_seq s | CharSeq => st_char_seq s end.
Definition set_state_seq (k : seq_kind) (q : dds_seq) (s : pb_state DD) : pb_state DD :=
  match k with
  | OctetSeq => PbState (st_msg_converter s) (st_message_type s) (st_pb_buffer s) q (st_char_seq s)
  | CharSeq => PbState (st_msg_converter s) (st_message_type s) (st_pb_buffer s) (st_octet_seq s) q
  end.

(** ** Validation *)

(** RTI_COMMON_TypeCode_get_member_type, with the memory for a long name. *)
Definition get_member_type {E} (tc : TC) (name : string) : M W E (option TC) :=
  dup ← (if has_dot name && (TYPE_CODE_LENGTH - 1 <? Z.of_nat (String.length name))
         then pcall_ PStringDup else mret 1);
  mret (default None (RTI_COMMON_TypeCode_get_member_type (String.length name) (negb (dup =? 0)) tc name)).

(** A type code operation that may raise an exception: goto done. *)
Definition tc_or_done {A} (r : option A) : M W () A :=
  match r with Some a => mret a | None => goto () end.

Definition validate_buffer_member {E} (base_type : TC) (member_name : option string) : M W E Z :=
  labelled
    (name ← deref member_name;
     member_type ← get_member_type base_type name;
     member_type ← tc_or_done member_type;
     kind ← tc_or_done (tc_kind member_type);
     match kind with
     | TK_ARRAY =>
         n ← tc_or_done (tc_dimensions member_type);
         when (negb (n =? 1)) (goto ())
     | TK_SEQUENCE => mret ()
     | _ => goto ()
     end;;
     match kind with
     | TK_ARRAY | TK_SEQUENCE =>
         content ← tc_or_done (tc_content_type member_type);
         kind ← tc_or_done (tc_kind content);
         when (negb (bool_decide (kind = TK_OCTET)) && negb (bool_decide (kind = TK_CHAR))) (goto ())
     | _ => mret ()
     end;;
     mret DDS_RETCODE_OK)
    (λ _ : (), mret DDS_RETCODE_ERROR).

Definition validate_input_type {E} (input_type : TC) : M W E Z :=
  w ← get_w;
  if bool_decide (pb_type (pw_config w) = RTI_TSFM_TransformationKind_SERIALIZER)
  then mret DDS_RETCODE_OK
  else validate_buffer_member input_type (pb_buffer_member (pw_config w)).

(** RTI_TSFM_ProtobufTransformation_validate_container_tckind *)
Definition validate_container_tckind (k : tckind) : bool :=
  bool_decide (k = TK_STRUCT) || bool_decide (k = TK_VALUE).

Definition validate_output_type {E} (output_type : TC) : M W E Z :=
  w ← get_w;
  if bool_decide (pb_type (pw_config w) = RTI_TSFM_TransformationKind_SERIALIZER)
  then
    r ← validate_buffer_member output_type (pb_buffer_member (pw_config w));
    mret (if r =? DDS_RETCODE_OK then DDS_RETCODE_OK else DDS_RETCODE_ERROR)
  else
    labelled
      (kind ← tc_or_done (tc_kind output_type);
       when (negb (validate_container_tckind kind)) (goto ());;
       members_count ← tc_or_done (tc_member_count output_type);
       when (members_count =? 0) (goto ());;
       mret DDS_RETCODE_OK)
      (λ _ : (), mret DDS_RETCODE_ERROR).

Definition RTI_INT32_MAX : Z := 2 ^ 31 - 1.

Definition RTI_TSFM_ProtobufTransformation_preallocate_buffers {E} (tc : TC) : M W E bool :=
  labelled
    (w ← get_w;
     name ← deref (pb_buffer_member (pw_config w));
     member_tc ← get_member_type tc name;
     member_tc ← tc_or_done member_tc;
     buffer_size ← tc_or_done (tc_length member_tc);
     member_kind ← tc_or_done (tc_kind member_tc);
     r ← pcall_ PNewString;
     w ← get_w;
     put_state (set_pb_buffer (if r =? 0 then None else Some []) (pw_state w));;
     when (r =? 0) (goto ());;
     w ← get_w;
     let pb_buffer := st_pb_buffer (pw_state w) in
     when ((buffer_size <? RTI_INT32_MAX) && bool_decide (pb_buffer = None)
           && (negb (bool_decide (member_kind = TK_SEQUENCE))
               || negb (bool_decide (pb_type (pw_config w) = RTI_TSFM_TransformationKind_DESERIALIZER))))
       (b ← deref pb_buffer;
        put_state (set_pb_buffer (Some (take (Z.to_nat buffer_size) b
                                        ++ replicate (Z.to_nat buffer_size - length b) 0))
                     (pw_state w)));;
     mret true)
    (λ _ : (), mret false).
End operations.

(** ** Names of message types *)

(** std::string::find of two colons from position [pos] on. *)
Fixpoint find_colons (s : list ascii) : option nat :=
  match s with
  | c1 :: (c2 :: _) as s' =>
      if Ascii.eqb c1 ":" && Ascii.eqb c2 ":" then Some 0%nat else S <$> find_colons s'
  | _ => None
  end.

Definition find_from (s : list ascii) (pos : nat) : option nat :=
  Nat.add pos <$> find_colons (drop pos s).

(** replace(pos, 2, ".") *)
Definition replace_colons (s : list ascii) (pos : nat) : list ascii :=
  take pos s ++ [Ascii.ascii_of_nat 46] ++ drop (pos + 2) s.

(** The while loop; [None]: out of fuel. *)
Fixpoint replace_all (fuel : nat) (s : list ascii) (pos : nat) : option (list ascii) :=
  match find_from s pos with
  | None => Some s
  | Some p =>
      match fuel with
      | O => None
      | S fuel => replace_all fuel (replace_colons s p) (p + 1)
      end
  end.

Definition pb_type_name (name : string) : string :=
  let s := String.list_ascii_of_string name in
  String.string_of_list_ascii (default s (replace_all (length s) s 0)).

Section conversions.
Context {PB : Protobuf} {DD X TC : Type} `{!Env X pcall} {PA : PropertyApi} {SL : SeqLib} {DY : DynData DD}
  {DA : DynArrays DD} {CO : Conversion DD} {TL : TypeCodeLib TC} {TI : TypeCodeInfo TC}
  {ST : StrToken}.
#[local] Abbreviation W := (pb_world DD X).

(** ** Initialization *)

(** The name of the message, as a new string. *)
Definition make_message_type {E} (dds_type_info : pb_type_info TC) : M W E (option string) :=
  r ← pcall_ PNewString;
  w ← get_w;
  match pb_message_type (pw_config w) with
  | Some (String _ _ as m) => mret (if r =? 0 then None else Some m)
  | _ =>
      s ← deref (if r =? 0 then None else Some (ti_name dds_type_info));
      mret (Some (pb_type_name s))
  end.

(** The try block: [None] is an exception.  The name of the descriptor file
    becomes a std::string, which NULL cannot. *)
Definition create_converter {E} (descriptor_file : option string) (name : string)
    : M W E (option ProtobufDynamicDataConverter) :=
  match descriptor_file with
  | None => mret None
  | Some f =>
      match new_converter (parse_descriptor_set f) name empty_pool with
      | Ok c _ => mret (Some c)
      | Jump _ _ => mret None
      | Fault f => fail f
      | Hang => hang
      end
  end.

Definition RTI_TSFM_ProtobufTransformation_initialize {E}
    (input_type_info output_type_info : pb_type_info TC) : M W E Z :=
  labelled
    (r ← pcall_ PBaseInitialize;
     when (negb (r =? DDS_RETCODE_OK)) (goto r);;
     when (negb (ti_dynamic input_type_info)) (goto DDS_RETCODE_ERROR);;
     r ← validate_input_type (ti_tc input_type_info);
     when (negb (r =? DDS_RETCODE_OK)) (goto r);;
     r ← validate_output_type (ti_tc output_type_info);
     when (negb (r =? DDS_RETCODE_OK)) (goto r);;
     w ← get_w;
     let '(serialized_type_info, dds_type_info) :=
       if bool_decide (pb_type (pw_config w) = RTI_TSFM_TransformationKind_SERIALIZER)
       then (output_type_info, input_type_info)
       else (input_type_info, output_type_info) in
     ok ← RTI_TSFM_ProtobufTransformation_preallocate_buffers (ti_tc serialized_type_info);
     when (negb ok) (goto DDS_RETCODE_ERROR);;
     message_type ← make_message_type dds_type_info;
     w ← get_w;
     put_state (set_state_message_type message_type (pw_state w));;
     when (bool_decide (message_type = None)) (goto DDS_RETCODE_ERROR);;
     name ← deref message_type;
     converter ← create_converter (pb_descriptor_file (pw_config w)) name;
     match converter with
     | None => goto DDS_RETCODE_ERROR
     | Some _ =>
         w ← get_w;
         put_state (set_msg_converter converter (pw_state w));;
         mret DDS_RETCODE_OK
     end)
    mret.

(** ** The conversions *)

(** A helper on the output sample and a sequence of the state. *)
Definition on_output {E} (k : seq_kind) (m : M (hstate DD) E Z) : M W E Z :=
  zoom (λ w, HState (pw_out w) (state_seq k (pw_state w)))
       (λ h w, PbWorld (pw_config w) (set_state_seq k (h_seq h) (pw_state w)) (pw_in w) (h_data h) (pw_ext w)) m.

(** A helper on the input sample, which it does not change, and a sequence. *)
Definition on_input {E A} (k : seq_kind) (m : M (hstate DD) E A) : M W E A :=
  zoom (λ w, HState (pw_in w) (state_seq k (pw_state w)))
       (λ h w, PbWorld (pw_config w) (set_state_seq k (h_seq h) (pw_state w)) (h_data h) (pw_out w) (pw_ext w)) m.

(** A method of the converter that the state points to. *)
Definition on_converter {E A} (c : ProtobufDynamicDataConverter) (m : M ProtobufDynamicDataConverter E A)
    : M W E A :=
  zoom (λ _, c)
       (λ c w, PbWorld (pw_config w) (set_msg_converter (Some c) (pw_state w)) (pw_in w) (pw_out w) (pw_ext w)) m.

Definition element_seq_kind (k : tckind) : option seq_kind :=
  match k with TK_CHAR => Some CharSeq | TK_OCTET => Some OctetSeq | _ => None end.

(** Serialization of [pw_in] into [pw_out]; std::string::data() is followed by
    a NUL. *)
Definition RTI_TSFM_ProtobufTransformation_serialize {E} : M W E Z :=
  labelled
    (w ← get_w;
     converter ← deref (st_msg_converter (pw_state w));
     pb_buffer ← deref (st_pb_buffer (pw_state w));
     r ← on_converter converter (conv_serialize (pw_in w) pb_buffer);
     let '(ok, bytes, data) := r in
     w ← get_w;
     put_state (set_pb_buffer (Some bytes) (pw_state w));;
     put_in data;;
     when (negb ok) (goto DDS_RETCODE_ERROR);;
     let size := u32 (Z.of_nat (length bytes)) in
     w ← get_w;
     member ← deref (pb_buffer_member (pw_config w));
     let info := get_member_info (pw_out w) member in
     when (negb (info.1 =? DDS_RETCODE_OK)) (goto DDS_RETCODE_ERROR);;
     match info.2.1, element_seq_kind info.2.2 with
     | TK_SEQUENCE, Some CharSeq =>
         r ← on_output CharSeq
               (RTI_COMMON_DynamicData_set_char_seq_from_string member (bytes ++ [0]) size size);
         when (negb (r =? DDS_RETCODE_OK)) (goto r)
     | TK_SEQUENCE, Some OctetSeq =>
         r ← on_output OctetSeq
               (RTI_COMMON_DynamicData_set_octet_seq_from_string member (bytes ++ [0]) size size);
         when (negb (r =? DDS_RETCODE_OK)) (goto r)
     | TK_ARRAY, Some k =>
         let r := set_array k (pw_out w) member size bytes in
         put_out r.2;;
         when (negb (r.1 =? DDS_RETCODE_OK)) (goto r.1)
     | _, _ => goto DDS_RETCODE_ERROR
     end;;
     mret DDS_RETCODE_OK)
    mret.

(** Deserialization of [pw_in] into [pw_out].  The jumps carry retcode as it is
    at the goto. *)
Definition RTI_TSFM_ProtobufTransformation_deserialize {E} : M W E Z :=
  labelled
    (w ← get_w;
     member ← deref (pb_buffer_member (pw_config w));
     let info := get_member_info (pw_in w) member in
     let retcode := info.1 in
     when (negb (retcode =? DDS_RETCODE_OK)) (goto retcode);;
     bl ← match info.2.1 with
          | TK_ARRAY =>
              pb_buffer ← deref (st_pb_buffer (pw_state w));
              match element_seq_kind info.2.2 with
              | None => goto retcode
              | Some k =>
                  let '(retcode, buffer, buffer_len) := get_array k (pw_in w) member pb_buffer 0 in
                  put_state (set_pb_buffer (Some buffer) (pw_state w));;
                  when (negb (retcode =? DDS_RETCODE_OK)) (goto retcode);;
                  mret (retcode, Some buffer, buffer_len)
              end
          | TK_SEQUENCE =>
              match element_seq_kind info.2.2 with
              | None => goto retcode
              | Some k =>
                  r ← on_input k
                        (match k with
                         | CharSeq => RTI_COMMON_DynamicData_get_char_seq_contiguous_buffer member true
                         | OctetSeq => RTI_COMMON_DynamicData_get_octet_seq_contiguous_buffer member true
                         end);
                  let '(retcode, buffer, buffer_len) := r in
                  when (negb (retcode =? DDS_RETCODE_OK)) (goto retcode);;
                  mret (retcode, buffer, default 0 buffer_len)
              end
          | _ => goto retcode
          end;
     let '(retcode, buffer, buffer_len) := bl in
     w ← get_w;
     converter ← deref (st_msg_converter (pw_state w));
     buffer ← deref buffer;
     r ← on_converter converter (conv_deserialize (pw_out w) buffer buffer_len);
     let '(ok, data) := r in
     put_out data;;
     when (negb ok) (goto retcode);;
     mret DDS_RETCODE_OK)
    mret.
End conversions.

(** * Specifications *)

(** ** Names of message types *)

(** The reference: one pass, each pair of colons becomes a dot. *)
Fixpoint dots (s : list ascii) : list ascii :=
  match s with
  | c1 :: (c2 :: s'') as s' =>
      if Ascii.eqb c1 ":" && Ascii.eqb c2 ":" then Ascii.ascii_of_nat 46 :: dots s''
      else c1 :: dots s'
  | _ => s
  end.

Lemma find_colons_dots s :
  match find_colons s with
  | None => dots s = s
  | Some n => (n + 2 ≤ length s)%nat
      ∧ dots s = take n s ++ Ascii.ascii_of_nat 46 :: dots (drop (n + 2) s)
  end.
Proof.
  induction s as [|c1 [|c2 s] IH]; [done | done |].
  change (find_colons (c1 :: c2 :: s)) with
    (if Ascii.eqb c1 ":" && Ascii.eqb c2 ":" then Some 0%nat else S <$> find_colons (c2 :: s)).
  change (dots (c1 :: c2 :: s)) with
    (if Ascii.eqb c1 ":" && Ascii.eqb c2 ":" then Ascii.ascii_of_nat 46 :: dots s else c1 :: dots (c2 :: s)).
  destruct (Ascii.eqb c1 ":" && Ascii.eqb c2 ":").
  - split; [cbn; lia | done].
  - destruct (find_colons (c2 :: s)) as [n|]; cbn [fmap option_fmap option_map].
    + destruct IH as [Hlen Hd]. split; [cbn [length] in *; lia|]. by rewrite Hd.
    + by rewrite IH.
Qed.

Lemma replace_all_dots fuel s pos :
  (length s - pos ≤ fuel)%nat →
  replace_all fuel s pos = Some (take pos s ++ dots (drop pos s)).
Proof.
  revert s pos. induction fuel as [|fuel IH]; intros s pos Hf; cbn [replace_all]; unfold find_from;
    pose proof (find_colons_dots (drop pos s)) as Hfd;
    destruct (find_colons (drop pos s)) as [n|] eqn:Hc; cbn [fmap option_fmap option_map].
  - rewrite length_drop in Hfd. lia.
  - by rewrite Hfd, take_drop.
  - destruct Hfd as [Hlen Hd]. rewrite length_drop in Hlen. unfold replace_colons. rewrite IH.
    + assert (length (take (pos + n) s) = (pos + n)%nat) as Hp by (rewrite length_take; lia).
      rewrite Hd, drop_drop. f_equal.
      rewrite take_app, drop_app, Hp, take_take.
      replace (pos + n + 1 - (pos + n))%nat with 1%nat by lia.
      rewrite (drop_ge (take (pos + n) s)) by lia. cbn [take drop app].
      replace ((pos + n + 1) `min` (pos + n))%nat with (pos + n)%nat by lia.
      rewrite drop_0. replace (pos + n + 2)%nat with (pos + (n + 2))%nat by lia.
      rewrite <- take_take_drop, <- !app_assoc. done.
    + rewrite !length_app, length_take, length_drop. cbn [length]. lia.
  - by rewrite Hfd, take_drop.
Qed.

(** C30: the name of the Protobuf message that goes with a DDS type.  The loop
    over the string ends, and it does what one pass over the name from left to
    right does: every pair of colons becomes one dot. *)
Theorem pb_type_name_spec name :
  let s := String.list_ascii_of_string name in
  replace_all (length s) s 0 = Some (dots s)
  ∧ pb_type_name name = String.string_of_list_ascii (dots s).
Proof.
  cbn zeta. unfold pb_type_name. set (s := String.list_ascii_of_string name).
  rewrite (replace_all_dots (length s) s 0) by lia. done.
Qed.


(** ** The transformation *)
Section theorems.
Context {PB : Protobuf} {DD X TC : Type} `{!Env X pcall} {PA : PropertyApi} {SL : SeqLib} {DY : DynData DD}
  {DA : DynArrays DD} {CO : Conversion DD} {TL : TypeCodeLib TC} {TI : TypeCodeInfo TC}
  {ST : StrToken}.
#[local] Abbreviation W := (pb_world DD X).
Implicit Types (w : W).

(** Rules for the operations of this state. *)
Section rules.
Context {E : Type}.
Implicit Types (R : E → W → Prop).

Lemma wp_get_w (Q : W → W → Prop) R w : Q w w → wp get_w Q R w.
Proof. done. Qed.

Lemma wp_put_state s (Q : () → W → Prop) R w :
  Q () (PbWorld (pw_config w) s (pw_in w) (pw_out w) (pw_ext w)) → wp (put_state s) Q R w.
Proof. done. Qed.

Lemma wp_put_config c (Q : () → W → Prop) R w :
  Q () (PbWorld c (pw_state w) (pw_in w) (pw_out w) (pw_ext w)) → wp (put_config c) Q R w.
Proof. done. Qed.

Lemma wp_put_in d (Q : () → W → Prop) R w :
  Q () (PbWorld (pw_config w) (pw_state w) d (pw_out w) (pw_ext w)) → wp (put_in d) Q R w.
Proof. done. Qed.

Lemma wp_put_out d (Q : () → W → Prop) R w :
  Q () (PbWorld (pw_config w) (pw_state w) (pw_in w) d (pw_ext w)) → wp (put_out d) Q R w.
Proof. done. Qed.

Lemma wp_pcall q (Q : Z → W → Prop) R w :
  (∀ x, Q (answer (pw_ext w) q).1 (PbWorld (pw_config w) (pw_state w) (pw_in w) (pw_out w) x)) →
  wp (pcall_ q) Q R w.
Proof. intros H. apply H. Qed.

Lemma wp_deref {A} (p : option A) (Q : A → W → Prop) R w :
  is_Some p → (∀ a, p = Some a → Q a w) → wp (deref p) Q R w.
Proof. intros [a ->] H. by apply H. Qed.

Lemma wp_on_output k (m : M (hstate DD) E Z) (Q : Z → W → Prop) R w :
  wp m (λ r h, Q r (PbWorld (pw_config w) (set_state_seq k (h_seq h) (pw_state w)) (pw_in w) (h_data h) (pw_ext w)))
       (λ e h, R e (PbWorld (pw_config w) (set_state_seq k (h_seq h) (pw_state w)) (pw_in w) (h_data h) (pw_ext w)))
    (HState (pw_out w) (state_seq k (pw_state w))) →
  wp (on_output k m) Q R w.
Proof. intros H. unfold on_output. by apply wp_zoom. Qed.

Lemma wp_on_input {A} k (m : M (hstate DD) E A) (Q : A → W → Prop) R w :
  wp m (λ r h, Q r (PbWorld (pw_config w) (set_state_seq k (h_seq h) (pw_state w)) (h_data h) (pw_out w) (pw_ext w)))
       (λ e h, R e (PbWorld (pw_config w) (set_state_seq k (h_seq h) (pw_state w)) (h_data h) (pw_out w) (pw_ext w)))
    (HState (pw_in w) (state_seq k (pw_state w))) →
  wp (on_input k m) Q R w.
Proof. intros H. unfold on_input. by apply wp_zoom. Qed.

Lemma wp_on_converter {CC : ConversionContract CO} {A} c (m : M ProtobufDynamicDataConverter E A) P
    (Q : A → W → Prop) R w :
  wp m P no_jump c →
  (∀ a c', P a c' →
     Q a (PbWorld (pw_config w) (set_msg_converter (Some c') (pw_state w)) (pw_in w) (pw_out w) (pw_ext w))) →
  wp (on_converter c m) Q R w.
Proof. intros Hm HQ. unfold on_converter. apply wp_zoom. eapply wp_mono; [exact Hm | exact HQ | done]. Qed.

Lemma wp_tc_or_done {A} (r : option A) (Q : A → W → Prop) (R : () → W → Prop) w :
  (∀ a, r = Some a → Q a w) → (r = None → R () w) → wp (tc_or_done r) Q R w.
Proof. destruct r; naive_solver. Qed.

(** The type of a member, with the answer for the memory of a long name. *)
Lemma wp_get_member_type (tc : TC) name (Q : option TC → W → Prop) R w :
  (∀ dup x, Q (default None (RTI_COMMON_TypeCode_get_member_type (String.length name) dup tc name))
              (PbWorld (pw_config w) (pw_state w) (pw_in w) (pw_out w) x)) →
  wp (get_member_type tc name) Q R w.
Proof.
  intros H. unfold get_member_type. apply wp_bind. case_match; apply H || (destruct w; apply H).
Qed.
End rules.

Context {CC : ConversionContract CO}.

(** The conversions can run: what they dereference is there, and the converter
    is in order. *)
Definition ready w : Prop :=
  (∃ c, st_msg_converter (pw_state w) = Some c ∧ converter_ok c) ∧ is_Some (st_pb_buffer (pw_state w))
  ∧ is_Some (pb_buffer_member (pw_config w)).

Lemma ready_seq c s k q i o x i' o' x' :
  ready (PbWorld c s i o x) → ready (PbWorld c (set_state_seq k q s) i' o' x').
Proof. by destruct k. Qed.

Lemma strlen_terminated bytes : strlen (bytes ++ [0]) ≠ None.
Proof.
  induction bytes as [|b bytes IH]; [done|]. cbn. destruct (b =? 0); [done|].
  by destruct (strlen (bytes ++ [0])).
Qed.

Lemma wp_set_seq {E} k member bytes max n (Q : Z → hstate DD → Prop) (R : E → hstate DD → Prop) h :
  (∀ rc h', Q rc h') → wp (set_seq_from_string k member (bytes ++ [0]) max n) Q R h.
Proof.
  intros H. destruct (set_seq_returns (E := E) k member (bytes ++ [0]) max n h) as (rc & h' & Hr).
  { apply strlen_terminated. }
  unfold wp. rewrite Hr. apply H.
Qed.

Context {LA : SeqLibLaws SL}.

Lemma wp_get_seq k member want_len (Q : Z * option (list Z) * option Z → hstate DD → Prop)
    {E} (R : E → hstate DD → Prop) h :
  (∀ r h', h_data h' = h_data h → (r.1.1 = DDS_RETCODE_OK → is_Some r.1.2) → Q r h') →
  wp (get_seq_contiguous_buffer k member want_len) Q R h.
Proof.
  intros H. pose proof (get_seq_contiguous_buffer_lemma (E := E) k member want_len h) as Hs.
  unfold wp. destruct (get_seq_contiguous_buffer k member want_len h) as [[[rc b] len] h'|? ?| |]; try done.
  destruct Hs as (Hd & Hok & _). apply H; [done|]. cbn. intros Hrc.
  destruct (Hok Hrc) as (_ & b' & -> & _). by eexists.
Qed.

Ltac pb_step :=
  lazymatch goal with
  | |- wp (mbind _ _) _ _ _ => apply wp_bind
  | |- wp (mret _) _ _ _ => apply wp_ret
  | |- wp (goto _) _ _ _ => apply wp_goto
  | |- wp (labelled _ _) _ _ _ => apply wp_labelled
  | |- wp (when _ _) _ _ _ => apply wp_when; intros ?; tidy_bool
  | |- wp get_w _ _ _ => apply wp_get_w
  | |- wp (put_state _) _ _ _ => apply wp_put_state
  | |- wp (put_config _) _ _ _ => apply wp_put_config
  | |- wp (put_in _) _ _ _ => apply wp_put_in
  | |- wp (put_out _) _ _ _ => apply wp_put_out
  | |- wp (pcall_ _) _ _ _ => apply wp_pcall; intros ?
  | |- wp (tc_or_done _) _ _ _ => apply wp_tc_or_done; intros
  | |- wp (get_member_type _ _) _ _ _ => apply wp_get_member_type; intros ? ?
  | |- wp (on_output _ _) _ _ _ => apply wp_on_output
  | |- wp (on_input _ _) _ _ _ => apply wp_on_input
  | |- wp (set_seq_from_string _ _ _ _ _) _ _ _ => apply wp_set_seq; intros ? ?
  | |- wp (deref _) _ _ _ => apply wp_deref; [by eauto | intros ? ?]
  end; cbn [pw_config pw_state pw_in pw_out pw_ext].

Ltac pb_run :=
  repeat first [ pb_step | match goal with |- wp (match ?x with _ => _ end) _ _ _ => destruct x eqn:? end ].

Lemma serialize_wp {E} w :
  ready w → sample_ok (pw_in w) →
  wp (RTI_TSFM_ProtobufTransformation_serialize (E := E))
     (λ _ w', ready w' ∧ pw_config w' = pw_config w ∧ sample_ok (pw_in w')) no_jump w.
Proof.
  intros ([c [Hc Hcok]] & Hb & Hm) Hin.
  unfold RTI_TSFM_ProtobufTransformation_serialize, RTI_COMMON_DynamicData_set_octet_seq_from_string,
    RTI_COMMON_DynamicData_set_char_seq_from_string.
  assert (is_Some (st_msg_converter (pw_state w))) as Hsome by eauto. pb_run. simplify_eq.
  eapply wp_on_converter; [by apply conv_serialize_ok|]. intros [[ok bytes] d] c' [Hc' Hd]. cbn [snd] in Hd.
  pb_run; (split; [split; [by eexists|] |]); done.
Qed.

Lemma deserialize_wp {E} w :
  ready w → sample_ok (pw_out w) →
  wp (RTI_TSFM_ProtobufTransformation_deserialize (E := E))
     (λ _ w', ready w' ∧ pw_config w' = pw_config w ∧ pw_in w' = pw_in w ∧ sample_ok (pw_out w')) no_jump w.
Proof.
  intros ([c [Hc Hcok]] & Hb & Hm) Hout.
  unfold RTI_TSFM_ProtobufTransformation_deserialize, RTI_COMMON_DynamicData_get_octet_seq_contiguous_buffer,
    RTI_COMMON_DynamicData_get_char_seq_contiguous_buffer.
  assert (is_Some (st_msg_converter (pw_state w))) as Hsome by eauto.
  pb_run; try (split; [split; [by eexists|]|]; done).
  2-3: apply wp_get_seq; intros [[rc b] len] h Hd Hok; cbn [fst snd] in *; rewrite Hd; pb_run;
    try (split; [split; [by eexists|]|]; done).
  all: match goal with
       | H : st_msg_converter _ = Some ?a |- wp (on_converter ?a _) _ _ _ =>
           change (st_msg_converter (pw_state w) = Some a) in H; simplify_eq
       end; eapply wp_on_converter; [by apply conv_deserialize_ok|];
    intros [ok d] c' [Hc' Hd']; cbn [snd] in Hd'; pb_run; (split; [split; [by eexists|]|]; done).
Qed.


(** *** Validation *)

(** The parts of the state that are the program's; the rest is the
    environment's. *)
Definition same_data w w' : Prop :=
  pw_config w' = pw_config w ∧ pw_state w' = pw_state w ∧ pw_in w' = pw_in w ∧ pw_out w' = pw_out w.

(** A sequence of bytes, or an array of them with one dimension. *)
Definition byte_container (tc : TC) : Prop :=
  (tc_kind tc = Some TK_SEQUENCE ∨ tc_kind tc = Some TK_ARRAY ∧ tc_dimensions tc = Some 1)
  ∧ ∃ content, tc_content_type tc = Some content
      ∧ (tc_kind content = Some TK_OCTET ∨ tc_kind content = Some TK_CHAR).

(** A member of that kind; [dup] says whether a long name can be duplicated. *)
Definition byte_member (dup : bool) (tc : TC) (name : string) : Prop :=
  ∃ member, RTI_COMMON_TypeCode_get_member_type (String.length name) dup tc name = Some (Some member)
    ∧ byte_container member.

Definition validated (rc : Z) (P : Prop) : Prop :=
  rc = DDS_RETCODE_OK ∧ P ∨ rc = DDS_RETCODE_ERROR ∧ ¬ P.

Lemma byte_member_type dup tc name member :
  default None (RTI_COMMON_TypeCode_get_member_type (String.length name) dup tc name) = Some member →
  (byte_member dup tc name ↔ byte_container member).
Proof.
  intros Hm. unfold byte_member.
  destruct (RTI_COMMON_TypeCode_get_member_type _ _ _ _) as [[m|]|]; cbn in Hm; naive_solver.
Qed.

Lemma no_member_type dup tc name :
  default None (RTI_COMMON_TypeCode_get_member_type (String.length name) dup tc name) = None →
  ¬ byte_member dup tc name.
Proof. intros Hm (m & Hg & _). by rewrite Hg in Hm. Qed.

Lemma validate_buffer_member_wp {E} (tc : TC) name w :
  wp (validate_buffer_member (E := E) tc (Some name))
     (λ rc w', same_data w w' ∧ ∃ dup, validated rc (byte_member dup tc name)) no_jump w.
Proof.
  unfold validate_buffer_member. pb_run.
  all: split; [done|]; match goal with dup : bool |- _ => exists dup end; simplify_eq.
  all: try (right; split; [done|]; by apply no_member_type).
  all: match goal with H : default None _ = Some _ |- _ => apply byte_member_type in H end.
  all: repeat match goal with
       | H : _ && _ = false |- _ => apply andb_false_iff in H as [H|H]; tidy_bool
       | H : _ && _ = true |- _ => apply andb_true_iff in H as [? ?]; tidy_bool
       end; subst.
  all: first [ left; split; [done|] | right; split; [done|] ];
    match goal with H : byte_member _ _ _ ↔ _ |- _ => rewrite H; clear H end;
    first [ intros ([?|[??]] & ? & ? & [?|?]); congruence | split; [eauto|]; eexists; eauto ].
Qed.

(** C32: the validation of the member that holds the message.  It accepts the
    sequences of octets and of chars and the arrays of them with one dimension,
    refuses every other type and the types that do not have the member, and
    changes nothing. *)
Theorem validate_buffer_member_spec {E} (tc : TC) name w :
  wp (validate_buffer_member (E := E) tc (Some name))
     (λ rc w', same_data w w' ∧ ∃ dup, validated rc (byte_member dup tc name)) no_jump w.
Proof. apply validate_buffer_member_wp. Qed.


(** *** Initialization *)

Definition message_name (c : pb_config) (dds_type_info : pb_type_info TC) : string :=
  match pb_message_type c with
  | Some (String _ _ as m) => m
  | _ => pb_type_name (ti_name dds_type_info)
  end.

Definition is_serializer (c : pb_config) : bool :=
  bool_decide (pb_type c = RTI_TSFM_TransformationKind_SERIALIZER).

(** The types as they must be: the serialized form in a member of bytes, and a
    structure with members to deserialize into. *)
Definition valid_types (c : pb_config) (input output : pb_type_info TC) : Prop :=
  ti_dynamic input = true
  ∧ ∃ member dup, pb_buffer_member c = Some member
      ∧ if is_serializer c then byte_member dup (ti_tc output) member
        else byte_member dup (ti_tc input) member
          ∧ ∃ kind n, tc_kind (ti_tc output) = Some kind ∧ (kind = TK_STRUCT ∨ kind = TK_VALUE)
              ∧ tc_member_count (ti_tc output) = Some n ∧ n ≠ 0.

(** The state of an initialized transformation: an empty string to serialize
    to, and a converter for the message that the descriptor file declares. *)
Definition initialized_state (c : pb_config) (dds : pb_type_info TC) (s s' : pb_state DD) : Prop :=
  ∃ file proto msg, pb_descriptor_file c = Some file
    ∧ find_message (message_name c dds) (declared empty_pool (parse_descriptor_set file)) = Some proto
    ∧ New proto = Some msg
    ∧ s' = PbState (Some (Converter empty_state proto msg)) (Some (message_name c dds)) (Some [])
             (st_octet_seq s) (st_char_seq s).

(** The members a step of the initialization does not change. *)
Definition config_data w w' : Prop :=
  pw_config w' = pw_config w ∧ pw_in w' = pw_in w ∧ pw_out w' = pw_out w.

Ltac data_eq := unfold config_data; cbn; repeat split; congruence.

Lemma preallocate_buffers_wp {E} (tc : TC) w :
  is_Some (pb_buffer_member (pw_config w)) →
  wp (RTI_TSFM_ProtobufTransformation_preallocate_buffers (E := E) tc)
     (λ ok w', config_data w w' ∧ (ok = true → pw_state w' = set_pb_buffer (Some []) (pw_state w)))
     no_jump w.
Proof.
  intros Hm. unfold RTI_TSFM_ProtobufTransformation_preallocate_buffers. pb_run; try (split; done).
  all: match goal with H : _.1 ≠ 0 |- _ => apply Z.eqb_neq in H as Hr; rewrite Hr end; try (split; done).
  exfalso. match goal with H : _ && _ && _ = true |- _ => rewrite !andb_true_iff in H; destruct H as [[_ Hc] _] end.
  apply bool_decide_eq_true in Hc. cbn in Hc. by rewrite Hr in Hc.
Qed.

Lemma wp_create_converter {DL : DescriptorLaws} {E} c dds w s (Q : option ProtobufDynamicDataConverter → W → Prop)
    (R : E → W → Prop) :
  (∀ conv, (∀ cv, conv = Some cv →
              initialized_state c dds s
                (PbState conv (Some (message_name c dds)) (Some []) (st_octet_seq s) (st_char_seq s))) →
     Q conv w) →
  wp (create_converter (pb_descriptor_file c) (message_name c dds)) Q R w.
Proof.
  intros H. unfold create_converter. destruct (pb_descriptor_file c) as [file|] eqn:Hf; [|by apply H].
  pose proof (new_converter_spec (message_name c dds) (parse_descriptor_set file) empty_pool) as Hn.
  destruct (find_message _ _) as [proto|] eqn:Hfind.
  - destruct Hn as (msg & pool' & Hmsg & ->). apply H. intros _ _.
    by exists file, proto, msg.
  - destruct Hn as [pool' ->]. by apply H.
Qed.

(** The rule for a call whose specification is known. *)
Lemma wp_use {V E A} (m : M V E A) (P Q : A → V → Prop) (R : E → V → Prop) v :
  wp m P no_jump v → (∀ a v', P a v' → Q a v') → wp m Q R v.
Proof. intros Hm HQ. eapply wp_mono; [exact Hm | exact HQ | done]. Qed.

Lemma validate_input_type_wp {E} (tc : TC) name w :
  pb_buffer_member (pw_config w) = Some name →
  wp (validate_input_type (E := E) tc)
     (λ rc w', same_data w w'
        ∧ (rc = DDS_RETCODE_OK → is_serializer (pw_config w) = false → ∃ dup, byte_member dup tc name))
     no_jump w.
Proof.
  intros Hm. unfold validate_input_type, is_serializer. pb_run; [done|]. rewrite Hm.
  eapply wp_use; [apply validate_buffer_member_wp|]. intros rc w' [Hs [dup Hv]]. split; [done|].
  intros Hrc _. exists dup. destruct Hv as [[_ ?]|[Hr _]]; [done|]. by rewrite Hr in Hrc.
Qed.

Lemma validate_output_type_wp {E} (tc : TC) name w :
  pb_buffer_member (pw_config w) = Some name →
  wp (validate_output_type (E := E) tc)
     (λ rc w', same_data w w'
        ∧ (rc = DDS_RETCODE_OK →
             if is_serializer (pw_config w) then ∃ dup, byte_member dup tc name
             else ∃ kind n, tc_kind tc = Some kind ∧ (kind = TK_STRUCT ∨ kind = TK_VALUE)
                    ∧ tc_member_count tc = Some n ∧ n ≠ 0))
     no_jump w.
Proof.
  intros Hm. unfold validate_output_type, is_serializer, validate_container_tckind. pb_run; try done.
  - rewrite Hm. eapply wp_use; [apply validate_buffer_member_wp|]. intros rc w' [Hs [dup Hv]].
    apply wp_ret. split; [done|]. intros Hrc. exists dup. destruct Hv as [[_ ?]|[-> _]]; done.
  - split; [done|]. intros _. eexists _, _. split; [done|]. split; [|done].
    match goal with H : _ || _ = true |- _ => apply orb_true_iff in H as [H|H]; tidy_bool; auto end.
Qed.

Lemma make_message_type_wp {E} (dds : pb_type_info TC) w :
  (∀ x, (answer x PNewString).1 ≠ 0) →
  wp (make_message_type (E := E) dds)
     (λ name w', same_data w w' ∧ name = Some (message_name (pw_config w) dds)) no_jump w.
Proof.
  intros Hnew. unfold make_message_type, message_name. pb_step. pb_step.
  rewrite (proj2 (Z.eqb_neq _ _) (Hnew _)). pb_run; split; (done || congruence).
Qed.

Lemma initialize_wp {DL : DescriptorLaws} {E} input output w :
  is_Some (pb_buffer_member (pw_config w)) → (∀ x, (answer x PNewString).1 ≠ 0) →
  wp (RTI_TSFM_ProtobufTransformation_initialize (E := E) input output)
     (λ rc w', config_data w w'
        ∧ (rc = DDS_RETCODE_OK →
             valid_types (pw_config w) input output
             ∧ initialized_state (pw_config w)
                 (if is_serializer (pw_config w) then input else output) (pw_state w) (pw_state w')))
     no_jump w.
Proof.
  intros [m Hm] Hnew. unfold RTI_TSFM_ProtobufTransformation_initialize.
  pb_run; try done.
  eapply wp_use; [by apply (validate_input_type_wp _ m)|]. intros rc1 w1 [Hs1 Hv1].
  destruct Hs1 as (Hc1 & Hst1 & Hi1 & Ho1). cbn in Hc1, Hst1, Hi1, Ho1, Hv1.
  do 2 pb_step. { pb_run. by split. } pb_step.
  eapply wp_use; [apply (validate_output_type_wp _ m); by rewrite Hc1|]. intros rc2 w2 [Hs2 Hv2].
  destruct Hs2 as (Hc2 & Hst2 & Hi2 & Ho2). rewrite Hc1 in Hc2, Hv2.
  do 2 pb_step. { pb_run. split; [|done]. data_eq. } do 2 pb_step.
  rewrite Hc2. fold (is_serializer (pw_config w)).
  set (ser := if is_serializer (pw_config w) then output else input).
  set (dds := if is_serializer (pw_config w) then input else output).
  assert ((if is_serializer (pw_config w) then (output, input) else (input, output)) = (ser, dds)) as ->
    by (unfold ser, dds; by destruct (is_serializer _)).
  pb_step. eapply wp_use; [apply preallocate_buffers_wp; by rewrite Hc2, Hm|]. intros ok w3 [Hs3 Hp3].
  destruct Hs3 as (Hc3 & Hi3 & Ho3).
  do 2 pb_step. { pb_run. split; [|done]. data_eq. } pb_step.
  eapply wp_use; [by apply make_message_type_wp|]. intros name w4 [Hs4 ->].
  destruct Hs4 as (Hc4 & Hst4 & Hi4 & Ho4). rewrite Hc3, Hc2 in *.
  do 7 pb_step. unfold deref. pb_step. pb_step. rewrite Hc4.
  apply (wp_create_converter _ dds _ (pw_state w)). intros [cv|] Hcv.
  2: { pb_run. split; [|done]. data_eq. }
  pb_run. split; [data_eq|]. intros _. split.
  - split; [done|]. exists m. specialize (Hv1 H1). specialize (Hv2 H2).
    destruct (is_serializer (pw_config w)); [destruct Hv2 as [dup ?] | destruct (Hv1 eq_refl) as [dup ?]];
      by exists dup.
  - destruct (Hcv cv eq_refl) as (file & proto & msg & ? & ? & ? & [= ->]). exists file, proto, msg.
    cbn. by rewrite Hst4, (Hp3 H3), Hst2, Hst1.
Qed.


(** C28: initialization of the transformation.  When it succeeds, the types
    are valid, the buffer is the empty string (whatever the length of the
    member: nothing is preallocated), and the converter is made for the message
    of the configured name, or of the name of the DDS type, that the descriptor
    file declares.  Otherwise an error is returned. *)
Theorem initialize_spec {DL : DescriptorLaws} {E} input output w :
  is_Some (pb_buffer_member (pw_config w)) → (∀ x, (answer x PNewString).1 ≠ 0) →
  wp (RTI_TSFM_ProtobufTransformation_initialize (E := E) input output)
     (λ rc w', config_data w w'
        ∧ (rc = DDS_RETCODE_OK →
             valid_types (pw_config w) input output
             ∧ initialized_state (pw_config w)
                 (if is_serializer (pw_config w) then input else output) (pw_state w) (pw_state w')))
     no_jump w.
Proof. apply initialize_wp. Qed.

(** Without a configured name, an allocation failure for the name of the
    message is a dereference of NULL. *)
Theorem make_message_type_null {E} (dds : pb_type_info TC) w :
  pb_message_type (pw_config w) = Some "" → (answer (pw_ext w) PNewString).1 = 0 →
  make_message_type (E := E) dds w = Fault NullDeref.
Proof.
  intros Hm Hr. unfold make_message_type, pcall_, get_w, mbind, M_bind. cbn. by rewrite Hm, Hr.
Qed.

(** ** The conversions *)

(** The calls of the base transformation: samples to serialize ([true]) or to
    deserialize, with the samples to fill. *)
Definition set_samples {E} (i o : DD) : M W E () := λ w,
  Ok () (PbWorld (pw_config w) (pw_state w) i o (pw_ext w)).

Fixpoint convert_all {E} (l : list (bool * DD * DD)) : M W E (list (Z * DD)) :=
  match l with
  | [] => mret []
  | (serializing, sample_in, sample_out) :: l' =>
      set_samples sample_in sample_out;;
      rc ← (if (serializing : bool) then RTI_TSFM_ProtobufTransformation_serialize
            else RTI_TSFM_ProtobufTransformation_deserialize);
      w ← get_w;
      rs ← convert_all l';
      mret ((rc, pw_out w) :: rs)
  end.

(** The sample that is converted from or to a message can be. *)
Definition request_ok (r : bool * DD * DD) : Prop := sample_ok (if r.1.1 then r.1.2 else r.2).

Lemma convert_all_wp {E} l w :
  ready w → Forall request_ok l →
  wp (convert_all (E := E) l) (λ rs w', length rs = length l ∧ ready w' ∧ pw_config w' = pw_config w)
     no_jump w.
Proof.
  intros Hw Hall. revert w Hw. induction Hall as [|[[ser i] o] l Hreq Hall IH]; intros w Hw;
    cbn [convert_all]; [done|]. unfold request_ok in Hreq. cbn [fst snd] in Hreq.
  pb_step. change (wp ?m ?Q ?R w) with (Q () (PbWorld (pw_config w) (pw_state w) i o (pw_ext w))). cbn beta.
  pb_step.
  apply (wp_use _ (λ _ w', ready w' ∧ pw_config w' = pw_config w)).
  - destruct ser; (eapply wp_use; [first [by apply serialize_wp | by apply deserialize_wp]|]);
      by intros _ w' (? & ? & _).
  - intros rc w1 [Hr Hc]. do 3 pb_step. eapply wp_use; [by apply IH|].
    intros rs w2 (Hl & Hr2 & Hc2). apply wp_ret. cbn [length]. split; [by f_equal|]. split; [done | congruence].
Qed.

(** A transformation that initialization accepted converts any number of
    samples in any order of serializations and deserializations without ever
    dereferencing NULL or breaking what the conversions promise each other, each
    with a return code. *)
Theorem protobuf_session {DL : DescriptorLaws} {E} input output l w :
  is_Some (pb_buffer_member (pw_config w)) → (∀ x, (answer x PNewString).1 ≠ 0) →
  Forall request_ok l →
  wp (rc ← RTI_TSFM_ProtobufTransformation_initialize (E := E) input output;
      if rc =? DDS_RETCODE_OK then rs ← convert_all l; mret (Some rs) else mret None)
     (λ rs w', pw_config w' = pw_config w
        ∧ match rs with Some rs => length rs = length l ∧ ready w' | None => True end) no_jump w.
Proof.
  intros Hm Hnew Hall. pb_step. eapply wp_use; [by apply initialize_wp|]. intros rc w1 [(Hc & _ & _) Hok].
  destruct (Z.eqb_spec rc DDS_RETCODE_OK) as [Hrc|Hrc].
  2: { apply wp_ret. by split. }
  destruct (Hok Hrc) as (_ & file & proto & msg & _ & _ & _ & Hst).
  assert (ready w1) as Hready.
  { unfold ready. rewrite Hst, Hc. split; [|by split]. eexists. split; [done | apply empty_state_ok]. }
  pb_step. eapply wp_use; [by apply convert_all_wp|]. intros rs w2 (Hl & Hr2 & Hc2). apply wp_ret.
  split; [congruence | done].
Qed.


(** The two directions on a member that is a sequence of bytes, computed. *)
Lemma serialize_sequence {E} w m c old elem k msg d1 cs bytes :
  pb_buffer_member (pw_config w) = Some m →
  st_msg_converter (pw_state w) = Some c → st_pb_buffer (pw_state w) = Some old →
  dds_to_protobuf (E := Z) (Clear (pb_msg_ c)) (pw_in w) (conv_state_ c) = Ok (true, msg, d1) cs →
  SerializeToString msg old = (true, bytes) → bytes ≠ [] → Z.of_nat (length bytes) < 2 ^ 31 →
  get_member_info (pw_out w) m = (DDS_RETCODE_OK, (TK_SEQUENCE, elem)) →
  element_seq_kind elem = Some k → state_seq k (pw_state w) = fresh_seq →
  let lent := DdsSeq bytes (Z.of_nat (length bytes)) true in
  let r := set_seq k (pw_out w) m lent in
  RTI_TSFM_ProtobufTransformation_serialize (E := E) w =
    Ok r.1 (PbWorld (pw_config w)
      (set_state_seq k (if r.1 =? DDS_RETCODE_OK then fresh_seq else lent)
         (set_pb_buffer (Some bytes) (set_msg_converter (Some (with_msg (with_state cs c) msg)) (pw_state w))))
      d1 r.2 (pw_ext w)).
Proof.
  intros Hm Hc Hb Hfill Hser Hne Hlen Hinfo Hk Hseq lent r.
  assert (0 < Z.of_nat (length bytes)) as Hpos by (destruct bytes; [done | cbn; lia]).
  assert (u32 (Z.of_nat (length bytes)) = Z.of_nat (length bytes)) as Hu
    by (apply u32_s32_small; lia).
  unfold RTI_TSFM_ProtobufTransformation_serialize, labelled, get_w, put_state, deref, mbind, M_bind,
    mret, M_ret, conv_serialize, on_converter, on_conv_state, get_self, put_msg, put_in, zoom, mbind, M_bind.
  cbn. rewrite Hc. cbn. rewrite Hb. cbn. rewrite Hfill. cbn. rewrite Hser. cbn. rewrite Hm. cbn. rewrite Hinfo. cbn.
  rewrite Hk, Hu.
  unfold RTI_COMMON_DynamicData_set_octet_seq_from_string, RTI_COMMON_DynamicData_set_char_seq_from_string.
  pose proof (λ E, set_seq_from_bytes (E := E) k (pw_out w) m bytes [0] (Z.of_nat (length bytes))) as Hset.
  unfold on_output, zoom; destruct k; cbn in *; rewrite Hseq, Hset by (done || lia); unfold lend_result; fold lent; fold r;
    destruct (r.1 =? DDS_RETCODE_OK) eqn:Hr; cbn; rewrite ?Hr; cbn; try done;
    by apply Z.eqb_eq in Hr as ->.
Qed.

Lemma deserialize_sequence {E} w m c elem k s b ok d' c' :
  pb_buffer_member (pw_config w) = Some m →
  st_msg_converter (pw_state w) = Some c →
  get_member_info (pw_in w) m = (DDS_RETCODE_OK, (TK_SEQUENCE, elem)) →
  element_seq_kind elem = Some k →
  get_seq k (pw_in w) m (state_seq k (pw_state w)) = (DDS_RETCODE_OK, s) →
  get_contiguous_buffer k s = Some b →
  conv_deserialize (E := Z) (pw_out w) b (Z.of_nat (length b)) c = Ok (ok, d') c' →
  RTI_TSFM_ProtobufTransformation_deserialize (E := E) w =
    Ok DDS_RETCODE_OK (PbWorld (pw_config w)
      (set_msg_converter (Some c') (set_state_seq k s (pw_state w))) (pw_in w) d' (pw_ext w)).
Proof.
  intros Hm Hc Hinfo Hk Hget Hbuf Hrun.
  assert (ds_length s = Z.of_nat (length b)) as Hlen by by apply buffer_elements in Hbuf as ->.
  unfold RTI_TSFM_ProtobufTransformation_deserialize, labelled, get_w, put_state, put_out, deref, mbind, M_bind,
    mret, M_ret, RTI_COMMON_DynamicData_get_octet_seq_contiguous_buffer,
    RTI_COMMON_DynamicData_get_char_seq_contiguous_buffer, get_seq_contiguous_buffer, on_input, on_converter, zoom.
  cbn. rewrite Hm. cbn. rewrite Hinfo. cbn. rewrite Hk. unfold labelled, get_h, put_seq, mbind, M_bind, mret, M_ret.
  destruct k; cbn in *; rewrite Hget; cbn; rewrite Hbuf; cbn; rewrite Hc, Hlen; cbn; rewrite Hrun; by destruct ok.
Qed.


(** What DDS documents of reading and writing members: a sequence that was set
    is read back, into any sequence that can hold it; the kinds of the members
    stay. *)
Class MemberLaws := {
  get_after_set : ∀ k d m s d' s0, set_seq k d m s = (DDS_RETCODE_OK, d') →
    ds_elements s ≠ [] → ds_loaned s0 = false →
    ∃ s1, get_seq k d' m s0 = (DDS_RETCODE_OK, s1) ∧ ds_elements s1 = ds_elements s;
  info_after_set : ∀ k d m s d', set_seq k d m s = (DDS_RETCODE_OK, d') →
    get_member_info d' m = get_member_info d m
}.


(** The kinds of members a conversion can read. *)
Definition readable (info : tckind * tckind) : bool :=
  match info.1 with
  | TK_ARRAY | TK_SEQUENCE => match element_seq_kind info.2 with Some _ => true | None => false end
  | _ => false
  end.

(** C37: deserialization reports success when it fails.  A member of a kind
    that is not supported, or bytes that are not a message, leave the output
    sample as it was and return DDS_RETCODE_OK: the return code of the read that
    went before. *)
Theorem deserialize_masks_failure {E} w m :
  ready w → pb_buffer_member (pw_config w) = Some m →
  (get_member_info (pw_in w) m).1 = DDS_RETCODE_OK →
  (readable (get_member_info (pw_in w) m).2 = false
   ∨ ∃ c elem k s b msg, st_msg_converter (pw_state w) = Some c
       ∧ (get_member_info (pw_in w) m).2 = (TK_SEQUENCE, elem) ∧ element_seq_kind elem = Some k
       ∧ get_seq k (pw_in w) m (state_seq k (pw_state w)) = (DDS_RETCODE_OK, s)
       ∧ get_contiguous_buffer k s = Some b
       ∧ ParseFromArray (Clear (pb_msg_ c)) b (s32 (Z.of_nat (length b))) = (false, msg)) →
  ∃ w', RTI_TSFM_ProtobufTransformation_deserialize (E := E) w = Ok DDS_RETCODE_OK w'
    ∧ pw_out w' = pw_out w.
Proof.
  intros ([c [Hc _]] & [b0 Hb] & _) Hm Hrc Hcase.
  destruct (get_member_info (pw_in w) m) as [rc [kind elem]] eqn:Hinfo. cbn in Hrc, Hcase. subst rc.
  destruct Hcase as [Hr|(c' & elem' & k & s & b & msg & Hc' & [= -> ->] & Hk & Hget & Hbuf & Hparse)].
  - exists w. split; [|done].
    unfold RTI_TSFM_ProtobufTransformation_deserialize, labelled, get_w, deref, goto, mbind, M_bind, mret, M_ret.
    cbn. rewrite Hm. cbn. rewrite Hinfo. unfold readable in Hr. cbn in Hr |- *.
    destruct kind; try done; rewrite ?Hb; cbn; destruct (element_seq_kind elem); done.
  - eexists. split; [apply (deserialize_sequence w m c' elem' k s b false (pw_out w) (with_msg c' msg)); try done|done].
    unfold conv_deserialize, get_self, put_msg, mbind, M_bind, mret, M_ret. by rewrite Hparse.
Qed.

(** Without an allocated buffer, an array is read with room for no element. *)
Lemma deserialize_array {E} w m b elem k :
  pb_buffer_member (pw_config w) = Some m → st_pb_buffer (pw_state w) = Some b →
  get_member_info (pw_in w) m = (DDS_RETCODE_OK, (TK_ARRAY, elem)) → element_seq_kind elem = Some k →
  (get_array k (pw_in w) m b 0).1.1 ≠ DDS_RETCODE_OK →
  ∃ w', RTI_TSFM_ProtobufTransformation_deserialize (E := E) w = Ok (get_array k (pw_in w) m b 0).1.1 w'
    ∧ pw_out w' = pw_out w.
Proof.
  intros Hm Hb Hinfo Hk Hrc.
  unfold RTI_TSFM_ProtobufTransformation_deserialize, labelled, get_w, put_state, deref, goto, mbind, M_bind, mret, M_ret.
  cbn. rewrite Hm. cbn. rewrite Hinfo. cbn. rewrite Hb, Hk.
  destruct (get_array k (pw_in w) m b 0) as [[rc buf] len]. cbn in *.
  rewrite (proj2 (Z.eqb_neq _ _) Hrc). cbn. eexists. by split.
Qed.


(** *** Configuration *)

(** The value of a property, or what was there. *)
Definition override (o old : option string) : option string :=
  match o with Some v => Some v | None => old end.

(** The configuration the properties describe, over the one that was there. *)
Definition configured (ps : properties) (c : pb_config) : pb_config :=
  PbConfig (pb_type c) (pb_input_type c) (pb_output_type c)
    (override (lookup_property ps RTI_TSFM_PROTO_PROPERTY_BUFFER_MEMBER) (pb_buffer_member c))
    (override (lookup_property ps RTI_TSFM_PROTO_PROPERTY_DESCRIPTOR_FILE) (pb_descriptor_file c))
    (override (lookup_property ps RTI_TSFM_PROTO_PROPERTY_MESSAGE_TYPE) (pb_message_type c)).

Lemma parse_property_wp ps name set w :
  wp (parse_property ps name set)
     (λ _ w', pw_config w' = match lookup_property ps name with
                             | Some v => set (Some v) (pw_config w)
                             | None => pw_config w
                             end)
     (λ _ _, ∃ x v, (answer (X := X) x (PStringReplace v)).1 = 0) w.
Proof.
  unfold parse_property, string_replace. destruct (lookup_property ps name) as [v|]; [|done].
  pb_run; destruct (Z.eqb_spec (answer (pw_ext w) (PStringReplace v)).1 0); done || by eexists _, _.
Qed.

(** Parsing the configuration of the transformation: the member, the
    descriptor file and the message are those of the properties that are there,
    the rest stays; it fails only when the base class or an allocation does. *)
Theorem pb_config_parse_spec {E} ps w :
  wp (RTI_TSFM_ProtobufTransformationConfig_parse_from_properties (E := E) ps)
     (λ rc w', rc = DDS_RETCODE_OK ∧ pw_config w' = configured ps (pw_config w)
        ∨ rc = DDS_RETCODE_ERROR
          ∧ ((answer (pw_ext w) PBaseConfigParse).1 ≠ DDS_RETCODE_OK
             ∨ ∃ x v, (answer (X := X) x (PStringReplace v)).1 = 0)) no_jump w.
Proof.
  unfold RTI_TSFM_ProtobufTransformationConfig_parse_from_properties.
  do 5 pb_step. 1: { pb_run. right. auto. }
  pb_step. eapply wp_mono; [apply parse_property_wp| |intros; apply wp_ret; auto].
  intros [] w1 Hc1. pb_step. eapply wp_mono; [apply parse_property_wp| |intros; apply wp_ret; auto].
  intros [] w2 Hc2. pb_step. eapply wp_mono; [apply parse_property_wp| |intros; apply wp_ret; auto].
  intros [] w3 Hc3. apply wp_ret. left. split; [done|].
  rewrite Hc3, Hc2, Hc1. unfold configured.
  by destruct (lookup_property ps RTI_TSFM_PROTO_PROPERTY_BUFFER_MEMBER), (lookup_property ps RTI_TSFM_PROTO_PROPERTY_DESCRIPTOR_FILE),
    (lookup_property ps RTI_TSFM_PROTO_PROPERTY_MESSAGE_TYPE), (pw_config w).
Qed.

End theorems.

