(* ===== verification/ConversionLink.v ===== *)
(** The conversions of MessageConversion as the interface that the converter of
    ProtobufConverter is written against, and what follows for the Protobuf
    transformation as a whole. *)
From Stdlib Require Import ZArith Lia.
From stdpp Require Import base gmap strings list option fin_maps.
From S2P Require Import Prelude KafkaTypes TsfmTypes DynHelpers DynDataUtils MessageConversion ConversionSessions.
From S2P Require Import ProtobufConverter ProtobufTransformation.

#[local] Open Scope list_scope.
#[local] Open Scope Z_scope.

Section link.
Context {PB : Protobuf} {D TC FD : Type} `{!EqDecision TC} {TT : TypeCodes TC} {DS : DynScalars D}
  {DM : DynMembers D TC} {DO : DynObjects D TC} {RF : Reflection Message FD} {SL : SeqLib}.

(** The bounds of the nesting of types and of chains of aliases. *)
Context (alias_fuel fuel : nat).

(** A sample of the caller is an object like the others while it is
    converted. *)
Definition enter_sample {E} (d : D) : M (conv_state D TC) E nat := λ w,
  Ok (cs_next w)
     (ConvState (cs_str_buffer w) (cs_cache w) (<[cs_next w := d]> (cs_objects w)) (S (cs_next w))).
Definition leave_sample {E} (p : nat) : M (conv_state D TC) E D := λ w,
  match cs_objects w !! p with
  | Some d => Ok d (ConvState (cs_str_buffer w) (cs_cache w) (delete p (cs_objects w)) (cs_next w))
  | None => Fault UseAfterFree
  end.

Definition on_sample {E A} (d : D) (m : nat → M (conv_state D TC) E A) : M (conv_state D TC) E (A * D) :=
  p ← enter_sample d;
  r ← m p;
  d ← leave_sample p;
  mret (r, d).

#[export] Instance message_conversion : Conversion D := {|
  ConverterState := conv_state D TC;
  empty_state := ConvState [] [] ∅ 0;
  ProtobufConverter.protobuf_to_dds E d m :=
    on_sample d (λ p, MessageConversion.protobuf_to_dds alias_fuel fuel p m);
  ProtobufConverter.dds_to_protobuf E m d :=
    on_sample d (λ p, MessageConversion.dds_to_protobuf alias_fuel fuel m p)
|}.

Context {BD : Bindings D TC} {BL : BindingLaws D TC}.

(** A sample that can be converted: nothing is bound, and its type nests within
    the bounds. *)
Definition convertible (d : D) : Prop :=
  free_object d ∧ ∃ tc, get_type d = Some tc ∧ (nesting tc < fuel)%nat ∧ (nesting tc ≤ alias_fuel)%nat.

(** Between conversions no object of the cache is bound. *)
Definition at_rest (w : conv_state D TC) : Prop :=
  well w ∧ ∀ p d, cs_objects w !! p = Some d → free_object d.

Lemma on_sample_keeps {E A} (d : D) tc (m : nat → M (conv_state D TC) E A) w :
  at_rest w → free_object d → get_type d = Some tc →
  (∀ p w1, well w1 → typed w1 p tc → keeps (nesting tc) p (m p) w1) →
  wp (on_sample d m) (λ r w', at_rest w' ∧ same_bindings d r.2) no_jump w.
Proof.
  intros [Hw Hfree] Hd Ht Hm. set (p := cs_next w).
  set (w1 := ConvState (cs_str_buffer w) (cs_cache w) (<[p := d]> (cs_objects w)) (S p)).
  assert (cs_objects w !! p = None) as Hp by by apply (well_fresh _ Hw).
  assert (cs_objects w1 !! p = Some d) as Hpd by apply lookup_insert_eq.
  assert (∀ tc' q, cache_find tc' (cs_cache w) = Some q → q ≠ p) as Hcache.
  { intros tc' q Hq ->. destruct (well_cache _ Hw _ _ Hq) as (d' & Hd' & _). congruence. }
  assert (well w1) as Hw1.
  { constructor.
    - intros tc' q Hq. destruct (well_cache _ Hw _ _ Hq) as (d' & Hd' & Ht'). exists d'. cbn.
      rewrite lookup_insert_ne; [done | by apply not_eq_sym, (Hcache tc')].
    - intros q Hq. cbn in *. rewrite lookup_insert_ne by lia. apply (well_fresh _ Hw). lia. }
  unfold on_sample. apply wp_bind. change (wp (enter_sample d) ?Q ?R w) with (Q p w1). cbn beta. apply wp_bind.
  eapply wp_mono; [apply (Hm p w1 Hw1); by exists d | | done]. intros r w2 [Hw2 [Hobj Hnew Hkept]].
  destruct (Hobj p d Hpd) as (d2 & Hd2 & Hs & _). apply wp_bind. unfold wp at 1, leave_sample. rewrite Hd2.
  apply wp_ret. split; [|exact Hs]. split; [constructor|]; cbn.
  - intros tc' q Hq. destruct (well_cache _ Hw2 _ _ Hq) as (d' & Hd' & Ht'). exists d'.
    rewrite lookup_delete_ne; [done|]. intros <-. destruct (Hkept _ _ Hq) as [Hq'|Hnone]; [|congruence].
    by apply (Hcache tc' p).
  - intros q Hq. rewrite lookup_delete. case_decide; [done|]. by apply (well_fresh _ Hw2).
  - intros q d'. rewrite lookup_delete. case_decide as Hne; [done|]. intros Hq.
    destruct (cs_objects w1 !! q) as [d0|] eqn:Hq1; [|by eapply Hnew].
    destruct (Hobj q d0 Hq1) as (d0' & Hq' & Hs0 & _). rewrite Hq in Hq'. injection Hq' as <-.
    eapply same_free; [exact Hs0|]. apply (Hfree q). cbn in Hq1. by rewrite lookup_insert_ne in Hq1.
Qed.

Lemma convertible_same d d' : same_bindings d d' → convertible d → convertible d'.
Proof.
  intros Hs [Hfree (tc & Ht & ?)]. split; [by eapply same_free|]. exists tc. split; [|done].
  by rewrite (ConversionSessions.same_type _ _ Hs).
Qed.

(** The implementation keeps the promises of the interface. *)
#[export] Instance message_conversion_contract : ConversionContract message_conversion.
Proof.
  refine {| state_ok := at_rest : ConverterState → Prop; sample_ok := convertible |}.
  - split; [constructor|]; cbn; try done.
  - intros E cs d m Hcs Hd. destruct Hd as [Hfree (tc & Ht & Hn & Ha)] eqn:Heq.
    eapply wp_mono; [eapply (on_sample_keeps d tc); [done..|] | |done].
    + intros p w1 Hw1 Hp. by apply protobuf_to_dds_keeps.
    + intros r w' [Hw' Hs]. split; [done | by eapply convertible_same].
  - intros E cs d m Hcs Hd. destruct Hd as [Hfree (tc & Ht & Hn & Ha)] eqn:Heq.
    eapply wp_mono; [eapply (on_sample_keeps d tc); [done..|] | |done].
    + intros p w1 Hw1 Hp. by apply dds_to_protobuf_keeps.
    + intros r w' [Hw' Hs]. split; [done | by eapply convertible_same].
Defined.
End link.

(** ** The transformation with the conversions *)
Section gateway.
Context {PB : Protobuf} {D X TC TI FD : Type} `{!EqDecision TC} {TT : TypeCodes TC} {DS : DynScalars D}
  {DM : DynMembers D TC} {DO : DynObjects D TC} {RF : Reflection Message FD} {SL : SeqLib}
  {BD : Bindings D TC} {BL : BindingLaws D TC} `{!Env X pcall} {PA : PropertyApi} {DY : DynData D}
  {DA : DynArrays D} {TL : TypeCodeLib TI} {TN : TypeCodeInfo TI} {ST : StrToken} {LA : SeqLibLaws SL}
  {DL : DescriptorLaws}.
Context (alias_fuel fuel : nat).
#[local] Instance conversions : Conversion D := message_conversion (TC := TC) (FD := FD) alias_fuel fuel.

End gateway.

