(* ===== verification/KafkaWitness.v ===== *)
(** The theorems of the Kafka adapter at concrete inputs: environments that
    answer every call, concrete memories, and one instance of each theorem. *)
From Stdlib Require Import ZArith Lia.
From stdpp Require Import base gmap strings list fin_maps relations.
From S2P Require Import Prelude KafkaTypes KafkaConnection KafkaAdapter KafkaWriter KafkaReader.

#[local] Open Scope string_scope.
#[local] Open Scope list_scope.
#[local] Open Scope nat_scope.

(** An environment in which every call succeeds. *)
Definition obliging (x : ()) (q : kcall) : Z * () :=
  (match q with
   | QConfSet _ _ | QPollSetConsumer | QSubscribe _ | QFlush _ | QOutqLen | QProducev _ _
   | QPoll _ | QGetOctetSeq _ | QSetOctetSeq _ | QSemaphoreTake | QSemaphoreGive => 0%Z
   | _ => 1%Z
   end, x).

(** One in which memory is exhausted, and one that cannot copy a payload. *)
Definition exhausted (x : ()) (q : kcall) : Z * () :=
  match q with QCalloc _ => (0%Z, x) | _ => obliging x q end.
Definition no_copy (x : ()) (q : kcall) : Z * () :=
  match q with QSetOctetSeq _ => (1%Z, x) | _ => obliging x q end.

(** A producer queue of two messages that a poll empties: the state is the
    number of queued messages. *)
Definition small_queue (x : nat) (q : kcall) : Z * nat :=
  match q with
  | QProducev _ _ => if decide (2 ≤ x) then (RD_KAFKA_RESP_ERR__QUEUE_FULL, x) else (0%Z, S x)
  | QPoll _ => (0%Z, 0)
  | _ => ((obliging () q).1, x)
  end.
Definition queue_room (x : nat) : nat := if decide (2 ≤ x) then 1 else 0.

(** The properties of a configuration. *)
Definition broker : properties :=
  [("bootstrap.servers", "localhost:9092"); ("topic", "shapes"); ("dds.type.name", "Shape"); ("group.id", "gateway")].

Definition connection_world : world kobj () kcall :=
  World 1 (<[0 := OConnection (KafkaConnection Null (Some "localhost:9092"))]> ∅) () [].

Definition writer_world {X} (x : X) (d1 d2 : list Z) : world kobj X kcall :=
  World 4 (<[0 := OWriter (KafkaStreamWriter (Ptr 1) (Some "shapes"))]>
          (<[1 := OClient RD_KAFKA_PRODUCER (Conf [] true)]>
          (<[2 := ODynamicData d1]> (<[3 := ODynamicData d2]> ∅)))) x [].

(** A reader in use: [np] and [nq] are the semaphores' counts, [msg] the
    message it holds, if any. *)
Definition slots : layout :=
  Layout 0 1 (Conf [] false) 2 3 4 5 6 (Ptr 7) (Some "shapes") Null Null.
Definition reader_world (np nq : nat) (rkm : ptr) (pl : option ptr) (msg : Z * list Z)
    : world kobj () kcall :=
  World 9 (<[0 := OReader (KafkaStreamReader (Ptr 1) rkm (Some "shapes") Null (Ptr 2) (Ptr 3)
                    true (Ptr 4) (Ptr 6) Null pl)]>
          (<[1 := OClient RD_KAFKA_CONSUMER (Conf [] false)]>
          (<[2 := OSemaphore np]> (<[3 := OSemaphore nq]>
          (<[4 := OCell (Ptr 5)]> (<[5 := ODynamicData []]>
          (<[6 := OCell (Ptr 7)]> (<[7 := OSampleInfo true]>
          (<[8 := OMessage msg.1 msg.2]> ∅))))))))) () [].

Ltac concrete_wf :=
  let l := fresh in let Hl := fresh in
  intros l Hl; cbn in Hl; unfold writer_world, reader_world, connection_world; cbn [w_heap];
  repeat rewrite lookup_insert_ne by lia; apply lookup_empty.

Lemma reader_world_mem np nq rkm pl msg :
  reader_mem slots rkm pl true np nq (reader_world np nq rkm pl msg).
Proof.
  constructor; try reflexivity; [concrete_wf | done | by eexists | done].
Qed.

Section connection.
#[local] Instance obliging_env : Env () kcall := obliging.
#[local] Instance first_property_api : PropertyApi := first_property.

Lemma create_stream_writer_witness :
  wp (RTI_RS_KafkaConnection_create_stream_writer (E := Empty_set) (Ptr 0) (Some "shapes") broker)
     (create_stream_writer_post connection_world
        (KafkaConnection Null (Some "localhost:9092")) (Some "shapes") broker)
     no_jump connection_world.
Proof. apply create_stream_writer_spec; [concrete_wf | reflexivity | discriminate]. Defined.

Lemma create_delete_stream_writer_witness :
  wp (sw ← RTI_RS_KafkaConnection_create_stream_writer (E := Empty_set)
             (Ptr 0) (Some "shapes") broker;
      when (negb (bool_decide (sw = Null)))
        (RTI_RS_KafkaConnection_delete_stream_writer sw);;
      mret sw)
    (λ sw w', sw ≠ Null → w_heap w' = w_heap connection_world
       ∧ ∃ qs, farewell RD_KAFKA_PRODUCER qs ∧ qs `suffix_of` w_trace w')
    no_jump connection_world.
Proof.
  eapply create_delete_stream_writer; [concrete_wf | reflexivity | discriminate].
Defined.


(** The memory and the address the creator returns. *)
Definition created : ptr * world kobj () kcall :=
  match RTI_RS_KafkaConnection_create_stream_reader (E := Empty_set) (Ptr 0) broker
          connection_world with
  | Ok p w => (p, w)
  | _ => (Null, connection_world)
  end.
Definition created_struct : RTI_RS_KafkaStreamReader :=
  match w_heap created.2 !! 1 with Some (OReader s) => s | _ => zero_reader end.

Lemma delete_stream_reader_witness :
  wp (RTI_RS_KafkaConnection_delete_stream_reader (E := Empty_set) (Ptr 1))
    (λ _ w', w_heap w' = delete_ptr (rd_polling_thread created_struct)
                (without_reader 1 created_struct (w_heap created.2))
       ∧ w_trace w' = w_trace created.2 ++
           [QThreadStopAndDelete; QConsumerClose; QDestroy RD_KAFKA_CONSUMER;
            QOctetSeqFinalize; QSemaphoreDelete; QSemaphoreDelete]
       ∧ ∃ il i, rd_info_list created_struct = Ptr il
           ∧ w_heap created.2 !! il = Some (OCell (Ptr i))
           ∧ w_heap w' !! i = Some (OSampleInfo true))
    no_jump created.2.
Proof.
  apply (delete_stream_reader_spec created.2 1 created_struct broker (Some "localhost:9092"));
    [|by cbv [answer obliging_env obliging fst]].
  constructor; [constructor | | |].
  1: vm_compute; reflexivity.
  1: do 4 eexists; split_and!; [vm_compute; reflexivity | vm_compute; reflexivity | |
       vm_compute; reflexivity | vm_compute; reflexivity | vm_compute; reflexivity]; done.
  1: split; vm_compute; [reflexivity | discriminate].
  1, 2: vm_compute; reflexivity.
  1: eexists; split; vm_compute; reflexivity.
  2: eexists; split; vm_compute; reflexivity.
  do 3 eexists; split_and!; [vm_compute; reflexivity | vm_compute; reflexivity | | |
    vm_compute; reflexivity | vm_compute; reflexivity]; lia.
Defined.

#[local] Instance fetch_one : Fetch () := λ _, (0%Z, [104; 105]%Z).

Lemma created_reader_works_witness :
  no_fault 1 (Sys created.2 TTake EIdle [] [])
  ∧ ([] : list (list Z)) `prefix_of` [] ∧ length ([] : list (list Z)) ≤ 1.
Proof.
  apply (created_reader_works connection_world 0 (KafkaConnection Null (Some "localhost:9092"))
           broker 1 created.2 2 5 [] created_struct);
    [concrete_wf | reflexivity | discriminate | vm_compute; reflexivity.. |].
  apply rtc_once, (step_loop_enter _ _ _ _ _ created_struct); vm_compute; reflexivity.
Defined.
End connection.

Section calloc.
#[local] Instance exhausted_env : Env () kcall := exhausted.
#[local] Instance first_property_api' : PropertyApi := first_property.

Lemma create_stream_writer_calloc_witness :
  RTI_RS_KafkaConnection_create_stream_writer (E := Empty_set) (Ptr 0) (Some "shapes") broker
    connection_world = Fault NullDeref.
Proof. apply create_stream_writer_calloc_fault. reflexivity. Defined.

Lemma create_stream_reader_calloc_witness :
  RTI_RS_KafkaConnection_create_stream_reader (E := Empty_set) (Ptr 0) broker
    connection_world = Fault NullDeref.
Proof. apply create_stream_reader_calloc_fault. reflexivity. Defined.
End calloc.

Section adapter.
#[local] Instance obliging_env1 : Env () kcall := obliging.
#[local] Instance first_property_api1 : PropertyApi := first_property.
#[local] Instance plain_plugin : AdapterApi := λ p, p.

Lemma plugin_create_delete_witness :
  wp (p ← RTI_RS_Kafka_AdapterPlugin_create (E := Empty_set) broker;
      a ← (if decide (p = Null) then mret None else o ← load p; mret (Some o));
      RTI_RS_KafkaAdapterPlugin_delete p;; mret (p, a))
    (λ pa w', w_heap w' = w_heap connection_world
       ∧ (pa.1 = Null ↔
            (answer (w_ext connection_world) (QCalloc "RTI_RS_KafkaAdapterPlugin")).1 = 0%Z)
       ∧ (pa.1 ≠ Null → ∃ a, pa.2 = Some (OAdapter a)
            ∧ ap_plugin_version a = (1, 0, 0, 0)%Z
            ∧ connection_create_session a = None ∧ connection_delete_session a = None
            ∧ stream_reader_update a = None
            ∧ stream_writer_write a = Some FnWrite
            ∧ stream_reader_read a = Some FnRead
            ∧ stream_reader_return_loan a = Some FnReturnLoan
            ∧ connection_create_stream_reader a = Some FnCreateStreamReader
            ∧ connection_delete_stream_reader a = Some FnDeleteStreamReader
            ∧ connection_create_stream_writer a = Some FnCreateStreamWriter
            ∧ connection_delete_stream_writer a = Some FnDeleteStreamWriter))
    no_jump connection_world.
Proof. apply plugin_create_delete. concrete_wf. Defined.

Lemma create_connection_witness :
  wp (RTI_RS_KafkaAdapterPlugin_create_connection (E := Empty_set) (Ptr 0) broker)
    (λ p w',
       if decide ((answer (w_ext connection_world) (QCalloc "RTI_RS_KafkaConnection")).1 = 0%Z)
       then p = Null ∧ w_heap w' = w_heap connection_world
       else ∃ cn, w_heap connection_world !! cn = None
         ∧ w_heap w' = <[cn := OConnection (KafkaConnection (Ptr 0)
              (lookup_property broker "bootstrap.servers"))]> (w_heap connection_world)
         ∧ p = match lookup_property broker "bootstrap.servers" with
               | Some _ => Ptr cn | None => Null end
         ∧ wp (RTI_RS_KafkaAdapterPlugin_delete_connection (E := Empty_set) (Ptr 0) (Ptr cn))
             (λ _ w'', w_heap w'' = w_heap connection_world) no_jump w')
    no_jump connection_world.
Proof. apply create_connection_spec. concrete_wf. Defined.
End adapter.

Section writer.
#[local] Instance small_queue_env : Env nat kcall := small_queue.
#[local] Instance reuse_buffer_api : OctetSeqApi := reuse_buffer.

Lemma small_queue_drains : queue_drains queue_room 1.
Proof.
  split; [intros x; unfold queue_room; case_decide; lia|].
  intros x t d. cbv [answer small_queue_env]. unfold small_queue, queue_room. cbn.
  repeat (case_decide; cbn); (discriminate || lia).
Qed.

Lemma small_queue_healthy : healthy (X := nat).
Proof.
  split; [done|]. intros x t d. cbv [answer small_queue_env]. cbn.
  case_decide; cbn; [by right | by left].
Qed.

(** The queue is full when the first sample comes. *)
Lemma writer_world_live d1 d2 : live_writer (writer_world 2 d1 d2) 0 (Some "shapes").
Proof. by do 2 eexists. Qed.

Lemma write_delivers_in_order_witness :
  wp (RTI_RS_KafkaStreamWriter_write (E := Empty_set) 2 (Ptr 0) [Ptr 2; Ptr 3])
     (λ n w', n = 2 ∧ w_heap w' = w_heap (writer_world 2 [104; 105; 0]%Z [106; 0; 7]%Z)
        ∧ ∃ qs, w_trace w' = [] ++ qs
          ∧ accepted 2 qs `sublist_of`
              [(Some "shapes", [104; 105]%Z); (Some "shapes", [106]%Z)]
          ∧ (@healthy nat _ → accepted 2 qs =
              [(Some "shapes", [104; 105]%Z); (Some "shapes", [106]%Z)]))
     no_jump (writer_world 2 [104; 105; 0]%Z [106; 0; 7]%Z).
Proof.
  apply (write_delivers_in_order queue_room 1 small_queue_drains 2 0 (Some "shapes")
           [Ptr 2; Ptr 3] [[104; 105; 0]%Z; [106; 0; 7]%Z]
           (writer_world 2 [104; 105; 0]%Z [106; 0; 7]%Z));
    [exact reuse_buffer_laws | lia | apply writer_world_live |].
  repeat constructor; eexists; (split; [done|]); (split; [reflexivity | set_solver]).
Defined.

Lemma write_strings_roundtrip_witness :
  wp (RTI_RS_KafkaStreamWriter_write (E := Empty_set) 2 (Ptr 0) [Ptr 2; Ptr 3])
     (λ n w', ∃ qs, w_trace w' = [] ++ qs
          ∧ accepted 2 qs = [(Some "shapes", [104; 105]%Z); (Some "shapes", [106]%Z)])
     no_jump (writer_world 2 [104; 105; 0]%Z [106; 0]%Z).
Proof.
  apply (write_strings_roundtrip queue_room 1 small_queue_drains 2 0 (Some "shapes")
           [Ptr 2; Ptr 3] [[104; 105]%Z; [106]%Z] (writer_world 2 [104; 105; 0]%Z [106; 0]%Z));
    [exact reuse_buffer_laws | exact small_queue_healthy | lia | apply writer_world_live | |].
  - repeat constructor; set_solver.
  - repeat constructor; by eexists.
Defined.

Lemma write_overreads_witness :
  RTI_RS_KafkaStreamWriter_write (E := Empty_set) 2 (Ptr 0) [Ptr 2]
    (writer_world 2 [104; 105]%Z []) = Fault OutOfBounds.
Proof.
  apply (write_overreads_binary_payload 2 0 (Some "shapes") 2 [104; 105]%Z);
    [reflexivity | done | set_solver | apply writer_world_live | reflexivity | reflexivity].
Defined.

Lemma write_sends_stale_witness :
  wp (RTI_RS_KafkaStreamWriter_write (OA := reuse_buffer) (E := Empty_set) 2
        (Ptr 0) [Ptr 2; Ptr 3])
     (λ n w', ∃ qs, w_trace w' = [] ++ qs
        ∧ accepted 2 qs = [(Some "shapes", [104; 105; 106]%Z); (Some "shapes", [65; 105; 106]%Z)])
     no_jump (writer_world 2 [104; 105; 106; 0]%Z [65]%Z).
Proof.
  apply (write_sends_stale_bytes queue_room 1 2 0 (Some "shapes") 2 3
           [104; 105; 106; 0]%Z [65]%Z (writer_world 2 [104; 105; 106; 0]%Z [65]%Z));
    [exact small_queue_drains | exact small_queue_healthy | lia | apply writer_world_live
    | reflexivity | reflexivity | set_solver | set_solver].
Defined.
End writer.

Section reader.
#[local] Instance obliging_env2 : Env () kcall := obliging.
#[local] Instance fetch_error : Fetch () := λ _, ((-191)%Z, []).

(** A reader between two polls, and one with the message "hi". *)
Definition idle_reader : sys () :=
  Sys (reader_world 1 0 Null None (0%Z, [])) TTake EIdle [] [].
Definition full_reader : sys () :=
  Sys (reader_world 0 1 (Ptr 8) (Some (Ptr 8)) (0%Z, [104; 105]%Z)) TTake EIdle
    [[104; 105]%Z] [].

Lemma idle_reader_inv : inv slots Free idle_reader.
Proof.
  do 5 eexists. split; [apply reader_world_mem|]. split; [|done].
  split; [done|]. split; [done|]. left. split; [done|]. right. by left.
Qed.

Lemma full_reader_inv : inv slots Full full_reader.
Proof.
  do 5 eexists. split; [apply reader_world_mem|]. split.
  - split; [done|]. split; [done|]. right. split; [done|]. right. by left.
  - split; [done|]. by do 3 eexists.
Qed.

Lemma reader_memory_safe_witness : no_fault 0 idle_reader.
Proof. apply (reader_memory_safe slots idle_reader); [apply idle_reader_inv | constructor]. Defined.

(** After the first step of a run. *)
Lemma reader_delivers_in_order_witness :
  s_out idle_reader `prefix_of` s_in idle_reader
  ∧ length (s_in idle_reader) ≤ S (length (s_out idle_reader)).
Proof.
  apply (reader_delivers_in_order slots idle_reader); [apply idle_reader_inv | constructor].
Defined.


Lemma consumer_error_ends_thread_witness :
  ∃ w', poll_handle (E := Empty_set) (Ptr 0)
          (reader_world 0 0 (Ptr 8) None ((-191)%Z, [])) = Ok (Some Return) w'
    ∧ step 0 (Sys (reader_world 0 0 (Ptr 8) None ((-191)%Z, [])) THandle EIdle [] [])
             (Sys w' TExit EIdle [] [])
    ∧ reader_mem slots (Ptr 8) None true 1 0 w'
    ∧ (reachable slots (Sys w' TExit EIdle [] []) idle_reader →
       s_t idle_reader = TExit ∧ s_in idle_reader = []).
Proof.
  apply (consumer_error_ends_thread slots (Ptr 8) None true _ EIdle [] [] (-191)%Z []);
    [apply reader_world_mem | by do 3 eexists | done | done].
Defined.
(** The engine reads the message: the state after read. *)
Definition after_read : world kobj () kcall :=
  match RTI_RS_KafkaStreamReader_read (E := Empty_set) (Ptr 0) (s_w full_reader) with
  | Ok _ w => w
  | _ => s_w full_reader
  end.

Lemma full_reader_read :
  step 0 full_reader (Sys after_read TTake ELoan [[104; 105]%Z] [[104; 105]%Z]).
Proof.
  apply (step_read_one _ _ _ _ _ [] (Ptr 4) (Ptr 6) [104; 105]%Z); vm_compute; reflexivity.
Qed.

Lemma reader_refines_buffer_witness :
  ([[104; 105]%Z], [[104; 105]%Z]) = ([[104; 105]%Z], [])
  ∨ buffer_step ([[104; 105]%Z], []) ([[104; 105]%Z], [[104; 105]%Z]).
Proof.
  exact (reader_refines_buffer slots Full full_reader _ full_reader_inv full_reader_read).
Defined.

(** One iteration from an idle reader, with a consumer error. *)
Definition after_iteration : world kobj () kcall :=
  match poll_iteration (E := Empty_set) (Ptr 0) (s_w idle_reader) with
  | Ok _ w => w
  | _ => s_w idle_reader
  end.

End reader.

Section lossy_reader.
#[local] Instance no_copy_env : Env () kcall := no_copy.
#[local] Instance fetch_nothing : Fetch () := λ _, (0%Z, []).

Lemma failed_read_witness :
  ∃ w', RTI_RS_KafkaStreamReader_read (E := Empty_set) (Ptr 0) (s_w full_reader)
        = Ok (0, Null, Null) w'
    ∧ step 0 full_reader (Sys w' TTake EIdle [[104; 105]%Z] [])
    ∧ inv slots Lost (Sys w' TTake EIdle [[104; 105]%Z] []) ∧ [[104; 105]%Z] ≠ [].
Proof.
  apply (failed_read_loses_token slots (s_w full_reader) TTake [[104; 105]%Z] []);
    [apply full_reader_inv | right; by left | done | discriminate].
Defined.

Definition lost_reader : sys () :=
  Sys (reader_world 0 0 (Ptr 8) (Some (Ptr 8)) (0%Z, [104; 105]%Z)) TTake EIdle
    [[104; 105]%Z] [].

Lemma lost_forever_witness :
  s_in lost_reader = s_in lost_reader ∧ s_out lost_reader = s_out lost_reader
  ∧ ((∀ x : (), (answer x QSemaphoreTake).1 = 0%Z) →
     s_t lost_reader = TTake → s_t lost_reader = TTake).
Proof.
  apply (lost_forever slots lost_reader); [|constructor].
  do 5 eexists. split; [apply reader_world_mem|]. split.
  - split; [done|]. split; [done|]. split; [done|]. right. by left.
  - right. by exists [104; 105]%Z.
Defined.
End lossy_reader.
