(* ===== verification/ShapesWitness.v ===== *)
(** The demonstration programs at concrete inputs: an encoding of shapes that
    fulfils the laws of [KafkaShapes], a broker that accepts everything, and a
    run of each program. *)
From Stdlib Require Import ZArith Lia Ascii String.
From stdpp Require Import base gmap strings list fin_maps.
From S2P Require Import Prelude KafkaTypes KafkaWriter KafkaReader KafkaShapes.

#[local] Open Scope string_scope.
#[local] Open Scope list_scope.
#[local] Open Scope nat_scope.

(** ** An encoding: three little-endian words and the characters *)

Definition word_bytes (z : Z) : list Z :=
  [u32 z mod 256; u32 z / 256 mod 256; u32 z / 65536 mod 256; u32 z / 16777216 mod 256]%Z.
Definition bytes_word (a b c d : Z) : Z := s32 (a + 256 * b + 65536 * c + 16777216 * d)%Z.

Lemma bytes_word_bytes z :
  is_s32 z → bytes_word (u32 z mod 256) (u32 z / 256 mod 256) (u32 z / 65536 mod 256)
    (u32 z / 16777216 mod 256) = z.
Proof.
  unfold is_s32, bytes_word. intros Hz.
  assert (u32 z mod 256 + 256 * (u32 z / 256 mod 256) + 65536 * (u32 z / 65536 mod 256)
    + 16777216 * (u32 z / 16777216 mod 256) = u32 z)%Z as ->.
  { pose proof (Z.mod_pos_bound z (2 ^ 32)). unfold u32 in *. clear Hz.
    generalize dependent (z mod 2 ^ 32)%Z. intros u Hu.
    Z.to_euclidean_division_equations. lia. }
  unfold u32, s32. rewrite Zplus_mod_idemp_l, Z.mod_small by lia. lia.
Qed.

Definition char_byte (a : ascii) : Z := Z.of_nat (nat_of_ascii a).
Definition byte_char (z : Z) : ascii := ascii_of_nat (Z.to_nat z).

Lemma byte_char_byte a : byte_char (char_byte a) = a.
Proof. unfold byte_char, char_byte. rewrite Nat2Z.id. apply ascii_nat_embedding. Qed.

Definition encode_shape (s : ShapeType) : list Z :=
  word_bytes (sh_x s) ++ word_bytes (sh_y s) ++ word_bytes (sh_shapesize s)
    ++ (char_byte <$> list_ascii_of_string (sh_color s)).

Definition decode_shape (d : list Z) : option ShapeType :=
  match d with
  | x0 :: x1 :: x2 :: x3 :: y0 :: y1 :: y2 :: y3 :: z0 :: z1 :: z2 :: z3 :: color =>
      Some (Shape (string_of_list_ascii (byte_char <$> color))
        (bytes_word x0 x1 x2 x3) (bytes_word y0 y1 y2 y3) (bytes_word z0 z1 z2 z3))
  | _ => None
  end.

#[export] Instance word_proto : ShapeProto := {
  ByteSizeLong s := length (encode_shape s);
  SerializeToArray s n :=
    if (Z.of_nat (length (encode_shape s)) <=? n)%Z then Some (encode_shape s) else None;
  ParseFromArray d n := decode_shape (take (Z.to_nat n) d);
  valid_utf8 color := forallb (λ a, (char_byte a <? 128)%Z) (list_ascii_of_string color)
}.

Lemma decode_encode s : int32_fields s → decode_shape (encode_shape s) = Some s.
Proof.
  destruct s as [color x y z]. intros (Hx & Hy & Hz).
  unfold encode_shape, word_bytes, decode_shape. cbn [sh_color sh_x sh_y sh_shapesize app] in *.
  rewrite !bytes_word_bytes by done. do 2 f_equal.
  rewrite <- list_fmap_compose.
  rewrite (list_fmap_ext _ id) by (intros ? a _; apply byte_char_byte).
  by rewrite list_fmap_id, string_of_list_ascii_of_string.
Qed.

#[export] Instance word_laws : ShapeLaws word_proto.
Proof.
  split; cbn [ByteSizeLong SerializeToArray ParseFromArray valid_utf8 word_proto].
  - intros s n d. destruct (Z.leb_spec (Z.of_nat (length (encode_shape s))) n); [|done].
    by intros [= <-].
  - intros s _. rewrite Z.leb_refl. by eexists.
  - intros s n d. destruct (_ <=? _)%Z; [|done]. intros [= <-] Hf _.
    rewrite Nat2Z.id, firstn_all. by apply decode_encode.
Qed.

(** ** A broker *)

(** It refuses nothing; the state is the seed of rand. *)
Definition generous (x : Z) (q : kcall) : Z * Z :=
  match q with
  | QConfNew | QNew _ _ | QTopicNew _ => (1, x)
  | QRand => let x := (x * 1103515245 + 12345) mod 2 ^ 31 in (x / 65536, x)
  | _ => (0, x)
  end%Z.

(** For the subscriber: the state is what it will deliver. *)
Definition deliver (x : list (Z * list Z)) (q : kcall) : Z * list (Z * list Z) :=
  match q with
  | QConfNew | QNew _ _ | QPartitionListNew => (1%Z, x)
  | QConsumerPoll _ => if decide (x = []) then (0%Z, []) else (1%Z, tail x)
  | _ => (0%Z, x)
  end.
#[export] Instance deliver_fetch : Fetch (list (Z * list Z)) := λ x, default (0%Z, []) (head x).

(** ** Runs *)

Definition start {X} (x : X) : world kobj X kcall := World 0 ∅ x [].

Lemma start_wf {X} (x : X) : heap_wf (start x).
Proof. intros l _. apply lookup_empty. Qed.

Definition result {W A} (default_ : A) (o : outcome W Empty_set A) : A :=
  match o with Ok a _ => a | _ => default_ end.
Definition final {W A} (default_ : W) (o : outcome W Empty_set A) : W :=
  match o with Ok _ w => w | _ => default_ end.

(** Three rounds of the publisher. *)
Definition pub_run := publisher_main (Env0 := generous) 3
  ["shapes_kafka_publisher"; "localhost:9092"; "BLUE"; "Square"] (start 42%Z).

Example pub_run_result : result (Exited 0 []) pub_run =
  Running [Published (Shape "BLUE" 137 137 27); Published (Shape "BLUE" 117 32 37);
           Published (Shape "BLUE" 109 132 26)].
Proof. vm_compute. reflexivity. Qed.

(** The first two of its messages. *)
Definition inbox : list (Z * list Z) :=
  (λ m, (0%Z, m.2)) <$> take 2 (produced (Env0 := generous) 42%Z
     (w_trace (final (start 42%Z) pub_run))).
Definition sub_run := subscriber_main (Env0 := deliver) 9
  ["shapes_kafka_subscriber"; "localhost:9092"; "Square"] (start inbox).

(** After them the end of the partition, a text that is no shape, and an error:
    its message is what is left. *)
Definition error_run := subscriber_main (Env0 := deliver) 9
  ["shapes_kafka_subscriber"; "localhost:9092"; "Square"]
  (start (inbox ++ [(-191, []); (0, [104; 105]); (-195, [])]%Z)).
Example error_run_result :
  result (Exited 0 []) error_run =
    Exited 1 [Received (Shape "BLUE" 137 137 27); Received (Shape "BLUE" 117 32 37);
              ParseFailed; ConsumerError]
  ∧ map_to_list (w_heap (final (start []) error_run)) = [(7, OMessage (-195) [])].
Proof. split; vm_compute; reflexivity. Qed.

(** ** The theorems *)

Lemma generous_smooth : smooth (Env0 := generous) "BLUE".
Proof.
  split; [by intros x []|]. intros [color x y z] [Hc _]. cbn in Hc. subst color. cbn. lia.
Qed.

Lemma publisher_publishes_witness :
  wp (publisher_main (Env0 := generous) 3
        ["shapes_kafka_publisher"; "localhost:9092"; "BLUE"; "Square"])
     (publisher_result (Env0 := generous) 3 "localhost:9092" "BLUE" "Square" (start 42%Z))
     no_jump (start 42%Z).
Proof. apply publisher_publishes. apply start_wf. Defined.

Lemma publisher_never_returns_witness :
  ∃ shapes w', publisher_main (Env0 := generous) 100
      ["shapes_kafka_publisher"; "localhost:9092"; "BLUE"; "Square"] (start 42%Z)
    = Ok (Running (Published <$> shapes)) w' ∧ length shapes = 100.
Proof. apply publisher_never_returns; [apply start_wf | apply generous_smooth]. Defined.

Lemma subscriber_reports_witness :
  wp (subscriber_main (Env0 := deliver) 9
        ["shapes_kafka_subscriber"; "localhost:9092"; "Square"])
     (subscriber_result (Env0 := deliver) "localhost:9092" (start inbox)) no_jump (start inbox).
Proof. apply subscriber_reports. apply start_wf. Defined.

Lemma shapes_end_to_end_witness :
  lines (result (Exited 0 []) sub_run)
    = Received <$> take 2 (published_shapes (result (Exited 0 []) pub_run))
  ∧ Forall (random_shape "BLUE") (published_shapes (result (Exited 0 []) pub_run)).
Proof.
  apply (shapes_end_to_end (Env0 := generous) (Env1 := deliver) 3 9
    "shapes_kafka_publisher" "shapes_kafka_subscriber" "localhost:9092" "localhost:9092"
    "BLUE" "Square" 2 (start 42%Z) (start inbox) _ _
    (final (start 42%Z) pub_run) (final (start []) sub_run)
    (w_trace (final (start 42%Z) pub_run)) (w_trace (final (start []) sub_run)));
    [apply start_wf | apply start_wf | vm_compute; reflexivity ..].
Defined.
