(* ===== verification/TsfmWitness.v ===== *)
(** The theorems of the transformation framework at concrete inputs. *)
From Stdlib Require Import ZArith Lia.
From stdpp Require Import base gmap strings list fin_maps.
From S2P Require Import Prelude KafkaTypes TsfmTypes TsfmConfig Transformation TsfmPlugin TsfmTemplate TsfmLifecycle.

#[local] Open Scope string_scope.
#[local] Open Scope list_scope.
#[local] Open Scope nat_scope.

(** A library that never fails, a lookup of properties, a sequence that
    reallocates, mutexes, and a user plugin on byte strings. *)
Definition willing (x : ()) (q : tcall) : Z * () :=
  (match q with
   | QTSupportDelete | QDeleteData | QClearMembers | QMutexInit | QMutexLock | QMutexUnlock
   | QMutexDestroy | QTConfigParse | QTPluginConfigParse => 0%Z
   | _ => 1%Z
   end, x).
Definition always_one (x : ()) (q : tcall) : Z * () := (1%Z, x).

Definition bytes_codec : Codec (list Z) := {|
  blank := [];
  clear _ := [];
  serialize_sample d _ := Some (d ++ [0%Z]);
  deserialize_sample d _ := match d with [] => None | _ => Some d end
|}.

Definition serializer_properties : properties :=
  [("transform_type", "serializer"); ("input_type", "Shape")].

(** A transformation at 0, its configuration at 1, its plugin at 2 and user
    plugin at 3, its type support at 4; inputs at 5 to 8; one output at 9. *)
Definition no_fields : t_fields := TFields Null Null.
Definition the_plugin : RTI_TSFM_TransformationPlugin :=
  TransformationPlugin (PtrSeq 1 [Ptr 0]) Null (Ptr 3) false true no_fields.
Definition the_config : RTI_TSFM_TransformationConfig :=
  TransformationConfig RTI_TSFM_TransformationKind_SERIALIZER (Some "Shape") (Some "Bytes").
Definition blocks : tlayout :=
  TLayout 0 1 the_config 2 the_plugin 3 true 4 "struct Bytes" false no_fields.
Definition tsfm_world (s : ptr_seq) (loaned : bool) : world (tobj (list Z)) () tcall :=
  World 10 (<[0 := OTransformation (Transformation (Ptr 1) (Ptr 2) (Ptr 4) s loaned false no_fields)]>
           (<[1 := OTConfig the_config]> (<[2 := OPlugin the_plugin]>
           (<[3 := OUserPlugin (UserTypePlugin true true true)]>
           (<[4 := OTSupport "struct Bytes"]> (<[5 := OData [1; 2]%Z]> (<[6 := OInfo true]>
           (<[7 := OData [3]%Z]> (<[8 := OInfo false]> (<[9 := OData [9]%Z]> ∅)))))))))) () [].

Ltac concrete_heap_wf :=
  let l := fresh in let Hl := fresh in
  intros l Hl; cbn in Hl; unfold tsfm_world; cbn [w_heap];
  repeat rewrite lookup_insert_ne by lia; apply lookup_empty.

Lemma tsfm_world_mem loaned : tmem blocks empty_seq loaned (tsfm_world empty_seq loaned).
Proof.
  constructor; try reflexivity; [concrete_heap_wf|].
  constructor; unfold empty_seq; cbn; try done.
Qed.

Lemma tsfm_world_mem_one loaned :
  tmem blocks (PtrSeq 1 [Ptr 9]) loaned (tsfm_world (PtrSeq 1 [Ptr 9]) loaned).
Proof.
  constructor; try reflexivity; [concrete_heap_wf|]. constructor; cbn.
  - done.
  - intros [|[|i]] l; cbn; intros [=]; subst. by eexists.
  - by intros [|[|i]].
  - intros [|[|i]] [|[|j]] l; cbn; naive_solver.
Qed.

Section witnesses.
#[local] Instance willing_env : Env () tcall := willing.
#[local] Instance first_property_api2 : PropertyApi := first_property.
#[local] Instance realloc_api : SeqApi := realloc_seq.
#[local] Instance mutexes : MutexConfig := true.
#[local] Existing Instance bytes_codec.
#[local] Abbreviation w0 := (tsfm_world empty_seq false).

Lemma config_parse_witness :
  parsed_config serializer_properties = Some (TransformationConfig
    RTI_TSFM_TransformationKind_SERIALIZER (Some "Shape") (Some ""))
  ∧ wp (RTI_TSFM_TransformationConfig_parse_from_properties_alloc (E := Empty_set)
          serializer_properties Null)
       (config_post w0 Null (parsed_config serializer_properties)) no_jump w0.
Proof.
  split; [vm_compute; reflexivity|].
  apply (config_parse_spec serializer_properties Null w0); [concrete_heap_wf | done].
Defined.

Lemma plugin_config_parse_witness :
  parsed_plugin_config [("dll", "libshapes.so")]
    = TransformationPluginConfig (Some "libshapes.so") (Some "")
  ∧ wp (RTI_TSFM_TransformationPluginConfig_parse_from_properties_alloc (E := Empty_set)
          [("dll", "libshapes.so")] Null)
       (plugin_config_post w0 Null (parsed_plugin_config [("dll", "libshapes.so")]))
       no_jump w0.
Proof.
  split; [vm_compute; reflexivity|].
  apply (plugin_config_parse_spec [("dll", "libshapes.so")] Null w0); [concrete_heap_wf | done].
Defined.

Lemma transform_witness :
  wp (RTI_TSFM_Transformation_transform (E := Empty_set) (Ptr 0)
        [(Ptr 5, Ptr 6); (Ptr 7, Ptr 8)])
     (λ r w', match r with
        | (rc, Some (outs, infos, n)) =>
            rc = DDS_RETCODE_OK ∧ infos = [Ptr 6; Ptr 8] ∧ n = 1
            ∧ ∃ s1 s', grown 2 empty_seq s1 ∧ tmem blocks s' true w' ∧ outs = sq_buffer s'
              ∧ sq_maximum s' = sq_maximum s1
              ∧ slots_converted blocks 0 [(true, Some [1; 2]%Z); (false, Some [3]%Z)] s1 s' w'
              ∧ footprint blocks empty_seq s' w0 w'
        | (rc, None) =>
            rc = DDS_RETCODE_ERROR
            ∧ (∃ s', tmem blocks s' false w' ∧ footprint blocks empty_seq s' w0 w')
            ∧ ((∃ (x : ()) n, (answer x (QSeqEnsureLength n n)).1 = 0%Z)
               ∨ ∃ k pi d, [(Ptr 5, Ptr 6); (Ptr 7, Ptr 8)] !! k = Some pi
                   ∧ [(true, Some [1; 2]%Z); (false, Some [3]%Z)] !! k = Some (true, d)
                   ∧ iteration_fails (X := ()) blocks pi.1 d)
        end) no_jump w0.
Proof.
  apply (transform_spec blocks empty_seq w0 [(Ptr 5, Ptr 6); (Ptr 7, Ptr 8)]
           [(true, Some [1; 2]%Z); (false, Some [3]%Z)]); [apply tsfm_world_mem | done |].
  repeat constructor; cbn; try (eexists; split; [done|]; reflexivity);
    (eexists; split; [done|]; split; [reflexivity | set_solver]).
Defined.

Lemma transform_busy_witness :
  RTI_TSFM_Transformation_transform (E := Empty_set) (Ptr 0) [(Ptr 5, Ptr 6)]
    (tsfm_world empty_seq true) = Ok (DDS_RETCODE_ERROR, None) (tsfm_world empty_seq true).
Proof. apply (transform_busy blocks empty_seq). apply tsfm_world_mem. Defined.

Lemma return_loan_witness :
  wp (RTI_TSFM_Transformation_return_loan (E := Empty_set) (Ptr 0) [Ptr 9] 1)
     (λ _ w', tmem blocks (PtrSeq 1 [Ptr 9]) false w'
        ∧ footprint blocks (PtrSeq 1 [Ptr 9]) (PtrSeq 1 [Ptr 9])
            (tsfm_world (PtrSeq 1 [Ptr 9]) true) w'
        ∧ ((∀ x : (), (answer x QClearMembers).1 = DDS_RETCODE_OK) →
           ∀ i l d, i < 1 → [Ptr 9] !! i = Some (Ptr l) →
             w_heap (tsfm_world (PtrSeq 1 [Ptr 9]) true) !! l = Some (OData d) →
             w_heap w' !! l = Some (OData (clear d))))
     no_jump (tsfm_world (PtrSeq 1 [Ptr 9]) true).
Proof.
  apply (return_loan_spec blocks (PtrSeq 1 [Ptr 9])); [apply tsfm_world_mem_one | cbn; lia].
Defined.

Lemma transformation_finalize_witness :
  wp (RTI_TSFM_Transformation_finalize (E := Empty_set) (Ptr 0))
     (λ _ w', (∃ s', w_heap w' !! 0 = Some (OTransformation
          (Transformation Null (Ptr 2) Null s' true false no_fields)))
        ∧ ∀ l, l ≠ 0 → w_heap w' !! l =
            if decide (l = 1 ∨ l = 4 ∨ Ptr l ∈ [Ptr 9]) then None
            else w_heap (tsfm_world (PtrSeq 1 [Ptr 9]) true) !! l)
     no_jump (tsfm_world (PtrSeq 1 [Ptr 9]) true).
Proof.
  apply (transformation_finalize_spec blocks (PtrSeq 1 [Ptr 9]) true);
    [apply tsfm_world_mem_one | done].
Defined.

Lemma transformation_initialize_witness :
  wp (RTI_TSFM_Transformation_initialize (E := Empty_set) (Ptr 0) (Ptr 2)
        (TypeInfo "Shape" "struct Shape") (TypeInfo "Bytes" "struct Bytes") serializer_properties)
     (initialize_post w0 0 (Transformation (Ptr 1) (Ptr 2) (Ptr 4) empty_seq false false no_fields)
        (Ptr 2) (TypeInfo "Bytes" "struct Bytes") serializer_properties) no_jump w0.
Proof.
  apply transformation_initialize_spec; [concrete_heap_wf | reflexivity |].
  exists the_config, "Bytes". by split.
Defined.
End witnesses.

Section misaligned.
#[local] Instance always_one_env : Env () tcall := always_one.
#[local] Instance realloc_api' : SeqApi := realloc_seq.
#[local] Existing Instance bytes_codec.

Lemma transform_misaligned_witness :
  wp (RTI_TSFM_Transformation_transform (E := Empty_set) (Ptr 0)
        [(Ptr 7, Ptr 8); (Ptr 5, Ptr 6)])
     (λ r w', ∃ outs l d_old d', r = (DDS_RETCODE_OK, Some (outs, [Ptr 8; Ptr 6], 1))
        ∧ outs !! 0 = Some Null
        ∧ outs !! 1 = Some (Ptr l) ∧ w_heap w' !! l = Some (OData d')
        ∧ convert blocks [1; 2]%Z d_old = Some d') no_jump (tsfm_world empty_seq false).
Proof.
  apply (transform_misaligned blocks _ (Ptr 8) (Ptr 7) (Ptr 6) (Ptr 5) (Some [3]%Z) [1; 2]%Z);
    [apply tsfm_world_mem | | | done | done].
  - split; [by eexists|]. eexists; split; [done|]. split; [reflexivity | set_solver].
  - split; [by eexists|]. eexists; split; [done|]. split; [reflexivity | set_solver].
Defined.
End misaligned.

(** ** The template *)

(** A static transformation with all the user's types, and one without any. *)
Definition full_template : Template := {|
  T_static := true; has_TConfig := true; has_TState := true;
  has_TPluginConfig := true; has_TPluginState := true;
  TConfig_blank := RTI_TSFM_TransformationConfig_DEFAULT;
  TConfig_parsed _ c := c;
  TPluginConfig_blank := RTI_TSFM_TransformationPluginConfig_DEFAULT;
  TPluginConfig_parsed _ c := c
|}.
Definition bare_template : Template := {|
  T_static := true; has_TConfig := false; has_TState := false;
  has_TPluginConfig := false; has_TPluginState := false;
  TConfig_blank := RTI_TSFM_TransformationConfig_DEFAULT;
  TConfig_parsed _ c := c;
  TPluginConfig_blank := RTI_TSFM_TransformationPluginConfig_DEFAULT;
  TPluginConfig_parsed _ c := c
|}.

Section template_witnesses.
#[local] Instance willing_env2 : Env () tcall := willing.
#[local] Instance first_property_api3 : PropertyApi := first_property.
#[local] Instance realloc_api2 : SeqApi := realloc_seq.
#[local] Instance mutexes2 : MutexConfig := true.
#[local] Existing Instance bytes_codec.
#[local] Existing Instance full_template.
#[local] Existing Instance base_initialize.
#[local] Abbreviation w0 := (tsfm_world empty_seq false).
#[local] Abbreviation shape := (TypeInfo "Shape" "struct Shape").
#[local] Abbreviation bytes := (TypeInfo "Bytes" "struct Bytes").

Lemma the_batch_given : batch_given w0 [(Ptr 5, Ptr 6); (Ptr 7, Ptr 8)].
Proof.
  split; [done|]. exists [(true, Some [1; 2]%Z); (false, Some [3]%Z)].
  repeat constructor; cbn; try (eexists; split; [done|]; reflexivity);
    (eexists; split; [done|]; split; [reflexivity | set_solver]).
Defined.

Lemma transformation_session_witness :
  wp (rt ← T_new (E := Empty_set) (Ptr 2) shape bytes [];
      if (rt.1 =? DDS_RETCODE_OK)%Z
      then use_transformation rt.2 [[(Ptr 5, Ptr 6); (Ptr 7, Ptr 8)]];; T_delete rt.2
      else mret ())
    (λ _ w', w_heap w' = w_heap w0) no_jump w0.
Proof.
  apply (transformation_session w0 2 the_plugin 3 true shape bytes [] _ ""); try done.
  - concrete_heap_wf.
  - constructor; [apply the_batch_given | done].
Defined.

Lemma plugin_session_witness :
  wp (t ← TPlugin_create_transformation (E := Empty_set) (Ptr 2) shape bytes [];
      if decide (t = Null) then mret ()
      else use_transformation t [[(Ptr 5, Ptr 6); (Ptr 7, Ptr 8)]];;
           TPlugin_delete_transformation (Ptr 2) t)
    (λ _ w', ∃ s', registered s' = registered (pl_transforms the_plugin)
       ∧ w_heap w' = <[2 := OPlugin (set_pl_transforms s' the_plugin)]> (w_heap w0)) no_jump w0.
Proof.
  apply (plugin_session w0 2 the_plugin shape bytes [] ""); try done.
  - split; [concrete_heap_wf|]. split; [done|]. split; [done|]. split; [unfold seq_ok; cbn; lia|].
    split; [|by exists 3, true]. intros l Hl. cbn in Hl. apply list_elem_of_singleton in Hl as [= ->].
    cbn. lia.
  - constructor; [apply the_batch_given | done].
Defined.


Lemma T_update_deadlocks_witness : T_update (E := Empty_set) (Ptr 0) [] w0 = Hang.
Proof. by eapply (T_update_deadlocks 0). Defined.

(** The memory after TPlugin_new. *)
Definition w_created : world (tobj (list Z)) () tcall :=
  match TPlugin_new (E := Empty_set) [("dll", "libshapes.so")] w0 with Ok _ w' => w' | _ => w0 end.

Lemma TPlugin_delete_created_witness :
  wp (TPlugin_delete (E := Empty_set) (Ptr 10))
    (λ _ w'', ∃ k, w_heap w0 !! k = None
       ∧ w_heap w'' = <[k := OPConfig (parsed_plugin_config [("dll", "libshapes.so")])]> (w_heap w0))
    no_jump w_created.
Proof.
  assert (match TPlugin_new (E := Empty_set) [("dll", "libshapes.so")] w0 with
          | Ok a _ => a = (DDS_RETCODE_OK, Ptr 10)
          | _ => False
          end) as Hrun by (vm_compute; reflexivity).
  pose proof (TPlugin_delete_created [("dll", "libshapes.so")] (Ptr 10) w0 w_created) as H.
  assert (heap_wf w0) as H1 by concrete_heap_wf. specialize (H eq_refl H1).
  refine (H _).
  clear H H1. unfold w_created. revert Hrun. generalize (TPlugin_new (E := Empty_set) [("dll", "libshapes.so")] w0).
  intros [a w'|? ?| |] Ha; [by subst a|..]; contradiction Ha.
Defined.
End template_witnesses.

Section bare_witnesses.
#[local] Instance willing_env3 : Env () tcall := willing.
#[local] Instance first_property_api4 : PropertyApi := first_property.
#[local] Instance realloc_api3 : SeqApi := realloc_seq.
#[local] Instance mutexes3 : MutexConfig := true.
#[local] Existing Instance bytes_codec.
#[local] Existing Instance bare_template.

Lemma T_new_uninitialized_witness :
  T_new (TI := base_initialize) (E := Empty_set) (Ptr 2) (TypeInfo "Shape" "struct Shape")
    (TypeInfo "Bytes" "struct Bytes") [] (tsfm_world empty_seq false) = Fault UninitRead.
Proof. by apply T_new_uninitialized. Defined.
End bare_witnesses.

Section registry_witnesses.
#[local] Instance always_one_env2 : Env () tcall := always_one.
#[local] Instance realloc_api4 : SeqApi := realloc_seq.
#[local] Existing Instance bytes_codec.
#[local] Abbreviation w0 := (tsfm_world empty_seq false).

Lemma registry_witness :
  wp (RTI_TSFM_TransformationPlugin_initialize_transformation (E := Empty_set) (Ptr 2) (Ptr 7))
    (λ rc w', rc = DDS_RETCODE_OK ∧ ∃ s', seq_ok s' ∧ registered s' = [Ptr 0; Ptr 7]
       ∧ w_heap w' = <[2 := OPlugin (set_pl_transforms s' the_plugin)]> (w_heap w0)) no_jump w0
  ∧ wp (RTI_TSFM_TransformationPlugin_finalize_transformation (E := Empty_set) (Ptr 2) (Ptr 7))
    (λ rc w', rc = DDS_RETCODE_ERROR ∧ w_heap w' = w_heap w0) no_jump w0.
Proof.
  apply (registry_refines_list 2 the_plugin (Ptr 7) w0); [done | unfold seq_ok; cbn; lia | done].
Defined.
End registry_witnesses.

(** A library whose sequences cannot be initialized. *)
Definition no_sequences (x : ()) (q : tcall) : Z * () :=
  (match q with QSeqInitialize => 0%Z | _ => 1%Z end, x).

Section no_sequences.
#[local] Instance no_sequences_env : Env () tcall := no_sequences.
#[local] Instance first_property_api5 : PropertyApi := first_property.
#[local] Instance realloc_api5 : SeqApi := realloc_seq.
#[local] Instance no_mutexes : MutexConfig := false.
#[local] Existing Instance bytes_codec.
#[local] Existing Instance bare_template.

Lemma TPlugin_create_double_free_witness :
  TPlugin_create (E := Empty_set) [("dll", "libshapes.so")] (tsfm_world empty_seq false)
    = Fault UseAfterFree.
Proof. by apply TPlugin_create_double_free. Defined.
End no_sequences.
