(* ===== verification/HelpersWitness.v ===== *)
(** The theorems of the DDS helpers and of the Protobuf transformation at
    concrete inputs: small instances of the libraries they are parametric in,
    with the laws the theorems ask for. *)
From Stdlib Require Import ZArith Lia Ascii.
From stdpp Require Import base strings list option.
From S2P Require Import Prelude KafkaTypes TsfmTypes DynHelpers DynDataUtils ProtobufConverter ProtobufTransformation.

#[local] Open Scope string_scope.
#[local] Open Scope list_scope.
#[local] Open Scope Z_scope.

(** ** Sequences *)

Definition small_seqs : SeqLib := {|
  set_length _ s n :=
    Some (DdsSeq (take (Z.to_nat n) (ds_elements s)
                  ++ replicate (Z.to_nat n - length (ds_elements s)) 0)
            (Z.max n (ds_maximum s)) (ds_loaned s));
  loan_contiguous _ s buffer len max :=
    if ds_loaned s || (max <? len) then None
    else Some (DdsSeq (take (Z.to_nat len) buffer) max true);
  unloan _ s := if ds_loaned s then Some fresh_seq else None;
  get_contiguous_buffer _ s := match ds_elements s with [] => None | l => Some l end
|}.

#[export] Instance small_seqs_laws : SeqLibLaws small_seqs.
Proof.
  constructor; cbn.
  - intros k s n s' Hn [= <-]. unfold ds_length. cbn [ds_elements ds_maximum].
    rewrite length_app, length_take, length_replicate. split; [lia|]. split; [lia|].
    intros i Hi Hin. rewrite lookup_app_l by (rewrite length_take; lia). by rewrite lookup_take_lt by lia.
  - intros k buffer len max Hlen Hb. by rewrite (proj2 (Z.ltb_ge _ _)) by lia.
  - intros k s buffer len max Hlt. by rewrite (proj2 (Z.ltb_lt _ _)), orb_true_r.
  - by intros k s buffer len max ->.
  - by intros k s ->.
  - intros k s b. by destruct (ds_elements s); intros [=].
  - intros k s Hne. destruct (ds_elements s); [done | by eexists].
Qed.

(** ** Tokens: strtok with the delimiter "." *)

Fixpoint skip_dots (s : string) : string :=
  match s with
  | String "."%char s' => skip_dots s'
  | _ => s
  end.

Fixpoint split_dot (s : string) : string * string :=
  match s with
  | "" => ("", "")
  | String c s' =>
      if Ascii.eqb c "."%char then ("", s')
      else let r := split_dot s' in (String c r.1, r.2)
  end.

Definition strtok : StrToken := λ s,
  match skip_dots s with "" => None | s' => Some (split_dot s') end.

Lemma skip_dots_plain c s : Ascii.eqb c "."%char = false → skip_dots (String c s) = String c s.
Proof. by destruct c as [[] [] [] [] [] [] [] []]. Qed.

Lemma skip_dots_length s : (String.length (skip_dots s) ≤ String.length s)%nat.
Proof.
  induction s as [|c s IH]; [done|]. destruct (Ascii.eqb c "."%char) eqn:Hc.
  - apply Ascii.eqb_eq in Hc as ->. cbn. lia.
  - by rewrite skip_dots_plain.
Qed.

Lemma split_dot_length s : s ≠ "" → (String.length (split_dot s).2 < String.length s)%nat.
Proof.
  induction s as [|c s IH]; [done|]. intros _. cbn. destruct (Ascii.eqb c "."%char); cbn; [lia|].
  destruct s as [|c' s]; [cbn; lia|]. assert (String c' s ≠ "") as H by done. specialize (IH H). lia.
Qed.

Lemma split_dot_plain s rest :
  has_dot s = false →
  split_dot s = (s, "") ∧ split_dot (s ++ String "." rest)%string = (s, rest).
Proof.
  induction s as [|c s IH]; [done|]. cbn [has_dot]. destruct (Ascii.eqb c "."%char) eqn:Hc; [done|].
  intros Hs. destruct (IH Hs) as [H1 H2]. split.
  - cbn. by rewrite Hc, H1.
  - change (split_dot (String c (s ++ String "." rest)) = (String c s, rest)). cbn. by rewrite Hc, H2.
Qed.

#[local] Instance strtok_laws : StrTokenLaws strtok.
Proof.
  constructor.
  - done.
  - intros name Hne Hd. destruct name as [|c name]; [done|]. unfold str_token, strtok.
    rewrite skip_dots_plain by by cbn in Hd; destruct (Ascii.eqb c "."%char).
    by rewrite (proj1 (split_dot_plain _ "" Hd)).
  - intros name rest Hne Hd. destruct name as [|c name]; [done|]. unfold str_token, strtok.
    change ((String c name ++ String "." rest)%string) with (String c (name ++ String "." rest)).
    rewrite skip_dots_plain by by cbn in Hd; destruct (Ascii.eqb c "."%char).
    f_equal. apply (split_dot_plain _ rest Hd).
  - intros s name rest. unfold str_token, strtok. destruct (skip_dots s) as [|c s'] eqn:Hs; [done|].
    intros Hsp. apply (inj Some) in Hsp.
    assert (String c s' ≠ "") as Hne by done. pose proof (split_dot_length _ Hne) as Hlt.
    rewrite Hsp in Hlt. pose proof (skip_dots_length s). rewrite Hs in *. cbn [snd] in Hlt. lia.
Qed.

(** ** Types *)

Inductive type_code :=
  | TOctet
  | TString
  | TSequence (content : type_code)
  | TArray (dimensions : Z) (content : type_code)
  | TStruct (members : list (string * type_code)).

Definition member_index (name : string) (l : list (string * type_code)) : option nat :=
  fst <$> list_find (λ m, m.1 = name) l.

Definition small_types : TypeCodeLib type_code := {|
  find_member_by_name tc name :=
    match tc with
    | TStruct l => match member_index name l with Some i => (Z.of_nat i, false) | None => (0, true) end
    | _ => (0, true)
    end;
  member_type tc id :=
    match tc with
    | TStruct l => match l !! Z.to_nat id with Some m => (Some m.2, false) | None => (None, true) end
    | _ => (None, true)
    end
|}.

Definition small_type_info : TypeCodeInfo type_code := {|
  tc_kind tc := Some match tc with
                     | TOctet => TK_OCTET | TString => TK_OTHER | TSequence _ => TK_SEQUENCE
                     | TArray _ _ => TK_ARRAY | TStruct _ => TK_STRUCT
                     end;
  tc_length tc := Some 100;
  tc_dimensions tc := match tc with TArray n _ => Some n | _ => None end;
  tc_content_type tc := match tc with TSequence c | TArray _ c => Some c | _ => None end;
  tc_member_count tc := match tc with TStruct l => Some (Z.of_nat (length l)) | _ => None end
|}.

Definition shape : type_code := TStruct [("color", TString)].
Definition envelope : type_code :=
  TStruct [("id", TOctet); ("body", TStruct [("payload", TSequence TOctet)])].

Lemma small_types_null : null_on_exception (TL := small_types).
Proof. intros [] id; cbn; try done. by destruct (members !! Z.to_nat id). Qed.

Lemma get_member_type_witness :
  Forall plain_name ["body"; "payload"]
  ∧ RTI_COMMON_TypeCode_get_member_type (TL := small_types) (ST := strtok) 12 true envelope "body.payload"
    = Some (Some (TSequence TOctet)).
Proof.
  assert (Forall plain_name ["body"; "payload"]) as Hp by (repeat constructor; done).
  split; [exact Hp|].
  apply (get_member_type_path (TL := small_types) (ST := strtok) ["body"; "payload"] true 12 envelope);
    [exact small_types_null | done | exact Hp | vm_compute; lia].
Defined.

(** ** Samples

    A sample is the bytes of its one member, a sequence of octets; the first
    byte 255 makes a message invalid. *)
Definition small_samples : DynData (list Z) := {|
  get_seq _ d m s :=
    if String.eqb m "payload" then (DDS_RETCODE_OK, DdsSeq d (Z.of_nat (length d)) false)
    else (DDS_RETCODE_ERROR, s);
  set_seq _ d m s := if String.eqb m "payload" then (DDS_RETCODE_OK, ds_elements s) else (DDS_RETCODE_ERROR, d)
|}.

Definition small_arrays : DynArrays (list Z) := {|
  get_member_info _ _ := (DDS_RETCODE_OK, (TK_SEQUENCE, TK_OCTET));
  set_array _ d _ _ bytes := (DDS_RETCODE_OK, bytes);
  get_array _ _ _ buffer capacity := (DDS_RETCODE_ERROR, buffer, capacity)
|}.

Lemma set_seq_witness :
  set_seq_from_string (SL := small_seqs) (DY := small_samples) (E := Empty_set) OctetSeq "payload"
    ([72; 105] ++ 0 :: [7]) 10 0 (HState [] fresh_seq)
  = Ok DDS_RETCODE_OK (HState [72; 105; 0] fresh_seq).
Proof.
  apply (set_seq_from_string_spec (SL := small_seqs) (DY := small_samples) OctetSeq [] "payload" [72; 105] [7] 10).
  - repeat constructor; done.
  - cbn. lia.
  - lia.
Defined.

(** ** Messages *)

Definition small_protobuf : Protobuf := {|
  FileDescriptorProto := list string;
  DescriptorPool := list string;
  Descriptor := string;
  Message := list Z;
  empty_pool := [];
  BuildFile pool f := (Some (Some <$> f), pool ++ f);
  full_name d := d;
  GetPrototype _ := Some [];
  New m := Some m;
  Clear _ := [];
  ParseFromArray _ bytes len :=
    match bytes with 255 :: _ => (false, []) | _ => (true, take (Z.to_nat len) bytes) end;
  SerializeToString m old := match m with 255 :: _ => (false, old) | _ => (true, m) end;
  ParseFromFile _ := [["Circle"]; ["Shape"; "Square"]]
|}.

(** The conversions copy, and need no state. *)
Definition small_conversion : Conversion (PB := small_protobuf) (list Z) := {|
  ConverterState := ();
  empty_state := ();
  protobuf_to_dds E d m := mret (true, m);
  dds_to_protobuf E m d := mret (true, d, d)
|}.

#[local] Instance small_contract : ConversionContract small_conversion.
Proof. by refine {| state_ok := λ _, True; sample_ok := λ _, True |}. Defined.

#[local] Instance small_descriptor_laws : DescriptorLaws (PB := small_protobuf).
Proof.
  constructor; cbn.
  - intros pool f l pool' [= <- _]. apply Forall_fmap, Forall_true. by eexists.
  - by eexists.
  - by eexists.
Qed.

#[local] Instance small_wire_laws : WireLaws (PB := small_protobuf).
Proof.
  refine {| same_type := λ _ _, True |}. cbn. intros m m0 old bytes _ Hs _.
  assert (bytes = m) as -> by (destruct m as [|z m]; [by injection Hs | by repeat (case_match; simplify_eq)]).
  rewrite Nat2Z.id, firstn_all. by repeat case_match; simplify_eq.
Defined.

#[local] Instance small_member_laws :
  MemberLaws (DY := small_samples) (DA := small_arrays).
Proof.
  constructor; cbn.
  - intros k d m s d' s0. destruct (String.eqb m "payload"); [|done]. intros [= <-] _ _. by eexists.
  - done.
Qed.


(** ** The transformation *)

Definition pb_willing (x : ()) (q : pcall) : Z * () :=
  (match q with PBaseConfigParse | PBaseInitialize => DDS_RETCODE_OK | _ => 1 end, x).

Section transformation.
#[local] Instance pb_willing_env : Env () pcall := pb_willing.
#[local] Existing Instance small_seqs.
#[local] Existing Instance strtok.
#[local] Existing Instance small_types.
#[local] Existing Instance small_type_info.
#[local] Existing Instance small_samples.
#[local] Existing Instance small_arrays.
#[local] Existing Instance small_protobuf.
#[local] Existing Instance small_conversion.

Definition square_config : pb_config :=
  PbConfig RTI_TSFM_TransformationKind_SERIALIZER None None (Some "payload") (Some "shapes.desc") (Some "Square").

Definition shape_info : pb_type_info type_code := PbTypeInfo "Shape" true shape.
Definition bytes_info : pb_type_info type_code :=
  PbTypeInfo "Bytes" true (TStruct [("payload", TSequence TOctet)]).

Definition square_converter : ProtobufDynamicDataConverter := Converter () [] [].

(** A transformation before its initialization and after it, with the samples
    to read and to fill. *)
Definition new_world (i o : list Z) : pb_world (list Z) () (CO := small_conversion) :=
  PbWorld square_config (PbState None None None fresh_seq fresh_seq) i o ().
Definition ready_world (i o : list Z) : pb_world (list Z) () (CO := small_conversion) :=
  PbWorld square_config
    (PbState (Some (Converter () [] [])) (Some "Square") (Some []) fresh_seq fresh_seq) i o ().

Lemma initialize_witness :
  wp (RTI_TSFM_ProtobufTransformation_initialize (E := Empty_set) shape_info bytes_info)
     (λ rc w', config_data (new_world [] []) w'
        ∧ (rc = DDS_RETCODE_OK →
             valid_types square_config shape_info bytes_info
             ∧ initialized_state square_config shape_info
                 (PbState None None None fresh_seq fresh_seq) (pw_state w')))
     no_jump (new_world [] []).
Proof.
  apply (initialize_spec shape_info bytes_info (new_world [] [])); [by eexists | done].
Defined.

Lemma protobuf_session_witness :
  wp (rc ← RTI_TSFM_ProtobufTransformation_initialize (E := Empty_set) shape_info bytes_info;
      if rc =? DDS_RETCODE_OK
      then rs ← convert_all [(true, [1; 2], []); (false, [255], []); (true, [3], [])]; mret (Some rs)
      else mret None)
     (λ rs w', pw_config w' = square_config
        ∧ match rs with Some rs => length rs = 3%nat ∧ ready w' | None => True end)
     no_jump (new_world [] []).
Proof.
  apply (protobuf_session shape_info bytes_info [(true, [1; 2], []); (false, [255], []); (true, [3], [])]
           (new_world [] [])); [by eexists | done | by repeat constructor].
Defined.

(** The world after a serialization. *)
Definition serialized_world : pb_world (list Z) () (CO := small_conversion) :=
  PbWorld square_config
    (PbState (Some (Converter () [] [1; 2])) (Some "Square") (Some [1; 2]) fresh_seq fresh_seq) [1; 2] [1; 2] ().


Lemma deserialize_masks_failure_witness :
  ∃ w', RTI_TSFM_ProtobufTransformation_deserialize (E := Empty_set) (ready_world [255; 1] [9])
          = Ok DDS_RETCODE_OK w' ∧ pw_out w' = [9].
Proof.
  apply (deserialize_masks_failure (ready_world [255; 1] [9]) "payload"); [by repeat eexists | done | done |].
  right. exists square_converter, TK_OCTET, OctetSeq, (DdsSeq [255; 1] 2 false), [255; 1], ([] : list Z).
  repeat split.
Defined.
End transformation.

(** ** Narrowing and aliases *)

(** A sample is one number; a type is a chain of aliases to a long. *)
Definition number_samples : DynScalars Z := {|
  get_scalar _ d _ := (DDS_RETCODE_OK, d);
  set_scalar _ _ _ v := (DDS_RETCODE_OK, v);
  set_byte_array _ d _ _ _ := (DDS_RETCODE_ERROR, d)
|}.

Definition alias_chains : TypeCodes nat := {|
  TypeCode_kind n := Some (match n with O => DDS_TK_LONG | _ => DDS_TK_ALIAS end);
  TypeCode_content_type n := match n with O => None | S n => Some n end
|}.

Lemma set_fuzzy_witness :
  set_fuzzy_long (DS := number_samples) 7 1 DDS_TK_SHORT 32767 = (true, 32767)
  ∧ set_fuzzy_long (DS := number_samples) 7 1 DDS_TK_SHORT 32768 = (false, 7)
  ∧ set_fuzzy_ulong (DS := number_samples) 7 1 DDS_TK_OCTET 256 = (false, 7).
Proof.
  split; [|split].
  - rewrite (proj1 (set_fuzzy_spec (DS := number_samples) 7 1 DDS_TK_SHORT 32767)); [reflexivity|].
    unfold is_s32. lia.
  - rewrite (proj1 (set_fuzzy_spec (DS := number_samples) 7 1 DDS_TK_SHORT 32768)); [reflexivity|].
    unfold is_s32. lia.
  - rewrite (proj2 (set_fuzzy_spec (DS := number_samples) 7 1 DDS_TK_OCTET 256)); [reflexivity|].
    unfold is_u32. lia.
Defined.

#[local] Instance alias_chains_law : AliasLaw (TT := alias_chains).
Proof. refine {| alias_depth := λ n : nat, n |}. intros [|n] c; cbn; [done|]. intros _ [= ->]. lia. Defined.

Lemma resolve_type_code_witness :
  ∃ b t k, resolve_type_code (TT := alias_chains) 5 3%nat DDS_TK_NULL = Some (b, t, k)
    ∧ if (b : bool) then resolves (TT := alias_chains) 3%nat t k
      else k = DDS_TK_NULL ∧ ∀ t' k', ¬ resolves (TT := alias_chains) 3%nat t' k'.
Proof. apply (resolve_type_code_spec (TT := alias_chains) 5 3%nat DDS_TK_NULL). change (3 ≤ 5)%nat. lia. Defined.
