(* ===== verification/ConversionWitness.v ===== *)
(** The theorems of the conversions at concrete inputs, on the libraries of
    ConversionTables and MessageTables. *)
From Stdlib Require Import ZArith Lia.
From stdpp Require Import base gmap strings list option fin_maps.
From S2P Require Import Prelude KafkaTypes TsfmTypes DynHelpers DynDataUtils MessageConversion ConversionSessions ConversionReference.
From S2P Require Import SampleReference ConversionRoundTrip ConversionTables MessageTables.
From S2P Require Import ProtobufConverter ProtobufTransformation ConversionLink HelpersWitness.

#[local] Open Scope string_scope.
#[local] Open Scope list_scope.
#[local] Open Scope Z_scope.

(** ** Conversions *)

Definition point (x : Z) (name : list Z) : val := VMany [VNum x; VString name].

(** A sample with a structure, a sequence of structures, strings and bytes. *)
Definition shape_sample : object :=
  make 8 (VMany [VNum 7; point (-1) [97]; VMany [point 2 []; point 3 [98; 99]];
                   VMany [VString [100]; VString [101; 102]]; VMany [VNum 0; VNum 255]]) false None.
Definition empty_shape : object := make 8 (default_val 10 8) false None.

Definition shape_message : mval :=
  MMessage 1
    [("raw", MString [0; 255]);
     ("tags", MRepeated [MString [100]; MString [101; 102]]);
     ("path", MRepeated [MMessage 0 [("name", MString []); ("x", MNum 2)];
                         MMessage 0 [("name", MString [98; 99]); ("x", MNum 3)]]);
     ("pos", MMessage 0 [("name", MString [97]); ("x", MNum (-1))]);
     ("id", MNum 7)].

Definition state_with (d : object) : conv_state object nat := ConvState [] [] {[ 0%nat := d ]} 1.

Definition result_of {W E A} (o : outcome W E A) : option A := match o with Ok a _ => Some a | _ => None end.
Definition state_of {W E A} (o : outcome W E A) : option W := match o with Ok _ w => Some w | _ => None end.

(** The sample becomes the message. *)
Example shape_to_message :
  result_of (MessageConversion.dds_to_protobuf (TT := table_types) (SL := small_seqs) (E := Empty_set) 10 10 (MMessage 1 []) 0 (state_with shape_sample))
  = Some (true, shape_message).
Proof. vm_compute. reflexivity. Qed.

(** The message becomes the sample again. *)
Example message_to_shape :
  (w ← state_of (MessageConversion.protobuf_to_dds (TT := table_types) (E := Empty_set) 10 10 0 shape_message (state_with empty_shape));
   o_val <$> cs_objects w !! 0%nat) = Some (o_val shape_sample).
Proof. vm_compute. reflexivity. Qed.


(** ** The theorems *)

Definition shape_point : object := make 5 (point (-1) [97; 98]) false None.
Definition x_field : field := Field "x" TYPE_INT32 false 0.
Definition name_field : field := Field "name" TYPE_STRING false 0.
Definition tags_field : field := Field "tags" TYPE_STRING true 0.

Lemma scalar_roundtrip_witness :
  ∃ v, get_scalar Long shape_point 1 = (DDS_RETCODE_OK, v)
    ∧ number_to_dds TYPE_INT32 (λ a, get_number a (MMessage 0 [("x", MNum (-1))]) x_field) true shape_point 1 DDS_TK_LONG
        = Some (ok_of (set_scalar Long shape_point 1 v)).
Proof.
  apply (scalar_roundtrip (NL := table_number_laws) DDS_TK_LONG Long Int32 shape_point 1 (MMessage 0 []) x_field
           (MMessage 0 [("x", MNum (-1))]) shape_point 1); vm_compute; reflexivity.
Defined.

(** A sequence of longs, and the field it goes to. *)
Definition longs : object := make 3 (VMany [VNum 5; VNum (-6)]) false None.
Definition numbers_field : field := Field "numbers" TYPE_INT32 true 0.

Lemma repeated_scalar_witness :
  FieldSize (MMessage 0 [("numbers", MRepeated [MNum 4; MNum 5; MNum (-6)])]) numbers_field = 3%nat.
Proof.
  refine (proj1 (repeated_scalar_spec (NL := table_number_laws) Long Int32 longs [1; 2]
                   (MMessage 0 [("numbers", MRepeated [MNum 4])]) numbers_field
                   (MMessage 0 [("numbers", MRepeated [MNum 4; MNum 5; MNum (-6)])]) _ _)); vm_compute; reflexivity.
Defined.

Definition tags : object := make 7 (VMany [VString [100]; VString [101; 102]]) false None.

Lemma string_to_pb_witness :
  ∃ b, singular_string_to_pb (E := Empty_set) tags 1 (MMessage 1 []) tags_field (ConvState [] [] ∅ 0)
         = Ok (true, SetString (MMessage 1 []) tags_field [100]) (with_buffer b (ConvState [] [] ∅ 0)).
Proof.
  refine (proj1 (string_to_pb_spec (SW := table_string_law) tags 1 [100] [1; 2] [[100]; [101; 102]] (MMessage 1 [])
                   tags_field (ConvState [] [] ∅ 0) _ _)).
  - reflexivity.
  - repeat constructor.
Defined.

Lemma string_buffer_shrinks_witness :
  ∃ b m', (len ← initial_len; repeated_string_to_pb (E := Empty_set) tags [1; 2] len (MMessage 1 []) tags_field)
            (ConvState (replicate 128 0) [] ∅ 0)
          = Ok (true, m') (with_buffer b (ConvState (replicate 128 0) [] ∅ 0))
    ∧ length b = 3%nat ∧ (length b < 128)%nat.
Proof.
  apply (string_buffer_shrinks (SW := table_string_law) tags 1 2 [100] [101; 102] (MMessage 1 []) tags_field (ConvState (replicate 128 0) [] ∅ 0)).
  - reflexivity.
  - reflexivity.
  - cbn. lia.
  - cbn. lia.
  - cbn. lia.
Defined.

Lemma state_with_well d : well (state_with d).
Proof.
  constructor; [done|]. intros p Hp. cbn in *. apply lookup_singleton_ne. lia.
Qed.


(** A sample, with a cache and a buffer that were used before. *)
Definition used_state_with (d : object) : conv_state object nat :=
  ConvState [1; 2; 3] [(5%nat, 1%nat)] (<[1%nat := make 5 (point 9 [9]) false None]> {[ 0%nat := d ]}) 2.

Definition used_state : conv_state object nat := used_state_with shape_sample.

Definition used_target : conv_state object nat := used_state_with empty_shape.

(** A sample in a state in which nothing is bound. *)
Lemma free_reads p d (w : conv_state object nat) :
  well w → cs_objects w !! p = Some d → map_Forall (λ _, free_object) (cs_objects w) → reads_as (o_type d) p d w.
Proof.
  intros Hw Hp Hfree. constructor; [done | |].
  - exists d. split; [done|]. split; [done|]. split; [done|]. by destruct (Hfree p d Hp).
  - intros q dq Hq _. by apply (Hfree q).
Qed.

Lemma used_state_reads d :
  o_type d = 8%nat → o_bound d = false → o_member d = None → reads_as 8%nat 0 d (used_state_with d).
Proof.
  intros Ht Hb Hm. rewrite <- Ht. apply free_reads; [|done|].
  - constructor; cbn.
    + intros t p. case_decide as Htc; [|done]. intros [= <-]. subst t. eexists. by split.
    + intros p Hp. rewrite lookup_insert_ne by lia. apply lookup_singleton_ne. lia.
  - cbn. apply map_Forall_insert_2; [done|]. apply map_Forall_singleton. split; cbn; [done | by rewrite Hm].
Qed.

(** The reference gives the message that was computed above. *)
Example shape_reference :
  reference (TT := table_types) 10 10 (MMessage 1 []) shape_sample = (true, shape_message).
Proof. vm_compute. reflexivity. Qed.

Lemma reference_spec_witness :
  ∃ w', MessageConversion.dds_to_protobuf (TT := table_types) (SL := small_seqs) (E := Empty_set) 10 10
          (MMessage 1 []) 0 used_state = Ok (true, shape_message) w'
    ∧ reads_as 8%nat 0 shape_sample w' ∧ keeps_bindings (nesting 8%nat) 0 used_state w'.
Proof.
  rewrite <- shape_reference.
  apply (reference_spec (TT := table_types) (SL := small_seqs) (E := Empty_set) 10 10 0 8%nat shape_sample (MMessage 1 []) used_state).
  - by apply used_state_reads.
  - cbn. lia.
  - cbn. lia.
Defined.

(** The other way, into a sample that is empty. *)
Example shape_sample_reference :
  (sample_reference (TT := table_types) 10 10 empty_shape shape_message).1 = true
  ∧ o_val (sample_reference (TT := table_types) 10 10 empty_shape shape_message).2 = o_val shape_sample.
Proof. vm_compute. by split. Qed.

Lemma sample_reference_spec_witness :
  ∃ w', MessageConversion.protobuf_to_dds (TT := table_types) (E := Empty_set) 10 10 0 shape_message used_target
          = Ok true w'
    ∧ reads_as 8%nat 0 (sample_reference (TT := table_types) 10 10 empty_shape shape_message).2 w'
    ∧ keeps_bindings (nesting 8%nat) 0 used_target w'.
Proof.
  rewrite <- (proj1 shape_sample_reference).
  apply (sample_reference_spec (TT := table_types) (E := Empty_set) 10 10 0 8%nat empty_shape shape_message used_target).
  - by apply used_state_reads.
  - cbn. lia.
  - cbn. lia.
Defined.

(** Two samples, one to send and a new one to receive it. *)
Definition two_samples : conv_state object nat :=
  ConvState [1; 2; 3] [(5%nat, 1%nat)]
    (<[2%nat := empty_shape]> (<[1%nat := make 5 (point 9 [9]) false None]> {[ 0%nat := shape_sample ]})) 3.

Lemma two_samples_reads : reads_as 8%nat 0 shape_sample two_samples ∧ reads_as 8%nat 2 empty_shape two_samples.
Proof.
  assert (well two_samples) as Hw.
  { constructor; cbn.
    - intros t p. case_decide as Htc; [|done]. intros [= <-]. subst t. eexists. by split.
    - intros p Hp. rewrite !lookup_insert_ne by lia. apply lookup_singleton_ne. lia. }
  assert (map_Forall (λ _, free_object) (cs_objects two_samples)) as Hfree.
  { cbn. do 2 (apply map_Forall_insert_2; [done|]). by apply map_Forall_singleton. }
  split; [by apply (free_reads 0 shape_sample) | by apply (free_reads 2 empty_shape)].
Qed.


(** It does succeed. *)
Example two_samples_run :
  (r ← result_of (MessageConversion.dds_to_protobuf (TT := table_types) (SL := small_seqs) (E := Empty_set) 10 10
                    (MMessage 1 []) 0 two_samples);
   Some r.1) = Some true.
Proof. vm_compute. reflexivity. Qed.

(** ** The gateway *)

(** A message is sent as the number of its field "id". *)
Definition id_field : field := Field "id" TYPE_INT32 false 0.

Definition table_protobuf : Protobuf := {|
  FileDescriptorProto := list nat;
  DescriptorPool := list nat;
  Descriptor := nat;
  Message := mval;
  empty_pool := [];
  BuildFile pool f := (Some (Some <$> f), pool ++ f);
  full_name d := match d with 0%nat => "Point" | _ => "Shape" end;
  GetPrototype d := Some (MMessage d []);
  New m := Some m;
  Clear m := MMessage (descriptor_of m) [];
  ParseFromArray m bytes len :=
    match take (Z.to_nat len) bytes with
    | [b] => (true, MMessage (descriptor_of m) [("id", MNum b)])
    | _ => (false, m)
    end;
  SerializeToString m old := (true, [number (get_field m id_field)]);
  ParseFromFile _ := [[0%nat; 1%nat]]
|}.

Definition bytes_sample (b : list Z) : object := make 9 (VMany [VMany (VNum <$> b)]) false None.


Definition table_data : DynData object := {|
  get_seq _ d m s :=
    match index_of (o_type d) m with
    | Some i => (DDS_RETCODE_OK, DdsSeq (default [] (octets (get_val d (Z.of_nat i + 1)))) 100 false)
    | None => (DDS_RETCODE_ERROR, s)
    end;
  set_seq _ d m s :=
    match index_of (o_type d) m with
    | Some i => put_code d (Z.of_nat i + 1) (VMany (VNum <$> ds_elements s))
    | None => (DDS_RETCODE_ERROR, d)
    end
|}.

Definition table_arrays : DynArrays object := {|
  get_member_info d m :=
    match index_of (o_type d) m with
    | Some _ => (DDS_RETCODE_OK, (TK_SEQUENCE, TK_OCTET))
    | None => (DDS_RETCODE_ERROR, (TK_OTHER, TK_OTHER))
    end;
  set_array _ d _ _ _ := (DDS_RETCODE_ERROR, d);
  get_array _ _ _ buffer capacity := (DDS_RETCODE_ERROR, buffer, capacity)
|}.

#[local] Instance table_descriptor_laws : DescriptorLaws (PB := table_protobuf).
Proof.
  constructor; cbn.
  - intros pool f l pool' [= <- _]. apply Forall_fmap, Forall_true. by eexists.
  - by eexists.
  - by eexists.
Qed.

Section gateway.
#[local] Existing Instance pb_willing_env.
#[local] Existing Instance small_seqs.
#[local] Existing Instance small_seqs_laws.
#[local] Existing Instance strtok.
#[local] Existing Instance small_types.
#[local] Existing Instance small_type_info.
#[local] Existing Instance table_types.
#[local] Existing Instance table_data.
#[local] Existing Instance table_arrays.
#[local] Existing Instance table_protobuf.
#[local] Instance table_conversion : Conversion object := message_conversion (TC := nat) (FD := field) 10 10.

Definition shape_config : pb_config :=
  PbConfig RTI_TSFM_TransformationKind_SERIALIZER None None (Some "payload") (Some "shapes.desc") (Some "Shape").
Definition gateway_world : pb_world object () :=
  PbWorld shape_config (PbState None None None fresh_seq fresh_seq) (bytes_sample []) (bytes_sample []) ().

(** A sample is serialized, a message that a field is missing from and bytes
    that are no message are deserialized. *)
Definition requests : list (bool * object * object) :=
  [(true, shape_sample, bytes_sample []); (false, bytes_sample [42], empty_shape);
   (false, bytes_sample [1; 2], empty_shape)].


(** The session, computed: return codes and samples. *)
Example gateway_run :
  result_of ((rc ← RTI_TSFM_ProtobufTransformation_initialize (E := Empty_set) shape_info bytes_info;
              if rc =? DDS_RETCODE_OK
              then rs ← convert_all requests; mret (Some (prod_map id o_val <$> rs)) else mret None)
     gateway_world)
  = Some (Some [(0, VMany [VMany [VNum 7]]); (0, VMany [VNum 42; point 0 []; VMany []; VMany []; VMany []]);
                (0, o_val empty_shape)]).
Proof. vm_compute. reflexivity. Qed.
End gateway.

